(* ===== verification/_CoqProject ===== *)
-Q . S2P
Prelude.v
Machine.v
X86.v
Context.v
I386.v
Risc.v
Arm.v
Power.v
Mips.v
Swapcontext.v
Hook.v
Htable.v
Queue.v
SleepTree.v
RBTree.v
RBMap.v
World.v
SimOS.v
Schedule.v
TimerEquiv.v
SchedInv.v
Prog.v
Coroutine.v
Rely.v
NetOS.v
Socket.v
Epoll.v
Ssl.v
Asymcoro.v
Coropool.v
Schedcall.v
Signal.v
Run.v
RoundRobin.v
Semaphore.v
Channel.v
Calm.v
CalmSteps.v
ChanSteps.v
Safe.v
ChanSafe.v
Rules.v
SatOS.v
Cooperation.v
Exclusion.v
Startup.v
Pipeline.v
Examples.v
Disposal.v
Generator.v
Waitgroup.v
Pubsub.v
Client.v
Programs.v
NetPrograms.v
