(* ===== verification/Prelude.v ===== *)
(** * Verification of dyco-coroutine

    dyco-coroutine is a coroutine framework in C: a thread owns one scheduler,
    which runs coroutines from two ready queues, a tree of timers and a map of
    awaited descriptors; channels, publish-subscribe channels, wait groups,
    semaphores and coroutine pools are built on the scheduler's primitive of
    waiting for an eventfd with a timeout, and wrappers make the socket, epoll,
    signal and SSL calls give way instead of blocking the thread.  This library is a
    shallow embedding of the program: data are records with the fields of the C structures,
    operations are functions of the state, and the theorems are about those
    functions.

    ** Files

    - [Prelude]: machine integers ([u32], [u64], [i32]), the status bits
      ([BIT], [SETBIT], [CLRBIT], [TESTBIT]), the results [res] with the faults
      below, the state and error monad [M] with its notations, and generic
      lemmas on lists, maps and integers.
    - [Machine], [X86], [Risc]: processors as registers and memory, and the
      instructions that the context switches use.
    - [Context] (amd64), [I386], [Power], [Mips] ([src/uctx_context.c],
      [src/uctx_asm.S]): making, saving and resuming contexts; [Arm]: saving
      and resuming.
    - [Swapcontext] ([swapcontext] of [src/uctx_context.c]): switching against
      the interface [Port] and its laws, the ports that keep them, and the
      selection of the port by the platform.
    - [Hook] ([src/dyco_hook.c]): where the original system calls are found.
    - [Htable] ([include/dyco/dyco_htable.h]): the chained hash table used for
      descriptors, identifiers and wait groups, with every resize and every
      allocation failure.
    - [Queue] ([include/dyco/sys_queue.h], TAILQ): the intrusive ready queues as
      a memory of links, with the pointer assignments of the macros.
    - [SleepTree] ([include/dyco/sys_tree.h], as an interface): what the
      scheduler uses of the tree of timers, the laws it relies on, and the
      ordered map that satisfies them.
    - [RBTree] ([include/dyco/sys_tree.h], RB_GENERATE): the red-black tree on a
      memory of nodes, with every pointer assignment of rotation, insertion and
      removal, against trees with a context.
    - [RBMap]: the red-black tree refines a finite map and is the second
      instance of the interface of [SleepTree].
    - [World]: enumerations and structures of [include/dyco/dyco_coroutine.h];
      the interface [OS] of system calls and allocation; the whole state
      [world]; primitive accesses to it.
    - [SimOS]: the documented behaviour of the system calls as the class
      [OSLaws], and a small simulated kernel that satisfies it, on which the
      witnesses run.
    - [Schedule] ([src/dyco_schedule.c] without its main loop): timers, waits,
      creation and release of the scheduler.
    - [TimerEquiv]: the timer functions of [Schedule] on any instance of the
      interface against the same functions on a finite map.
    - [SchedInv]: the invariant [sched_ok] of the scheduler (queues, timers,
      waits and identifiers against the flags of the coroutines) and its
      preservation by the primitive steps.
    - [Prog]: resumable programs.  A C function that may switch context is a
      [prog]: a sequence of atomic steps and of switches, and [exec] runs it up
      to its next switch, of which it returns the continuation.
    - [Coroutine] ([src/dyco_coroutine.c]): shared-stack copying, yielding,
      waiting, sleeping, creation, disposal and attributes of coroutines.
    - [Rely]: a logic for resumable programs, [wp], with a relation that bounds
      what the other coroutines do while the program is switched out.
    - [NetOS]: the system calls of the wrappers, with the documented behaviour
      they rely on, and their simulation.
    - [Socket], [Epoll], [Ssl]: [src/dyco_socket.c], [src/dyco_epoll.c],
      [src/dyco_ssl.c], with the functions that replace those of the C library
      under COROUTINE_HOOK in modules of their own.
    - [Asymcoro] ([src/dyco_asymcoro.c]): asymmetric coroutines.
    - [Coropool] ([src/dyco_coropool.c]): coroutine pools.
    - [Schedcall] ([src/dyco_schedcall.c]; abort of [src/dyco_schedule.c]).
    - [Signal] ([src/dyco_signal.c]): waiting for signals and children.
    - [Run] ([resume] of [src/dyco_coroutine.c], [dyco_schedule_run] of
      [src/dyco_schedule.c]): contexts, context switches and the main loop.
    - [RoundRobin]: complete runs of the main loop with cooperating coroutines.
    - [Calm], [CalmSteps], [ChanSteps]: the invariant of a thread whose
      coroutines compute, sleep, wait on and signal semaphores, and send and
      receive over channels, and the steps that keep it.
    - [Safe], [ChanSafe]: a logic for the programs of such coroutines; [Rules]:
      the rules by which they are put together; [SatOS]: a simulated system with
      all that they rely on.
    - [Cooperation]: all such programs under the main loop, their safety and,
      for programs without timers that never all wait for one another, their
      termination; [Exclusion]: semaphores as locks.
    - [Startup]: what [main] does before the main loop; [Pipeline]: a sender and
      a receiver at the ends of a channel; [Examples]
      ([src/example/sleep.c], [src/example/semaphore.c]): whole programs.
    - [Client]: what the example programs use of the C library, and the code of
      [main] between the runs of the scheduler; [Programs], [NetPrograms]: the
      other programs of [src/example/], a module for each, executed up to what
      they print on the simulated system, and the echo server.
    - [Disposal]: killing a coroutine and aborting the scheduler, with callbacks
      that change the table they are called from.
    - [Generator]: asymmetric coroutines that yield between the items of their
      work against an abstract iterator.
    - [Semaphore], [Channel], [Waitgroup], [Pubsub]: the files of the same
      names in [src/]; the first two come before [Calm].

    ** Conventions

    A pointer is an integer ([addr], null is 0) and an object is an entry of a
    map of the state; an access to an absent object is the fault [FSegv].
    [FExit] is the [exit(1)] of [DYCO_MUST], [DYCO_MUSTNOT] and [DYCO_ABORT],
    [FTorn] a hash table torn by a failed allocation in the middle of a rehash,
    [FFuel] the end of the fuel of a model function.  The header defines NDEBUG
    before it includes assert.h, so the [assert]s of the code are no checks and
    have no counterpart here.  Out parameters are results.  A list of
    notification descriptors ([dyco_sublist]) is the list of its [notifyfd]s.
    The scheduler of the thread is the field [w_sched]; since a coroutine never
    leaves its thread, [co->sched] is only tested for null ([co_sched_of]).
    The bytes of stacks and messages are lists of integers.  System calls are
    the parameter [OS]; the depth of the running stack, which the C code takes
    from the address of a local variable, is its component [os_stack_used],
    and the code of the coroutines is the parameter [funcs] of [Run].

    ** Bounds

    Loops whose length is known are structural or carry a fuel that is proved
    enough: the search for a free wake-up time makes at most one step per timer
    ([sleep_sets_timer]) and phase A at most one per timer and one more
    ([probe_timers_wakes_expired]).  The loops of the red-black tree end within
    twice the logarithm of its size, and the laws of the interface are proved
    with the fuel the tree itself computes.  The main loop, the switches
    between coroutines and the retries of interrupted or unready system calls
    may run forever in C; their fuel is arbitrary and the theorems hold for
    every fuel.  Where progress is the property, the fuel is proved enough:
    [send_completes] for as many turns as there are bytes, and
    [round_robin_completes] for one turn of the main loop more than there are
    rounds to make, [channel_delivers_in_order] for so many turns as the
    switches of the coroutines take, two for every switch and a few more for
    each coroutine.

    ** Theorems

    Contexts: a swap saves one context and resumes the other exactly once, on
    every port but MIPS, where it never ends; a fresh context enters its
    function on its own stack.  Hash table: it refines a finite map for all
    sequences of operations, its resize keeps the contents, its insertion is safe
    under any allocation failure but one inside the rehash loop, and key 0 has
    phantom entries after resizes.
    Queues: the pointer code refines two first-in first-out lists.
    Red-black tree: it refines a finite map for all sequences of operations,
    stays balanced, is searched in logarithmic time, and the timer functions
    cannot tell it from the map.
    Timers and waits: setting, cancelling and expiry of timers in the order of
    their wake-up times, the sleep of the scheduler against the earliest timer,
    registration of waits and its inverse, with the overflow of durations.
    Coroutines: creation and release keep the invariant, the shared stack is
    restored byte for byte, identifiers do not collide, and a blocked coroutine
    leaves no timer and no wait behind.  Main loop: the expired sleepers and
    the waiters of reported events become ready exactly once and in order,
    queue phases are bounded, and the result of a run means what it says.
    Coroutines that work in rounds are run to their end, fairly; coroutines
    that compute, sleep for no more than 4294967 milliseconds, use semaphores
    without time limits, and exchange over channels messages fixed in advance,
    with any control flow, are never lost and make no call fail; sections
    guarded by semaphores admit no more coroutines than they should, with
    [src/example/semaphore.c] as an instance from the start of [main]; what is
    sent over a channel is received, all of it and in order, and the program
    comes to its end; and asymmetric coroutines with stacks of their own are
    iterators for their callers.  An abort releases every coroutine, if the
    identifiers do not collide and the coroutines own no descriptors.
    Wrappers, when no other coroutine uses the same descriptors: a send
    transmits a prefix of its buffer, and all of it, without a failure, when the
    socket takes something at every call and the coroutine is resumed in
    consistent states; an accepted connection is new and non-blocking; the
    reader of [src/example/socket_server.c] sends back exactly what it
    receives.  The signal mask that a coroutine has saved is given back.
    Synchronisation: semaphore signals wake waiters in order, a channel is a
    one-place buffer and a rendezvous, a wait group counts members and notifies
    the right waiters, a message is delivered to every subscriber, pools obtain
    and return coroutines.  A group of theorems establishes where the code does
    not do what it is meant to: stale timer keys, the double queueing of a
    coroutine whose event and timer coincide, in either order, 32-bit durations, fatal removals
    of unregistered descriptors, timed-out semaphore waits, channel
    destruction, pool destruction, subscription without timeout, deletions by
    the callback of a deletion, descriptors left open by the wrappers.

    ** Not modelled

    The connection of the machine of [Context] and its companions with [Prog],
    which takes a switch as one of continuations; the [makecontext] for ARM,
    which no platform compiles in; the parts of the vendored [sys_queue.h] and
    [sys_tree.h] that the program does not use, the option [DYCO_RANDOM_WAITFD] (off by
    default), the diagnostic output and the benchmarks; of the examples, the
    calls of other libraries (the set-up of SSL, name resolution, redis), the
    creation of threads and of child processes.

    The logic of [Safe] does not cover wait groups, publish-subscribe channels,
    pools and waits with a time limit: a semaphore keeps a waiter that has given
    up, which is among the findings.  Termination is not proved for programs
    that set timers, which would need laws of how the clock advances, nor for
    nested sections, where the program itself can be at fault. *)
From stdpp Require Export base numbers gmap sorting.
From stdpp Require Export list.

Create HintDb dyco.

(** * Addresses

    Object addresses are integers; the null pointer is 0. *)
Abbreviation addr := Z (only parsing).
Definition NULL : addr := 0%Z.

(** * Machine integers *)
Section machine_integers.
Local Open Scope Z_scope.

(** Wrap-around of unsigned arithmetic on [w] bits. *)
Definition uwrap (w x : Z) : Z := x mod 2 ^ w.

(** Conversion of an integer to a signed [w]-bit type (two's complement). *)
Definition swrap (w x : Z) : Z :=
  let y := uwrap w x in if y <? 2 ^ (w - 1) then y else y - 2 ^ w.

Definition u32 : Z -> Z := uwrap 32.
Definition u64 : Z -> Z := uwrap 64.
Definition i32 : Z -> Z := swrap 32.

Definition is_u32 (x : Z) : Prop := 0 <= x < 2 ^ 32.
Definition is_u64 (x : Z) : Prop := 0 <= x < 2 ^ 64.
Definition is_i32 (x : Z) : Prop := - 2 ^ 31 <= x < 2 ^ 31.

Lemma u32_range x : is_u32 (u32 x).
Proof. apply Z.mod_pos_bound; lia. Qed.

Lemma u64_range x : is_u64 (u64 x).
Proof. apply Z.mod_pos_bound; lia. Qed.

Lemma i32_range x : is_i32 (i32 x).
Proof.
  unfold is_i32, i32, swrap, uwrap.
  pose proof (Z.mod_pos_bound x (2 ^ 32) eq_refl).
  destruct (Z.ltb_spec (x mod 2 ^ 32) (2 ^ (32 - 1))); lia.
Qed.

Lemma u32_small x : is_u32 x -> u32 x = x.
Proof. apply Z.mod_small. Qed.

Lemma u64_small x : is_u64 x -> u64 x = x.
Proof. apply Z.mod_small. Qed.

Lemma i32_small x : is_i32 x -> i32 x = x.
Proof.
  unfold is_i32, i32, swrap, uwrap. intros Hx.
  destruct (decide (0 <= x)) as [Hp|Hn].
  - rewrite (Z.mod_small x) by lia. destruct (Z.ltb_spec x (2 ^ (32 - 1))); lia.
  - rewrite <- (Z.mod_unique x (2 ^ 32) (-1) (x + 2 ^ 32)) by lia.
    destruct (Z.ltb_spec (x + 2 ^ 32) (2 ^ (32 - 1))); lia.
Qed.

(** The conversion to [int] loses nothing of an unsigned word. *)
Lemma i32_inj x y : is_u32 x -> is_u32 y -> i32 x = i32 y -> x = y.
Proof.
  unfold is_u32, i32, swrap, uwrap. intros Hx Hy. rewrite !Z.mod_small by lia.
  destruct (Z.ltb_spec x (2 ^ (32 - 1))), (Z.ltb_spec y (2 ^ (32 - 1))); lia.
Qed.

(** Disjoint bit fields: a disjunction is a sum. *)
Lemma lor_shift_add a b n : 0 <= n -> 0 <= b < 2 ^ n -> Z.lor (Z.shiftl a n) b = a * 2 ^ n + b.
Proof.
  intros Hn Hb. rewrite Z.shiftl_mul_pow2 by done.
  assert (Hland : Z.land (a * 2 ^ n) b = 0).
  { apply Z.bits_inj'. intros i Hi. rewrite Z.land_spec, Z.bits_0.
    destruct (Z.lt_ge_cases i n).
    - by rewrite Z.mul_pow2_bits_low.
    - destruct (decide (b = 0)) as [->|]; [by rewrite Z.bits_0, andb_false_r|].
      rewrite (Z.bits_above_log2 b), andb_false_r; [done|lia|].
      apply Z.log2_lt_pow2; [lia|].
      eapply Z.lt_le_trans; [apply Hb|]. apply Z.pow_le_mono_r; lia. }
  rewrite <- (Z.lxor_lor _ _ Hland), <- Z.add_nocarry_lxor; done.
Qed.

End machine_integers.

#[export] Hint Resolve u32_range u64_range i32_range : dyco.

(** * Flag words

    The [BIT], [SETBIT], [CLRBIT] and [TESTBIT] macros, on a non-negative
    word.  [CLRBIT] needs no wrap-around: the conjunction of a 32-bit word
    with any mask stays on 32 bits. *)
Section flag_words.
Local Open Scope Z_scope.

Definition BIT (x : Z) : Z := Z.shiftl 1 x.
Definition SETBIT (d x : Z) : Z := Z.lor d (BIT x).
Definition CLRBIT (d x : Z) : Z := Z.land d (Z.lnot (BIT x)).
Definition TESTBIT (d x : Z) : bool := negb (Z.land d (BIT x) =? 0).

Lemma BIT_testbit x y : 0 <= x -> 0 <= y -> Z.testbit (BIT x) y = (x =? y).
Proof.
  intros Hx Hy. unfold BIT. rewrite Z.shiftl_mul_pow2, Z.mul_1_l by lia.
  destruct (Z.eqb_spec x y) as [->|].
  - by apply Z.pow2_bits_true.
  - by apply Z.pow2_bits_false.
Qed.

Lemma TESTBIT_testbit d x : 0 <= x -> TESTBIT d x = Z.testbit d x.
Proof.
  intros Hx. unfold TESTBIT.
  destruct (Z.eqb_spec (Z.land d (BIT x)) 0) as [E|E]; simpl.
  - pose proof (f_equal (fun z => Z.testbit z x) E) as Ht; simpl in Ht.
    rewrite Z.land_spec, BIT_testbit, Z.eqb_refl, andb_true_r, Z.bits_0 in Ht by lia.
    done.
  - destruct (Z.testbit d x) eqn:Ht; [done|]. exfalso. apply E.
    apply Z.bits_inj'. intros n Hn.
    rewrite Z.land_spec, Z.bits_0, BIT_testbit by lia.
    destruct (Z.eqb_spec x n) as [->|]; [by rewrite Ht|apply andb_false_r].
Qed.

Lemma TESTBIT_SETBIT d x y :
  0 <= x -> 0 <= y -> TESTBIT (SETBIT d x) y = (x =? y) || TESTBIT d y.
Proof.
  intros. rewrite !TESTBIT_testbit by done. unfold SETBIT.
  rewrite Z.lor_spec, BIT_testbit by done. apply orb_comm.
Qed.

Lemma TESTBIT_CLRBIT d x y :
  0 <= x -> 0 <= y -> TESTBIT (CLRBIT d x) y = negb (x =? y) && TESTBIT d y.
Proof.
  intros. rewrite !TESTBIT_testbit by done. unfold CLRBIT.
  rewrite Z.land_spec, Z.lnot_spec, BIT_testbit by done. apply andb_comm.
Qed.

Lemma CLRBIT_SETBIT d x : 0 <= x -> TESTBIT d x = false -> CLRBIT (SETBIT d x) x = d.
Proof.
  intros Hx Hd. rewrite TESTBIT_testbit in Hd by done. apply Z.bits_inj'. intros n Hn.
  unfold CLRBIT, SETBIT. rewrite Z.land_spec, Z.lnot_spec, Z.lor_spec, BIT_testbit by done.
  destruct (Z.eqb_spec x n) as [->|]; simpl; [by rewrite andb_false_r|by rewrite orb_false_r, andb_true_r].
Qed.

Lemma TESTBIT_0 x : TESTBIT 0 x = false.
Proof. reflexivity. Qed.

Lemma SETBIT_u32 d x : is_u32 d -> 0 <= x < 32 -> is_u32 (SETBIT d x).
Proof.
  unfold is_u32, SETBIT, BIT. intros [Hd0 Hd1] Hx.
  rewrite Z.shiftl_mul_pow2, Z.mul_1_l by lia.
  assert (0 < 2 ^ x) by (apply Z.pow_pos_nonneg; lia).
  assert (Hp : 2 ^ x < 2 ^ 32) by (apply Z.pow_lt_mono_r; lia).
  split; [apply Z.lor_nonneg; lia|].
  destruct (decide (Z.lor d (2 ^ x) = 0)) as [->|Hn]; [done|].
  assert (0 <= Z.lor d (2 ^ x)) by (apply Z.lor_nonneg; lia).
  apply Z.log2_lt_pow2; [lia|].
  rewrite Z.log2_lor by lia.
  destruct (decide (d = 0)) as [->|].
  - rewrite Z.log2_pow2 by lia. simpl. lia.
  - apply Z.max_lub_lt; [apply Z.log2_lt_pow2; lia|rewrite Z.log2_pow2; lia].
Qed.

Lemma CLRBIT_u32 d x : is_u32 d -> is_u32 (CLRBIT d x).
Proof.
  unfold is_u32, CLRBIT. intros [Hd0 Hd1].
  assert (0 <= Z.land d (Z.lnot (BIT x))) by (apply Z.land_nonneg; lia).
  split; [done|].
  destruct (decide (Z.land d (Z.lnot (BIT x)) = 0)) as [->|]; [done|].
  assert (d <> 0) by (intros ->; done).
  apply Z.log2_lt_pow2; [lia|].
  apply Z.log2_lt_pow2 in Hd1; [|lia].
  destruct (decide (0 <= Z.lnot (BIT x))) as [Hp|Hn].
  - eapply Z.le_lt_trans; [by apply Z.log2_land|]. lia.
  - destruct (Z.le_gt_cases (Z.log2 (Z.land d (Z.lnot (BIT x)))) (Z.log2 d)) as [|Hgt]; [lia|].
    exfalso.
    assert (Hb : Z.testbit (Z.land d (Z.lnot (BIT x))) (Z.log2 (Z.land d (Z.lnot (BIT x)))) = true)
      by (apply Z.bit_log2; lia).
    rewrite Z.land_spec, (Z.bits_above_log2 d) in Hb by lia. done.
Qed.

End flag_words.

#[export] Hint Resolve SETBIT_u32 CLRBIT_u32 : dyco.

(** * Faults and results

    A call that does not return to its caller: [FExit] is [exit(1)] from
    [DYCO_MUST], [DYCO_MUSTNOT] or [DYCO_ABORT]; [FSegv] is undefined
    behaviour (a null or dangling dereference, a double free, the removal of
    an element that is not in its container); [FTorn] is an allocation
    failure that leaves a container inconsistent; [FFuel] is the exhaustion
    of the iteration bound of a loop. *)
Inductive fault := FExit | FSegv | FTorn | FFuel.

Inductive res (A : Type) :=
  | Ok (a : A)
  | Err (e : fault).
Arguments Ok {A} a.
Arguments Err {A} e.

#[export] Instance fault_eq_dec : EqDecision fault.
Proof. solve_decision. Defined.

Definition res_bind {A B} (r : res A) (f : A -> res B) : res B :=
  match r with Ok a => f a | Err e => Err e end.

(** Observing a run: what [f] sees of its result. *)
Definition observe {A B} (f : A -> B) (r : res A) : option B :=
  match r with Ok a => Some (f a) | Err _ => None end.

Lemma observe_ok {A B} (f : A -> B) (r : res A) y :
  observe f r = Some y -> exists a, r = Ok a /\ f a = y.
Proof. destruct r as [a|e]; simpl; [|done]. intros [= <-]. eauto. Qed.

(** A computation on a state that may fault. *)
Definition M (St A : Type) : Type := St -> res (A * St).

Definition ret {St A} (a : A) : M St A := fun s => Ok (a, s).
Definition bind {St A B} (m : M St A) (f : A -> M St B) : M St B :=
  fun s => match m s with Ok (a, s') => f a s' | Err e => Err e end.
Definition throw {St A} (e : fault) : M St A := fun _ => Err e.
Definition get_st {St} : M St St := fun s => Ok (s, s).
Definition put_st {St} (s : St) : M St unit := fun _ => Ok (tt, s).
Definition modify {St} (f : St -> St) : M St unit := fun s => Ok (tt, f s).
Definition gets {St A} (f : St -> A) : M St A := fun s => Ok (f s, s).
Definition when {St} (b : bool) (m : M St unit) : M St unit := if b then m else ret tt.

(** [DYCO_MUST] and [DYCO_MUSTNOT]. *)
Definition DYCO_MUST {St} (b : bool) : M St unit := if b then ret tt else throw FExit.
Definition DYCO_MUSTNOT {St} (b : bool) : M St unit := if b then throw FExit else ret tt.

Declare Scope dyco_scope.
Delimit Scope dyco_scope with dyco.
Notation "'let*' x := m 'in' k" := (bind m (fun x => k))
  (at level 200, x pattern, k at level 200, right associativity) : dyco_scope.
Notation "m ';;;' k" := (bind m (fun _ => k))
  (at level 199, right associativity) : dyco_scope.

Section monad_laws.
Context {St : Type}.

Lemma bind_ok {A B} (m : M St A) (f : A -> M St B) s a s' :
  m s = Ok (a, s') -> bind m f s = f a s'.
Proof. unfold bind. by intros ->. Qed.

Lemma bind_bind {A B D} (x : M St A) (f : A -> M St B) (g : B -> M St D) s :
  bind (bind x f) g s = bind x (fun y => bind (f y) g) s.
Proof. unfold bind. by destruct (x s) as [[]|]. Qed.

Lemma bind_inv {A B} (m : M St A) (f : A -> M St B) s b s' :
  bind m f s = Ok (b, s') -> exists a s1, m s = Ok (a, s1) /\ f a s1 = Ok (b, s').
Proof. unfold bind. destruct (m s) as [[a s1]|]; naive_solver. Qed.

Lemma when_inv (b : bool) (m : M St unit) s u s' :
  when b m s = Ok (u, s') -> (b = true /\ m s = Ok (u, s')) \/ (b = false /\ s' = s).
Proof. destruct b; simpl; [by left|]. intros [=]; by right. Qed.

Lemma DYCO_MUST_inv (b : bool) (s s' : St) u :
  DYCO_MUST b s = Ok (u, s') -> b = true /\ s' = s.
Proof. destruct b; by intros [=]. Qed.

Lemma DYCO_MUSTNOT_inv (b : bool) (s s' : St) u :
  DYCO_MUSTNOT b s = Ok (u, s') -> b = false /\ s' = s.
Proof. destruct b; by intros [=]. Qed.

End monad_laws.

(** Invert the successful run of a monadic computation into the runs of its
    parts. *)
Ltac minv :=
  repeat match goal with
  | H : bind _ _ _ = Ok _ |- _ =>
      let a := fresh "a" in let s := fresh "s" in let H1 := fresh "Hm" in
      apply bind_inv in H as (a & s & H1 & H)
  | H : ret _ _ = Ok _ |- _ => unfold ret in H
  | H : get_st _ = Ok _ |- _ => unfold get_st in H
  | H : put_st _ _ = Ok _ |- _ => unfold put_st in H
  | H : modify _ _ = Ok _ |- _ => unfold modify in H
  | H : gets _ _ = Ok _ |- _ => unfold gets in H
  | H : throw _ _ = Ok _ |- _ => discriminate H
  | H : DYCO_MUST _ _ = Ok _ |- _ => apply DYCO_MUST_inv in H as [H ?]
  | H : DYCO_MUSTNOT _ _ = Ok _ |- _ => apply DYCO_MUSTNOT_inv in H as [H ?]
  | H : Ok _ = Ok _ |- _ => injection H; clear H; intros
  | H : Err _ = Ok _ |- _ => discriminate H
  | H : (_, _) = (_, _) |- _ => injection H; clear H; intros
  end; subst.

(** A computation keeps an invariant [I] of the state, and faults only with a
    fault of [F]. *)
Definition keeps {St A} (I : St -> Prop) (F : fault -> Prop) (m : M St A) : Prop :=
  forall s, I s -> match m s with Ok (_, s') => I s' | Err e => F e end.

(** Every fault is allowed. *)
Definition any_fault (e : fault) : Prop := True.

Section keeps.
Context {St : Type} (I : St -> Prop) (F : fault -> Prop).

Lemma keeps_bind {A B} (m : M St A) (f : A -> M St B) :
  keeps I F m -> (forall a, keeps I F (f a)) -> keeps I F (bind m f).
Proof.
  intros Hm Hf s Hs. unfold bind. specialize (Hm s Hs). destruct (m s) as [[a s']|e]; [|done].
  by apply Hf.
Qed.

Lemma keeps_inv {A} (m : M St A) s a s' : keeps I F m -> I s -> m s = Ok (a, s') -> I s'.
Proof. intros Hm Hs H. specialize (Hm s Hs). by rewrite H in Hm. Qed.

Lemma keeps_ret {A} (a : A) : keeps I F (ret a).
Proof. by intros s Hs. Qed.

Lemma keeps_throw {A} e : F e -> keeps I F (throw (A := A) e).
Proof. by intros H s Hs. Qed.

Lemma keeps_get : keeps I F get_st.
Proof. by intros s Hs. Qed.

Lemma keeps_gets {A} (f : St -> A) : keeps I F (gets f).
Proof. by intros s Hs. Qed.

Lemma keeps_must b : F FExit -> keeps I F (DYCO_MUST b).
Proof. intros H. destruct b; [apply keeps_ret|by apply keeps_throw]. Qed.

Lemma keeps_mustnot b : F FExit -> keeps I F (DYCO_MUSTNOT b).
Proof. intros H. destruct b; [by apply keeps_throw|apply keeps_ret]. Qed.

Lemma keeps_when b (m : M St unit) : keeps I F m -> keeps I F (when b m).
Proof. destruct b; [done|]. intros _. apply keeps_ret. Qed.

Lemma keeps_modify f : (forall s, I s -> I (f s)) -> keeps I F (modify f).
Proof. intros Hf s Hs. by apply Hf. Qed.

End keeps.

#[export] Hint Resolve keeps_ret keeps_throw keeps_get keeps_gets keeps_must keeps_mustnot : dyco.
#[export] Hint Extern 0 (any_fault _) => exact I : dyco.

(** Goals [keeps _ _ m]: descend through the binds and case splits of [m];
    [leaf] proves the primitive operations. *)
Ltac keeps_with leaf :=
  repeat first
    [ progress intros
    | solve [eauto with dyco nocore]
    | leaf
    | apply keeps_bind
    | apply keeps_when
    | match goal with |- keeps _ _ (match ?x with _ => _ end) => destruct x end ].

(** * Lists *)
Section lists.

Lemma sum_list_with_insert {A} (f : A -> nat) (l : list A) i x y :
  l !! i = Some x ->
  (sum_list_with f (<[i:=y]> l) + f x = sum_list_with f l + f y)%nat.
Proof.
  revert i. induction l as [|z l IH]; intros [|i]; simpl; intros Hl; simplify_eq; [lia|].
  specialize (IH _ Hl). lia.
Qed.

Lemma length_bind_sum {A B} (f : A -> list B) (l : list A) :
  length (l ≫= f) = sum_list_with (fun a => length (f a)) l.
Proof. induction l as [|a l IH]; [done|]. by rewrite bind_cons, length_app, IH. Qed.

Lemma filter_bind {A B} (P : B -> Prop) `{forall x, Decision (P x)} (f : A -> list B) l :
  filter P (l ≫= f) = l ≫= (fun a => filter P (f a)).
Proof. induction l as [|a l IH]; [done|]. by rewrite !bind_cons, filter_app, IH. Qed.

Lemma filter_fmap {A B} (P : B -> Prop) `{forall x, Decision (P x)} (f : A -> B) (l : list A) :
  filter P (f <$> l) = f <$> filter (fun x => P (f x)) l.
Proof.
  induction l as [|a l IH]; [done|]. rewrite fmap_cons, !filter_cons.
  destruct (decide (P (f a))); simpl; by rewrite IH.
Qed.

Lemma fmap_bind_list {A B C} (g : B -> C) (f : A -> list B) (l : list A) :
  g <$> (l ≫= f) = l ≫= (fun a => g <$> f a).
Proof. induction l as [|a l IH]; [done|]. by rewrite !bind_cons, fmap_app, IH. Qed.

(** Lists indexed by pairwise disjoint families have no duplicates. *)
Lemma NoDup_bind_disjoint {A B} (f : A -> list B) (idx : B -> nat) (l : list A) (n : nat) :
  (forall i a, l !! i = Some a -> NoDup (f a)) ->
  (forall i a b, l !! i = Some a -> b ∈ f a -> idx b = (n + i)%nat) ->
  NoDup (l ≫= f).
Proof.
  revert n. induction l as [|a l IH]; intros n Hnd Hidx; [constructor|]. rewrite bind_cons.
  apply NoDup_app. split; [by apply (Hnd O a)|]. split.
  - intros b Hb Hin. apply list_elem_of_bind in Hin as (a' & Hb' & [j Hj]%list_elem_of_lookup).
    pose proof (Hidx O a b eq_refl Hb). pose proof (Hidx (S j) a' b Hj Hb'). lia.
  - apply (IH (S n)).
    + intros i a' Ha'. apply (Hnd (S i) _ Ha').
    + intros i a' b Ha' Hb. rewrite (Hidx (S i) a' b Ha' Hb). lia.
Qed.

End lists.

(** * Consecutive keys *)
Section consecutive.
Local Open Scope Z_scope.

(** [k + j] is the first key from [k] on that is not in the map. *)
Definition first_free {A} (V : gmap Z A) (k : Z) (j : nat) : Prop :=
  V !! (k + Z.of_nat j) = None /\ forall i, (i < j)%nat -> is_Some (V !! (k + Z.of_nat i)).

Lemma first_free_exists {A} (V : gmap Z A) k : exists j, (j <= size V)%nat /\ first_free V k j.
Proof.
  assert (Hstep : forall n, (forall i, (i < n)%nat -> is_Some (V !! (k + Z.of_nat i))) \/
    exists j, (j < n)%nat /\ first_free V k j).
  { induction n as [|n [Hall|(j & Hj & Hf)]]; [left; lia| |right; exists j; split; [lia|done]].
    destruct (V !! (k + Z.of_nat n)) eqn:Hn.
    - left. intros i Hi. destruct (decide (i = n)) as [->|]; [by eexists|apply Hall; lia].
    - right. exists n. split; [lia|done]. }
  destruct (Hstep (S (size V))) as [Hall|(j & Hj & Hf)]; [|exists j; split; [lia|done]].
  exfalso.
  assert (Hsub : list_to_set (seqZ k (Z.of_nat (S (size V)))) ⊆ dom V).
  { intros x Hx. apply elem_of_list_to_set, elem_of_seqZ in Hx. apply elem_of_dom.
    replace x with (k + Z.of_nat (Z.to_nat (x - k))) by lia. apply Hall. lia. }
  apply subseteq_size in Hsub.
  rewrite size_list_to_set in Hsub by apply NoDup_seqZ.
  rewrite length_seqZ, size_dom in Hsub. lia.
Qed.

Lemma first_free_succ {A} (V : gmap Z A) k j :
  first_free V k (S j) -> is_Some (V !! k) /\ first_free V (k + 1) j.
Proof.
  intros [Hn Hs]. split.
  - specialize (Hs O ltac:(lia)). by rewrite Z.add_0_r in Hs.
  - split; [by replace (k + 1 + Z.of_nat j) with (k + Z.of_nat (S j)) by lia|].
    intros i Hi. replace (k + 1 + Z.of_nat i) with (k + Z.of_nat (S i)) by lia. apply Hs. lia.
Qed.

End consecutive.

(** * Counting entries of a map *)
Section tally.
Context {V : Type}.
Local Open Scope Z_scope.
Implicit Types (P Q : V -> bool) (m : gmap Z V).

(** How many entries satisfy [P]. *)
Definition tally P m : Z := Z.of_nat (size (filter (fun p : Z * V => P p.2 = true) m)).

Lemma tally_fresh P m k v : m !! k = None -> tally P (<[k := v]> m) = tally P m + Z.b2z (P v).
Proof.
  intros Hk. unfold tally. destruct (P v) eqn:Hv.
  - rewrite map_filter_insert_True by done. rewrite map_size_insert_None; [simpl; lia|].
    apply map_lookup_filter_None. by left.
  - rewrite map_filter_insert_False by (simpl; congruence). rewrite delete_id by done. simpl. lia.
Qed.

Lemma tally_insert P m k v : tally P (<[k := v]> m) = tally P (delete k m) + Z.b2z (P v).
Proof. rewrite <- (tally_fresh P (delete k m) k v) by apply lookup_delete_eq. by rewrite insert_delete_eq. Qed.

Lemma tally_lookup P m k v : m !! k = Some v -> tally P m = tally P (delete k m) + Z.b2z (P v).
Proof. intros Hk. rewrite <- (tally_insert P m k v). by rewrite insert_id. Qed.

(** Entries that are not there count as [d]. *)
Lemma tally_update P m k v d :
  P d = false -> tally P (<[k := v]> m) = tally P m - Z.b2z (P (default d (m !! k))) + Z.b2z (P v).
Proof.
  intros Hd. rewrite tally_insert. destruct (m !! k) as [u|] eqn:Hk; simpl.
  - rewrite (tally_lookup P m k u Hk). lia.
  - rewrite Hd, delete_id by done. simpl. lia.
Qed.

Lemma tally_nonneg P m : 0 <= tally P m.
Proof. unfold tally. lia. Qed.

Lemma tally_mono P Q m : (forall k v, m !! k = Some v -> P v = true -> Q v = true) -> tally P m <= tally Q m.
Proof.
  intros H. unfold tally. rewrite <- !(size_dom (D := gset Z)). apply inj_le, subseteq_size, subseteq_dom, map_subseteq_spec. intros k v.
  rewrite !map_lookup_filter_Some. intros [Hk Hp]. split; [done|]. by apply (H k).
Qed.

Lemma tally_ext P Q m : (forall k v, m !! k = Some v -> P v = Q v) -> tally P m = tally Q m.
Proof. intros H. apply Z.le_antisymm; apply tally_mono; intros k v Hk; by rewrite (H k v Hk). Qed.

Lemma tally_empty P : tally P ∅ = 0.
Proof. done. Qed.

End tally.

(** ** The weight of a map

    The sum of the weights of its entries; a map is lighter when every entry
    has a heavier one in the other at the same key. *)
Section weight.
Context {V : Type}.
Implicit Types (f g : Z -> V -> nat) (m : gmap Z V).

Definition weight f m : nat := map_fold (fun k v n => (f k v + n)%nat) 0%nat m.

Lemma weight_lookup f m k v : m !! k = Some v -> weight f m = (f k v + weight f (delete k m))%nat.
Proof. intros Hk. unfold weight. apply (map_fold_delete_L (fun k v n => (f k v + n)%nat)); [|done]. intros. lia. Qed.

Lemma weight_insert f m k v : m !! k = None -> weight f (<[k := v]> m) = (f k v + weight f m)%nat.
Proof. intros Hk. rewrite (weight_lookup f _ k v) by apply lookup_insert_eq. by rewrite delete_insert_id. Qed.

Lemma weight_le f g m m' :
  (forall k v', m' !! k = Some v' -> exists v, m !! k = Some v /\ (g k v' <= f k v)%nat) -> (weight g m' <= weight f m)%nat.
Proof.
  revert m. induction m' as [|k v' m' Hk IH] using map_ind; intros m H; [unfold weight at 1; rewrite map_fold_empty; lia|].
  destruct (H k v' (lookup_insert_eq _ _ _)) as (v & Hv & Hle). rewrite weight_insert, (weight_lookup f m k v) by done.
  assert (weight g m' <= weight f (delete k m))%nat; [|lia]. apply IH. intros k2 v2 H2.
  assert (Hne : k2 <> k) by congruence. destruct (H k2 v2) as (u & Hu & Hle2); [by rewrite lookup_insert_ne|].
  exists u. by rewrite lookup_delete_ne.
Qed.

Lemma weight_lt f g m m' k v :
  (forall k v', m' !! k = Some v' -> exists v, m !! k = Some v /\ (g k v' <= f k v)%nat) -> m !! k = Some v ->
  (match m' !! k with Some v' => g k v' < f k v | None => 0 < f k v end)%nat -> (weight g m' < weight f m)%nat.
Proof.
  intros H Hv Hlt. rewrite (weight_lookup f m k v Hv).
  assert (Hd : (weight g (delete k m') <= weight f (delete k m))%nat).
  { apply weight_le. intros k2 v2 [Hne H2]%lookup_delete_Some. destruct (H k2 v2 H2) as (u & Hu & Hle). exists u.
    by rewrite lookup_delete_ne. }
  destruct (m' !! k) as [v'|] eqn:E; [rewrite (weight_lookup g m' k v' E); lia|]. rewrite delete_id in Hd by done. lia.
Qed.

Lemma weight_bound f m n : (forall k v, m !! k = Some v -> (f k v <= n)%nat) -> (weight f m <= size m * n)%nat.
Proof.
  induction m as [|k v m Hk IH] using map_ind; intros H; [unfold weight; rewrite map_fold_empty; lia|].
  rewrite weight_insert, map_size_insert_None by done. pose proof (H k v (lookup_insert_eq _ _ _)).
  assert (weight f m <= size m * n)%nat; [|lia]. apply IH. intros k2 v2 H2. apply H. rewrite lookup_insert_ne; congruence.
Qed.

End weight.
