(* ===== verification/Machine.v ===== *)
(** * Registers and memory

    The machine on which the context switches of [src/uctx_context.c] and
    [src/uctx_asm.S] run: a program counter, registers of any type and a memory
    of words at mapped addresses, with what the ports to the different
    processors share, and [swapcontext] on any of them. *)
From S2P Require Import Prelude.

Local Open Scope Z_scope.
Local Open Scope dyco_scope.

Section machine.
Context {reg : Type} `{!EqDecision reg}.

Record cpu := mk_cpu { pc : Z; regs : reg -> Z; mem : gmap Z Z }.

Definition set_pc x c := mk_cpu x (regs c) (mem c).
Definition upd (R : reg -> Z) (r : reg) (x : Z) : reg -> Z := fun r' => if decide (r = r') then x else R r'.
Definition set_reg r x c := mk_cpu (pc c) (upd (regs c) r x) (mem c).
Definition set_word a x c := mk_cpu (pc c) (regs c) (<[a := x]> (mem c)).

Definition rd (a : Z) : M cpu Z :=
  let* c := get_st in match mem c !! a with Some x => ret x | None => throw FSegv end.
Definition wr (a x : Z) : M cpu unit :=
  let* c := get_st in match mem c !! a with Some _ => put_st (set_word a x c) | None => throw FSegv end.
Definition rreg (r : reg) : M cpu Z := gets (fun c => regs c r).
Definition wreg (r : reg) (x : Z) : M cpu unit := modify (set_reg r x).
Definition jump (a : Z) : M cpu unit := modify (set_pc a).

Definition mapped (m : gmap Z Z) (a : Z) : Prop := is_Some (m !! a).

Lemma wr_run a x c : mapped (mem c) a -> wr a x c = Ok (tt, set_word a x c).
Proof. intros [y Hy]. unfold wr, bind, get_st. by rewrite Hy. Qed.

Lemma rd_run a x c : mem c !! a = Some x -> rd a c = Ok (x, c).
Proof. intros Hx. unfold rd, bind, get_st. by rewrite Hx. Qed.

Lemma mapped_word a b x m : mapped m b -> mapped (<[a := x]> m) b.
Proof. intros Hb. by apply lookup_insert_is_Some'; right. Qed.

Lemma upd_eq R r x : upd R r x r = x.
Proof. unfold upd. by rewrite decide_True. Qed.

Lemma upd_ne R r r' x : r <> r' -> upd R r x r' = R r'.
Proof. intros Hr. unfold upd. by rewrite decide_False. Qed.

(** ** Saved registers

    [l] lists registers with the offsets of their words in a structure. *)
Definition saved (l : list (reg * Z)) (m : gmap Z Z) (mc : Z) (V : reg -> Z) : Prop :=
  Forall (fun p => m !! (mc + p.2) = Some (V p.1)) l.

Definition slots_mapped (l : list (reg * Z)) (m : gmap Z Z) (mc : Z) : Prop := Forall (fun p => mapped m (mc + p.2)) l.

Fixpoint write_slots (l : list (reg * Z)) (mc : Z) (V : reg -> Z) (m : gmap Z Z) : gmap Z Z :=
  match l with [] => m | (r, off) :: l' => write_slots l' mc V (<[mc + off := V r]> m) end.

Lemma write_slots_other l mc V m a : (forall p, p ∈ l -> a <> mc + p.2) -> write_slots l mc V m !! a = m !! a.
Proof.
  revert m. induction l as [|[r off] l IH]; intros m Ha; [done|]. simpl. rewrite IH by (intros p Hp; apply Ha; by right).
  apply lookup_insert_ne, not_eq_sym, (Ha (r, off)). by left.
Qed.

Lemma write_slots_saved l mc V m : NoDup l.*2 -> saved l (write_slots l mc V m) mc V.
Proof.
  revert m. induction l as [|[r off] l IH]; intros m Hnd; [constructor|].
  apply NoDup_cons in Hnd as [Hn Hnd]. constructor; [|by apply IH]. simpl.
  rewrite write_slots_other; [apply lookup_insert_eq|]. intros p Hp E. apply Hn.
  apply (list_elem_of_fmap_2' _ _ p); [done|simpl in *; lia].
Qed.

(** What a sequence of loads leaves in the registers. *)
Definition loaded (l : list (reg * Z)) (V R : reg -> Z) : reg -> Z := fun r => if decide (r ∈ l.*1) then V r else R r.

Lemma saved_same l m m' mc V :
  (forall p, p ∈ l -> m' !! (mc + p.2) = m !! (mc + p.2)) -> saved l m mc V -> saved l m' mc V.
Proof.
  intros Hm Hs. apply Forall_forall. intros p Hp. rewrite (Hm p Hp).
  unfold saved in Hs. rewrite Forall_forall in Hs. by apply Hs.
Qed.

Lemma saved_ext l m mc V V' : (forall p, p ∈ l -> V p.1 = V' p.1) -> saved l m mc V -> saved l m mc V'.
Proof.
  intros HV Hs. apply Forall_forall. intros p Hp. rewrite <- (HV p Hp).
  unfold saved in Hs. rewrite Forall_forall in Hs. by apply Hs.
Qed.

Lemma write_slots_mapped l mc V m a : mapped m a -> mapped (write_slots l mc V m) a.
Proof. revert m. induction l as [|[r off] l IH]; intros m Ha; [done|]. by apply IH, mapped_word. Qed.

Lemma loaded_in l V R r : r ∈ l.*1 -> loaded l V R r = V r.
Proof. intros Hr. unfold loaded. by rewrite decide_True. Qed.

Lemma loaded_out l V R r : r ∉ l.*1 -> loaded l V R r = R r.
Proof. intros Hr. unfold loaded. by rewrite decide_False. Qed.

Lemma loaded_cons d off l V R r : loaded l V (upd R d (V d)) r = loaded ((d, off) :: l) V R r.
Proof.
  unfold loaded. cbn [fmap list_fmap fst]. destruct (decide (r ∈ l.*1)) as [Hr|Hr].
  - rewrite decide_True; [done|by right].
  - destruct (decide (r = d)) as [->|Hne]; [rewrite upd_eq, decide_True; [done|by left]|].
    rewrite upd_ne, decide_False; [done| |congruence]. by intros [?|?]%elem_of_cons.
Qed.

End machine.

Arguments cpu : clear implicits.

(** Closed facts about registers and offsets. *)
Ltac by_slots := apply (bool_decide_unpack _); by vm_compute.
(** Registers after updates. *)
Ltac rg := repeat first [rewrite upd_eq | rewrite upd_ne by discriminate].
