(* ===== verification/X86.v ===== *)
(** * Instructions of the x86 processors

    The instructions that [getmcontext] and [setmcontext] of
    [src/uctx_asm.S] use on amd64 and on i386, which differ in their registers
    and in the size of a word. *)
From S2P Require Import Prelude Machine.

Local Open Scope Z_scope.
Local Open Scope dyco_scope.

Section x86.
Context {reg : Type} `{!EqDecision reg} (word : Z) (SP : reg).

(** The operands are in the order of the source file. *)
Inductive instr :=
  | mov_rm (src : reg) (off : Z) (base : reg)    (* mov src, off(base) *)
  | mov_mr (off : Z) (base dst : reg)            (* mov off(base), dst *)
  | mov_im (n off : Z) (base : reg)              (* mov $n, off(base) *)
  | mov_ir (n : Z) (dst : reg)                   (* mov $n, dst *)
  | lea (off : Z) (base dst : reg)               (* lea off(base), dst *)
  | push_m (off : Z) (base : reg)                (* push off(base) *)
  | retn.                                        (* ret *)

Definition exec1 (i : instr) : M (cpu reg) unit :=
  match i with
  | mov_rm src off base => let* b := rreg base in let* x := rreg src in wr (b + off) x
  | mov_mr off base dst => let* b := rreg base in let* x := rd (b + off) in wreg dst x
  | mov_im n off base => let* b := rreg base in wr (b + off) n
  | mov_ir n dst => wreg dst n
  | lea off base dst => let* b := rreg base in wreg dst (b + off)
  | push_m off base =>
      let* b := rreg base in let* x := rd (b + off) in let* sp := rreg SP in
      wreg SP (sp - word) ;;; wr (sp - word) x
  | retn => let* sp := rreg SP in let* x := rd sp in wreg SP (sp + word) ;;; jump x
  end.

Fixpoint execs (l : list instr) : M (cpu reg) unit :=
  match l with [] => ret tt | i :: l' => exec1 i ;;; execs l' end.

(** ** Symbolic execution *)
Section steps.
Variables (p : Z) (R : reg -> Z) (m : gmap Z Z) (l : list instr).

Lemma run_rm src off base :
  mapped m (R base + off) ->
  execs (mov_rm src off base :: l) (mk_cpu p R m) = execs l (mk_cpu p R (<[R base + off := R src]> m)).
Proof. intros Hm. cbn [execs exec1]. unfold bind, rreg, gets. by rewrite wr_run. Qed.

Lemma run_im n off base :
  mapped m (R base + off) ->
  execs (mov_im n off base :: l) (mk_cpu p R m) = execs l (mk_cpu p R (<[R base + off := n]> m)).
Proof. intros Hm. cbn [execs exec1]. unfold bind, rreg, gets. by rewrite wr_run. Qed.

Lemma run_mr off base dst x :
  m !! (R base + off) = Some x ->
  execs (mov_mr off base dst :: l) (mk_cpu p R m) = execs l (mk_cpu p (upd R dst x) m).
Proof. intros Hm. cbn [execs exec1]. unfold bind, rreg, gets. by rewrite (rd_run _ x). Qed.

Lemma run_lea off base dst :
  execs (lea off base dst :: l) (mk_cpu p R m) = execs l (mk_cpu p (upd R dst (R base + off)) m).
Proof. done. Qed.

Lemma run_ir n dst : execs (mov_ir n dst :: l) (mk_cpu p R m) = execs l (mk_cpu p (upd R dst n) m).
Proof. done. Qed.

Lemma run_push off base x :
  m !! (R base + off) = Some x -> mapped m (R SP - word) ->
  execs (push_m off base :: l) (mk_cpu p R m) =
  execs l (mk_cpu p (upd R SP (R SP - word)) (<[R SP - word := x]> m)).
Proof.
  intros Hm Hs. cbn [execs exec1]. unfold bind, rreg, gets. rewrite (rd_run _ x) by done.
  unfold wreg, modify. by rewrite wr_run.
Qed.

Lemma run_ret x :
  m !! R SP = Some x -> execs [retn] (mk_cpu p R m) = Ok (tt, mk_cpu x (upd R SP (R SP + word)) m).
Proof. intros Hm. cbn [execs exec1]. unfold bind, rreg, gets. by rewrite (rd_run _ x). Qed.
End steps.

(** ** Blocks of moves *)
Definition saves (b : reg) (l : list (reg * Z)) : list instr := (fun p => mov_rm p.1 p.2 b) <$> l.
Definition loads (b : reg) (l : list (reg * Z)) : list instr := (fun p => mov_mr p.2 b p.1) <$> l.

Lemma run_saves b l p R m k :
  slots_mapped l m (R b) ->
  execs (saves b l ++ k) (mk_cpu p R m) = execs k (mk_cpu p R (write_slots l (R b) R m)).
Proof.
  revert m. induction l as [|[r off] l IH]; intros m Hm; [done|]. apply Forall_cons in Hm as [H1 Hm].
  change (execs (mov_rm r off b :: (saves b l ++ k)) (mk_cpu p R m) = execs k (mk_cpu p R (write_slots ((r, off) :: l) (R b) R m))).
  rewrite run_rm by done. apply IH. eapply Forall_impl; [exact Hm|]. intros q. apply mapped_word.
Qed.

Lemma run_restores b l p R V m k :
  b ∉ l.*1 -> saved l m (R b) V ->
  exists R', execs (loads b l ++ k) (mk_cpu p R m) = execs k (mk_cpu p R' m) /\ forall r, R' r = loaded l V R r.
Proof.
  revert R. induction l as [|[d off] l IH]; intros R Hb Hs; [by exists R|]. apply Forall_cons in Hs as [H1 Hs].
  apply not_elem_of_cons in Hb as [Hbd Hb].
  change (exists R', execs (mov_mr off b d :: (loads b l ++ k)) (mk_cpu p R m) = execs k (mk_cpu p R' m) /\
    forall r, R' r = loaded ((d, off) :: l) V R r).
  rewrite (run_mr _ _ _ _ _ _ _ (V d)) by done.
  destruct (IH (upd R d (V d))) as (R' & Hrun & HR'); [done|by rewrite upd_ne by done|].
  exists R'. split; [done|]. intros r. by rewrite HR', (loaded_cons d off).
Qed.

End x86.

Arguments instr : clear implicits.
