(* ===== verification/Context.v ===== *)
(** * Context switches on the machine

    [makecontext] of [src/uctx_context.c] and [getmcontext] and [setmcontext]
    of [src/uctx_asm.S], in their versions for amd64, which the library brings
    along for systems without [ucontext.h].  Everywhere else a context switch
    of the model is a switch of continuations (file Prog); here it is what the
    code does to registers and memory.  The machine has the general registers
    and a memory of 64-bit words at mapped addresses. *)
From S2P Require Import Prelude Machine X86.

Local Open Scope Z_scope.
Local Open Scope dyco_scope.

Module Amd64.

Inductive reg :=
  | RDI | RSI | RDX | RCX | R8 | R9 | RAX | RBX | RBP | R10 | R11 | R12 | R13 | R14 | R15 | RSP.

#[global] Instance reg_eq_dec : EqDecision reg.
Proof. solve_decision. Defined.

Local Abbreviation cpu := (cpu reg).
Local Abbreviation execs := (X86.execs 8 RSP).
Local Abbreviation run_rm := (X86.run_rm 8 RSP).
Local Abbreviation run_im := (X86.run_im 8 RSP).
Local Abbreviation run_mr := (X86.run_mr 8 RSP).
Local Abbreviation run_lea := (X86.run_lea 8 RSP).
Local Abbreviation run_ir := (X86.run_ir 8 RSP).
Local Abbreviation run_push := (X86.run_push 8 RSP).
Local Abbreviation run_ret := (X86.run_ret 8 RSP).

(** ** The two routines *)

Definition setmcontext : list (instr reg) :=
  [ mov_mr 16 RDI RSI;
    mov_mr 24 RDI RDX;
    mov_mr 32 RDI RCX;
    mov_mr 40 RDI R8;
    mov_mr 48 RDI R9;
    mov_mr 56 RDI RAX;
    mov_mr 64 RDI RBX;
    mov_mr 72 RDI RBP;
    mov_mr 80 RDI R10;
    mov_mr 88 RDI R11;
    mov_mr 96 RDI R12;
    mov_mr 104 RDI R13;
    mov_mr 112 RDI R14;
    mov_mr 120 RDI R15;
    mov_mr 184 RDI RSP;
    push_m 160 RDI;
    mov_mr 8 RDI RDI;
    retn ].

Definition getmcontext : list (instr reg) :=
  [ mov_rm RDI 8 RDI;
    mov_rm RSI 16 RDI;
    mov_rm RDX 24 RDI;
    mov_rm RCX 32 RDI;
    mov_rm R8 40 RDI;
    mov_rm R9 48 RDI;
    mov_im 1 56 RDI;
    mov_rm RBX 64 RDI;
    mov_rm RBP 72 RDI;
    mov_rm R10 80 RDI;
    mov_rm R11 88 RDI;
    mov_rm R12 96 RDI;
    mov_rm R13 104 RDI;
    mov_rm R14 112 RDI;
    mov_rm R15 120 RDI;
    mov_mr 0 RSP RCX;
    mov_rm RCX 160 RDI;
    lea 8 RSP RCX;
    mov_rm RCX 184 RDI;
    mov_mr 32 RDI RCX;
    mov_ir 0 RAX;
    retn ].

(** ** [makecontext]

    [mc] is the address of [ucp->uc_mcontext], a structure of 100 words, and
    [ss_sp], [ss_size] are the fields of [ucp->uc_stack].  The argument list
    is [va]; [va_arg(va, int)] takes the low 32 bits of an argument. *)
Definition MC_WORDS : nat := 100.
Definition mc_rdi : Z := 8.
Definition mc_rsi : Z := 16.
Definition mc_rip : Z := 160.
Definition mc_rsp : Z := 184.

Fixpoint memset0 (n : nat) (a : Z) : M cpu unit :=
  match n with O => ret tt | S n' => wr a 0 ;;; memset0 n' (a + 8) end.

Definition va_int (va : list Z) (i : nat) : Z := i32 (default 0 (va !! i)).

Definition makecontext (mc ss_sp ss_size func argc : Z) (va : list Z) : M cpu unit :=
  memset0 MC_WORDS mc ;;;
  when (negb (argc =? 2)) (wr 0 0) ;;;
  wr (mc + mc_rdi) (va_int va 0) ;;;
  wr (mc + mc_rsi) (va_int va 1) ;;;
  let sp := ss_sp + ss_size / 8 * 8 in
  let sp := sp - argc * 8 in
  let sp := sp - sp mod 16 in
  let sp := sp - 8 in
  wr sp 0 ;;;
  wr (mc + mc_rip) func ;;;
  wr (mc + mc_rsp) sp.

(** ** Symbolic execution *)

Definition mc_mapped (m : gmap Z Z) (mc : Z) : Prop := forall i, 0 <= i < 100 -> mapped m (mc + 8 * i).
Definition outside (mc a : Z) : Prop := forall i, 0 <= i < 100 -> a <> mc + 8 * i.

Lemma mc_word m mc off : mc_mapped m mc -> off mod 8 = 0 -> 0 <= off < 800 -> mapped m (mc + off).
Proof.
  intros Hm H0 Hr. replace off with (8 * (off / 8)) by (pose proof (Z.div_mod off 8); lia).
  apply Hm. split; [apply Z.div_pos; lia|apply Z.div_lt_upper_bound; lia].
Qed.

Lemma mc_apart mc a off : outside mc a -> off mod 8 = 0 -> 0 <= off < 800 -> mc + off <> a.
Proof.
  intros Ho H0 Hr E. apply (Ho (off / 8)); [split; [apply Z.div_pos; lia|apply Z.div_lt_upper_bound; lia]|].
  pose proof (Z.div_mod off 8); lia.
Qed.

(** Lookups in a memory with some words of the structure written. *)
Ltac apart := first [lia | eapply mc_apart; [eassumption|reflexivity|lia] |
  apply not_eq_sym; eapply mc_apart; [eassumption|reflexivity|lia]].
Ltac words :=
  repeat first [rewrite lookup_insert_eq | rewrite lookup_insert_ne by apart]; try reflexivity; try assumption.
Ltac mapped_mc := repeat apply mapped_word; eapply mc_word; [eassumption|reflexivity|lia].

(** The structure at [mc] holds the registers [V] and the program counter
    [ip]. *)
Definition holds (m : gmap Z Z) (mc : Z) (V : reg -> Z) (ip : Z) : Prop :=
  m !! (mc + 8) = Some (V RDI) /\ m !! (mc + 16) = Some (V RSI) /\ m !! (mc + 24) = Some (V RDX) /\
  m !! (mc + 32) = Some (V RCX) /\ m !! (mc + 40) = Some (V R8) /\ m !! (mc + 48) = Some (V R9) /\
  m !! (mc + 56) = Some (V RAX) /\ m !! (mc + 64) = Some (V RBX) /\ m !! (mc + 72) = Some (V RBP) /\
  m !! (mc + 80) = Some (V R10) /\ m !! (mc + 88) = Some (V R11) /\ m !! (mc + 96) = Some (V R12) /\
  m !! (mc + 104) = Some (V R13) /\ m !! (mc + 112) = Some (V R14) /\ m !! (mc + 120) = Some (V R15) /\
  m !! (mc + 160) = Some ip /\ m !! (mc + 184) = Some (V RSP).

(** [setmcontext] loads them; it writes the program counter below the new top
    of the stack. *)
Lemma set_run p R m mc V ip :
  R RDI = mc -> holds m mc V ip -> mapped m (V RSP - 8) -> outside mc (V RSP - 8) ->
  exists R', execs setmcontext (mk_cpu p R m) = Ok (tt, mk_cpu ip R' (<[V RSP - 8 := ip]> m)) /\
    forall r, R' r = V r.
Proof.
  intros Hdi Hh Hsp Hout. unfold holds in Hh. destruct_and!. unfold setmcontext.
  do 15 (erewrite run_mr by (rg; rewrite Hdi; eassumption)).
  erewrite run_push by (rg; rewrite ?Hdi; eassumption).
  erewrite run_mr by (rg; rewrite Hdi, lookup_insert_ne by (apply not_eq_sym; apart); eassumption).
  rewrite (run_ret _ _ _ ip) by (rg; apply lookup_insert_eq).
  rg. eexists. split; [reflexivity|]. intros r. destruct r; rg; try done. lia.
Qed.

Lemma get_run p R m mc ra :
  R RDI = mc -> mc_mapped m mc -> outside mc (R RSP) -> m !! R RSP = Some ra ->
  exists R' m', execs getmcontext (mk_cpu p R m) = Ok (tt, mk_cpu ra R' m') /\ R' RAX = 0 /\ R' RSP = R RSP + 8 /\
    (forall r, r <> RAX -> r <> RSP -> R' r = R r) /\ holds m' mc (upd (upd R RAX 1) RSP (R RSP + 8)) ra /\
    (forall a, outside mc a -> m' !! a = m !! a).
Proof.
  intros Hdi Hmc Hout Hra. unfold getmcontext.
  do 6 (rewrite run_rm by (rewrite Hdi; mapped_mc)).
  rewrite run_im by (rewrite Hdi; mapped_mc).
  do 8 (rewrite run_rm by (rewrite Hdi; mapped_mc)).
  rewrite Hdi.
  rewrite (run_mr _ _ _ _ 0 RSP RCX ra) by (rewrite Z.add_0_r; words).
  rewrite run_rm by (rg; rewrite Hdi; mapped_mc). rewrite run_lea.
  rewrite run_rm by (rg; rewrite Hdi; mapped_mc). rg. rewrite Hdi.
  rewrite (run_mr _ _ _ _ 32 RDI RCX (R RCX)) by (rg; rewrite Hdi; words).
  rewrite run_ir, (run_ret _ _ _ ra) by (rg; words). rg.
  eexists _, _. split; [reflexivity|]. split_and!; try done.
  - intros r Hr1 Hr2. destruct r; done.
  - unfold holds. rewrite <- Hdi. split_and!; words.
  - intros a Ha. words.
Qed.

Lemma holds_same m m' mc V ip :
  (forall i, 0 <= i < 100 -> m' !! (mc + 8 * i) = m !! (mc + 8 * i)) -> holds m mc V ip -> holds m' mc V ip.
Proof.
  intros Hm Hh. assert (Ho : forall off, off mod 8 = 0 -> 0 <= off < 800 -> m' !! (mc + off) = m !! (mc + off)).
  { intros off H0 Hr. replace off with (8 * (off / 8)) by (pose proof (Z.div_mod off 8); lia).
    apply Hm. split; [apply Z.div_pos; lia|apply Z.div_lt_upper_bound; lia]. }
  unfold holds in *. by rewrite !Ho by first [reflexivity | lia].
Qed.

(** [getcontext] returns twice.  The first time it returns 0 to its caller,
    with every register as the caller had it.  When some code, at any later
    time and with any registers, calls [setcontext] on the structure, whose
    words are still as [getcontext] left them, execution continues at the same
    place with the same registers and stack pointer and the result 1, whatever
    has become of the rest of the memory; only the slot of the return address
    is written, with the value it had. *)
Theorem getcontext_returns_twice p R m mc ra :
  R RDI = mc -> mc_mapped m mc -> outside mc (R RSP) -> m !! R RSP = Some ra ->
  exists R1 m1, execs getmcontext (mk_cpu p R m) = Ok (tt, mk_cpu ra R1 m1) /\
    R1 RAX = 0 /\ R1 RSP = R RSP + 8 /\ (forall r, r <> RAX -> r <> RSP -> R1 r = R r) /\
    (forall a, outside mc a -> m1 !! a = m !! a) /\
    forall p2 R2 m2, R2 RDI = mc -> (forall i, 0 <= i < 100 -> m2 !! (mc + 8 * i) = m1 !! (mc + 8 * i)) ->
      mapped m2 (R RSP) ->
      exists R3, execs setmcontext (mk_cpu p2 R2 m2) = Ok (tt, mk_cpu ra R3 (<[R RSP := ra]> m2)) /\
        R3 RAX = 1 /\ forall r, r <> RAX -> R3 r = R1 r.
Proof.
  intros Hdi Hmc Hout Hra. destruct (get_run p R m mc ra) as (R1 & m1 & Hget & Hax & Hsp & Hr & Hh & Ha); [done..|].
  exists R1, m1. split_and!; try done. intros p2 R2 m2 Hdi2 Hm2 Hsp2.
  set (V := upd (upd R RAX 1) RSP (R RSP + 8)) in *. assert (E : V RSP - 8 = R RSP) by (unfold V; rg; lia).
  destruct (set_run p2 R2 m2 mc V ra) as (R3 & Hset & HR3); [done|by eapply holds_same|by rewrite E|by rewrite E|].
  rewrite E in Hset. exists R3. split_and!; [done|by rewrite HR3|]. intros r Hrax. rewrite HR3. unfold V.
  destruct (decide (r = RSP)) as [->|Hrsp]; rg; [done|]. rewrite !upd_ne by done. by rewrite Hr.
Qed.

(** ** Fresh contexts *)

Lemma memset0_run n a p R m :
  (forall i, 0 <= i < Z.of_nat n -> mapped m (a + 8 * i)) ->
  exists m', memset0 n a (mk_cpu p R m) = Ok (tt, mk_cpu p R m') /\
    (forall i, 0 <= i < Z.of_nat n -> m' !! (a + 8 * i) = Some 0) /\
    (forall b, (forall i, 0 <= i < Z.of_nat n -> b <> a + 8 * i) -> m' !! b = m !! b).
Proof.
  revert a m. induction n as [|n IH]; intros a m Hm; [exists m; split_and!; [done|lia|done]|]. cbn [memset0].
  destruct (IH (a + 8) (<[a := 0]> m)) as (m' & Hrun & Hz & Ho).
  { intros i Hi. apply mapped_word. replace (a + 8 + 8 * i) with (a + 8 * (i + 1)) by lia. apply Hm. lia. }
  exists m'. split_and!.
  - rewrite (bind_ok _ _ _ tt (mk_cpu p R (<[a := 0]> m))); [done|]. apply wr_run. rewrite <- (Z.add_0_r a).
    apply (Hm 0). lia.
  - intros i Hi. destruct (decide (i = 0)) as [->|Hi0].
    + rewrite Ho by lia. replace (a + 8 * 0) with a by lia. apply lookup_insert_eq.
    + replace (a + 8 * i) with (a + 8 + 8 * (i - 1)) by lia. apply Hz. lia.
  - intros b Hb. rewrite Ho.
    + apply lookup_insert_ne. specialize (Hb 0). lia.
    + intros i Hi. replace (a + 8 + 8 * i) with (a + 8 * (i + 1)) by lia. apply Hb. lia.
Qed.

(** The stack of a context: words that are mapped and not part of [mc]. *)
Definition stack_mapped (m : gmap Z Z) (mc ss_sp ss_size : Z) : Prop :=
  forall a, ss_sp <= a -> a + 8 <= ss_sp + ss_size -> a mod 8 = 0 -> mapped m a /\ outside mc a.

(** The stack pointer that [makecontext] computes. *)
Definition top_of (ss_sp ss_size : Z) : Z :=
  let sp := ss_sp + ss_size / 8 * 8 - 2 * 8 in sp - sp mod 16 - 8.

Lemma top_of_range ss_sp ss_size :
  64 <= ss_size ->
  ss_sp <= top_of ss_sp ss_size - 8 /\ top_of ss_sp ss_size + 16 <= ss_sp + ss_size /\ (top_of ss_sp ss_size + 8) mod 16 = 0.
Proof.
  intros Hs. unfold top_of. cbv zeta. pose proof (Z.div_mod ss_size 8). pose proof (Z.mod_pos_bound ss_size 8).
  set (x := ss_sp + ss_size / 8 * 8 - 2 * 8). pose proof (Z.mod_pos_bound x 16). split_and!; [lia..|].
  replace (x - x mod 16 - 8 + 8) with (16 * (x / 16)) by (pose proof (Z.div_mod x 16); lia).
  rewrite Z.mul_comm. by apply Z.mod_mul.
Qed.

(** The registers of the fresh context. *)
Definition fresh (sp x y : Z) : reg -> Z := upd (upd (upd (fun _ => 0) RDI (i32 x)) RSI (i32 y)) RSP sp.

Lemma makecontext_run p R m mc ss_sp ss_size func x y :
  let sp := top_of ss_sp ss_size in
  mc_mapped m mc -> mapped m sp -> outside mc sp ->
  exists m', makecontext mc ss_sp ss_size func 2 [x; y] (mk_cpu p R m) = Ok (tt, mk_cpu p R m') /\
    holds m' mc (fresh sp x y) func /\ m' !! sp = Some 0 /\
    (forall a, outside mc a -> a <> sp -> m' !! a = m !! a).
Proof.
  intros sp Hmc Hsp Hout. destruct (memset0_run MC_WORDS mc p R m Hmc) as (m0 & Hrun & Hz & Ho).
  assert (Hw : forall off, off mod 8 = 0 -> 0 <= off < 800 -> m0 !! (mc + off) = Some 0).
  { intros off H0 Hr. replace off with (8 * (off / 8)) by (pose proof (Z.div_mod off 8); lia).
    apply Hz. split; [apply Z.div_pos; lia|apply Z.div_lt_upper_bound; [lia|]]. unfold MC_WORDS. lia. }
  assert (Hmc0 : mc_mapped m0 mc) by (intros i Hi; unfold mapped; rewrite Hz by (unfold MC_WORDS; lia); by eexists).
  assert (Hsp0 : mapped m0 sp) by (unfold mapped; by rewrite Ho).
  exists (<[mc + mc_rsp := sp]> (<[mc + mc_rip := func]> (<[sp := 0]> (<[mc + mc_rsi := i32 y]> (<[mc + mc_rdi := i32 x]> m0))))).
  unfold mc_rsp, mc_rip, mc_rsi, mc_rdi. split_and!.
  - unfold makecontext, mc_rsp, mc_rip, mc_rsi, mc_rdi. rewrite (bind_ok _ _ _ _ _ Hrun). cbn [Z.eqb Pos.eqb negb when].
    rewrite (bind_ok (ret tt) _ _ tt _ eq_refl). change (2 * 8) with 16. fold sp. 
    do 4 (erewrite bind_ok by (apply wr_run; cbn [mem set_word]; first [mapped_mc | repeat apply mapped_word; exact Hsp0])).
    rewrite wr_run by (cbn [mem set_word]; mapped_mc). done.
  - unfold holds, fresh. split_and!; rg; words; by apply Hw; [reflexivity|lia].
  - words.
  - intros a Ha Hne. words. by apply Ho.
Qed.

(** A context made by [makecontext] with two arguments on a stack of at
    least 64 bytes: [setcontext] enters the function with the arguments, cut
    to 32 bits, in the registers of the calling convention, on a stack pointer
    inside the given stack that is aligned as at the entry of a function, and
    with a null return address on top; nothing outside of the structure and
    the stack is written. *)
Theorem makecontext_enters p R m mc ss_sp ss_size func x y :
  mc_mapped m mc -> 64 <= ss_size -> stack_mapped m mc ss_sp ss_size ->
  exists m', makecontext mc ss_sp ss_size func 2 [x; y] (mk_cpu p R m) = Ok (tt, mk_cpu p R m') /\
    (forall a, outside mc a -> a < ss_sp \/ ss_sp + ss_size <= a -> m' !! a = m !! a) /\
    forall p2 R2, R2 RDI = mc ->
      exists R3 m3, execs setmcontext (mk_cpu p2 R2 m') = Ok (tt, mk_cpu func R3 m3) /\
        R3 RDI = i32 x /\ R3 RSI = i32 y /\ m3 !! R3 RSP = Some 0 /\
        ss_sp <= R3 RSP /\ R3 RSP + 8 <= ss_sp + ss_size /\ (R3 RSP + 8) mod 16 = 0.
Proof.
  intros Hmc Hs Hst. destruct (top_of_range ss_sp ss_size Hs) as (Hlo & Hhi & Hal). set (sp := top_of ss_sp ss_size) in *.
  assert (Hal8 : sp mod 8 = 0 /\ (sp - 8) mod 8 = 0).
  { pose proof (Z.div_mod (sp + 8) 16). split; [replace sp with ((2 * ((sp + 8) / 16) - 1) * 8) by lia|
      replace (sp - 8) with ((2 * ((sp + 8) / 16) - 2) * 8) by lia]; by apply Z.mod_mul. }
  destruct (Hst sp) as [Hm1 Ho1]; [lia|lia|apply Hal8|]. destruct (Hst (sp - 8)) as [Hm2 Ho2]; [lia|lia|apply Hal8|].
  destruct (makecontext_run p R m mc ss_sp ss_size func x y) as (m' & Hrun & Hh & Hz & Hfr); [done..|].
  exists m'. split_and!; [done|intros a Ha Hr; apply Hfr; [done|lia]|]. intros p2 R2 Hdi.
  destruct (set_run p2 R2 m' mc (fresh sp x y) func) as (R3 & Hset & HR3); [done|done| |done|].
  { unfold mapped. change (fresh sp x y RSP) with sp. rewrite Hfr by first [done | lia]. done. }
  exists R3, (<[sp - 8 := func]> m'). rewrite !HR3. change (fresh sp x y RSP) with sp. split_and!; try done; [|lia..].
  rewrite lookup_insert_ne by lia. done.
Qed.

(** The call of [makecontext] in the library has one argument
    ([init_coro]: the coroutine), for which this version writes to address 0:
    where it is used, the first coroutine that runs ends the process. *)
Theorem makecontext_one_argument_crashes p R m mc ss_sp ss_size func co :
  mc_mapped m mc -> outside mc 0 -> m !! 0 = None ->
  makecontext mc ss_sp ss_size func 1 [co] (mk_cpu p R m) = Err FSegv.
Proof.
  intros Hmc Hout H0. destruct (memset0_run MC_WORDS mc p R m Hmc) as (m0 & Hrun & _ & Ho).
  unfold makecontext. rewrite (bind_ok _ _ _ _ _ Hrun). cbn [Z.eqb Pos.eqb negb when].
  unfold wr at 1, bind, get_st. cbn [mem]. by rewrite Ho, H0 by done.
Qed.

(** ** Concrete contexts

    The structure is at 4096 and the stack at 8192, 256 bytes long. *)
Definition ex_mem : gmap Z Z :=
  list_to_map (((fun i => (4096 + 8 * Z.of_nat i, 0)) <$> seq 0 100) ++ ((fun i => (8192 + 8 * Z.of_nat i, 77)) <$> seq 0 32)).
Definition ex_regs (r : reg) : Z := match r with RDI => 4096 | RSP => 8400 | RBX => 5 | _ => 9 end.

Lemma ex_mapped_range a n base :
  forallb (fun i => if ex_mem !! (base + 8 * Z.of_nat i) then true else false) (seq 0 n) = true ->
  base <= a -> a + 8 <= base + 8 * Z.of_nat n -> (a - base) mod 8 = 0 -> mapped ex_mem a.
Proof.
  intros Hall Hlo Hhi Hmod. pose proof (Z.div_mod (a - base) 8) as Hd.
  rewrite forallb_forall in Hall. specialize (Hall (Z.to_nat ((a - base) / 8))).
  unfold mapped. replace a with (base + 8 * Z.of_nat (Z.to_nat ((a - base) / 8))) by lia.
  destruct (ex_mem !! _); [by eexists|]. discriminate Hall. apply in_seq. lia.
Qed.

Lemma ex_mc_mapped : mc_mapped ex_mem 4096.
Proof.
  intros i Hi. apply (ex_mapped_range _ 100 4096); [by vm_compute|lia|lia|].
  replace (4096 + 8 * i - 4096) with (i * 8) by lia. by apply Z.mod_mul.
Qed.

Lemma getcontext_returns_twice_witness :
  exists R1 m1, execs getmcontext (mk_cpu 1 ex_regs ex_mem) = Ok (tt, mk_cpu 77 R1 m1) /\ R1 RAX = 0 /\
  exists R3, execs setmcontext (mk_cpu 2 (fun _ => 4096) m1) = Ok (tt, mk_cpu 77 R3 (<[8400 := 77]> m1)) /\
    R3 RAX = 1 /\ R3 RBX = 5.
Proof.
  destruct (getcontext_returns_twice 1 ex_regs ex_mem 4096 77) as (R1 & m1 & Hget & Hax & _ & Hr & Hfr & Hset).
  - done.
  - apply ex_mc_mapped.
  - intros i Hi. simpl. lia.
  - by vm_compute.
  - exists R1, m1. split; [exact Hget|]. split; [exact Hax|].
    destruct (Hset 2 (fun _ => 4096) m1) as (R3 & Hrun & Hax3 & Hr3); [reflexivity|reflexivity| |].
    { exists 77. change (ex_regs RSP) with 8400. rewrite (Hfr 8400) by (intros i Hi; lia). vm_compute. reflexivity. }
    exists R3. split; [exact Hrun|]. split; [exact Hax3|]. by rewrite Hr3, Hr by done.
Defined.

Lemma makecontext_enters_witness :
  exists m', makecontext 4096 8192 256 1234 2 [7; 8] (mk_cpu 1 ex_regs ex_mem) = Ok (tt, mk_cpu 1 ex_regs m') /\
  exists R3 m3, execs setmcontext (mk_cpu 2 (fun _ => 4096) m') = Ok (tt, mk_cpu 1234 R3 m3) /\
    R3 RDI = 7 /\ R3 RSI = 8 /\ m3 !! R3 RSP = Some 0.
Proof.
  destruct (makecontext_enters 1 ex_regs ex_mem 4096 8192 256 1234 7 8) as (m' & Hmk & _ & Hset).
  - apply ex_mc_mapped.
  - lia.
  - intros a Hlo Hhi Hmod. split; [|intros i Hi; lia]. apply (ex_mapped_range _ 32 8192); [by vm_compute|lia|lia|].
    rewrite Zminus_mod, Hmod. done.
  - exists m'. split; [exact Hmk|]. destruct (Hset 2 (fun _ => 4096) eq_refl) as (R3 & m3 & Hrun & Hdi & Hsi & Hz & _).
    exists R3, m3. split; [exact Hrun|]. split; [exact Hdi|]. split; [exact Hsi|exact Hz].
Defined.

Lemma makecontext_one_argument_crashes_witness :
  makecontext 4096 8192 256 1234 1 [16] (mk_cpu 1 ex_regs ex_mem) = Err FSegv.
Proof.
  apply makecontext_one_argument_crashes.
  - apply ex_mc_mapped.
  - intros i Hi. lia.
  - by vm_compute.
Defined.

End Amd64.
