(* ===== verification/I386.v ===== *)
(** * Context switches on i386

    [makecontext] of [src/uctx_context.c], [getmcontext] and [setmcontext] of
    [src/uctx_asm.S] and the structure of [include/dyco/uctx_386.h].  The
    argument of the routines is on the stack, above the return address. *)
From S2P Require Import Prelude Machine X86.

Local Open Scope Z_scope.
Local Open Scope dyco_scope.

Module I386.

Inductive reg := EAX | EBX | ECX | EDX | ESI | EDI | EBP | ESP | FS | ES | DS | SS.

#[global] Instance reg_eq_dec : EqDecision reg.
Proof. solve_decision. Defined.

Local Abbreviation execs := (X86.execs 4 ESP).

(** ** The structure: 65 words *)
Definition MC_WORDS : Z := 65.
Definition mc_eip : Z := 60.
Definition mc_esp : Z := 72.

(** ** The two routines *)
Definition setmcontext : list (instr reg) :=
  [ mov_mr 4 ESP EAX;
    mov_mr 8 EAX FS;
    mov_mr 12 EAX ES;
    mov_mr 16 EAX DS;
    mov_mr 76 EAX SS;
    mov_mr 20 EAX EDI;
    mov_mr 24 EAX ESI;
    mov_mr 28 EAX EBP;
    mov_mr 36 EAX EBX;
    mov_mr 40 EAX EDX;
    mov_mr 44 EAX ECX;
    mov_mr 72 EAX ESP;
    push_m 60 EAX;
    mov_mr 48 EAX EAX;
    retn ].

Definition getmcontext : list (instr reg) :=
  [ mov_mr 4 ESP EAX;
    mov_rm FS 8 EAX;
    mov_rm ES 12 EAX;
    mov_rm DS 16 EAX;
    mov_rm SS 76 EAX;
    mov_rm EDI 20 EAX;
    mov_rm ESI 24 EAX;
    mov_rm EBP 28 EAX;
    mov_rm EBX 36 EAX;
    mov_rm EDX 40 EAX;
    mov_rm ECX 44 EAX;
    mov_im 1 48 EAX;
    mov_mr 0 ESP ECX;
    mov_rm ECX 60 EAX;
    lea 4 ESP ECX;
    mov_rm ECX 72 EAX;
    mov_mr 44 EAX ECX;
    mov_ir 0 EAX;
    retn ].

(** ** [makecontext]

    [mc] is the address of [ucp->uc_mcontext]; [ss_sp] and [ss_size] are the
    fields of [ucp->uc_stack].  The arguments [va] are the words after [argc]
    on the stack of the caller. *)
Fixpoint memmove_args (sp : Z) (va : list Z) : M (cpu reg) unit :=
  match va with [] => ret tt | x :: va' => wr sp x ;;; memmove_args (sp + 4) va' end.

Definition makecontext (mc ss_sp ss_size func argc : Z) (va : list Z) : M (cpu reg) unit :=
  let sp := ss_sp + ss_size / 4 * 4 in
  let sp := sp - argc * 4 in
  let sp := sp - sp mod 16 in
  memmove_args sp (take (Z.to_nat argc) va) ;;;
  let sp := sp - 4 in
  wr sp 0 ;;;
  wr (mc + mc_eip) func ;;;
  wr (mc + mc_esp) sp.

(** ** Saving and restoring *)

(** The saved registers with their places. *)
Definition regs0 : list (reg * Z) :=
  [(FS, 8); (ES, 12); (DS, 16); (SS, 76); (EDI, 20); (ESI, 24); (EBP, 28); (EBX, 36); (EDX, 40); (ECX, 44)].
Definition slots : list (reg * Z) := (EAX, 48) :: (ESP, 72) :: regs0.
Definition holds (m : gmap Z Z) (mc : Z) (V : reg -> Z) (ip : Z) : Prop :=
  saved slots m mc V /\ m !! (mc + mc_eip) = Some ip.

Definition mc_mapped (m : gmap Z Z) (mc : Z) : Prop := forall i, 0 <= i < MC_WORDS -> mapped m (mc + 4 * i).
Definition outside (mc a : Z) : Prop := a < mc \/ mc + 4 * MC_WORDS <= a.

Lemma i386_mc_word m mc off : mc_mapped m mc -> 0 <= off < 260 -> off mod 4 = 0 -> mapped m (mc + off).
Proof.
  intros Hm Hr H0. replace off with (4 * (off / 4)) by (pose proof (Z.div_mod off 4); lia).
  apply Hm. unfold MC_WORDS. Z.to_euclidean_division_equations; lia.
Qed.

Lemma i386_slots_ok m mc l :
  mc_mapped m mc -> Forall (fun q : reg * Z => 0 <= q.2 < 260 /\ q.2 mod 4 = 0) l -> slots_mapped l m mc.
Proof. intros Hm Hl. eapply Forall_impl; [exact Hl|]. intros q [Hq H0]. by apply i386_mc_word. Qed.

Lemma write_outside l mc V m a :
  outside mc a -> Forall (fun q : reg * Z => 0 <= q.2 < 260) l -> write_slots l mc V m !! a = m !! a.
Proof.
  intros Ho Hl. apply write_slots_other. intros q Hq. rewrite Forall_forall in Hl. specialize (Hl q Hq).
  unfold outside, MC_WORDS in Ho. lia.
Qed.

Lemma i386_get_run p R m mc ra :
  mc_mapped m mc -> outside mc (R ESP) -> m !! R ESP = Some ra -> m !! (R ESP + 4) = Some mc ->
  exists R' m', execs getmcontext (mk_cpu p R m) = Ok (tt, mk_cpu ra R' m') /\ R' EAX = 0 /\ R' ESP = R ESP + 4 /\
    (forall r, r <> EAX -> r <> ESP -> R' r = R r) /\ holds m' mc (upd (upd R EAX 1) ESP (R ESP + 4)) ra /\
    (forall a, outside mc a -> m' !! a = m !! a).
Proof.
  intros Hm Ho Hra Hmc.
  change getmcontext with ([mov_mr 4 ESP EAX] ++ saves EAX regs0 ++ [mov_im 1 48 EAX; mov_mr 0 ESP ECX; mov_rm ECX 60 EAX;
    lea 4 ESP ECX; mov_rm ECX 72 EAX; mov_mr 44 EAX ECX; mov_ir 0 EAX; retn]). cbn [app].
  rewrite (run_mr _ _ _ _ _ _ _ _ _ mc) by done. set (R1 := upd R EAX mc). assert (E : R1 EAX = mc) by done.
  rewrite run_saves by (rewrite E; apply i386_slots_ok; [done|by_slots]). rewrite E. set (m1 := write_slots regs0 mc R1 m).
  assert (Hm1 : forall off, off mod 4 = 0 -> 0 <= off < 260 -> mapped m1 (mc + off)).
  { intros off H0 Hr. by apply write_slots_mapped, i386_mc_word. }
  assert (Hs1 : saved regs0 m1 mc R1) by (apply write_slots_saved; by_slots).
  rewrite run_im by (rewrite E; by apply Hm1). rewrite E.
  rewrite (run_mr _ _ _ _ _ _ _ _ _ ra).
  2: { rewrite Z.add_0_r. unfold outside, MC_WORDS in Ho. rewrite lookup_insert_ne by (unfold R1; rewrite upd_ne by done; lia).
       unfold R1 at 1. rewrite upd_ne by done. unfold m1. rewrite write_outside; [done|done|by_slots]. }
  rewrite run_rm by (rewrite upd_ne, E by done; by apply mapped_word, Hm1). rewrite upd_ne, E, upd_eq by done.
  rewrite run_lea. rewrite run_rm by (rewrite !upd_ne, E by done; by do 2 apply mapped_word; apply Hm1).
  rewrite (run_mr _ _ _ _ _ _ _ _ _ (R ECX)).
  2: { rewrite !upd_ne, E by done. rewrite !lookup_insert_ne by lia.
       unfold saved, regs0 in Hs1. rewrite !Forall_cons in Hs1. apply Hs1. }
  rewrite run_ir, (run_ret _ _ _ _ _ ra).
  2: { rg. rewrite ?E. unfold R1. rg. unfold outside, MC_WORDS in Ho. rewrite !lookup_insert_ne by lia.
       unfold m1. rewrite write_outside; [done|done|by_slots]. }
  eexists _, _. split; [reflexivity|]. split_and!.
  - done.
  - done.
  - intros r H1 H2. destruct r; done.
  - rg. rewrite ?E. split; [|unfold mc_eip; rewrite lookup_insert_ne by lia; apply lookup_insert_eq].
    constructor; [cbn [snd fst]; rewrite !lookup_insert_ne by lia; apply lookup_insert_eq|].
    constructor; [apply lookup_insert_eq|].
    eapply saved_same; [|eapply saved_ext; [|exact Hs1]].
    + intros q Hq. assert (Ha : Forall (fun q : reg * Z => q.2 <> 48 /\ q.2 <> 60 /\ q.2 <> 72) regs0) by by_slots.
      rewrite Forall_forall in Ha. specialize (Ha q Hq). by rewrite !lookup_insert_ne by lia.
    + intros q Hq. assert (Ha : Forall (fun q : reg * Z => q.1 <> EAX /\ q.1 <> ESP) regs0) by by_slots.
      rewrite Forall_forall in Ha. specialize (Ha q Hq). unfold R1. by rewrite !upd_ne by (apply not_eq_sym; tauto).
  - intros a Ha. pose proof Ha as Ha'. rg. rewrite ?E. unfold outside, MC_WORDS in Ha'. rewrite !lookup_insert_ne by lia.
    unfold m1. by rewrite write_outside; [|done|by_slots].
Qed.

Lemma i386_set_run p R m mc V ip :
  m !! (R ESP + 4) = Some mc -> holds m mc V ip -> mapped m (V ESP - 4) -> outside mc (V ESP - 4) ->
  exists R', execs setmcontext (mk_cpu p R m) = Ok (tt, mk_cpu ip R' (<[V ESP - 4 := ip]> m)) /\
    forall r, R' r = V r.
Proof.
  intros Hmc [Hs Hip] Hsp Ho. apply Forall_cons in Hs as [Hax Hs]. apply Forall_cons in Hs as [Hes Hs]. cbn [fst snd] in Hax, Hes.
  change setmcontext with ([mov_mr 4 ESP EAX] ++ loads EAX regs0 ++ [mov_mr 72 EAX ESP; push_m 60 EAX; mov_mr 48 EAX EAX; retn]).
  cbn [app]. rewrite (run_mr _ _ _ _ _ _ _ _ _ mc) by done. set (R1 := upd R EAX mc). assert (E : R1 EAX = mc) by done.
  edestruct (run_restores 4 ESP EAX regs0 p R1 V m) as (R2 & Hrun & HR2); [by_slots|by rewrite E|]. rewrite Hrun.
  assert (E2 : R2 EAX = mc) by (rewrite HR2, loaded_out by by_slots; done).
  rewrite (run_mr _ _ _ _ _ _ _ _ _ (V ESP)) by (by rewrite E2).
  erewrite run_push by (rg; rewrite ?E2; eassumption). rg.
  erewrite run_mr by (rg; rewrite E2, lookup_insert_ne by (unfold outside, MC_WORDS in Ho; lia); eassumption).
  rewrite (run_ret _ _ _ _ _ ip) by (rg; apply lookup_insert_eq). rg.
  eexists. split; [reflexivity|]. intros r.
  assert (Hr : r = EAX \/ r = ESP \/ (r <> EAX /\ r <> ESP /\ r ∈ regs0.*1)).
  { destruct r; try (by left); try (by right; left); right; right; split_and!; first [done | by_slots]. }
  destruct Hr as [->|[->|(H1 & H2 & H3)]]; rg; [done|lia|]. rewrite !upd_ne by congruence. rewrite HR2. by apply loaded_in.
Qed.

(** ** Fresh contexts *)

Lemma memmove_args_run sp va p R m :
  (forall i, 0 <= i < Z.of_nat (length va) -> mapped m (sp + 4 * i)) ->
  exists m', memmove_args sp va (mk_cpu p R m) = Ok (tt, mk_cpu p R m') /\
    (forall i x, va !! i = Some x -> m' !! (sp + 4 * Z.of_nat i) = Some x) /\
    (forall a, (forall i, 0 <= i < Z.of_nat (length va) -> a <> sp + 4 * i) -> m' !! a = m !! a) /\
    (forall a, mapped m a -> mapped m' a).
Proof.
  revert sp m. induction va as [|x va IH]; intros sp m Hm; [exists m; by split_and!|]. cbn [memmove_args length] in *.
  destruct (IH (sp + 4) (<[sp := x]> m)) as (m' & Hrun & Hi & Ho & Hk).
  { intros i Hi. apply mapped_word. replace (sp + 4 + 4 * i) with (sp + 4 * (i + 1)) by lia. apply Hm. lia. }
  exists m'. split_and!.
  - erewrite bind_ok; [exact Hrun|]. apply wr_run. replace sp with (sp + 4 * 0) by lia. apply Hm. lia.
  - intros [|i] y Hy; [injection Hy as <-; replace (sp + 4 * Z.of_nat 0) with sp by lia; rewrite Ho by lia; apply lookup_insert_eq|].
    replace (sp + 4 * Z.of_nat (S i)) with (sp + 4 + 4 * Z.of_nat i) by lia. by apply Hi.
  - intros a Ha. rewrite Ho by (intros i Hr; specialize (Ha (i + 1)); lia). apply lookup_insert_ne. specialize (Ha 0). lia.
  - intros a Ha. by apply Hk, mapped_word.
Qed.

(** The words of a stack are mapped and not part of the structure. *)
Definition stack_mapped (m : gmap Z Z) (mc ss_sp ss_size : Z) : Prop :=
  forall a, ss_sp <= a -> a + 4 <= ss_sp + ss_size -> a mod 4 = 0 -> mapped m a /\ outside mc a.

(** A context made by [makecontext] from one that [getcontext] has filled, on
    a stack with room for the arguments: [setcontext] enters the function with
    a null return address on top of the stack and the arguments, as they were
    given, above it, aligned as the calling convention has it. *)
Lemma makecontext_enters_i386 p R m mc ss_sp ss_size func va V ip :
  mc_mapped m mc -> holds m mc V ip -> stack_mapped m mc ss_sp ss_size -> ss_sp mod 4 = 0 ->
  28 + 4 * Z.of_nat (length va) <= ss_size ->
  exists m', makecontext mc ss_sp ss_size func (Z.of_nat (length va)) va (mk_cpu p R m) = Ok (tt, mk_cpu p R m') /\
    forall p2 R2, m' !! (R2 ESP + 4) = Some mc ->
      exists R3 m3, execs setmcontext (mk_cpu p2 R2 m') = Ok (tt, mk_cpu func R3 m3) /\
        m3 !! R3 ESP = Some 0 /\ (forall i x, va !! i = Some x -> m3 !! (R3 ESP + 4 + 4 * Z.of_nat i) = Some x) /\
        ss_sp < R3 ESP /\ (R3 ESP + 4) mod 16 = 0 /\ (forall r, r <> ESP -> R3 r = V r).
Proof.
  intros Hm [Hs Hip] Hst Hal Hsz. set (n := Z.of_nat (length va)) in *.
  set (top := ss_sp + ss_size / 4 * 4 - n * 4). set (sp := top - top mod 16).
  assert (Hsp : ss_sp + 8 <= sp /\ sp + 4 * n <= ss_sp + ss_size /\ sp mod 16 = 0 /\ sp mod 4 = 0).
  { unfold sp, top. clear -Hsz Hal. Z.to_euclidean_division_equations; lia. }
  destruct Hsp as (Hlo & Hhi & H16 & H4).
  assert (Hin : forall a, ss_sp <= a -> a + 4 <= ss_sp + ss_size -> (sp - a) mod 4 = 0 -> mapped m a /\ outside mc a).
  { intros a H1 H2 H3. apply Hst; [done|done|]. clear -H3 H4. Z.to_euclidean_division_equations; lia. }
  destruct (memmove_args_run sp va p R m) as (m1 & Hrun & Hi & Ho & Hk).
  { intros i Hr. fold n in Hr. apply Hin; [lia|lia|]. replace (sp - (sp + 4 * i)) with (- i * 4) by lia. by apply Z.mod_mul. }
  fold n in Ho.
  destruct (Hin (sp - 4)) as [Ha1 Hb1]; [lia|lia|by replace (sp - (sp - 4)) with 4 by lia|].
  destruct (Hin (sp - 8)) as [Ha2 Hb2]; [lia|lia|by replace (sp - (sp - 8)) with 8 by lia|].
  assert (Harg : forall i, 0 <= i < n -> outside mc (sp + 4 * i)).
  { intros i Hr. apply Hin; [lia|lia|]. replace (sp - (sp + 4 * i)) with (- i * 4) by lia. by apply Z.mod_mul. }
  assert (Hmc1 : forall off, 0 <= off < 260 -> m1 !! (mc + off) = m !! (mc + off)).
  { intros off Hr. apply Ho. intros i Hn E. specialize (Harg i Hn). unfold outside, MC_WORDS in Harg. lia. }
  unfold outside, MC_WORDS in Hb1, Hb2, Harg.
  set (m' := <[mc + mc_esp := sp - 4]> (<[mc + mc_eip := func]> (<[sp - 4 := 0]> m1))). exists m'. split.
  - unfold makecontext. fold n. unfold n at 3. rewrite Nat2Z.id, take_ge by done. fold top. fold sp.
    rewrite (bind_ok _ _ _ _ _ Hrun). erewrite bind_ok by by apply wr_run, Hk.
    assert (Hw : forall off, 0 <= off < 260 -> off mod 4 = 0 -> mapped m1 (mc + off)) by (intros off H1 H2; by apply Hk, i386_mc_word).
    erewrite bind_ok by (apply wr_run, mapped_word, Hw; done). apply wr_run. cbn [mem set_word]. by do 2 apply mapped_word; apply Hw.
  - intros p2 R2 H2. destruct (i386_set_run p2 R2 m' mc (upd V ESP (sp - 4)) func) as (R3 & Hset & HR3); [done| | | |].
    + split; [|unfold m', mc_esp, mc_eip; rewrite lookup_insert_ne by lia; apply lookup_insert_eq].
      apply Forall_cons in Hs as [H1 Hs]. apply Forall_cons in Hs as [_ Hs].
      assert (Hoff : Forall (fun q : reg * Z => q.1 <> ESP /\ 0 <= q.2 < 260 /\ q.2 <> 60 /\ q.2 <> 72) ((EAX, 48) :: regs0)) by by_slots.
      assert (Hs' : saved ((EAX, 48) :: regs0) m' mc (upd V ESP (sp - 4))).
      { rewrite Forall_forall in Hoff. eapply saved_same; [|eapply saved_ext; [|exact (Forall_cons_2 _ (EAX, 48) _ H1 Hs)]].
        - intros q Hq. destruct (Hoff q Hq) as (_ & Hq1 & Hq2 & Hq3). unfold m', mc_esp, mc_eip.
          rewrite !lookup_insert_ne by lia. by apply Hmc1.
        - intros q Hq. destruct (Hoff q Hq) as [Hq1 _]. by rewrite upd_ne by congruence. }
      apply Forall_cons in Hs' as [Hs1 Hs']. constructor; [done|]. constructor; [apply lookup_insert_eq|done].
    + rewrite upd_eq. replace (sp - 4 - 4) with (sp - 8) by lia. by do 3 apply mapped_word; apply Hk.
    + rewrite upd_eq. unfold outside, MC_WORDS. lia.
    + rewrite upd_eq in Hset. exists R3, (<[sp - 4 - 4 := func]> m'). rewrite (HR3 ESP), upd_eq. split_and!; [done| | |lia| |].
      * unfold m', mc_esp, mc_eip. rewrite !lookup_insert_ne by lia. apply lookup_insert_eq.
      * intros i x Hx. replace (sp - 4 + 4 + 4 * Z.of_nat i) with (sp + 4 * Z.of_nat i) by lia.
        pose proof (Harg (Z.of_nat i)) as Hx1. apply lookup_lt_Some in Hx as Hlen.
        unfold m', mc_esp, mc_eip. rewrite !lookup_insert_ne by lia. by apply Hi.
      * by replace (sp - 4 + 4) with sp by lia.
      * intros r Hr. by rewrite HR3, upd_ne by congruence.
Qed.

End I386.
