(* ===== verification/Risc.v ===== *)
(** * Instructions of the load and store processors

    The instructions that [getmcontext] and [setmcontext] of
    [src/uctx_asm.S] use on PowerPC, ARM and MIPS, under names of their own:
    the mnemonics of the three processors are abbreviations in their files. *)
From S2P Require Import Prelude Machine.

Local Open Scope Z_scope.
Local Open Scope dyco_scope.

Section risc.
Context {reg : Type} `{!EqDecision reg}.

Inductive instr :=
  | st (src : reg) (off : Z) (base : reg)        (* store src at off(base) *)
  | ld (dst : reg) (off : Z) (base : reg)        (* load dst from off(base) *)
  | mv (dst src : reg)
  | li (dst : reg) (n : Z)
  | lxor (dst x y : reg)
  | jr (r : reg).                                (* jump to the address in r *)

Definition exec1 (i : instr) : M (cpu reg) unit :=
  match i with
  | st src off base => let* b := rreg base in let* x := rreg src in wr (b + off) x
  | ld dst off base => let* b := rreg base in let* x := rd (b + off) in wreg dst x
  | mv dst src => let* x := rreg src in wreg dst x
  | li dst n => wreg dst n
  | lxor dst x y => let* a := rreg x in let* b := rreg y in wreg dst (Z.lxor a b)
  | jr r => let* a := rreg r in jump a
  end.

Fixpoint execs (l : list instr) : M (cpu reg) unit :=
  match l with [] => ret tt | i :: l' => exec1 i ;;; execs l' end.

(** ** Symbolic execution *)
Section steps.
Variables (p : Z) (R : reg -> Z) (m : gmap Z Z) (k : list instr).

Lemma run_st src off base :
  mapped m (R base + off) ->
  execs (st src off base :: k) (mk_cpu p R m) = execs k (mk_cpu p R (<[R base + off := R src]> m)).
Proof. intros Hm. cbn [execs exec1]. unfold bind, rreg, gets. by rewrite wr_run. Qed.

Lemma run_ld dst off base x :
  m !! (R base + off) = Some x ->
  execs (ld dst off base :: k) (mk_cpu p R m) = execs k (mk_cpu p (upd R dst x) m).
Proof. intros Hm. cbn [execs exec1]. unfold bind, rreg, gets. by rewrite (rd_run _ x). Qed.

Lemma run_mv dst src : execs (mv dst src :: k) (mk_cpu p R m) = execs k (mk_cpu p (upd R dst (R src)) m).
Proof. done. Qed.

Lemma run_li dst n : execs (li dst n :: k) (mk_cpu p R m) = execs k (mk_cpu p (upd R dst n) m).
Proof. done. Qed.

Lemma run_clear dst x : execs (lxor dst x x :: k) (mk_cpu p R m) = execs k (mk_cpu p (upd R dst 0) m).
Proof. cbn [execs exec1]. unfold bind, rreg, gets, wreg, modify, set_reg. simpl. by rewrite Z.lxor_nilpotent. Qed.

Lemma run_jr r : execs [jr r] (mk_cpu p R m) = Ok (tt, mk_cpu (R r) R m).
Proof. done. Qed.
End steps.

(** ** Blocks of stores and of loads *)
Definition stores (b : reg) (l : list (reg * Z)) : list instr := (fun p => st p.1 p.2 b) <$> l.
Definition loads (b : reg) (l : list (reg * Z)) : list instr := (fun p => ld p.1 p.2 b) <$> l.

Lemma run_stores b l p R m k :
  slots_mapped l m (R b) ->
  execs (stores b l ++ k) (mk_cpu p R m) = execs k (mk_cpu p R (write_slots l (R b) R m)).
Proof.
  revert m. induction l as [|[r off] l IH]; intros m Hm; [done|]. apply Forall_cons in Hm as [H1 Hm].
  change (execs (st r off b :: (stores b l ++ k)) (mk_cpu p R m) = execs k (mk_cpu p R (write_slots ((r, off) :: l) (R b) R m))).
  rewrite run_st by done. apply IH. eapply Forall_impl; [exact Hm|]. intros q. apply mapped_word.
Qed.

Lemma run_loads b l p R V m k :
  b ∉ l.*1 -> saved l m (R b) V ->
  exists R', execs (loads b l ++ k) (mk_cpu p R m) = execs k (mk_cpu p R' m) /\ forall r, R' r = loaded l V R r.
Proof.
  revert R. induction l as [|[d off] l IH]; intros R Hb Hs; [by exists R|]. apply Forall_cons in Hs as [H1 Hs].
  apply not_elem_of_cons in Hb as [Hbd Hb].
  change (exists R', execs (ld d off b :: (loads b l ++ k)) (mk_cpu p R m) = execs k (mk_cpu p R' m) /\
    forall r, R' r = loaded ((d, off) :: l) V R r).
  rewrite (run_ld _ _ _ _ _ _ _ (V d)) by done.
  destruct (IH (upd R d (V d))) as (R' & Hrun & HR'); [done|by rewrite upd_ne by done|].
  exists R'. split; [done|]. intros r. by rewrite HR', (loaded_cons d off).
Qed.

End risc.

Arguments instr : clear implicits.
