(* ===== verification/Arm.v ===== *)
(** * Context switches on ARM

    [getmcontext] and [setmcontext] of [src/uctx_asm.S] for ARM, which the
    library brings along for Linux.  Register [n] is the number [n]; r13 is the
    stack pointer and r14 the link register. *)
From S2P Require Import Prelude Machine Risc.

Local Open Scope Z_scope.
Local Open Scope dyco_scope.

Module Arm.

(** The operands are in the order of the source file. *)
Local Abbreviation str r b off := (st r%nat off b%nat).
Local Abbreviation ldr r b off := (ld r%nat off b%nat).
Local Abbreviation lr := 14%nat.

Definition getmcontext : list (instr nat) :=
  [ str 1 0 4;
    str 2 0 8;
    str 3 0 12;
    str 4 0 16;
    str 5 0 20;
    str 6 0 24;
    str 7 0 28;
    str 8 0 32;
    str 9 0 36;
    str 10 0 40;
    str 11 0 44;
    str 12 0 48;
    str 13 0 52;
    str 14 0 56;
    li 1%nat 1;
    str 1 0 0;
    li 0%nat 0;
    jr lr ].

Definition setmcontext : list (instr nat) :=
  [ ldr 1 0 4;
    ldr 2 0 8;
    ldr 3 0 12;
    ldr 4 0 16;
    ldr 5 0 20;
    ldr 6 0 24;
    ldr 7 0 28;
    ldr 8 0 32;
    ldr 9 0 36;
    ldr 10 0 40;
    ldr 11 0 44;
    ldr 12 0 48;
    ldr 13 0 52;
    ldr 14 0 56;
    ldr 0 0 0;
    jr lr ].

(** r1 to r14 with their places in the structure; r0 is at its start. *)
Definition slots : list (nat * Z) := (fun n => (n, 4 * Z.of_nat n)) <$> seq 1 14.
Definition holds (m : gmap Z Z) (mc : Z) (V : nat -> Z) : Prop := saved slots m mc V /\ m !! (mc + 0) = Some 1.

Lemma slot_offset q : q ∈ slots -> q.2 = 4 * Z.of_nat q.1 /\ 4 <= q.2 <= 56.
Proof. intros (n & -> & Hn)%list_elem_of_fmap. apply elem_of_seq in Hn. simpl. lia. Qed.

Lemma arm_get_run p R m mc :
  R 0%nat = mc -> slots_mapped slots m mc -> mapped m (mc + 0) ->
  exists R' m', execs getmcontext (mk_cpu p R m) = Ok (tt, mk_cpu (R lr) R' m') /\ R' 0%nat = 0 /\
    (forall r, r <> 0%nat -> r <> 1%nat -> R' r = R r) /\ holds m' mc R /\
    (forall a, a < mc \/ mc + 60 <= a -> m' !! a = m !! a).
Proof.
  intros H0 Hm Hm0. change getmcontext with (stores 0%nat slots ++ [li 1%nat 1; str 1 0 0; li 0%nat 0; jr lr]).
  rewrite run_stores by (by rewrite H0). rewrite H0, run_li, run_st, run_li, run_jr.
  2: { rewrite upd_ne, H0 by done. destruct Hm0 as [x Hx]. exists x. rewrite write_slots_other; [done|].
       intros q Hq%slot_offset. lia. }
  rewrite !upd_ne, upd_eq by done. rewrite H0. eexists _, _. split; [reflexivity|]. split_and!.
  - apply upd_eq.
  - intros r Hr0 Hr1. by rewrite !upd_ne by done.
  - split; [|apply lookup_insert_eq]. eapply saved_same; [|by apply write_slots_saved; apply (bool_decide_unpack _); vm_compute].
    intros q Hq%slot_offset. apply lookup_insert_ne. lia.
  - intros a Ha. rewrite lookup_insert_ne by lia. apply write_slots_other. intros q Hq%slot_offset. lia.
Qed.

Lemma arm_set_run p R m mc V :
  R 0%nat = mc -> holds m mc V ->
  exists R', execs setmcontext (mk_cpu p R m) = Ok (tt, mk_cpu (V lr) R' m) /\ R' 0%nat = 1 /\
    forall n, (1 <= n <= 14)%nat -> R' n = V n.
Proof.
  intros H0 [Hs H1]. change setmcontext with (loads 0%nat slots ++ [ldr 0 0 0; jr lr]).
  destruct (run_loads 0%nat slots p R V m [ldr 0 0 0; jr lr]) as (R' & Hrun & HR'); [|by rewrite H0|].
  { apply (bool_decide_unpack _). by vm_compute. }
  assert (Hn : forall n, (1 <= n <= 14)%nat -> R' n = V n).
  { intros n Hn. rewrite HR'. unfold loaded. rewrite decide_True; [done|]. unfold slots. rewrite <- list_fmap_compose.
    apply (list_elem_of_fmap_2' _ _ n); [apply elem_of_seq; lia|done]. }
  rewrite Hrun, (run_ld _ _ _ _ _ _ _ 1), run_jr.
  - exists (upd R' 0%nat 1). rewrite upd_ne, Hn by lia. split_and!; [done|apply upd_eq|].
    intros n Hr. rewrite upd_ne by lia. by apply Hn.
  - rewrite HR'. unfold loaded. rewrite decide_False; [by rewrite H0|]. apply (bool_decide_unpack _). by vm_compute.
Qed.

End Arm.
