(* ===== verification/Power.v ===== *)
(** * Context switches on PowerPC

    [makecontext] of [src/uctx_context.c], [getmcontext] and [setmcontext] of
    [src/uctx_asm.S] and the structure of [include/dyco/uctx_power.h], for
    32-bit PowerPC. *)
From S2P Require Import Prelude Machine Risc.

Local Open Scope Z_scope.
Local Open Scope dyco_scope.

Module Power.

(** General registers, and the link, condition, count and exception
    registers. *)
Inductive reg := GPR (n : nat) | LR | CR | CTR | XER.

#[global] Instance reg_eq_dec : EqDecision reg.
Proof. solve_decision. Defined.

Local Abbreviation r n := (GPR n%nat).
Local Abbreviation mflr d := (mv d LR).
Local Abbreviation mfcr d := (mv d CR).
Local Abbreviation mfctr d := (mv d CTR).
Local Abbreviation mfxer d := (mv d XER).
Local Abbreviation mtlr x := (mv LR x).
Local Abbreviation mtcr x := (mv CR x).
Local Abbreviation mtctr x := (mv CTR x).
Local Abbreviation mtxer x := (mv XER x).
Local Abbreviation stw := st.
Local Abbreviation lwz := ld.
Local Abbreviation blr := (jr LR).

(** ** The structure *)
Definition mc_pc : Z := 0.
Definition mc_sp : Z := 16.
Definition mc_r3 : Z := 24.

(** ** The two routines *)
Definition getmcontext : list (instr reg) :=
  [ mflr (r 0);
    mfcr (r 5);
    mfctr (r 6);
    mfxer (r 7);
    stw (r 0) (0*4) (r 3);
    stw (r 5) (1*4) (r 3);
    stw (r 6) (2*4) (r 3);
    stw (r 7) (3*4) (r 3);
    stw (r 1) (4*4) (r 3);
    stw (r 2) (5*4) (r 3);
    li (r 5) 1;
    stw (r 5) (6*4) (r 3);
    stw (r 13) ((0+7)*4) (r 3);
    stw (r 14) ((1+7)*4) (r 3);
    stw (r 15) ((2+7)*4) (r 3);
    stw (r 16) ((3+7)*4) (r 3);
    stw (r 17) ((4+7)*4) (r 3);
    stw (r 18) ((5+7)*4) (r 3);
    stw (r 19) ((6+7)*4) (r 3);
    stw (r 20) ((7+7)*4) (r 3);
    stw (r 21) ((8+7)*4) (r 3);
    stw (r 22) ((9+7)*4) (r 3);
    stw (r 23) ((10+7)*4) (r 3);
    stw (r 24) ((11+7)*4) (r 3);
    stw (r 25) ((12+7)*4) (r 3);
    stw (r 26) ((13+7)*4) (r 3);
    stw (r 27) ((14+7)*4) (r 3);
    stw (r 28) ((15+7)*4) (r 3);
    stw (r 29) ((16+7)*4) (r 3);
    stw (r 30) ((17+7)*4) (r 3);
    stw (r 31) ((18+7)*4) (r 3);
    li (r 3) 0;
    blr ].

Definition setmcontext : list (instr reg) :=
  [ lwz (r 13) ((0+7)*4) (r 3);
    lwz (r 14) ((1+7)*4) (r 3);
    lwz (r 15) ((2+7)*4) (r 3);
    lwz (r 16) ((3+7)*4) (r 3);
    lwz (r 17) ((4+7)*4) (r 3);
    lwz (r 18) ((5+7)*4) (r 3);
    lwz (r 19) ((6+7)*4) (r 3);
    lwz (r 20) ((7+7)*4) (r 3);
    lwz (r 21) ((8+7)*4) (r 3);
    lwz (r 22) ((9+7)*4) (r 3);
    lwz (r 23) ((10+7)*4) (r 3);
    lwz (r 24) ((11+7)*4) (r 3);
    lwz (r 25) ((12+7)*4) (r 3);
    lwz (r 26) ((13+7)*4) (r 3);
    lwz (r 27) ((14+7)*4) (r 3);
    lwz (r 28) ((15+7)*4) (r 3);
    lwz (r 29) ((16+7)*4) (r 3);
    lwz (r 30) ((17+7)*4) (r 3);
    lwz (r 31) ((18+7)*4) (r 3);
    lwz (r 1) (4*4) (r 3);
    lwz (r 2) (5*4) (r 3);
    lwz (r 0) (0*4) (r 3);
    mtlr (r 0);
    lwz (r 0) (1*4) (r 3);
    mtcr (r 0);
    lwz (r 0) (2*4) (r 3);
    mtctr (r 0);
    lwz (r 0) (3*4) (r 3);
    mtxer (r 0);
    lwz (r 3) (6*4) (r 3);
    blr ].

(** ** [makecontext]

    [mc] is the address of [ucp->mc]; [ss_sp] and [ss_size] are the fields of
    [ucp->uc_stack].  Only the first of the arguments is passed on. *)
Definition makecontext (mc ss_sp ss_size func argc : Z) (va : list Z) : M (cpu reg) unit :=
  let tos := ss_sp + ss_size / 4 * 4 in
  let sp := tos - 16 * 4 in
  wr (mc + mc_pc) func ;;;
  wr (mc + mc_sp) sp ;;;
  wr (mc + mc_r3) (default 0 (va !! 0%nat)).

(** ** Saving and restoring *)

(** The callee-saved general registers, and the special ones, with their
    places. *)
Definition gprs : list (reg * Z) := (fun n => (GPR n, (Z.of_nat n - 13 + 7) * 4)) <$> seq 13 19.
Definition specials : list (reg * Z) := [(LR, 0*4); (CR, 1*4); (CTR, 2*4); (XER, 3*4)].
Definition slots : list (reg * Z) := specials ++ [(r 1, 4*4); (r 2, 5*4)] ++ (r 3, 6*4) :: gprs.

Definition mc_mapped (m : gmap Z Z) (mc : Z) : Prop := forall i, 0 <= i < 26 -> mapped m (mc + i * 4).

Lemma power_slots_ok m mc l : mc_mapped m mc -> Forall (fun q : reg * Z => 0 <= q.2 < 26 * 4 /\ q.2 mod 4 = 0) l -> slots_mapped l m mc.
Proof.
  intros Hm Hl. eapply Forall_impl; [exact Hl|]. intros q [Hq H0]. replace q.2 with (q.2 / 4 * 4) by (pose proof (Z.div_mod q.2 4); lia).
  apply Hm. Z.to_euclidean_division_equations; lia.
Qed.

Lemma power_get_run p R m mc :
  R (r 3) = mc -> mc_mapped m mc ->
  exists R' m', execs getmcontext (mk_cpu p R m) = Ok (tt, mk_cpu (R LR) R' m') /\ R' (r 3) = 0 /\
    (forall x, x ∉ [r 0; r 3; r 5; r 6; r 7] -> R' x = R x) /\ saved slots m' mc (upd R (r 3) 1) /\
    (forall a, a < mc \/ mc + 26*4 <= a -> m' !! a = m !! a).
Proof.
  intros H3 Hm. unfold getmcontext. rewrite !run_mv.
  set (R1 := upd (upd (upd (upd R (r 0) (R LR)) (r 5) _) (r 6) _) (r 7) _).
  set (l1 := [(r 0, 0*4); (r 5, 1*4); (r 6, 2*4); (r 7, 3*4); (r 1, 4*4); (r 2, 5*4)] : list (reg * Z)).
  set (l2 := (r 5, 6*4) :: gprs).
  assert (E3 : R1 (r 3) = mc) by done.
  match goal with |- context [execs ?l _] => change l with (stores (r 3) l1 ++ (li (r 5) 1 :: stores (r 3) l2 ++ [li (r 3) 0; blr])) end.
  assert (Hl1 : slots_mapped l1 m mc) by (apply power_slots_ok; [done|]; by_slots).
  rewrite run_stores by (by rewrite E3). rewrite E3, run_li. set (m1 := write_slots l1 mc R1 m).
  set (R2 := upd R1 (r 5) 1). assert (E4 : R2 (r 3) = mc) by done.
  rewrite run_stores by (rewrite E4; apply power_slots_ok; [intros i Hi; by apply write_slots_mapped, Hm|]; by_slots).
  rewrite E4, run_li, run_jr. set (m2 := write_slots l2 mc R2 m1).
  assert (Hs1 : saved l1 m2 mc R1).
  { eapply saved_same; [|by apply write_slots_saved; by_slots]. intros q Hq. apply write_slots_other. intros q' Hq' E.
    assert (Hx : Forall (fun a : reg * Z => Forall (fun b : reg * Z => a.2 <> b.2) l2) l1) by by_slots.
    rewrite Forall_forall in Hx. specialize (Hx q Hq). rewrite Forall_forall in Hx. specialize (Hx q' Hq'). lia. }
  assert (Hs2 : saved l2 m2 mc R2) by (apply write_slots_saved; by_slots).
  eexists _, m2. split; [reflexivity|]. split_and!.
  - done.
  - intros x Hx. repeat (apply not_elem_of_cons in Hx as [? Hx]). unfold R2, R1. by rewrite !upd_ne by congruence.
  - unfold saved, l1 in Hs1. unfold saved, l2 in Hs2. rewrite !Forall_cons in Hs1. destruct Hs1 as (H1 & H2 & H4 & H5 & H6 & H7 & _).
    apply Forall_cons in Hs2 as [H8 Hs2]. repeat (constructor; [assumption|]).
    eapply saved_ext; [|exact Hs2]. intros q (n & -> & Hn%elem_of_seq)%list_elem_of_fmap. simpl.
    unfold R2, R1. by rewrite !upd_ne by (intros [=]; lia).
  - intros a Ha. unfold m2, m1.
    assert (Ho : Forall (fun q : reg * Z => 0 <= q.2 < 26*4) (l1 ++ l2)) by by_slots. rewrite Forall_forall in Ho.
    rewrite !write_slots_other; [done|..]; intros q Hq; assert (0 <= q.2 < 26*4) by (apply Ho, elem_of_app; tauto); lia.
Qed.

Lemma power_set_run p R m mc V :
  R (r 3) = mc -> saved slots m mc V ->
  exists R', execs setmcontext (mk_cpu p R m) = Ok (tt, mk_cpu (V LR) R' m) /\
    forall x, x ∈ slots.*1 -> R' x = V x.
Proof.
  intros H3 Hs. unfold saved, slots in Hs. apply Forall_app in Hs as [Hsp Hs]. apply Forall_app in Hs as [Hs2 Hs].
  apply Forall_cons in Hs as [Hr3 Hs]. unfold specials in Hsp. rewrite !Forall_cons in Hsp.
  destruct Hsp as (H0 & H1 & H2 & H4 & _). simpl in H0, H1, H2, H4, Hr3.
  set (l := gprs ++ [(r 1, 4*4); (r 2, 5*4)]).
  change setmcontext with (loads (r 3) l ++ [lwz (r 0) (0*4) (r 3); mtlr (r 0); lwz (r 0) (1*4) (r 3); mtcr (r 0);
    lwz (r 0) (2*4) (r 3); mtctr (r 0); lwz (r 0) (3*4) (r 3); mtxer (r 0); lwz (r 3) (6*4) (r 3); blr]).
  edestruct (run_loads (r 3) l p R V m) as (R1 & Hrun & HR1); [by_slots|by rewrite H3; apply Forall_app|].
  assert (E3 : R1 (r 3) = mc) by (rewrite HR1, loaded_out by by_slots; done).
  rewrite Hrun.
  do 4 (erewrite run_ld by (rewrite ?upd_ne by done; rewrite E3; eassumption); rewrite run_mv).
  erewrite run_ld by (rewrite ?upd_ne by done; rewrite E3; eassumption). rewrite run_jr.
  rewrite ?upd_ne, ?upd_eq by done. eexists. split; [reflexivity|].
  intros x Hx.
  assert (Hin : x ∈ [r 3; XER; CTR; CR; LR] \/ (x ∈ l.*1 /\ x ∉ [r 0; r 3; XER; CTR; CR; LR])).
  { assert (Ha : Forall (fun y => y ∈ [r 3; XER; CTR; CR; LR] \/ (y ∈ l.*1 /\ y ∉ [r 0; r 3; XER; CTR; CR; LR])) slots.*1) by by_slots.
    rewrite Forall_forall in Ha. by apply Ha. }
  destruct Hin as [Hin|[Hin Hout]].
  - repeat (apply elem_of_cons in Hin as [->|Hin]; [reflexivity|]). by apply elem_of_nil in Hin.
  - repeat (apply not_elem_of_cons in Hout as [? Hout]). rewrite !upd_ne by congruence. rewrite HR1. by apply loaded_in.
Qed.

(** ** Fresh contexts *)

(** A context made by [makecontext] from one that [getcontext] has filled:
    [setcontext] enters the function with the first argument in r3, on a stack
    pointer 64 bytes below the end of the given stack; the other callee-saved
    registers are those of the filled structure. *)
Lemma makecontext_enters_power p R m mc ss_sp ss_size func x va V :
  mc_mapped m mc -> saved slots m mc V ->
  exists m', makecontext mc ss_sp ss_size func 1 (x :: va) (mk_cpu p R m) = Ok (tt, mk_cpu p R m') /\
    (forall a, a < mc \/ mc + 26*4 <= a -> m' !! a = m !! a) /\
    forall p2 R2, R2 (r 3) = mc ->
      exists R3, execs setmcontext (mk_cpu p2 R2 m') = Ok (tt, mk_cpu func R3 m') /\
        R3 (r 3) = x /\ R3 (r 1) = ss_sp + ss_size / 4 * 4 - 64 /\
        forall y, y ∈ slots.*1 -> y ∉ [r 1; r 3; LR] -> R3 y = V y.
Proof.
  intros Hm Hs. set (sp := ss_sp + ss_size / 4 * 4 - 64).
  set (m' := <[mc + mc_r3 := x]> (<[mc + mc_sp := sp]> (<[mc + mc_pc := func]> m))).
  assert (Hi : forall i, 0 <= i < 26 -> mapped m (mc + i * 4)) by done.
  exists m'. split; [|split].
  - unfold makecontext. 
    do 2 (erewrite bind_ok by (apply wr_run; cbn [mem set_word]; repeat apply mapped_word; first [apply (Hi 0) | apply (Hi 4)]; lia)).
    apply wr_run. cbn [mem set_word]. repeat apply mapped_word. apply (Hi 6). lia.
  - intros a Ha. unfold m', mc_r3, mc_sp, mc_pc. by rewrite !lookup_insert_ne by lia.
  - intros p2 R2 H3. set (V' := upd (upd (upd V LR func) (r 1) sp) (r 3) x).
    destruct (power_set_run p2 R2 m' mc V') as (R3 & Hrun & HR3); [done| |].
    + apply Forall_forall. intros q Hq. unfold m', V', mc_r3, mc_sp, mc_pc.
      assert (Hc : q ∈ [(LR, 0); (r 1, 16); (r 3, 24)] \/ (q.1 ∉ [r 1; r 3; LR] /\ q.2 ∉ [0; 16; 24])).
      { assert (Ha : Forall (fun q : reg * Z => q ∈ [(LR, 0); (r 1, 16); (r 3, 24)] \/ (q.1 ∉ [r 1; r 3; LR] /\ q.2 ∉ [0; 16; 24])) slots) by by_slots.
        rewrite Forall_forall in Ha. by apply Ha. }
      destruct Hc as [Hc|[H1 H2]].
      * repeat (apply elem_of_cons in Hc as [->|Hc]; [simpl; by repeat first [rewrite lookup_insert_eq | rewrite lookup_insert_ne by lia]|]).
        by apply elem_of_nil in Hc.
      * repeat (apply not_elem_of_cons in H1 as [? H1]). repeat (apply not_elem_of_cons in H2 as [? H2]).
        rewrite !lookup_insert_ne, !upd_ne by (congruence || lia). unfold saved in Hs. rewrite Forall_forall in Hs. by apply Hs.
    + exists R3. split_and!; [done|by rewrite HR3 by by_slots|by rewrite HR3 by by_slots|].
      intros y Hy Hn. rewrite HR3 by done. repeat (apply not_elem_of_cons in Hn as [? Hn]). unfold V'. by rewrite !upd_ne by congruence.
Qed.

End Power.
