(* ===== verification/Mips.v ===== *)
(** * Context switches on MIPS

    [makecontext] of [src/uctx_context.c], [getmcontext] and [setmcontext] of
    [src/uctx_asm.S] and the structure of [include/dyco/uctx_mips.h].  Register
    [n] is the number [n]: $2 holds results, $4 to $7 arguments, $16 to $23 and
    $28 to $30 are callee-saved, $29 is the stack pointer and $31 the return
    address. *)
From S2P Require Import Prelude Machine Risc.

Local Open Scope Z_scope.
Local Open Scope dyco_scope.

Module Mips.

(** The operands are in the order of the source file. *)
Local Abbreviation sw r off b := (st r%nat off b%nat).
Local Abbreviation lw r off b := (ld r%nat off b%nat).
Local Abbreviation j r := (jr r%nat).

Definition getmcontext : list (instr nat) :=
  [ sw 4 24 4;
    sw 5 28 4;
    sw 6 32 4;
    sw 7 36 4;
    sw 16 72 4;
    sw 17 76 4;
    sw 18 80 4;
    sw 19 84 4;
    sw 20 88 4;
    sw 21 92 4;
    sw 22 96 4;
    sw 23 100 4;
    sw 28 120 4;
    sw 29 124 4;
    sw 30 128 4;
    sw 31 132 4;
    lxor 2%nat 2%nat 2%nat;
    j 31 ].

Definition setmcontext : list (instr nat) :=
  [ lw 16 72 4;
    lw 17 76 4;
    lw 18 80 4;
    lw 19 84 4;
    lw 20 88 4;
    lw 21 92 4;
    lw 22 96 4;
    lw 23 100 4;
    lw 28 120 4;
    lw 29 124 4;
    lw 30 128 4;
    lw 8 132 4;
    lw 25 132 4;
    lw 5 28 4;
    lw 6 32 4;
    lw 7 36 4;
    lw 4 24 4;
    j 8 ].

(** ** [makecontext]

    [mc] is the address of [uc->uc_mcontext]; [ss_sp] and [ss_size] are the
    fields of [uc->uc_stack].  A word is a pattern of 32 bits, which the casts
    between [int] and pointers keep. *)
Definition mc_regs (n : Z) : Z := 8 + 4 * n.

Fixpoint copy_args (n : nat) (i argc mc : Z) (va : list Z) : M (cpu nat) unit :=
  match n with
  | O => ret tt
  | S n' =>
      if i <? argc then
        wr (mc + mc_regs (i + 4)) (default 0 (va !! Z.to_nat i)) ;;; copy_args n' (i + 1) argc mc va
      else ret tt
  end.

Definition makecontext (mc ss_sp ss_size fn argc : Z) (va : list Z) : M (cpu nat) unit :=
  let sp := ss_sp + ss_size / 4 * 4 in
  copy_args 4 0 argc mc va ;;;
  wr (mc + mc_regs 29) sp ;;;
  wr (mc + mc_regs 31) fn.

(** ** Saving and restoring *)

(** The saved registers with their places. *)
Definition slots : list (nat * Z) :=
  (fun n => (n, mc_regs (Z.of_nat n))) <$> [16; 17; 18; 19; 20; 21; 22; 23; 28; 29; 30; 5; 6; 7; 4; 31]%nat.

Definition mc_mapped (m : gmap Z Z) (mc : Z) : Prop := forall n, 0 <= n < 32 -> mapped m (mc + mc_regs n).

Lemma mips_get_run p R m mc :
  R 4%nat = mc -> mc_mapped m mc ->
  exists R' m', execs getmcontext (mk_cpu p R m) = Ok (tt, mk_cpu (R 31%nat) R' m') /\ R' 2%nat = 0 /\
    (forall r, r <> 2%nat -> R' r = R r) /\ saved slots m' mc R /\
    (forall a, a < mc + 24 \/ mc + 136 <= a -> m' !! a = m !! a).
Proof.
  intros H4 Hm. set (l := (fun n => (n, mc_regs (Z.of_nat n))) <$> [4; 5; 6; 7; 16; 17; 18; 19; 20; 21; 22; 23; 28; 29; 30; 31]%nat).
  change getmcontext with (stores 4%nat l ++ [lxor 2%nat 2%nat 2%nat; j 31]).
  assert (Hl : slots_mapped l m mc) by (repeat (constructor; [apply Hm; lia|]); constructor).
  rewrite run_stores by (by rewrite H4). rewrite H4, run_clear, run_jr, upd_ne by done.
  eexists _, _. split; [reflexivity|]. split_and!.
  - apply upd_eq.
  - intros r Hr. by apply upd_ne.
  - assert (Hs : saved l (write_slots l mc R m) mc R) by (apply write_slots_saved; by_slots).
    apply Forall_forall. intros q Hq. unfold saved in Hs. rewrite Forall_forall in Hs. apply Hs.
    assert (Ha : Forall (fun q => q ∈ l) slots) by by_slots. rewrite Forall_forall in Ha. by apply Ha.
  - intros a Ha. apply write_slots_other. intros q Hq.
    assert (Ho : Forall (fun q : nat * Z => 24 <= q.2 < 136) l) by by_slots. rewrite Forall_forall in Ho. specialize (Ho q Hq). lia.
Qed.

(** [setmcontext] does not touch the register of results, nor the one of the
    return address. *)
Lemma mips_set_run p R m mc V :
  R 4%nat = mc -> saved slots m mc V ->
  exists R', execs setmcontext (mk_cpu p R m) = Ok (tt, mk_cpu (V 31%nat) R' m) /\
    (forall n, n ∈ [16; 17; 18; 19; 20; 21; 22; 23; 28; 29; 30; 5; 6; 7; 4]%nat -> R' n = V n) /\
    R' 2%nat = R 2%nat /\ R' 31%nat = R 31%nat.
Proof.
  intros H4 Hs. set (V' := fun n => if decide (n = 8 \/ n = 25)%nat then V 31%nat else V n).
  set (l1 := (fun n => (n, mc_regs (Z.of_nat n))) <$> [16; 17; 18; 19; 20; 21; 22; 23; 28; 29; 30]%nat).
  set (l := l1 ++ [(8%nat, 132); (25%nat, 132); (5%nat, 28); (6%nat, 32); (7%nat, 36)]).
  change setmcontext with (loads 4%nat l ++ [lw 4 24 4; j 8]).
  unfold saved, slots in Hs. rewrite Forall_forall in Hs.
  assert (Hv : forall n, n ∈ [16; 17; 18; 19; 20; 21; 22; 23; 28; 29; 30; 5; 6; 7; 4; 31]%nat -> m !! (mc + mc_regs (Z.of_nat n)) = Some (V n)).
  { intros n Hn. apply (Hs (n, mc_regs (Z.of_nat n))). by apply (list_elem_of_fmap_2' _ _ n). }
  destruct (run_loads 4%nat l p R V' m [lw 4 24 4; j 8]) as (R1 & Hrun & HR1); [by_slots| |].
  { rewrite H4. repeat (constructor; [apply Hv; by_slots|]).
    do 2 (constructor; [exact (Hv 31%nat ltac:(by_slots))|]).
    constructor; [exact (Hv 5%nat ltac:(by_slots))|]. constructor; [exact (Hv 6%nat ltac:(by_slots))|].
    constructor; [exact (Hv 7%nat ltac:(by_slots))|constructor]. }
  rewrite Hrun, (run_ld _ _ _ _ _ _ _ (V 4%nat)), run_jr.
  2: { rewrite HR1, loaded_out by by_slots. rewrite H4. exact (Hv 4%nat ltac:(by_slots)). }
  rewrite upd_ne, HR1, loaded_in by first [done | by_slots]. eexists. split; [reflexivity|]. split_and!.
  - intros n Hn. destruct (decide (n = 4%nat)) as [->|Hne]; [apply upd_eq|]. rewrite upd_ne, HR1 by congruence.
    assert (Ha : Forall (fun n => n = 4%nat \/ (n ∈ l.*1 /\ n <> 8%nat /\ n <> 25%nat)) [16; 17; 18; 19; 20; 21; 22; 23; 28; 29; 30; 5; 6; 7; 4]%nat) by by_slots.
    rewrite Forall_forall in Ha. destruct (Ha n Hn) as [?|(Hl & H8 & H25)]; [done|]. rewrite loaded_in by done.
    unfold V'. rewrite decide_False; [done|lia].
  - by rewrite upd_ne, HR1, loaded_out by first [done | by_slots].
  - by rewrite upd_ne, HR1, loaded_out by first [done | by_slots].
Qed.

(** ** Fresh contexts *)

Lemma copy_args_run n i argc mc va p R m :
  0 <= i -> i + Z.of_nat n <= 4 -> mc_mapped m mc ->
  exists m', copy_args n i argc mc va (mk_cpu p R m) = Ok (tt, mk_cpu p R m') /\
    (forall k, i <= k < i + Z.of_nat n -> k < argc -> m' !! (mc + mc_regs (k + 4)) = Some (default 0 (va !! Z.to_nat k))) /\
    (forall a, (forall k, i <= k < i + Z.of_nat n -> k < argc -> a <> mc + mc_regs (k + 4)) -> m' !! a = m !! a).
Proof.
  revert i m. induction n as [|n IH]; intros i m Hi Hn Hm; [exists m; split_and!; [done|lia|done]|].
  cbn [copy_args]. destruct (Z.ltb_spec i argc) as [Hlt|Hge]; [|exists m; split_and!; [done|lia|done]].
  set (m1 := <[mc + mc_regs (i + 4) := default 0 (va !! Z.to_nat i)]> m).
  destruct (IH (i + 1) m1) as (m' & Hrun & Hk & Ho); [lia|lia|by intros k Hk; apply mapped_word, Hm|].
  exists m'. split_and!.
  - erewrite bind_ok by (apply wr_run, Hm; lia). exact Hrun.
  - intros k H1 H2. destruct (decide (k = i)) as [->|Hne]; [|apply Hk; lia].
    rewrite Ho by (unfold mc_regs; lia). apply lookup_insert_eq.
  - intros a Ha. rewrite Ho by (intros k H1 H2; apply Ha; lia). apply lookup_insert_ne, not_eq_sym, Ha; lia.
Qed.

(** A context made by [makecontext] from one that [getcontext] has filled:
    [setcontext] enters the function with up to four arguments in $4 to $7 and
    the stack pointer at the end of the stack. *)
Lemma makecontext_enters_mips p R m mc ss_sp ss_size fn argc va V :
  mc_mapped m mc -> saved slots m mc V ->
  exists m', makecontext mc ss_sp ss_size fn argc va (mk_cpu p R m) = Ok (tt, mk_cpu p R m') /\
    forall p2 R2, R2 4%nat = mc ->
      exists R3, execs setmcontext (mk_cpu p2 R2 m') = Ok (tt, mk_cpu fn R3 m') /\
        (forall k, 0 <= k < 4 -> k < argc -> R3 (Z.to_nat (k + 4)) = default 0 (va !! Z.to_nat k)) /\
        R3 29%nat = ss_sp + ss_size / 4 * 4 /\
        forall n, n ∈ [16; 17; 18; 19; 20; 21; 22; 23; 28; 30]%nat -> R3 n = V n.
Proof.
  intros Hm Hs. set (sp := ss_sp + ss_size / 4 * 4).
  destruct (copy_args_run 4 0 argc mc va p R m) as (m1 & Hrun & Hk & Ho); [lia|lia|done|].
  set (m' := <[mc + mc_regs 31 := fn]> (<[mc + mc_regs 29 := sp]> m1)). exists m'.
  assert (Hm1 : forall n, 8 <= n < 32 -> mapped m1 (mc + mc_regs n)).
  { intros n Hn. unfold mapped. rewrite Ho by (unfold mc_regs; lia). apply Hm. lia. }
  split.
  - unfold makecontext. fold sp. rewrite (bind_ok _ _ _ _ _ Hrun). erewrite bind_ok by (apply wr_run, Hm1; lia).
    apply wr_run, mapped_word, Hm1. lia.
  - intros p2 R2 H4.
    set (V' := fun n => if decide (n = 31)%nat then fn else if decide (n = 29)%nat then sp
                        else if decide ((4 <= n < 8)%nat /\ Z.of_nat n - 4 < argc) then default 0 (va !! (n - 4)%nat) else V n).
    destruct (mips_set_run p2 R2 m' mc V') as (R3 & Hset & HR3 & _); [done| |].
    + apply Forall_forall. intros q (n & -> & Hn)%list_elem_of_fmap. unfold m', V'. cbn [fst snd].
      assert (Hr : (4 <= n < 32)%nat).
      { assert (Ha : Forall (fun n => 4 <= n < 32)%nat [16; 17; 18; 19; 20; 21; 22; 23; 28; 29; 30; 5; 6; 7; 4; 31]%nat) by by_slots.
        rewrite Forall_forall in Ha. by apply Ha. }
      case_decide; [subst n; apply lookup_insert_eq|]. rewrite lookup_insert_ne by (unfold mc_regs; lia).
      case_decide; [subst n; apply lookup_insert_eq|]. rewrite lookup_insert_ne by (unfold mc_regs; lia).
      case_decide as Hd.
      * specialize (Hk (Z.of_nat n - 4)). replace (Z.of_nat n - 4 + 4) with (Z.of_nat n) in Hk by lia.
        rewrite Hk by lia. by replace (Z.to_nat (Z.of_nat n - 4)) with (n - 4)%nat by lia.
      * rewrite Ho by (unfold mc_regs; intros k ? ? ?; apply Hd; lia).
        unfold saved in Hs. rewrite Forall_forall in Hs. apply (Hs (n, mc_regs (Z.of_nat n))). by apply (list_elem_of_fmap_2' _ _ n).
    + exists R3. split_and!; [done| | |].
      * intros k H1 H2. rewrite HR3; [|assert (k = 0 \/ k = 1 \/ k = 2 \/ k = 3) as [->|[->|[->| ->]]] by lia; by_slots].
        unfold V'. rewrite !decide_False by lia. rewrite decide_True by lia.
        by replace (Z.to_nat (k + 4) - 4)%nat with (Z.to_nat k) by lia.
      * by rewrite HR3 by by_slots.
      * intros n Hn.
        assert (Ha : Forall (fun n => n ∈ [16; 17; 18; 19; 20; 21; 22; 23; 28; 29; 30; 5; 6; 7; 4]%nat /\ n <> 31%nat /\ n <> 29%nat /\ (8 <= n)%nat)
          [16; 17; 18; 19; 20; 21; 22; 23; 28; 30]%nat) by by_slots.
        rewrite Forall_forall in Ha. destruct (Ha n Hn) as (Hin & H31 & H29 & H8). rewrite HR3 by done.
        unfold V'. by rewrite !decide_False by lia.
Qed.

End Mips.
