(* ===== verification/Swapcontext.v ===== *)
(** * [swapcontext] on the ports

    [swapcontext] of [src/uctx_context.c], written against an interface of
    what a port promises of its [getmcontext] and [setmcontext]; the ports
    that keep the promise, and the one that does not. *)
From S2P Require Import Prelude Machine X86 Context I386 Risc Arm Power Mips.

Local Open Scope Z_scope.
Local Open Scope dyco_scope.

(** ** Ports

    [call_get mc ra] and [call_set mc] are the calls of the two routines with
    the structure at [mc], by code to which [getmcontext] returns at [ra]. *)
Class Port (reg : Type) `{!EqDecision reg} := {
  result_reg : reg;
  call_get : Z -> Z -> M (cpu reg) unit;
  call_set : Z -> M (cpu reg) unit
}.

(** What a port promises: [getmcontext] returns 0 and keeps the registers that
    a call keeps; the structure then is that of a suspended context, and while
    it is, [setmcontext] continues where [getmcontext] returned, with the same
    registers and the result 1. *)
Class PortLaws (reg : Type) `{!EqDecision reg} `{!Port reg} := {
  kept : reg -> Prop;
  can_save : Z -> cpu reg -> Prop;
  can_switch : Z -> cpu reg -> Prop;
  suspended : Z -> Z -> (reg -> Z) -> gmap Z Z -> Prop;
  get_saves mc ra c : can_save mc c ->
    exists c1, call_get mc ra c = Ok (tt, c1) /\ pc c1 = ra /\ regs c1 result_reg = 0 /\
      (forall r, kept r -> regs c1 r = regs c r) /\ suspended mc ra (regs c) (mem c1);
  set_resumes mc ra R c : suspended mc ra R (mem c) -> can_switch mc c ->
    exists c3, call_set mc c = Ok (tt, c3) /\ pc c3 = ra /\ regs c3 result_reg = 1 /\
      (forall r, kept r -> regs c3 r = R r)
}.

(** ** [swapcontext]

    [getcontext(oucp)] followed by a test of its result, which is also where
    execution continues when [oucp] is resumed: [pending oucp] is the second
    argument of the call of [swapcontext] that saved [oucp]. *)
Section swapcontext.
Context {reg : Type} `{!EqDecision reg} `{!Port reg} (pending : Z -> Z).

Fixpoint setcontext (fuel : nat) (ucp : Z) : M (cpu reg) unit :=
  match fuel with
  | O => throw FFuel
  | S fuel' =>
      call_set ucp ;;;
      let* r := rreg result_reg in
      if r =? 0 then setcontext fuel' (pending ucp) else ret tt
  end.

Definition swapcontext (fuel : nat) (oucp ra : Z) : M (cpu reg) unit :=
  call_get oucp ra ;;;
  let* r := rreg result_reg in
  if r =? 0 then setcontext fuel (pending oucp) else ret tt.

Lemma setcontext_once `{!PortLaws reg} fuel ucp ra R c :
  suspended ucp ra R (mem c) -> can_switch ucp c ->
  exists c3, setcontext (S fuel) ucp c = Ok (tt, c3) /\ pc c3 = ra /\ (forall r, kept r -> regs c3 r = R r).
Proof.
  intros Hs Hc. destruct (set_resumes ucp ra R c Hs Hc) as (c3 & Hrun & Hpc & Hres & Hk). exists c3. split_and!; [|done..].
  cbn [setcontext]. rewrite (bind_ok _ _ _ _ _ Hrun). unfold bind, rreg, gets. by rewrite Hres.
Qed.

(** C19. [swapcontext] saves the running context and switches once: execution
    goes on where the other context was saved, with the registers it had; and
    the saved context can be resumed later in the same way. *)
Theorem swapcontext_switches `{!PortLaws reg} fuel oucp ra rb RB c :
  can_save oucp c ->
  (forall c1, call_get oucp ra c = Ok (tt, c1) -> suspended (pending oucp) rb RB (mem c1) /\ can_switch (pending oucp) c1) ->
  exists c1 c', call_get oucp ra c = Ok (tt, c1) /\ suspended oucp ra (regs c) (mem c1) /\
    swapcontext (S fuel) oucp ra c = Ok (tt, c') /\ pc c' = rb /\ (forall r, kept r -> regs c' r = RB r).
Proof.
  intros Hsave Hb. destruct (get_saves oucp ra c Hsave) as (c1 & Hget & _ & Hres & _ & Hsusp).
  destruct (Hb c1 Hget) as [Hs Hcan]. destruct (setcontext_once fuel (pending oucp) rb RB c1 Hs Hcan) as (c' & Hset & Hpc & Hk).
  exists c1, c'. split_and!; try done. unfold swapcontext. rewrite (bind_ok _ _ _ _ _ Hget).
  unfold bind, rreg, gets. by rewrite Hres.
Qed.

End swapcontext.

(** ** PowerPC and ARM: the argument in a register, the return address in the
    link register *)

#[export] Instance power_port : Port Power.reg := {
  result_reg := Power.GPR 3;
  call_get mc ra := wreg (Power.GPR 3) mc ;;; wreg Power.LR ra ;;; execs Power.getmcontext;
  call_set mc := wreg (Power.GPR 3) mc ;;; execs Power.setmcontext
}.

#[export] Instance power_laws : PortLaws Power.reg.
Proof.
  refine {| kept x := x ∈ Power.slots.*1 /\ x <> Power.GPR 3 /\ x <> Power.LR;
            can_save mc c := Power.mc_mapped (mem c) mc; can_switch _ _ := True;
            suspended mc ra R m := saved Power.slots m mc (upd (upd R Power.LR ra) (Power.GPR 3) 1) |}.
  - intros mc ra [p R m] Hm.
    destruct (Power.power_get_run p (upd (upd R (Power.GPR 3) mc) Power.LR ra) m mc) as (R1 & m1 & Hrun & H3 & Hk & Hs & _); [done|done|].
    eexists. split; [exact Hrun|]. split_and!; [done|done| |].
    + intros r (Hr & Hr3 & Hlr). cbn [regs]. rewrite Hk; [by rewrite !upd_ne by congruence|].
      assert (Ha : Forall (fun y => y ∉ [Power.GPR 0; Power.GPR 5; Power.GPR 6; Power.GPR 7]) Power.slots.*1) by by_slots.
      rewrite Forall_forall in Ha. specialize (Ha r Hr). by repeat (apply not_elem_of_cons; split; [congruence || (intros ->; apply Ha; by_slots)|]); intros []%elem_of_nil.
    + eapply saved_ext; [|exact Hs]. intros q Hq. destruct q as [r off]. cbn [fst].
      destruct (decide (Power.GPR 3 = r)) as [<-|H3n]; rg; [done|]. rewrite !(upd_ne _ (Power.GPR 3)) by done.
      destruct (decide (Power.LR = r)) as [<-|Hl]; rg; [done|]. by rewrite !upd_ne by done.
  - intros mc ra R [p R2 m] Hs _.
    destruct (Power.power_set_run p (upd R2 (Power.GPR 3) mc) m mc (upd (upd R Power.LR ra) (Power.GPR 3) 1)) as (R3 & Hrun & HR3); [done|done|].
    eexists. split; [exact Hrun|]. split_and!; [done|by rewrite HR3 by by_slots|].
    intros r (Hr & Hr3 & Hlr). cbn [regs]. rewrite HR3 by done. by rewrite !upd_ne by congruence.
Defined.

#[export] Instance arm_port : Port nat := {
  result_reg := 0%nat;
  call_get mc ra := wreg 0%nat mc ;;; wreg 14%nat ra ;;; execs Arm.getmcontext;
  call_set mc := wreg 0%nat mc ;;; execs Arm.setmcontext
}.

#[export] Instance arm_laws : PortLaws nat.
Proof.
  refine {| kept n := (4 <= n <= 13)%nat;
            can_save mc c := slots_mapped Arm.slots (mem c) mc /\ mapped (mem c) (mc + 0); can_switch _ _ := True;
            suspended mc ra R m := Arm.holds m mc (upd (upd R 0%nat mc) 14%nat ra) |}.
  - intros mc ra [p R m] [Hm Hm0].
    destruct (Arm.arm_get_run p (upd (upd R 0%nat mc) 14%nat ra) m mc) as (R1 & m1 & Hrun & H0 & Hk & Hs & _); [done|done|done|].
    eexists. split; [exact Hrun|]. split_and!; [done|done| |done].
    intros n Hn. cbn [regs]. rewrite Hk by lia. by rewrite !upd_ne by lia.
  - intros mc ra R [p R2 m] Hs _.
    destruct (Arm.arm_set_run p (upd R2 0%nat mc) m mc _ (upd_eq _ _ _) Hs) as (R3 & Hrun & H0 & HR3).
    eexists. split; [exact Hrun|]. split_and!; [done|done|].
    intros n Hn. cbn [regs]. rewrite HR3 by lia. by rewrite !upd_ne by lia.
Defined.

(** ** amd64 and i386: the return address on the stack *)

Definition push_ra {reg} `{!EqDecision reg} (word : Z) (SP : reg) (ra : Z) : M (cpu reg) unit :=
  let* sp := rreg SP in wreg SP (sp - word) ;;; wr (sp - word) ra.

Lemma push_ra_run {reg} `{!EqDecision reg} word (SP : reg) ra p R m :
  mapped m (R SP - word) ->
  push_ra word SP ra (mk_cpu p R m) = Ok (tt, mk_cpu p (upd R SP (R SP - word)) (<[R SP - word := ra]> m)).
Proof. intros Hm. unfold push_ra, bind, rreg, gets, wreg, modify. by rewrite wr_run. Qed.

#[export] Instance amd64_port : Port Amd64.reg := {
  result_reg := Amd64.RAX;
  call_get mc ra := wreg Amd64.RDI mc ;;; push_ra 8 Amd64.RSP ra ;;; X86.execs 8 Amd64.RSP Amd64.getmcontext;
  call_set mc := wreg Amd64.RDI mc ;;; push_ra 8 Amd64.RSP 0 ;;; X86.execs 8 Amd64.RSP Amd64.setmcontext
}.

Lemma amd64_holds_word m mc V ip a x :
  Amd64.outside mc a -> Amd64.holds m mc V ip -> Amd64.holds (<[a := x]> m) mc V ip.
Proof. intros Ho. apply Amd64.holds_same. intros i Hi. apply lookup_insert_ne, Ho, Hi. Qed.

Lemma amd64_holds_ext m mc V V' ip : (forall r, V r = V' r) -> Amd64.holds m mc V ip -> Amd64.holds m mc V' ip.
Proof. intros HV Hh. unfold Amd64.holds in *. by rewrite <- !HV. Qed.

#[export] Instance amd64_laws : PortLaws Amd64.reg.
Proof.
  refine {| kept r := r <> Amd64.RAX /\ r <> Amd64.RDI;
            can_save mc c := Amd64.mc_mapped (mem c) mc /\ mapped (mem c) (regs c Amd64.RSP - 8) /\ Amd64.outside mc (regs c Amd64.RSP - 8);
            can_switch mc c := mapped (mem c) (regs c Amd64.RSP - 8) /\ Amd64.outside mc (regs c Amd64.RSP - 8);
            suspended mc ra R m := Amd64.holds m mc (upd (upd R Amd64.RDI mc) Amd64.RAX 1) ra /\
              mapped m (R Amd64.RSP - 8) /\ Amd64.outside mc (R Amd64.RSP - 8) |}.
  - intros mc ra [p R m] (Hm & Hsp & Ho). cbn [mem regs] in *.
    set (R1 := upd (upd R Amd64.RDI mc) Amd64.RSP (R Amd64.RSP - 8)). set (m1 := <[R Amd64.RSP - 8 := ra]> m).
    destruct (Amd64.get_run p R1 m1 mc ra) as (R2 & m2 & Hrun & Hax & Hrsp & Hk & Hh & Hfr); try done.
    { intros i Hi. by apply mapped_word, Hm. }
    { by apply lookup_insert_eq. }
    assert (Hsp2 : R1 Amd64.RSP + 8 = R Amd64.RSP) by (change (R1 Amd64.RSP) with (R Amd64.RSP - 8); lia).
    exists (mk_cpu ra R2 m2). split_and!; [|done|done| | | |done].
    + cbn [call_get amd64_port]. rewrite (bind_ok _ _ _ tt (mk_cpu p (upd R Amd64.RDI mc) m)) by done.
      rewrite (bind_ok _ _ _ tt (mk_cpu p R1 m1)); [done|]. by rewrite push_ra_run; rg.
    + intros r [H1 H2]. cbn [regs]. destruct (decide (r = Amd64.RSP)) as [->|Hr]; [by rewrite Hrsp|].
      rewrite Hk by done. unfold R1. by rewrite !upd_ne by congruence.
    + rewrite Hsp2 in Hh. eapply amd64_holds_ext; [|exact Hh]. intros r. unfold R1.
      destruct (decide (r = Amd64.RSP)) as [->|Hr]; [done|]. by destruct r.
    + cbn [mem]. unfold mapped. rewrite (Hfr _ Ho). eexists. apply lookup_insert_eq.
  - intros mc ra R [p R2 m] (Hh & Hm & Ho) [Hm2 Ho2]. cbn [mem regs] in *.
    set (R3 := upd (upd R2 Amd64.RDI mc) Amd64.RSP (R2 Amd64.RSP - 8)). set (m3 := <[R2 Amd64.RSP - 8 := 0]> m).
    destruct (Amd64.set_run p R3 m3 mc (upd (upd R Amd64.RDI mc) Amd64.RAX 1) ra) as (R4 & Hrun & HR4); try done.
    { by apply amd64_holds_word. }
    { by apply mapped_word. }
    eexists (mk_cpu ra R4 _). split; [|split; [reflexivity|split]].
    + cbn [call_set amd64_port]. rewrite (bind_ok _ _ _ tt (mk_cpu p (upd R2 Amd64.RDI mc) m)) by done.
      rewrite (bind_ok _ _ _ tt (mk_cpu p R3 m3)); [exact Hrun|]. by rewrite push_ra_run; rg.
    + cbn [regs]. by rewrite HR4.
    + intros r [H1 H2]. cbn [regs]. rewrite HR4. by rewrite !upd_ne by congruence.
Defined.

#[export] Instance i386_port : Port I386.reg := {
  result_reg := I386.EAX;
  call_get mc ra := let* sp := rreg I386.ESP in wr sp mc ;;; push_ra 4 I386.ESP ra ;;; X86.execs 4 I386.ESP I386.getmcontext;
  call_set mc := let* sp := rreg I386.ESP in wr sp mc ;;; push_ra 4 I386.ESP 0 ;;; X86.execs 4 I386.ESP I386.setmcontext
}.

Lemma i386_holds_word m mc V ip a x :
  I386.outside mc a -> I386.holds m mc V ip -> I386.holds (<[a := x]> m) mc V ip.
Proof.
  intros Ho [Hs Hip]. unfold I386.outside, I386.MC_WORDS in Ho. split.
  - eapply saved_same; [|exact Hs]. intros q Hq. apply lookup_insert_ne.
    assert (Ha : Forall (fun q : I386.reg * Z => 0 <= q.2 < 260) I386.slots) by by_slots. rewrite Forall_forall in Ha.
    specialize (Ha q Hq). lia.
  - rewrite lookup_insert_ne; [done|]. unfold I386.mc_eip. lia.
Qed.

(** The two words of a call: the argument and the return address. *)
Definition call_room (mc : Z) (c : cpu I386.reg) : Prop :=
  mapped (mem c) (regs c I386.ESP) /\ mapped (mem c) (regs c I386.ESP - 4) /\
  I386.outside mc (regs c I386.ESP) /\ I386.outside mc (regs c I386.ESP - 4).

#[export] Instance i386_laws : PortLaws I386.reg.
Proof.
  refine {| kept r := r <> I386.EAX;
            can_save mc c := I386.mc_mapped (mem c) mc /\ call_room mc c; can_switch := call_room;
            suspended mc ra R m := I386.holds m mc (upd R I386.EAX 1) ra /\
              mapped m (R I386.ESP - 4) /\ I386.outside mc (R I386.ESP - 4) |}.
  - intros mc ra [p R m] [Hm (Ha & Hr & Hoa & Hor)]. cbn [mem regs] in *. set (sp := R I386.ESP) in *.
    set (R1 := upd R I386.ESP (sp - 4)). set (m1 := <[sp - 4 := ra]> (<[sp := mc]> m)).
    destruct (I386.i386_get_run p R1 m1 mc ra) as (R2 & m2 & Hrun & Hax & Hsp & Hk & Hh & Hfr).
    { intros i Hi. by do 2 apply mapped_word; apply Hm. }
    { done. }
    { by apply lookup_insert_eq. }
    { change (R1 I386.ESP) with (sp - 4). unfold m1. rewrite lookup_insert_ne by lia.
      replace (sp - 4 + 4) with sp by lia. apply lookup_insert_eq. }
    assert (Hsp2 : R1 I386.ESP + 4 = sp) by (change (R1 I386.ESP) with (sp - 4); lia).
    exists (mk_cpu ra R2 m2). split_and!; [|done|done| | | |done].
    + cbn [call_get i386_port]. rewrite (bind_ok _ _ _ sp (mk_cpu p R m)) by done. erewrite bind_ok by (by apply wr_run).
      rewrite (bind_ok _ _ _ tt (mk_cpu p R1 m1)); [done|]. apply push_ra_run. by apply mapped_word.
    + intros r H1. cbn [regs]. destruct (decide (r = I386.ESP)) as [->|Hne]; [by rewrite Hsp|].
      rewrite Hk by done. unfold R1. by rewrite upd_ne by congruence.
    + rewrite Hsp2 in Hh. destruct Hh as [Hs Hip]. split; [|done]. eapply saved_ext; [|exact Hs]. intros q _. unfold R1.
      by destruct (q.1).
    + cbn [mem]. unfold mapped. rewrite (Hfr _ Hor). eexists. apply lookup_insert_eq.
  - intros mc ra R [p R2 m] (Hh & Hm & Ho) (Ha2 & Hr2 & Hoa & Hor). cbn [mem regs] in *. set (sp := R2 I386.ESP) in *.
    set (R3 := upd R2 I386.ESP (sp - 4)). set (m3 := <[sp - 4 := 0]> (<[sp := mc]> m)).
    destruct (I386.i386_set_run p R3 m3 mc (upd R I386.EAX 1) ra) as (R4 & Hrun & HR4); try done.
    { change (R3 I386.ESP) with (sp - 4). unfold m3. rewrite lookup_insert_ne by lia.
      replace (sp - 4 + 4) with sp by lia. apply lookup_insert_eq. }
    { apply i386_holds_word; [done|]. by apply i386_holds_word. }
    { by do 2 apply mapped_word. }
    eexists (mk_cpu ra R4 _). split; [|split; [reflexivity|split]].
    + cbn [call_set i386_port]. rewrite (bind_ok _ _ _ sp (mk_cpu p R2 m)) by done. erewrite bind_ok by (by apply wr_run).
      rewrite (bind_ok _ _ _ tt (mk_cpu p R3 m3)); [exact Hrun|]. apply push_ra_run. by apply mapped_word.
    + cbn [regs]. by rewrite HR4.
    + intros r H1. cbn [regs]. rewrite HR4. by rewrite upd_ne by congruence.
Defined.

(** ** MIPS *)

Definition mips_port : Port nat := {|
  result_reg := 2%nat;
  call_get mc ra := wreg 4%nat mc ;;; wreg 31%nat ra ;;; Risc.execs Mips.getmcontext;
  call_set mc := wreg 4%nat mc ;;; Risc.execs Mips.setmcontext
|}.

(** A resumed context finds the result the switching code had. *)
Lemma mips_setcontext_loops pending fuel ucp p R m :
  R 2%nat = 0 -> (forall n, exists V, saved Mips.slots m (Nat.iter n pending ucp) V) ->
  setcontext (Port0 := mips_port) pending fuel ucp (mk_cpu p R m) = Err FFuel.
Proof.
  revert ucp p R. induction fuel as [|fuel IH]; intros ucp p R H2 Hw; [done|]. cbn [setcontext call_set result_reg mips_port].
  destruct (Hw 0%nat) as [V Hs]. cbn [Nat.iter nat_rect] in Hs.
  destruct (Mips.mips_set_run p (upd R 4%nat ucp) m ucp V) as (R1 & Hrun & _ & HR2 & _); [done|done|].
  assert (Hset : (wreg 4%nat ucp ;;; Risc.execs Mips.setmcontext) (mk_cpu p R m) = Ok (tt, mk_cpu (V 31%nat) R1 m)) by exact Hrun.
  rewrite (bind_ok _ _ _ _ _ Hset). unfold bind, rreg, gets. cbn [regs]. rewrite HR2, upd_ne, H2 by done. cbn [Z.eqb].
  apply IH; [by rewrite HR2, upd_ne by done|]. intros n. specialize (Hw (S n)). by rewrite Nat.iter_succ_r in Hw.
Qed.

(** C11. On MIPS [setmcontext] does not load the register of results, in which
    the [getcontext] of [swapcontext] has just returned 0.  The resumed
    [swapcontext] therefore finds 0 as well and switches back: when every
    context that is waiting was saved by a [swapcontext], the call of
    [swapcontext] never ends, whatever the contexts and however long the
    run. *)
Theorem mips_swapcontext_never_returns pending fuel oucp ra c :
  Mips.mc_mapped (mem c) oucp ->
  (forall c1, call_get (Port := mips_port) oucp ra c = Ok (tt, c1) ->
    forall n, exists V, saved Mips.slots (mem c1) (Nat.iter n pending (pending oucp)) V) ->
  swapcontext (Port0 := mips_port) pending fuel oucp ra c = Err FFuel.
Proof.
  destruct c as [p R m]. intros Hm Hw.
  destruct (Mips.mips_get_run p (upd (upd R 4%nat oucp) 31%nat ra) m oucp) as (R1 & m1 & Hrun & H2 & _); [done|done|].
  assert (Hget : call_get (Port := mips_port) oucp ra (mk_cpu p R m) = Ok (tt, mk_cpu ra R1 m1)) by exact Hrun.
  specialize (Hw _ Hget). unfold swapcontext. rewrite (bind_ok _ _ _ _ _ Hget).
  unfold bind at 1, rreg at 1, gets at 1. cbn [regs result_reg mips_port]. rewrite H2. cbn [Z.eqb mem] in *. by apply mips_setcontext_loops.
Qed.

(** ** Concrete switches

    Two structures of 26 words at 4096 and 8192; the second one is that of a
    context suspended at 500 with 7 in all its registers. *)
Definition ex_zeros : gmap Z Z := list_to_map ((fun i => (4096 + Z.of_nat i * 4, 0)) <$> seq 0 26).
Definition ex_ctx (slots : list (Power.reg * Z)) : gmap Z Z :=
  write_slots slots 8192 (upd (upd (fun _ => 7) Power.LR 500) (Power.GPR 3) 1) ex_zeros.

Lemma ex_zeros_mapped i n : 0 <= i < 26 -> n = 4096 + i * 4 -> mapped ex_zeros n.
Proof.
  intros Hi ->. assert (Ha : Forall (fun k => is_Some (ex_zeros !! (4096 + Z.of_nat k * 4))) (seq 0 26)) by by_slots.
  rewrite Forall_forall in Ha. replace i with (Z.of_nat (Z.to_nat i)) by lia. apply Ha, elem_of_seq. lia.
Qed.

Lemma swapcontext_switches_witness :
  exists c1 c', call_get (reg := Power.reg) 4096 300 (mk_cpu 1 (fun _ => 5) (ex_ctx Power.slots)) = Ok (tt, c1) /\
    suspended (reg := Power.reg) 4096 300 (fun _ => 5) (mem c1) /\
    swapcontext (reg := Power.reg) (fun _ => 8192) 1 4096 300 (mk_cpu 1 (fun _ => 5) (ex_ctx Power.slots)) = Ok (tt, c') /\
    pc c' = 500 /\ (forall r : Power.reg, kept r -> regs c' r = 7).
Proof.
  apply (swapcontext_switches (reg := Power.reg) (fun _ => 8192) 0 4096 300 500 (fun _ => 7) (mk_cpu 1 (fun _ => 5) (ex_ctx Power.slots))).
  - intros i Hi. apply write_slots_mapped. by apply (ex_zeros_mapped i).
  - intros c1 Hc1. split; [|exact I]. vm_compute in Hc1. injection Hc1 as <-.
    unfold suspended, power_laws, saved. by_slots.
Defined.

(** Two contexts of MIPS that were saved by [swapcontext]s to each other. *)
Definition ex_mips : gmap Z Z :=
  write_slots Mips.slots 8192 (fun _ => 7) (list_to_map ((fun i => (4096 + Mips.mc_regs (Z.of_nat i), 0)) <$> seq 0 32)).
Definition ex_other (mc : Z) : Z := if mc =? 4096 then 8192 else 4096.

Lemma mips_swapcontext_never_returns_witness :
  swapcontext (Port0 := mips_port) ex_other 100 4096 300 (mk_cpu 1 (fun _ => 5) ex_mips) = Err FFuel.
Proof.
  apply mips_swapcontext_never_returns.
  - intros n Hn. assert (Ha : Forall (fun k => is_Some (ex_mips !! (4096 + Mips.mc_regs (Z.of_nat k)))) (seq 0 32)) by by_slots.
    rewrite Forall_forall in Ha. replace n with (Z.of_nat (Z.to_nat n)) by lia. apply Ha, elem_of_seq. lia.
  - intros c1 Hc1. vm_compute in Hc1. injection Hc1 as <-. intros n.
    assert (Hn : Nat.iter n ex_other (ex_other 4096) = 8192 \/ Nat.iter n ex_other (ex_other 4096) = 4096).
    { induction n as [|n [IH|IH]]; [by left|..]; cbn [Nat.iter nat_rect]; unfold Nat.iter in IH; rewrite IH; [by right|by left]. }
    destruct Hn as [-> | ->].
    + exists (fun _ => 7). unfold saved. by_slots.
    + exists (upd (upd (fun _ => 5) 4%nat 4096) 31%nat 300). unfold saved. by_slots.
Defined.

(** ** Which port a platform uses

    The conditions of [src/uctx_context.c] and of [src/uctx_asm.S]. *)
Inductive platform := Apple | FreeBSD (version : Z) | OpenBSD | Linux | OtherOS.
Inductive processor := i386 | x86_64 | arm | mips | other_processor.
Inductive port_name := X86Port | Amd64Port | PowerPort | ArmPort | MipsPort.

(** The version of [makecontext] that is compiled in, together with
    [swapcontext]. *)
Definition needs_makecontext (o : platform) (a : processor) : option port_name :=
  match o, a with
  | Apple, i386 => Some X86Port
  | Apple, x86_64 => Some Amd64Port
  | Apple, _ => Some PowerPort
  | FreeBSD v, i386 => if v <? 5 then Some X86Port else None
  | OpenBSD, i386 => Some X86Port
  | Linux, mips => Some MipsPort
  | _, _ => None
  end.

(** The version of [getmcontext] and [setmcontext]. *)
Definition needs_context (o : platform) (a : processor) : option port_name :=
  match o, a with
  | FreeBSD v, i386 => if v <? 5 then Some X86Port else None
  | OpenBSD, i386 => Some X86Port
  | Apple, i386 => Some X86Port
  | Apple, x86_64 => Some Amd64Port
  | Apple, _ => Some PowerPort
  | Linux, arm => Some ArmPort
  | Linux, mips => Some MipsPort
  | _, _ => None
  end.

(** A platform that gets a [makecontext] gets the routines of the same port;
    only ARM has the routines alone. *)
Lemma ports_agree o a p :
  (needs_makecontext o a = Some p -> needs_context o a = Some p) /\
  (needs_context o a = Some p -> p <> ArmPort -> needs_makecontext o a = Some p).
Proof. destruct o, a; simpl; try (by split; congruence); by repeat case_match. Qed.
