(* ===== verification/Hook.v ===== *)
(** * The original functions

    [dyco_inithook] of [src/dyco_hook.c], which runs before [main] and stores
    where the original versions of the system calls are.  With COROUTINE_HOOK
    the library defines functions of the same names, so that the originals are
    asked for with [dlsym(RTLD_NEXT, name)]; without it a name stands for the
    original. *)
From S2P Require Import Prelude.
From stdpp Require Import strings.

Section hook.
Context {F : Type}.

Record hooks := {
  socket_f : F;
  close_f : F;
  accept_f : F;
  connect_f : F;
  recv_f : F;
  recvfrom_f : F;
  send_f : F;
  sendto_f : F;
  epoll_wait_f : F;
  poll_f : F
}.

Definition names : list string :=
  ["socket"; "close"; "accept"; "connect"; "recv"; "recvfrom"; "send"; "sendto"; "epoll_wait"; "poll"]%string.

(** The pointers in the order of their names. *)
Definition pointers (h : hooks) : list F :=
  [socket_f h; close_f h; accept_f h; connect_f h; recv_f h; recvfrom_f h; send_f h; sendto_f h; epoll_wait_f h; poll_f h].

(** [dlsym_next] is [dlsym(RTLD_NEXT, _)] and [global] what a name in the
    library stands for. *)
Definition dyco_inithook (COROUTINE_HOOK : bool) (dlsym_next global : string -> F) : hooks :=
  if COROUTINE_HOOK then
    {| socket_f := dlsym_next "socket"%string;
       close_f := dlsym_next "close"%string;
       accept_f := dlsym_next "accept"%string;
       connect_f := dlsym_next "connect"%string;
       recv_f := dlsym_next "recv"%string;
       recvfrom_f := dlsym_next "recvfrom"%string;
       send_f := dlsym_next "send"%string;
       sendto_f := dlsym_next "sendto"%string;
       epoll_wait_f := dlsym_next "epoll_wait"%string;
       poll_f := dlsym_next "poll"%string |}
  else
    {| socket_f := global "socket"%string;
       close_f := global "close"%string;
       accept_f := global "accept"%string;
       connect_f := global "connect"%string;
       recv_f := global "recv"%string;
       recvfrom_f := global "recvfrom"%string;
       send_f := global "send"%string;
       sendto_f := global "sendto"%string;
       epoll_wait_f := global "epoll_wait"%string;
       poll_f := global "poll"%string |}.

(** ** Where the pointers lead

    Symbols are looked up in the objects of the process in their order: those
    before the library, the library, those after it. *)
Context (null : F).
Definition object : Type := gmap string F.

Fixpoint resolve (l : list object) (name : string) : F :=
  match l with
  | [] => null
  | o :: l' => match o !! name with Some f => f | None => resolve l' name end
  end.

Definition hooks_of (COROUTINE_HOOK : bool) (before : list object) (self : object) (after : list object) : hooks :=
  dyco_inithook COROUTINE_HOOK (resolve after) (resolve (before ++ self :: after)).

Lemma resolve_skip l l' name : Forall (fun o => o !! name = None) l -> resolve (l ++ l') name = resolve l' name.
Proof. induction 1 as [|o l Ho Hl IH]; [done|]. simpl. by rewrite Ho. Qed.

(** In both configurations the pointers are the functions of the objects after
    the library: the wrappers never call the replacements, which call them. *)
Lemma hooks_are_originals (COROUTINE_HOOK : bool) before self after :
  Forall (fun o => forall name, name ∈ names -> o !! name = None) before ->
  (COROUTINE_HOOK = false -> forall name, name ∈ names -> self !! name = None) ->
  pointers (hooks_of COROUTINE_HOOK before self after) = resolve after <$> names.
Proof.
  intros Hb Hs. destruct COROUTINE_HOOK; [done|].
  assert (Hg : forall name, name ∈ names -> resolve (before ++ self :: after) name = resolve after name).
  { intros name Hn. rewrite resolve_skip by (eapply Forall_impl; [exact Hb|]; auto). simpl. by rewrite Hs. }
  unfold hooks_of. simpl. by rewrite !Hg by (by apply (bool_decide_unpack _); vm_compute).
Qed.

End hook.
