(* ===== verification/Htable.v ===== *)
(** * The integer-keyed hash table of [include/dyco/dyco_htable.h]

    An array of [2^width] buckets, each bucket an inline first entry followed
    by a chain of heap-allocated entries; a bucket whose inline [id] is -1 is
    empty.  The array is a list of buckets, the chain of a bucket a list of
    (id, data) nodes, and a dereference of a null or freed table is the
    fault [FSegv].  Allocation is decided by an oracle [ok], asked once per
    [malloc]/[calloc] of a call, in the order the call makes them.

    The abstract view of a table is the finite map [habs] of its entries with
    a non-zero key: the first [htable_resize] leaves the unused buckets other
    than bucket 0 with the inline id 0 that [calloc] gave them, so that key 0
    has phantom entries from then on (see [phantom_zero_key]). *)
From S2P Require Import Prelude.

Local Open Scope Z_scope.

Definition DYCO_HTABLE_MAXWITDH : Z := 24.
Definition DYCO_HTABLE_DEFAULTWITDH : Z := 16.
Definition DYCO_HTABLE_MAXALPHA : Z := 2.

Section htable.
Context {D : Type} (null : D).

(** ** Data *)

Record dyco_hentry := mk_hentry {
  he_id : Z;
  he_data : D;
  he_next : list (Z * D)
}.

Inductive table_ptr :=
  | TNull
  | TFreed
  | TLive (t : list dyco_hentry).

Record dyco_htable := mk_htable {
  width : Z;
  mask : Z;
  count : Z;
  table : table_ptr
}.

Definition empty_entry : dyco_hentry := mk_hentry (-1) null [].
Definition zero_entry : dyco_hentry := mk_hentry 0 null [].

Definition buckets (h : dyco_htable) : list dyco_hentry :=
  match table h with TLive t => t | _ => [] end.

Definition bucket_idx (m id : Z) : nat := Z.to_nat (Z.land id m).

Definition set_bucket (h : dyco_htable) (id : Z) (b : dyco_hentry) (c : Z) : dyco_htable :=
  mk_htable (width h) (mask h) c (TLive (<[bucket_idx (mask h) id := b]> (buckets h))).

(** ** Chain traversals *)

Fixpoint chain_find (id : Z) (l : list (Z * D)) : option D :=
  match l with
  | [] => None
  | (k, d) :: l' => if k =? id then Some d else chain_find id l'
  end.

Fixpoint chain_update (id : Z) (d : D) (l : list (Z * D)) : option (list (Z * D)) :=
  match l with
  | [] => None
  | (k, d') :: l' =>
      if k =? id then Some ((k, d) :: l')
      else match chain_update id d l' with
           | Some l'' => Some ((k, d') :: l'')
           | None => None
           end
  end.

Fixpoint chain_delete (id : Z) (l : list (Z * D)) : option (D * list (Z * D)) :=
  match l with
  | [] => None
  | (k, d) :: l' =>
      if k =? id then Some (d, l')
      else match chain_delete id l' with
           | Some (r, l'') => Some (r, (k, d) :: l'')
           | None => None
           end
  end.

(** ** Creation and disposal *)

Definition htable_init (ok : bool) (w : Z) : Z * dyco_htable :=
  let wd := if w <=? 0 then DYCO_HTABLE_DEFAULTWITDH
            else if DYCO_HTABLE_MAXWITDH <? w then DYCO_HTABLE_MAXWITDH else w in
  let sz := Z.shiftl 1 wd in
  if ok then
    (0, mk_htable wd (sz - 1) 0 (TLive (replicate (Z.to_nat sz) empty_entry)))
  else (-1, mk_htable wd (sz - 1) 0 TNull).

(** [htable_create]: the result of [htable_init] is not looked at. *)
Definition htable_create (ok : nat -> bool) (w : Z) : option dyco_htable :=
  if ok O then Some (snd (htable_init (ok 1%nat) w)) else None.

Definition cleared : dyco_htable := mk_htable 0 0 0 TFreed.

(** [htable_clear] frees the chains and the array, and leaves the dangling
    array pointer in place. *)
Definition htable_clear (h : dyco_htable) : res dyco_htable :=
  match table h with
  | TNull => Ok h
  | TFreed => Err FSegv
  | TLive _ => Ok cleared
  end.

Definition htable_free (h : option dyco_htable) : res unit :=
  match h with
  | None => Ok tt
  | Some h => match htable_clear h with Ok _ => Ok tt | Err e => Err e end
  end.

(** ** Lookup *)

Definition htable_find (h : dyco_htable) (id : Z) : res D :=
  match buckets h !! bucket_idx (mask h) id with
  | None => Err FSegv
  | Some b =>
      if he_id b =? -1 then Ok null
      else if he_id b =? id then Ok (he_data b)
      else Ok (default null (chain_find id (he_next b)))
  end.

Definition htable_contains (h : dyco_htable) (id : Z) : res Z :=
  match buckets h !! bucket_idx (mask h) id with
  | None => Err FSegv
  | Some b =>
      if he_id b =? -1 then Ok 0
      else if he_id b =? id then Ok 1
      else Ok (if chain_find id (he_next b) then 1 else 0)
  end.

(** ** Resizing *)

(** Both halves of the rehash loop body: the entry becomes the inline entry
    of an empty bucket of the new array, or is linked right after the inline
    entry of an occupied one. *)
Definition place (m : Z) (nt : list dyco_hentry) (e : Z * D) : list dyco_hentry :=
  let i := bucket_idx m (fst e) in
  match nt !! i with
  | None => nt
  | Some b =>
      if he_id b =? -1 then <[i := mk_hentry (fst e) (snd e) (he_next b)]> nt
      else <[i := mk_hentry (he_id b) (he_data b) (e :: he_next b)]> nt
  end.

(** Whether moving entry [e] as the inline entry of an old bucket allocates. *)
Definition place_allocs (m : Z) (nt : list dyco_hentry) (e : Z * D) : bool :=
  match nt !! bucket_idx m (fst e) with
  | None => false
  | Some b => negb (he_id b =? -1)
  end.

(** The loop over the old buckets; [n] is the number of the next allocation.
    [None] is the failed [malloc] of the first-node branch. *)
Fixpoint rehash (ok : nat -> bool) (n : nat) (m : Z)
    (old : list dyco_hentry) (nt : list dyco_hentry) : option (list dyco_hentry) :=
  match old with
  | [] => Some nt
  | b :: old' =>
      if he_id b =? -1 then rehash ok n m old' nt
      else
        let e := (he_id b, he_data b) in
        let nt1 := place m nt e in
        let nt2 := foldl (place m) nt1 (he_next b) in
        if place_allocs m nt e then
          if ok n then rehash ok (S n) m old' nt2 else None
        else rehash ok n m old' nt2
  end.

(** The freshly allocated array after the initialisation loop, which writes
    [newtable->id], i.e. entry 0, at each of its [newsize] iterations. *)
Definition new_array (newsize : nat) : list dyco_hentry :=
  Nat.iter newsize (fun t => <[0%nat := empty_entry]> t) (replicate newsize zero_entry).

Definition htable_resize (ok : nat -> bool) (n : nat) (h : dyco_htable) (w : Z)
  : res (Z * dyco_htable) :=
  if (w =? width h) || (DYCO_HTABLE_MAXWITDH <? w) then Ok (-1, h)
  else
    let newsize := Z.shiftl 1 w in
    let newmask := newsize - 1 in
    if negb (ok n) then Ok (-1, h)
    else match table h with
         | TLive old =>
             match rehash ok (S n) newmask old (new_array (Z.to_nat newsize)) with
             | None => Err FTorn
             | Some nt => Ok (0, mk_htable w newmask (count h) (TLive nt))
             end
         | _ => Err FSegv
         end.

(** ** Insertion and deletion *)

Definition grow (ok : nat -> bool) (n : nat) (h : dyco_htable) : res (Z * dyco_htable) :=
  if mask h * DYCO_HTABLE_MAXALPHA =? count h then
    match htable_resize ok n h (width h + 1) with
    | Ok (r, h') => if r <? 0 then Ok (-1, h') else Ok (1, h')
    | Err e => Err e
    end
  else Ok (1, h).

Definition htable_insert (ok : nat -> bool) (h : dyco_htable) (id : Z) (d : D)
  : res (Z * dyco_htable) :=
  match buckets h !! bucket_idx (mask h) id with
  | None => Err FSegv
  | Some b =>
      if he_id b =? -1 then
        grow ok 0 (set_bucket h id (mk_hentry id d (he_next b)) (count h + 1))
      else if he_id b =? id then
        Ok (0, set_bucket h id (mk_hentry id d (he_next b)) (count h))
      else match chain_update id d (he_next b) with
           | Some l => Ok (0, set_bucket h id (mk_hentry (he_id b) (he_data b) l) (count h))
           | None =>
               if ok O then
                 grow ok 1 (set_bucket h id
                   (mk_hentry (he_id b) (he_data b) ((id, d) :: he_next b)) (count h + 1))
               else Ok (-1, h)
           end
  end.

(** The entry removed, for the out parameter of the call, and the table. *)
Definition htable_delete (h : dyco_htable) (id : Z) : res (Z * option D * dyco_htable) :=
  match buckets h !! bucket_idx (mask h) id with
  | None => Err FSegv
  | Some b =>
      if he_id b =? -1 then Ok (-1, None, h)
      else if he_id b =? id then
        let b' := match he_next b with
                  | (k, d) :: l => mk_hentry k d l
                  | [] => mk_hentry (-1) null (he_next b)
                  end in
        Ok (0, Some (he_data b), set_bucket h id b' (count h - 1))
      else match chain_delete id (he_next b) with
           | Some (d, l) =>
               Ok (0, Some d, set_bucket h id (mk_hentry (he_id b) (he_data b) l) (count h - 1))
           | None => Ok (-1, None, h)
           end
  end.

(** ** Operations with a callback

    The callback may itself operate on the table (the scheduler's [coro_abort]
    deletes the coroutine it frees), so both operations run on the state [St]
    of the program, in which the table is reached by [get] and [set]. *)
Section callbacks.
Local Open Scope dyco_scope.
Context {St : Type} (get : St -> dyco_htable) (set : dyco_htable -> St -> St).
Context (is_null : D -> bool) (freecb : D -> M St unit).

(** [ptr], the first chain node of the bucket, is read before the callback
    and used after it: it must still be the first chain node then. *)
Definition delete_head (id : Z) (ptr : list (Z * D)) : M St Z :=
  let* s := get_st in
  let h := get s in
  match buckets h !! bucket_idx (mask h) id with
  | None => throw FSegv
  | Some b =>
      match ptr with
      | (k, d) :: l =>
          if decide (fst <$> he_next b = fst <$> ptr) then
            put_st (set (set_bucket h id (mk_hentry k d l) (count h - 1)) s) ;;; ret 0
          else throw FSegv
      | [] =>
          put_st (set (set_bucket h id (mk_hentry (-1) null (he_next b)) (count h - 1)) s) ;;;
          ret 0
      end
  end.

Definition htable_delete_with_freecb (id : Z) : M St Z :=
  let* s := get_st in
  let h := get s in
  match buckets h !! bucket_idx (mask h) id with
  | None => throw FSegv
  | Some b =>
      if he_id b =? -1 then ret (-1)
      else if he_id b =? id then
        when (negb (is_null (he_data b))) (freecb (he_data b)) ;;;
        delete_head id (he_next b)
      else match chain_delete id (he_next b) with
           | Some (d, l) =>
               put_st (set (set_bucket h id (mk_hentry (he_id b) (he_data b) l) (count h)) s) ;;;
               when (negb (is_null d)) (freecb d) ;;;
               modify (fun s => let h := get s in
                 set (mk_htable (width h) (mask h) (count h - 1) (table h)) s) ;;;
               ret 0
           | None => ret (-1)
           end
  end.

(** The chain loop of [htable_clear_with_freecb]: a node the callback has
    already unlinked is freed a second time. *)
Fixpoint clear_chain (i : nat) (l : list (Z * D)) : M St unit :=
  match l with
  | [] => ret tt
  | (k, d) :: l' =>
      let* s := get_st in
      let before := he_next <$> buckets (get s) !! i in
      freecb d ;;;
      let* s' := get_st in
      if decide (option_map (map fst) (he_next <$> buckets (get s') !! i)
                 = option_map (map fst) before)
      then clear_chain i l' else throw FSegv
  end.

Fixpoint clear_buckets (n i : nat) : M St unit :=
  match n with
  | O => ret tt
  | S n' =>
      let* s := get_st in
      match buckets (get s) !! i with
      | None => throw FSegv
      | Some b =>
          (if he_id b =? -1 then ret tt
           else
             freecb (he_data b) ;;;
             let* s' := get_st in
             match buckets (get s') !! i with
             | None => throw FSegv
             | Some b' => clear_chain i (he_next b')
             end) ;;;
          clear_buckets n' (S i)
      end
  end.

Definition htable_clear_with_freecb : M St unit :=
  let* s := get_st in
  match table (get s) with
  | TNull => ret tt
  | TFreed => throw FSegv
  | TLive _ =>
      clear_buckets (Z.to_nat (mask (get s) + 1)) 0 ;;;
      modify (set cleared)
  end.

End callbacks.

End htable.

(** * Correctness *)

Section htable_proofs.
Context {D : Type} (null : D).
Local Abbreviation dyco_hentry := (@dyco_hentry D).
Local Abbreviation dyco_htable := (@dyco_htable D).
Implicit Types (b : dyco_hentry) (t : list dyco_hentry) (h : dyco_htable) (k id : Z) (d : D).

(** ** The abstract view and the representation invariant *)

Definition entries b : list (Z * D) :=
  if he_id b =? -1 then [] else (he_id b, he_data b) :: he_next b.
Definition ekeys b : list Z := fst <$> entries b.
Definition nzkeys b : list Z := filter (fun k => k <> 0) (ekeys b).

Record bucket_wf (m : Z) (i : nat) b : Prop := {
  bw_empty : he_id b = -1 -> he_next b = [];
  bw_keys : Forall (fun k => k <> -1) (ekeys b);
  bw_place : Forall (fun k => k <> 0 -> bucket_idx m k = i) (ekeys b);
  bw_nodup : NoDup (nzkeys b)
}.

Record table_wf (m : Z) t : Prop := {
  tw_mask : 0 <= m;
  tw_len : length t = Z.to_nat (m + 1);
  tw_buckets : forall i b, t !! i = Some b -> bucket_wf m i b
}.

Definition nzcount t : nat := sum_list_with (fun b => length (nzkeys b)) t.

Record htable_wf h : Prop := {
  hw_width : 1 <= width h <= DYCO_HTABLE_MAXWITDH;
  hw_mask : mask h = 2 ^ width h - 1;
  hw_live : table h = TLive (buckets h);
  hw_table : table_wf (mask h) (buckets h);
  hw_count : count h = Z.of_nat (nzcount (buckets h))
}.

Definition habs h : gmap Z D :=
  list_to_map (filter (fun e => e.1 <> 0) (buckets h ≫= entries)).

(** What a lookup that ignores the phantom entries finds. *)
Definition tfind (m : Z) t k : option D :=
  t !! bucket_idx m k ≫= fun b => chain_find k (entries b).

(** ** Chains *)

Lemma chain_find_map k (l : list (Z * D)) : list_to_map (M := gmap Z D) l !! k = chain_find k l.
Proof.
  induction l as [|[k' d'] l IH]; simpl; [apply lookup_empty|].
  destruct (Z.eqb_spec k' k) as [->|]; simplify_map_eq; done.
Qed.

Lemma chain_find_app k (l1 l2 : list (Z * D)) :
  chain_find k (l1 ++ l2) =
  match chain_find k l1 with Some d => Some d | None => chain_find k l2 end.
Proof. induction l1 as [|[k' d'] l1 IH]; simpl; [done|]. by destruct (k' =? k). Qed.

Lemma chain_find_None k (l : list (Z * D)) : chain_find k l = None <-> k ∉ l.*1.
Proof.
  induction l as [|[k' d'] l IH]; csimpl; [set_solver|].
  rewrite not_elem_of_cons, <- IH. destruct (Z.eqb_spec k' k) as [->|Hne]; [split; [done|by intros []]|by split; [|intros [_ ?]]].
Qed.

Lemma chain_find_Some_in k d (l : list (Z * D)) : chain_find k l = Some d -> k ∈ l.*1.
Proof.
  intros Hf. destruct (decide (k ∈ l.*1)) as [|Hn%chain_find_None]; [done|congruence].
Qed.

Lemma chain_find_filter k (l : list (Z * D)) :
  k <> 0 -> chain_find k (filter (fun e => e.1 <> 0) l) = chain_find k l.
Proof.
  intros Hk. induction l as [|[k' d'] l IH]; [done|].
  rewrite filter_cons; simpl. case_decide; simpl; rewrite IH; [done|].
  destruct (Z.eqb_spec k' k); [congruence|done].
Qed.

Lemma chain_update_Some id d (l l' : list (Z * D)) :
  chain_update id d l = Some l' ->
  l'.*1 = l.*1 /\
  forall k, chain_find k l' = if k =? id then Some d else chain_find k l.
Proof.
  revert l'. induction l as [|[k' d'] l IH]; intros l' Hl; simpl in *; [done|].
  destruct (Z.eqb_spec k' id) as [->|Hne]; simplify_eq.
  - split; [done|]. intros k; simpl. rewrite (Z.eqb_sym id k). by destruct (k =? id).
  - destruct (chain_update id d l) as [l''|]; simplify_eq.
    destruct (IH _ eq_refl) as [Hk Hf]. split; [csimpl; by rewrite Hk|].
    intros k; simpl. rewrite Hf.
    destruct (Z.eqb_spec k' k), (Z.eqb_spec k id); congruence.
Qed.

Lemma chain_update_None id d (l : list (Z * D)) : chain_update id d l = None -> id ∉ l.*1.
Proof.
  rewrite <- chain_find_None. induction l as [|[k' d'] l IH]; simpl; [done|].
  destruct (k' =? id); [done|]. destruct (chain_update id d l); [done|auto].
Qed.

Lemma chain_delete_Some id d (l l' : list (Z * D)) :
  chain_delete id l = Some (d, l') ->
  chain_find id l = Some d /\ l.*1 ≡ₚ id :: l'.*1 /\
  forall k, k <> id -> chain_find k l' = chain_find k l.
Proof.
  revert l'. induction l as [|[k' d'] l IH]; intros l' Hl; simpl in *; [done|].
  destruct (Z.eqb_spec k' id) as [->|Hne]; simplify_eq.
  - split_and!; [done..|]. intros k Hk. destruct (Z.eqb_spec id k); congruence.
  - destruct (chain_delete id l) as [[r l'']|]; simplify_eq.
    destruct (IH _ eq_refl) as (Hf & Hp & Hk). split_and!; [done| |].
    + csimpl. rewrite Hp. constructor.
    + intros k Hn; simpl. by rewrite Hk.
Qed.

Lemma chain_delete_None id (l : list (Z * D)) : chain_delete id l = None -> id ∉ l.*1.
Proof.
  rewrite <- chain_find_None. induction l as [|[k' d'] l IH]; simpl; [done|].
  destruct (k' =? id); [done|]. destruct (chain_delete id l) as [[]|]; [done|auto].
Qed.

(** ** Buckets *)

Lemma entries_empty b : he_id b = -1 -> entries b = [].
Proof. unfold entries. intros ->. done. Qed.

Lemma entries_used b : he_id b <> -1 -> entries b = (he_id b, he_data b) :: he_next b.
Proof. unfold entries. by destruct (Z.eqb_spec (he_id b) (-1)). Qed.

Lemma entries_mk k d l : k <> -1 -> entries (mk_hentry k d l) = (k, d) :: l.
Proof. apply (entries_used (mk_hentry k d l)). Qed.

Lemma bucket_wf_empty m i : bucket_wf m i (empty_entry null).
Proof. split; [done|constructor..]. Qed.

(** The two ways the entries of a used bucket change. *)
Lemma bucket_wf_perm m i b b' :
  he_id b' <> -1 -> ekeys b' ≡ₚ ekeys b -> bucket_wf m i b -> bucket_wf m i b'.
Proof.
  intros Hid Hp [? Hk Hpl Hnd]. split; [done|by rewrite Hp..|].
  unfold nzkeys. by rewrite Hp.
Qed.

Lemma bucket_wf_add m i b b' k :
  he_id b' <> -1 -> ekeys b' ≡ₚ k :: ekeys b -> k <> -1 ->
  (k <> 0 -> bucket_idx m k = i) -> (k <> 0 -> k ∉ ekeys b) ->
  bucket_wf m i b -> bucket_wf m i b'.
Proof.
  intros Hid Hp Hk1 Hki Hkn [? Hk Hpl Hnd]. split; [done|rewrite Hp; by constructor..|].
  unfold nzkeys. rewrite Hp, filter_cons. case_decide; [|done].
  constructor; [|done]. rewrite list_elem_of_filter. intros [_ Hin]. by apply Hkn.
Qed.

Lemma bucket_wf_sub m i b b' k :
  (he_id b' = -1 -> he_next b' = []) -> ekeys b ≡ₚ k :: ekeys b' ->
  bucket_wf m i b -> bucket_wf m i b'.
Proof.
  intros Hid Hp [? Hk Hpl Hnd]. rewrite Hp in Hk, Hpl. unfold nzkeys in Hnd.
  rewrite Hp, filter_cons in Hnd. inversion_clear Hk; inversion_clear Hpl.
  split; [done..|]. case_decide; [by inversion_clear Hnd|done].
Qed.

Lemma nzkeys_add b b' k :
  ekeys b' ≡ₚ k :: ekeys b -> k <> 0 -> length (nzkeys b') = S (length (nzkeys b)).
Proof.
  intros Hp Hk. unfold nzkeys. rewrite Hp, filter_cons, decide_True by done. done.
Qed.

(** ** Tables *)

Lemma bucket_idx_bound m k : 0 <= m -> (bucket_idx m k < Z.to_nat (m + 1))%nat.
Proof.
  intros Hm. unfold bucket_idx.
  assert (0 <= Z.land k m) by (apply Z.land_nonneg; by right).
  assert (Z.land k m <= m).
  { rewrite Z.land_comm. 
    pose proof (Z.sub_nocarry_ldiff m (Z.land m k)) as Hs.
    assert (Hz : Z.ldiff (Z.land m k) m = 0).
    { apply Z.bits_inj'. intros n Hn. rewrite Z.ldiff_spec, Z.land_spec, Z.bits_0.
      destruct (Z.testbit m n), (Z.testbit k n); done. }
    specialize (Hs Hz).
    assert (0 <= m - Z.land m k); [rewrite Hs; apply Z.ldiff_nonneg; by left|lia]. }
  lia.
Qed.

Lemma table_lookup m t k : table_wf m t -> exists b, t !! bucket_idx m k = Some b.
Proof.
  intros [Hm Hl _]. apply lookup_lt_is_Some. rewrite Hl. by apply bucket_idx_bound.
Qed.

Lemma table_wf_insert m t k b :
  table_wf m t -> bucket_wf m (bucket_idx m k) b -> table_wf m (<[bucket_idx m k := b]> t).
Proof.
  intros [Hm Hl Hb] Hw. split; [done|by rewrite length_insert|].
  intros i b' Hi. apply list_lookup_insert_Some in Hi as [(<- & <- & _)|[_ Hi]]; eauto.
Qed.

Lemma tfind_insert m t k b k' :
  table_wf m t ->
  tfind m (<[bucket_idx m k := b]> t) k' =
  if decide (bucket_idx m k' = bucket_idx m k) then chain_find k' (entries b) else tfind m t k'.
Proof.
  intros Hw. unfold tfind. case_decide as Hd.
  - rewrite Hd, list_lookup_insert_eq; [done|].
    destruct (table_lookup m t k Hw). by eapply lookup_lt_Some.
  - by rewrite list_lookup_insert_ne.
Qed.

Lemma nzcount_insert m t k b b' :
  t !! bucket_idx m k = Some b ->
  (nzcount (<[bucket_idx m k := b']> t) + length (nzkeys b) = nzcount t + length (nzkeys b'))%nat.
Proof. intros Hb. by apply (sum_list_with_insert (fun b => length (nzkeys b))). Qed.


Lemma chain_find_bind_None k (l : list dyco_hentry) :
  (forall b, b ∈ l -> k ∉ ekeys b) -> chain_find k (l ≫= entries) = None.
Proof.
  intros Hl. apply chain_find_None. rewrite list_elem_of_fmap.
  intros ([k' d'] & -> & (b & Hb & Hin)%list_elem_of_bind).
  apply (Hl b Hin). apply list_elem_of_fmap. by exists (k', d').
Qed.

Lemma tfind_entries m t k :
  table_wf m t -> k <> 0 -> chain_find k (t ≫= entries) = tfind m t k.
Proof.
  intros Hw Hk. unfold tfind.
  destruct (table_lookup m t k Hw) as [b Hb]. rewrite Hb; simpl.
  rewrite <- (take_drop_middle t _ b Hb) at 1.
  assert (Hother : forall j b', t !! j = Some b' -> k ∈ ekeys b' -> j = bucket_idx m k).
  { intros j b' Hj Hin. destruct (tw_buckets _ _ Hw _ _ Hj) as [_ _ Hp _].
    rewrite Forall_forall in Hp. symmetry. by apply Hp. }
  rewrite bind_app, bind_cons, !chain_find_app.
  rewrite (chain_find_bind_None k (take _ t)).
  2: { intros b' [j Hj]%list_elem_of_lookup Hin. apply lookup_take_Some in Hj as [Hj ?].
       pose proof (Hother _ _ Hj Hin). lia. }
  rewrite (chain_find_bind_None k (drop _ t)); [by destruct (chain_find k (entries b))|].
  intros b' [j Hj]%list_elem_of_lookup Hin. rewrite lookup_drop in Hj.
  pose proof (Hother _ _ Hj Hin). lia.
Qed.

Lemma habs_lookup h k :
  htable_wf h -> k <> 0 -> habs h !! k = tfind (mask h) (buckets h) k.
Proof.
  intros Hw Hk. unfold habs. rewrite chain_find_map, chain_find_filter by done.
  apply tfind_entries; [apply hw_table|]; done.
Qed.

Lemma habs_zero h : habs h !! 0 = None.
Proof.
  unfold habs. rewrite chain_find_map. apply chain_find_None.
  rewrite list_elem_of_fmap. intros ([k d] & -> & Hin). apply list_elem_of_filter in Hin.
  by destruct Hin as [[] _].
Qed.

(** Two tables with the same lookups on non-zero keys have the same view. *)
Lemma habs_ext h h' :
  (forall k, k <> 0 -> habs h !! k = habs h' !! k) -> habs h = habs h'.
Proof.
  intros Hl. apply map_eq. intros k. destruct (decide (k = 0)) as [->|]; [|auto].
  by rewrite !habs_zero.
Qed.

Lemma mask_pos w : 1 <= w -> 0 <= 2 ^ w - 1.
Proof. intros. pose proof (Z.pow_pos_nonneg 2 w). lia. Qed.

(** ** Changing one bucket of a well-formed table *)

Lemma set_bucket_wf h id b b' c :
  htable_wf h -> buckets h !! bucket_idx (mask h) id = Some b ->
  bucket_wf (mask h) (bucket_idx (mask h) id) b' ->
  c + Z.of_nat (length (nzkeys b)) = count h + Z.of_nat (length (nzkeys b')) ->
  htable_wf (set_bucket h id b' c).
Proof.
  intros [Hw Hm Hl Ht Hc] Hb Hb' Hcc. split; simpl; [done..| |].
  - by apply table_wf_insert.
  - pose proof (nzcount_insert (mask h) (buckets h) id b b' Hb) as Hn.
    unfold buckets at 1; simpl. lia.
Qed.

Lemma habs_set_bucket h id b' c k :
  htable_wf h -> htable_wf (set_bucket h id b' c) -> k <> 0 ->
  habs (set_bucket h id b' c) !! k =
  if decide (bucket_idx (mask h) k = bucket_idx (mask h) id)
  then chain_find k (entries b') else habs h !! k.
Proof.
  intros Hw Hw' Hk. rewrite !habs_lookup by done. simpl.
  apply tfind_insert, hw_table, Hw.
Qed.

Lemma habs_bucket h id b k :
  htable_wf h -> buckets h !! bucket_idx (mask h) id = Some b -> k <> 0 ->
  bucket_idx (mask h) k = bucket_idx (mask h) id ->
  habs h !! k = chain_find k (entries b).
Proof.
  intros Hw Hb Hk Hi. rewrite habs_lookup by done. unfold tfind. by rewrite Hi, Hb.
Qed.

(** Replacing bucket [b] by a bucket that also maps [id] to [d]. *)
Lemma habs_set_insert h id b b' c d :
  htable_wf h -> htable_wf (set_bucket h id b' c) ->
  buckets h !! bucket_idx (mask h) id = Some b -> id <> 0 ->
  (forall k, chain_find k (entries b') = if k =? id then Some d else chain_find k (entries b)) ->
  habs (set_bucket h id b' c) = <[id := d]> (habs h).
Proof.
  intros Hw Hw' Hb Hid Hf. apply map_eq. intros k.
  destruct (decide (k = 0)) as [->|Hk].
  { rewrite habs_zero, lookup_insert_ne, habs_zero; done. }
  rewrite habs_set_bucket by done. case_decide as Hi.
  - rewrite Hf, lookup_insert. rewrite <- (habs_bucket h id b k) by done.
    destruct (Z.eqb_spec k id), (decide (id = k)); congruence.
  - rewrite lookup_insert_ne; [done|congruence].
Qed.

Lemma habs_set_delete h id b b' c :
  htable_wf h -> htable_wf (set_bucket h id b' c) ->
  buckets h !! bucket_idx (mask h) id = Some b ->
  id ∉ ekeys b' ->
  (forall k, k <> id -> chain_find k (entries b') = chain_find k (entries b)) ->
  habs (set_bucket h id b' c) = delete id (habs h).
Proof.
  intros Hw Hw' Hb Hid Hf. apply map_eq. intros k.
  destruct (decide (k = 0)) as [->|Hk].
  { destruct (decide (id = 0)) as [->|]; [by rewrite habs_zero, lookup_delete_eq|].
    rewrite habs_zero, lookup_delete_ne, habs_zero; done. }
  rewrite habs_set_bucket by done. rewrite lookup_delete.
  destruct (decide (id = k)) as [->|Hne].
  - rewrite decide_True by done. by apply chain_find_None.
  - case_decide as Hi; [|done]. rewrite Hf by done. by rewrite (habs_bucket h id b k).
Qed.

(** ** Rehashing *)

Lemma new_array_length n : length (new_array null n) = n.
Proof.
  unfold new_array. generalize n at 1. intros j.
  induction j as [|j IH]; [apply length_replicate|].
  rewrite Nat.iter_succ, length_insert. done.
Qed.

Lemma new_array_lookup n i b :
  new_array null n !! i = Some b -> b = empty_entry null \/ b = zero_entry null.
Proof.
  unfold new_array. generalize n at 1. intros j. revert i b.
  induction j as [|j IH]; intros i b.
  - intros [-> _]%lookup_replicate. by right.
  - rewrite Nat.iter_succ. intros [(<- & <- & _)|[_ ?]]%list_lookup_insert_Some; eauto.
Qed.

Lemma new_array_wf m : 0 <= m -> table_wf m (new_array null (Z.to_nat (m + 1))).
Proof.
  intros Hm. split; [done|apply new_array_length|].
  intros i b [->| ->]%new_array_lookup; [apply bucket_wf_empty|].
  split; [done|repeat constructor; done..|constructor].
Qed.

Lemma new_array_find m n k : k <> 0 -> tfind m (new_array null n) k = None.
Proof.
  intros Hk. unfold tfind. destruct (_ !! _) as [b|] eqn:Hb; [|done]. simpl.
  apply new_array_lookup in Hb as [->| ->]; simpl; [done|].
  destruct k; done.
Qed.

Lemma new_array_count n : nzcount (new_array null n) = O.
Proof.
  assert (Hall : Forall (fun b => nzkeys b = []) (new_array null n)).
  { apply Forall_lookup. intros i b [->| ->]%new_array_lookup; done. }
  unfold nzcount. induction Hall as [|b t Hb _ IH]; simpl; [done|]. by rewrite Hb, IH.
Qed.

(** One step of the rehash: the entry is found from then on, the others are
    untouched. *)
Lemma place_spec m t k d :
  table_wf m t -> k <> -1 -> (k <> 0 -> tfind m t k = None) ->
  table_wf m (place m t (k, d)) /\
  (forall k', k' <> 0 ->
     tfind m (place m t (k, d)) k' = if k' =? k then Some d else tfind m t k') /\
  nzcount (place m t (k, d)) = (nzcount t + if decide (k = 0%Z) then 0 else 1)%nat.
Proof.
  intros Hw Hk1 Hnone. unfold place. simpl.
  destruct (table_lookup m t k Hw) as [b Hb]. rewrite Hb.
  pose proof (tw_buckets _ _ Hw _ _ Hb) as Hbw.
  assert (Hfb : k <> 0 -> chain_find k (entries b) = None).
  { intros Hk. specialize (Hnone Hk). unfold tfind in Hnone. by rewrite Hb in Hnone. }
  set (b' := if he_id b =? -1 then mk_hentry k d (he_next b)
             else mk_hentry (he_id b) (he_data b) ((k, d) :: he_next b)).
  replace (if he_id b =? -1 then _ else _) with (<[bucket_idx m k := b']> t)
    by (unfold b'; by destruct (he_id b =? -1)).
  assert (Hb' : he_id b' <> -1 /\ ekeys b' ≡ₚ k :: ekeys b /\
    forall k', chain_find k' (entries b') =
      if k' =? k then (if he_id b =? k then Some (he_data b) else Some d)
      else chain_find k' (entries b)).
  { unfold b', ekeys. destruct (Z.eqb_spec (he_id b) (-1)) as [He|He].
    - rewrite (entries_empty b He), (bw_empty _ _ _ Hbw He), entries_mk by done.
      split_and!; [done|done|]. intros k'. simpl. rewrite (Z.eqb_sym k k').
      destruct (Z.eqb_spec (he_id b) k); [congruence|done].
    - rewrite (entries_used b He), entries_mk by done.
      split_and!; [done|csimpl; constructor|]. intros k'; simpl.
      destruct (Z.eqb_spec (he_id b) k'), (Z.eqb_spec k k'), (Z.eqb_spec k' k),
        (Z.eqb_spec (he_id b) k); congruence. }
  destruct Hb' as (Hid & Hp & Hf). split_and!.
  - apply table_wf_insert; [done|]. eapply bucket_wf_add; [done..| |done].
    intros Hk. by apply chain_find_None, Hfb.
  - intros k' Hk'. rewrite tfind_insert by done. case_decide as Hi.
    + rewrite Hf. unfold tfind. rewrite Hi, Hb. simpl.
      destruct (Z.eqb_spec k' k) as [->|]; [|done].
      destruct (Z.eqb_spec (he_id b) k) as [He|]; [|done].
      specialize (Hfb Hk'). rewrite entries_used in Hfb by congruence.
      simpl in Hfb. by rewrite <- He, Z.eqb_refl in Hfb.
    + destruct (Z.eqb_spec k' k); [congruence|done].
  - pose proof (nzcount_insert m t k b b' Hb) as Hn. case_decide as Hk.
    + unfold nzkeys in Hn. rewrite Hp, filter_cons, decide_False in Hn by tauto. lia.
    + rewrite (nzkeys_add b b' k) in Hn by done. lia.
Qed.

Lemma foldl_place_spec m (es : list (Z * D)) t :
  table_wf m t ->
  Forall (fun k => k <> -1) es.*1 ->
  NoDup (filter (fun k => k <> 0) es.*1) ->
  (forall k, k <> 0 -> k ∈ es.*1 -> tfind m t k = None) ->
  table_wf m (foldl (place m) t es) /\
  (forall k, k <> 0 -> tfind m (foldl (place m) t es) k =
     match chain_find k es with Some d => Some d | None => tfind m t k end) /\
  nzcount (foldl (place m) t es) =
    (nzcount t + length (filter (fun k => k <> 0%Z) es.*1))%nat.
Proof.
  revert t. induction es as [|[k d] es IH]; intros t Hw Hk1 Hnd Hfr.
  { split_and!; [done|done|simpl; lia]. }
  csimpl in *. apply Forall_cons in Hk1 as [Hk Hk1].
  destruct (place_spec m t k d) as (Hw1 & Hf1 & Hc1); [done..| |]; [intros Hk0; apply Hfr; [done|left]|].
  rewrite filter_cons in Hnd |- *.
  assert (Hnd' : NoDup (filter (fun k => k <> 0) es.*1))
    by (destruct (decide (k <> 0)); [by apply NoDup_cons in Hnd as [_ ?]|done]).
  destruct (IH (place m t (k, d))) as (Hw2 & Hf2 & Hc2); [done..| |].
  - intros k' Hk' Hin. rewrite Hf1 by done. destruct (Z.eqb_spec k' k) as [->|]; [|apply Hfr; [done|by right]].
    rewrite decide_True in Hnd by done. apply NoDup_cons in Hnd as [[] _].
    by apply list_elem_of_filter.
  - split_and!; [done| |].
    + intros k' Hk'. rewrite Hf2, Hf1 by done. rewrite (Z.eqb_sym k k').
      destruct (Z.eqb_spec k' k) as [->|]; [|done].
      destruct (chain_find k es) eqn:Hfe; [|done].
      rewrite decide_True in Hnd by done. apply NoDup_cons in Hnd as [[] _].
      apply list_elem_of_filter. split; [done|]. by eapply chain_find_Some_in.
    + rewrite Hc2, Hc1. repeat case_decide; simpl; lia || congruence.
Qed.

Lemma rehash_ok ok n m (old nt : list dyco_hentry) :
  (forall j, ok j = true) ->
  rehash ok n m old nt = Some (foldl (place m) nt (old ≫= entries)).
Proof.
  intros Hok. revert n nt. induction old as [|b old IH]; intros n nt; [done|].
  rewrite bind_cons, foldl_app. simpl.
  destruct (Z.eqb_spec (he_id b) (-1)) as [He|He].
  { rewrite (entries_empty b He). apply IH. }
  rewrite (entries_used b He), Hok, !IH. by destruct (place_allocs m nt (he_id b, he_data b)).
Qed.

Lemma table_keys m t :
  table_wf m t ->
  Forall (fun k => k <> -1) (t ≫= entries).*1 /\
  NoDup (filter (fun k => k <> 0) (t ≫= entries).*1) /\
  length (filter (fun k => k <> 0) (t ≫= entries).*1) = nzcount t.
Proof.
  intros Hw. rewrite fmap_bind_list, filter_bind.
  change (fun b => (entries b).*1) with (@ekeys). split_and!.
  - apply Forall_forall. intros k (b & Hk & [i Hi]%list_elem_of_lookup)%list_elem_of_bind.
    destruct (tw_buckets _ _ Hw _ _ Hi) as [_ Hn _ _]. rewrite Forall_forall in Hn. auto.
  - apply (NoDup_bind_disjoint _ (bucket_idx m) _ O).
    + intros i b Hi. apply (bw_nodup m i), (tw_buckets m t); done.
    + intros i b k Hi [Hk Hin]%list_elem_of_filter.
      destruct (tw_buckets _ _ Hw _ _ Hi) as [_ _ Hp _]. rewrite Forall_forall in Hp. auto.
  - apply length_bind_sum.
Qed.

(** ** The operations refine the operations of a finite map *)

Lemma find_entries b k :
  k <> -1 ->
  (if he_id b =? -1 then null
   else if he_id b =? k then he_data b else default null (chain_find k (he_next b)))
  = default null (chain_find k (entries b)).
Proof.
  intros Hk. unfold entries. destruct (he_id b =? -1); [done|].
  simpl. by destruct (he_id b =? k).
Qed.

Lemma htable_find_spec h k :
  htable_wf h -> k <> 0 -> k <> -1 ->
  htable_find null h k = Ok (default null (habs h !! k)).
Proof.
  intros Hw Hk Hk1. destruct (table_lookup _ _ k (hw_table _ Hw)) as [b Hb].
  unfold htable_find. rewrite Hb, (habs_bucket h k b), <- find_entries by done.
  by destruct (he_id b =? -1), (he_id b =? k).
Qed.

Lemma htable_contains_spec h k :
  htable_wf h -> k <> 0 -> k <> -1 ->
  htable_contains h k = Ok (if habs h !! k then 1 else 0).
Proof.
  intros Hw Hk Hk1. destruct (table_lookup _ _ k (hw_table _ Hw)) as [b Hb].
  unfold htable_contains. rewrite Hb, (habs_bucket h k b) by done. unfold entries.
  destruct (he_id b =? -1); [done|]. simpl. by destruct (he_id b =? k).
Qed.

Lemma htable_init_spec w :
  exists h, htable_init null true w = (0, h) /\ htable_wf h /\ habs h = ∅.
Proof.
  unfold htable_init.
  set (wd := if w <=? 0 then _ else _).
  assert (Hwd : 1 <= wd <= 24).
  { unfold wd, DYCO_HTABLE_DEFAULTWITDH, DYCO_HTABLE_MAXWITDH.
    destruct (Z.leb_spec w 0), (Z.ltb_spec 24 w); lia. }
  assert (Hsz : Z.shiftl 1 wd = 2 ^ wd) by (rewrite Z.shiftl_mul_pow2; lia).
  rewrite Hsz. pose proof (mask_pos wd).
  eexists; split; [reflexivity|]. split; [split|]; simpl.
  - done.
  - done.
  - done.
  - unfold buckets; simpl. split; [lia|by rewrite length_replicate, Z.sub_add|].
    intros i b [-> _]%lookup_replicate. apply bucket_wf_empty.
  - unfold nzcount, buckets; simpl. clear Hsz.
    induction (Z.to_nat (2 ^ wd)) as [|n IH]; simpl; [done|]. lia.
  - unfold habs, buckets; simpl. clear Hsz.
    induction (Z.to_nat (2 ^ wd)) as [|n IH]; [done|]. exact IH.
Qed.

Lemma htable_resize_spec ok n h w :
  htable_wf h -> (forall j, ok j = true) -> 1 <= w <= DYCO_HTABLE_MAXWITDH -> w <> width h ->
  exists h', htable_resize null ok n h w = Ok (0, h') /\ htable_wf h' /\
    width h' = w /\ count h' = count h /\ habs h' = habs h.
Proof.
  intros Hw Hok Hwd Hne. unfold htable_resize.
  destruct (Z.eqb_spec w (width h)); [congruence|].
  destruct (Z.ltb_spec DYCO_HTABLE_MAXWITDH w); [lia|]. simpl.
  rewrite Hok, (hw_live _ Hw), rehash_ok by done. simpl.
  rewrite Z.shiftl_mul_pow2, Z.mul_1_l by lia.
  pose proof (mask_pos w ltac:(lia)) as Hm.
  set (nt := new_array null (Z.to_nat (2 ^ w))).
  assert (Hnt : table_wf (2 ^ w - 1) nt).
  { unfold nt. replace (2 ^ w) with (2 ^ w - 1 + 1) at 2 by lia. by apply new_array_wf. }
  destruct (table_keys _ _ (hw_table _ Hw)) as (Hk1 & Hnd & Hlen).
  destruct (foldl_place_spec (2 ^ w - 1) (buckets h ≫= entries) nt) as (Hwf & Hf & Hc);
    [done..|intros; by apply new_array_find|].
  eexists; split; [reflexivity|].
  assert (Hw' : htable_wf (mk_htable w (2 ^ w - 1) (count h)
    (TLive (foldl (place (2 ^ w - 1)) nt (buckets h ≫= entries))))).
  { split; simpl; [done..|]. unfold buckets at 1; simpl.
    rewrite Hc, Hlen. unfold nt. rewrite new_array_count. apply Hw. }
  split_and!; [done..|]. apply habs_ext. intros k Hk.
  rewrite !habs_lookup by done. unfold buckets at 1; simpl.
  rewrite Hf, (tfind_entries (mask h)) by (done || apply Hw).
  unfold nt. rewrite new_array_find by done. by destruct (tfind _ _ k).
Qed.

(** The load factor test after an insertion. *)
Definition at_limit (h : dyco_htable) : bool :=
  (width h =? DYCO_HTABLE_MAXWITDH) && (mask h * DYCO_HTABLE_MAXALPHA =? count h).

Lemma grow_spec ok n h :
  htable_wf h -> (forall j, ok j = true) ->
  exists h', grow null ok n h = Ok (if at_limit h then -1 else 1, h') /\
    htable_wf h' /\ habs h' = habs h.
Proof.
  intros Hw Hok. unfold grow, at_limit.
  destruct (mask h * DYCO_HTABLE_MAXALPHA =? count h); [|rewrite andb_false_r; eauto].
  rewrite andb_true_r. destruct (Z.eqb_spec (width h) DYCO_HTABLE_MAXWITDH) as [He|He].
  - exists h. unfold htable_resize.
    destruct (Z.ltb_spec DYCO_HTABLE_MAXWITDH (width h + 1)); [|lia].
    rewrite orb_true_r. done.
  - destruct (htable_resize_spec ok n h (width h + 1)) as (h' & Hr & Hw' & _ & _ & Ha);
      [done..|pose proof (hw_width _ Hw); lia|lia|].
    exists h'. rewrite Hr. done.
Qed.

Lemma grow_set_bucket h id b c : at_limit (set_bucket h id b c) =
  (width h =? DYCO_HTABLE_MAXWITDH) && (mask h * DYCO_HTABLE_MAXALPHA =? c).
Proof. done. Qed.

(** ** Insertion *)

(** A bucket change that adds one non-zero key. *)
Lemma add_bucket_spec h id b b' d :
  htable_wf h -> buckets h !! bucket_idx (mask h) id = Some b ->
  id <> 0 -> id <> -1 -> he_id b' <> -1 ->
  chain_find id (entries b) = None ->
  ekeys b' ≡ₚ id :: ekeys b ->
  (forall k, chain_find k (entries b') = if k =? id then Some d else chain_find k (entries b)) ->
  htable_wf (set_bucket h id b' (count h + 1)) /\
  habs (set_bucket h id b' (count h + 1)) = <[id := d]> (habs h).
Proof.
  intros Hw Hb Hid Hid1 Hb1 Hnone Hp Hf.
  assert (Hw' : htable_wf (set_bucket h id b' (count h + 1))).
  { eapply set_bucket_wf; [done..| |rewrite (nzkeys_add b b' id) by done; lia].
    eapply bucket_wf_add; [done..| |by eapply tw_buckets; [apply Hw|]].
    intros _. by apply chain_find_None. }
  split; [done|]. by eapply habs_set_insert.
Qed.

(** A bucket change that keeps the keys. *)
Lemma update_bucket_spec h id b b' d :
  htable_wf h -> buckets h !! bucket_idx (mask h) id = Some b ->
  id <> 0 -> he_id b' <> -1 -> ekeys b' = ekeys b ->
  (forall k, chain_find k (entries b') = if k =? id then Some d else chain_find k (entries b)) ->
  htable_wf (set_bucket h id b' (count h)) /\
  habs (set_bucket h id b' (count h)) = <[id := d]> (habs h).
Proof.
  intros Hw Hb Hid Hb1 Hp Hf.
  assert (Hw' : htable_wf (set_bucket h id b' (count h))).
  { eapply set_bucket_wf; [done..| |unfold nzkeys; by rewrite Hp].
    eapply bucket_wf_perm; [done|by rewrite Hp|]. eapply tw_buckets; [apply Hw|done]. }
  split; [done|]. by eapply habs_set_insert.
Qed.

Definition insert_result h id : Z :=
  if habs h !! id then 0
  else if (width h =? DYCO_HTABLE_MAXWITDH) && (mask h * DYCO_HTABLE_MAXALPHA =? count h + 1)
       then -1 else 1.

(** The two shapes of an insertion: the key is present and its data replaced
    in place, or an entry is added (in the inline entry, or in a node that has
    to be allocated) and the load factor tested. *)
Lemma htable_insert_present h id d :
  htable_wf h -> id <> 0 -> id <> -1 -> is_Some (habs h !! id) ->
  exists h', htable_wf h' /\ habs h' = <[id := d]> (habs h) /\
    forall ok, htable_insert null ok h id d = Ok (0, h').
Proof.
  intros Hw Hid Hid1 Hin. destruct (table_lookup _ _ id (hw_table _ Hw)) as [b Hb].
  unfold htable_insert. rewrite Hb. rewrite (habs_bucket h id b id) in Hin by done.
  destruct (Z.eqb_spec (he_id b) (-1)) as [He|He].
  { rewrite (entries_empty b He) in Hin. by destruct Hin. }
  rewrite (entries_used b He) in Hin. simpl in Hin.
  destruct (Z.eqb_spec (he_id b) id) as [Hk|Hk].
  - destruct (update_bucket_spec h id b (mk_hentry id d (he_next b)) d); [done..| | |eauto].
    + unfold ekeys. by rewrite (entries_used b He), entries_mk, <- Hk.
    + intros k. rewrite (entries_used b He), entries_mk by done. simpl.
      rewrite Hk, (Z.eqb_sym id k). by destruct (k =? id).
  - destruct (chain_update id d (he_next b)) as [l|] eqn:Hu.
    + destruct (chain_update_Some _ _ _ _ Hu) as [Hkeys Hf].
      destruct (update_bucket_spec h id b (mk_hentry (he_id b) (he_data b) l) d);
        [done..| | |eauto].
      * unfold ekeys. rewrite (entries_used b He), entries_mk by done. csimpl. by rewrite Hkeys.
      * intros k. rewrite (entries_used b He), entries_mk by done. simpl. rewrite Hf.
        destruct (Z.eqb_spec (he_id b) k), (Z.eqb_spec k id); congruence.
    + apply chain_update_None, chain_find_None in Hu. rewrite Hu in Hin. by destruct Hin.
Qed.

Lemma htable_insert_absent h id d :
  htable_wf h -> id <> 0 -> id <> -1 -> habs h !! id = None ->
  exists h' (alloc : bool), htable_wf h' /\ habs h' = <[id := d]> (habs h) /\
    width h' = width h /\ mask h' = mask h /\ count h' = count h + 1 /\
    forall ok, htable_insert null ok h id d =
      if alloc && negb (ok 0%nat) then Ok (-1, h)
      else grow null ok (if alloc then 1 else 0)%nat h'.
Proof.
  intros Hw Hid Hid1 Hin. destruct (table_lookup _ _ id (hw_table _ Hw)) as [b Hb].
  pose proof (tw_buckets _ _ (hw_table _ Hw) _ _ Hb) as Hbw.
  unfold htable_insert. rewrite Hb. rewrite (habs_bucket h id b id) in Hin by done.
  destruct (Z.eqb_spec (he_id b) (-1)) as [He|He].
  - destruct (add_bucket_spec h id b (mk_hentry id d (he_next b)) d); [done..| | |].
    3: by exists (set_bucket h id (mk_hentry id d (he_next b)) (count h + 1)), false.
    + unfold ekeys. by rewrite (entries_empty b He), entries_mk, (bw_empty _ _ _ Hbw He).
    + intros k. rewrite (entries_empty b He), entries_mk, (bw_empty _ _ _ Hbw He) by done.
      simpl. by rewrite (Z.eqb_sym id k).
  - pose proof Hin as Hin'. rewrite (entries_used b He) in Hin. simpl in Hin.
    destruct (Z.eqb_spec (he_id b) id) as [Hk|Hk]; [done|].
    destruct (chain_update id d (he_next b)) as [l|] eqn:Hu.
    { destruct (chain_update_Some _ _ _ _ Hu) as [Hkeys Hf].
      rewrite chain_find_None, <- Hkeys, <- chain_find_None, Hf, Z.eqb_refl in Hin. done. }
    destruct (add_bucket_spec h id b
      (mk_hentry (he_id b) (he_data b) ((id, d) :: he_next b)) d); [done..| | |].
    3: { eexists _, true. split_and!; [done..|]. intros ok. by destruct (ok O). }
    + unfold ekeys. rewrite (entries_used b He), entries_mk by done. csimpl. constructor.
    + intros k. rewrite (entries_used b He), entries_mk by done. simpl.
      rewrite (Z.eqb_sym id k).
      destruct (Z.eqb_spec (he_id b) k), (Z.eqb_spec k id); congruence.
Qed.

Lemma htable_insert_spec ok h id d :
  htable_wf h -> (forall j, ok j = true) -> id <> 0 -> id <> -1 ->
  exists h', htable_insert null ok h id d = Ok (insert_result h id, h') /\
    htable_wf h' /\ habs h' = <[id := d]> (habs h).
Proof.
  intros Hw Hok Hid Hid1. unfold insert_result.
  destruct (habs h !! id) eqn:Hin.
  - destruct (htable_insert_present h id d) as (h' & Hw' & Ha & Hi); eauto.
  - destruct (htable_insert_absent h id d) as (h' & al & Hw' & Ha & Hwd & Hm & Hc & Hi); [done..|].
    destruct (grow_spec ok (if al then 1 else 0)%nat h' Hw' Hok) as (h2 & Hg & Hw2 & Ha2).
    exists h2. rewrite Hi, Hok, andb_false_r, Hg, Ha2. unfold at_limit.
    by rewrite Hwd, Hm, Hc.
Qed.

(** ** Deletion *)

(** A bucket change that removes one non-zero key. *)
Lemma del_bucket_spec h id b b' :
  htable_wf h -> buckets h !! bucket_idx (mask h) id = Some b -> id <> 0 ->
  (he_id b' = -1 -> he_next b' = []) -> ekeys b ≡ₚ id :: ekeys b' ->
  (forall k, k <> id -> chain_find k (entries b') = chain_find k (entries b)) ->
  htable_wf (set_bucket h id b' (count h - 1)) /\
  habs (set_bucket h id b' (count h - 1)) = delete id (habs h).
Proof.
  intros Hw Hb Hid Hb1 Hp Hf.
  pose proof (tw_buckets _ _ (hw_table _ Hw) _ _ Hb) as Hbw.
  assert (Hw' : htable_wf (set_bucket h id b' (count h - 1))).
  { eapply set_bucket_wf; [done..|by eapply bucket_wf_sub|].
    rewrite (nzkeys_add b' b id) by done. lia. }
  split; [done|]. eapply habs_set_delete; [done..| |done].
  pose proof (bw_nodup _ _ _ Hbw) as Hnd. unfold nzkeys in Hnd.
  rewrite Hp, filter_cons, decide_True in Hnd by done.
  apply NoDup_cons in Hnd as [Hn _]. intros Hin. apply Hn, list_elem_of_filter. done.
Qed.

Lemma htable_delete_spec h id :
  htable_wf h -> id <> 0 -> id <> -1 ->
  exists h', htable_delete null h id = Ok (if habs h !! id then 0 else -1, habs h !! id, h') /\
    htable_wf h' /\ habs h' = delete id (habs h).
Proof.
  intros Hw Hid Hid1. destruct (table_lookup _ _ id (hw_table _ Hw)) as [b Hb].
  pose proof (tw_buckets _ _ (hw_table _ Hw) _ _ Hb) as Hbw.
  unfold htable_delete. rewrite Hb.
  assert (Hsame : habs h !! id = None -> habs h = delete id (habs h))
    by (intros; by rewrite delete_id).
  pose proof (habs_bucket h id b id Hw Hb Hid eq_refl) as Hf.
  destruct (Z.eqb_spec (he_id b) (-1)) as [He|He].
  { rewrite (entries_empty b He) in Hf. simpl in Hf. rewrite Hf. eauto. }
  rewrite (entries_used b He) in Hf. simpl in Hf.
  destruct (Z.eqb_spec (he_id b) id) as [Hk|Hk].
  - rewrite Hf. eexists; split; [reflexivity|].
    pose proof (bw_keys _ _ _ Hbw) as Hks. unfold ekeys in Hks.
    rewrite (entries_used b He) in Hks.
    apply (del_bucket_spec h id b); [done..| | |].
    + destruct (he_next b) as [|[k d] l]; csimpl in *; [done|].
      apply Forall_cons in Hks as [_ [? _]%Forall_cons]. done.
    + unfold ekeys. rewrite (entries_used b He), Hk.
      destruct (he_next b) as [|[k d] l]; [done|]. csimpl in *.
      apply Forall_cons in Hks as [_ [? _]%Forall_cons]. by rewrite entries_mk.
    + intros k' Hk'. rewrite (entries_used b He). simpl.
      destruct (Z.eqb_spec (he_id b) k'); [congruence|].
      destruct (he_next b) as [|[k d] l]; [done|]. csimpl in *.
      apply Forall_cons in Hks as [_ [? _]%Forall_cons]. by rewrite entries_mk.
  - destruct (chain_delete id (he_next b)) as [[d l]|] eqn:Hd.
    + destruct (chain_delete_Some _ _ _ _ Hd) as (Hfd & Hp & Hfk). rewrite Hf, Hfd.
      eexists; split; [reflexivity|]. apply (del_bucket_spec h id b); [done..| |].
      * unfold ekeys. rewrite (entries_used b He), entries_mk by done. csimpl.
        rewrite Hp. constructor.
      * intros k Hk'. rewrite (entries_used b He), entries_mk by done. simpl. by rewrite Hfk.
    + apply chain_delete_None, chain_find_None in Hd. rewrite Hd in Hf. rewrite Hf. eauto.
Qed.

(** ** Size *)

Lemma htable_count_size h : htable_wf h -> count h = Z.of_nat (size (habs h)).
Proof.
  intros Hw. rewrite (hw_count _ Hw). f_equal.
  destruct (table_keys _ _ (hw_table _ Hw)) as (_ & Hnd & <-). unfold habs.
  rewrite filter_fmap in Hnd |- *. rewrite length_fmap.
  set (l := filter _ _) in *. clearbody l.
  induction l as [|[k d] l IH]; csimpl in *; [done|].
  apply NoDup_cons in Hnd as [Hn Hnd]. rewrite map_size_insert_None; [by rewrite <- IH|].
  rewrite chain_find_map. by apply chain_find_None.
Qed.

(** ** Sequences of operations *)

Inductive hop :=
  | HInsert (id : Z) (d : D)
  | HDelete (id : Z)
  | HFind (id : Z)
  | HContains (id : Z).

Inductive hout :=
  | OutInt (r : Z)
  | OutDeleted (r : Z) (d : option D)
  | OutData (d : D).

Definition hop_key (o : hop) : Z :=
  match o with HInsert id _ | HDelete id | HFind id | HContains id => id end.

Definition all_ok : nat -> bool := fun _ => true.

(** The calls of the C interface, in sequence, every allocation succeeding. *)
Fixpoint run_hops (os : list hop) (h : dyco_htable) : res (list hout * dyco_htable) :=
  match os with
  | [] => Ok ([], h)
  | o :: os' =>
      match match o with
            | HInsert id d =>
                match htable_insert null all_ok h id d with
                | Ok (r, h') => Ok (OutInt r, h') | Err e => Err e end
            | HDelete id =>
                match htable_delete null h id with
                | Ok (r, d, h') => Ok (OutDeleted r d, h') | Err e => Err e end
            | HFind id =>
                match htable_find null h id with
                | Ok d => Ok (OutData d, h) | Err e => Err e end
            | HContains id =>
                match htable_contains h id with
                | Ok r => Ok (OutInt r, h) | Err e => Err e end
            end
      with
      | Ok (out, h1) =>
          match run_hops os' h1 with
          | Ok (outs, h2) => Ok (out :: outs, h2)
          | Err e => Err e
          end
      | Err e => Err e
      end
  end.

(** The same calls on a finite map. *)
Definition spec_hop (o : hop) (mp : gmap Z D) : hout * gmap Z D :=
  match o with
  | HInsert id d => (OutInt (if mp !! id then 0 else 1), <[id := d]> mp)
  | HDelete id => (OutDeleted (if mp !! id then 0 else -1) (mp !! id), delete id mp)
  | HFind id => (OutData (default null (mp !! id)), mp)
  | HContains id => (OutInt (if mp !! id then 1 else 0), mp)
  end.

Fixpoint spec_hops (os : list hop) (mp : gmap Z D) : list hout * gmap Z D :=
  match os with
  | [] => ([], mp)
  | o :: os' =>
      let '(out, mp1) := spec_hop o mp in
      let '(outs, mp2) := spec_hops os' mp1 in (out :: outs, mp2)
  end.

(** The number of entries at which a table of maximal width asks to grow. *)
Definition max_load : Z := (2 ^ DYCO_HTABLE_MAXWITDH - 1) * DYCO_HTABLE_MAXALPHA.

Lemma insert_result_below_limit h id :
  htable_wf h -> count h + 1 < max_load ->
  insert_result h id = if habs h !! id then 0 else 1.
Proof.
  intros Hw Hlt. unfold insert_result. destruct (habs h !! id); [done|].
  destruct (Z.eqb_spec (width h) DYCO_HTABLE_MAXWITDH) as [He|]; [|done]. simpl.
  destruct (Z.eqb_spec (mask h * DYCO_HTABLE_MAXALPHA) (count h + 1)) as [Hl|]; [|done].
  rewrite (hw_mask _ Hw), He in Hl. unfold max_load in Hlt. lia.
Qed.

Lemma size_insert_le (mp : gmap Z D) k d :
  (size mp <= size (<[k := d]> mp) <= S (size mp))%nat.
Proof. rewrite map_size_insert. destruct (mp !! k); simpl; lia. Qed.

Lemma size_delete_le (mp : gmap Z D) k : (size (delete k mp) <= size mp)%nat.
Proof. rewrite map_size_delete. destruct (mp !! k); simpl; lia. Qed.

Lemma run_hops_spec (os : list hop) h :
  htable_wf h ->
  Forall (fun o => hop_key o <> 0 /\ hop_key o <> -1) os ->
  count h + Z.of_nat (length os) < max_load ->
  exists h', run_hops os h = Ok ((spec_hops os (habs h)).1, h') /\
    htable_wf h' /\ habs h' = (spec_hops os (habs h)).2.
Proof.
  revert h. induction os as [|o os IH]; intros h Hw Hks Hlt; [simpl; eauto|].
  apply Forall_cons in Hks as [[Hk0 Hk1] Hks]. simpl in Hlt |- *.
  pose proof (htable_count_size h Hw) as Hcs.
  destruct o as [id d|id|id|id]; simpl in *.
  - destruct (htable_insert_spec all_ok h id d) as (h1 & -> & Hw1 & Ha1); [done..|].
    rewrite insert_result_below_limit by (done || lia).
    pose proof (htable_count_size h1 Hw1) as Hcs1. rewrite Ha1 in Hcs1.
    pose proof (size_insert_le (habs h) id d).
    destruct (IH h1) as (h2 & -> & Hw2 & Ha2); [done..|lia|].
    rewrite Ha1 in *. destruct (spec_hops os (<[id := d]> (habs h))); simpl in *. eauto.
  - destruct (htable_delete_spec h id) as (h1 & -> & Hw1 & Ha1); [done..|].
    pose proof (htable_count_size h1 Hw1) as Hcs1. rewrite Ha1 in Hcs1.
    pose proof (size_delete_le (habs h) id).
    destruct (IH h1) as (h2 & -> & Hw2 & Ha2); [done..|lia|].
    rewrite Ha1 in *. destruct (spec_hops os (delete id (habs h))); simpl in *. eauto.
  - rewrite htable_find_spec by done.
    destruct (IH h) as (h2 & -> & Hw2 & Ha2); [done..|lia|].
    destruct (spec_hops os (habs h)); simpl in *. eauto.
  - rewrite htable_contains_spec by done.
    destruct (IH h) as (h2 & -> & Hw2 & Ha2); [done..|lia|].
    destruct (spec_hops os (habs h)); simpl in *. eauto.
Qed.

(** C1. From a table freshly initialised at any requested width, every
    sequence of insertions, deletions, lookups and membership tests on keys
    other than 0 and -1, shorter than the load limit of the widest table,
    returns exactly what the same sequence returns on a finite map, through
    every resize it triggers, and the entry counter is the size of that map. *)
Theorem htable_refines_map w (os : list hop) :
  Forall (fun o => hop_key o <> 0 /\ hop_key o <> -1) os ->
  Z.of_nat (length os) < max_load ->
  exists h', run_hops os (snd (htable_init null true w)) = Ok ((spec_hops os ∅).1, h') /\
    htable_wf h' /\ habs h' = (spec_hops os ∅).2 /\
    count h' = Z.of_nat (size (spec_hops os ∅).2).
Proof.
  intros Hks Hlt. destruct (htable_init_spec w) as (h & Hi & Hw & Ha). rewrite Hi. simpl.
  pose proof (htable_count_size h Hw) as Hc. rewrite Ha, map_size_empty in Hc.
  destruct (run_hops_spec os h) as (h' & Hr & Hw' & Ha'); [done..|lia|].
  rewrite Ha in *. exists h'. split_and!; [done..|].
  rewrite <- Ha'. by apply htable_count_size.
Qed.

(** Growing or shrinking a table with every allocation succeeding keeps
    its contents, its counter and its invariant. *)
Theorem htable_resize_preserves ok n h w :
  htable_wf h -> (forall j, ok j = true) -> 1 <= w <= DYCO_HTABLE_MAXWITDH -> w <> width h ->
  exists h', htable_resize null ok n h w = Ok (0, h') /\ htable_wf h' /\
    width h' = w /\ count h' = count h /\ habs h' = habs h.
Proof. apply htable_resize_spec. Qed.

(** In a table of maximal width the insertion that reaches the load limit
    stores its entry and still reports the error -1, which
    [dyco_coroutine_create] turns into [exit(1)]. *)
Lemma htable_insert_error_at_limit ok h id d :
  htable_wf h -> (forall j, ok j = true) -> id <> 0 -> id <> -1 ->
  width h = DYCO_HTABLE_MAXWITDH -> count h + 1 = max_load -> habs h !! id = None ->
  exists h', htable_insert null ok h id d = Ok (-1, h') /\
    htable_wf h' /\ habs h' = <[id := d]> (habs h).
Proof.
  intros Hw Hok Hid Hid1 Hwd Hc Hn.
  destruct (htable_insert_spec ok h id d) as (h' & Hi & Hw' & Ha); [done..|].
  exists h'. split; [|done]. rewrite Hi. unfold insert_result. rewrite Hn, Hwd, Z.eqb_refl.
  rewrite (hw_mask _ Hw), Hwd, Hc. unfold max_load. by rewrite Z.eqb_refl.
Qed.

(** Failing allocations: the rehash loop, whose first allocation is the [n]-th,
    does what it does when memory suffices, or one of its allocations, of which
    there is at most one for each old bucket, has failed. *)
Lemma rehash_any ok n m (old nt : list dyco_hentry) :
  rehash ok n m old nt = rehash all_ok n m old nt \/
  rehash ok n m old nt = None /\ exists i, (n <= i < n + length old)%nat /\ ok i = false.
Proof.
  revert n nt. induction old as [|b old IH]; intros n nt; simpl; [by left|].
  assert (Hskip : forall nt', rehash ok n m old nt' = rehash all_ok n m old nt' \/
    rehash ok n m old nt' = None /\ exists i, (n <= i < n + S (length old))%nat /\ ok i = false).
  { intros nt'. destruct (IH n nt') as [?|[? (i & ? & ?)]]; [by left|right]. split; [done|]. exists i. split; [lia|done]. }
  destruct (he_id b =? -1); [apply Hskip|].
  destruct (place_allocs _ _ _); [|apply Hskip]. destruct (ok n) eqn:Hn.
  - destruct (IH (S n) (foldl (place m) (place m nt (he_id b, he_data b)) (he_next b))) as [?|[? (i & ? & ?)]]; [by left|right].
    split; [done|]. exists i. split; [lia|done].
  - right. split; [done|]. exists n. split; [lia|done].
Qed.

(** The new array is the [n]-th allocation; it is refused, or it has been made
    and the rehash loop has failed. *)
Lemma grow_any ok n h :
  grow null ok n h = grow null all_ok n h \/
  (ok n = false /\ grow null ok n h = Ok (-1, h)) \/
  (grow null ok n h = Err FTorn /\ ok n = true /\ mask h * DYCO_HTABLE_MAXALPHA = count h /\
   exists i, (n < i <= n + length (buckets h))%nat /\ ok i = false).
Proof.
  unfold grow, htable_resize. destruct (Z.eqb_spec (mask h * DYCO_HTABLE_MAXALPHA) (count h)) as [He|]; [|by left].
  destruct (_ || _); [by left|]. destruct (ok n) eqn:Hn; simpl; [|by right; left].
  unfold buckets. destruct (table h) as [| |old]; [by left..|].
  destruct (rehash_any ok (S n) (Z.shiftl 1 (width h + 1) - 1) old
    (new_array null (Z.to_nat (Z.shiftl 1 (width h + 1))))) as [-> |[-> (i & Hi & Hf)]]; [by left|right; right].
  split_and!; try done. exists i. split; [lia|done].
Qed.

(** What tears a table that an insertion of [id] makes grow: the allocations
    up to that of the new array succeed (the node, if the entry needs one, is
    the first), and one of those of the rehash loop fails. *)
Definition torn_in_rehash (ok : nat -> bool) (h : dyco_htable) (id : Z) : Prop :=
  habs h !! id = None /\ count h + 1 = mask h * DYCO_HTABLE_MAXALPHA /\
  exists n i : nat, (n <= 1)%nat /\ (forall j, (j <= n)%nat -> ok j = true) /\
    (n < i)%nat /\ Z.of_nat i <= Z.of_nat n + mask h + 1 /\ ok i = false.

(** C38. Whatever allocations fail, an insertion that returns leaves a
    well-formed table that either contains the new entry or, with result -1
    and because the first allocation, that of the entry's node, has failed, is
    the table it was given.  The only other outcome is the tearing of the
    chains, and only an allocation inside the rehash loop that fails after the
    node and the new array have been allocated leads to it. *)
Theorem htable_insert_any_allocator ok h id d :
  htable_wf h -> id <> 0 -> id <> -1 ->
  match htable_insert null ok h id d with
  | Ok (r, h') => htable_wf h' /\ (habs h' = <[id := d]> (habs h) \/ r = -1 /\ h' = h /\ ok O = false)
  | Err e => e = FTorn /\ torn_in_rehash ok h id
  end.
Proof.
  intros Hw Hid Hid1. destruct (habs h !! id) eqn:Hin.
  - destruct (htable_insert_present h id d) as (h' & Hw' & Ha & Hi); [eauto..|]. rewrite Hi. auto.
  - destruct (htable_insert_absent h id d) as (h' & al & Hw' & Ha & _ & Hm & Hc & Hi); [done..|].
    rewrite Hi. destruct (al && negb (ok 0%nat)) eqn:Hal.
    { apply andb_prop in Hal as [_ Hal]. apply negb_true_iff in Hal. auto. }
    assert (Hnode : forall j, (j < if al then 1 else 0)%nat -> ok j = true).
    { intros j Hj. destruct al; [|lia]. replace j with O by lia. simpl in Hal. by destruct (ok 0%nat). }
    destruct (grow_any ok (if al then 1 else 0)%nat h') as [-> |[[_ ->]|(-> & Hn & Hl & i & Hi2 & Hf)]].
    + destruct (grow_spec all_ok (if al then 1 else 0)%nat h' Hw' ltac:(done)) as (h2 & -> & Hw2 & Ha2).
      rewrite Ha2, Ha. auto.
    + rewrite Ha. auto.
    + split; [done|]. split; [done|]. split; [congruence|]. exists (if al then 1 else 0)%nat, i.
      pose proof (tw_len _ _ (hw_table _ Hw')) as Hlen. pose proof (tw_mask _ _ (hw_table _ Hw')).
      split_and!; [destruct al; lia| |lia|lia|done].
      intros j Hj. destruct (decide (j = if al then 1 else 0)%nat) as [->|]; [done|apply Hnode; lia].
Qed.

End htable_proofs.

(** ** Witnesses and the phantom entries of key 0 *)

Definition ops_demo : list (@hop Z) :=
  [HInsert 5 50; HInsert 7 70; HInsert 21 210; HFind 5; HInsert 5 51; HDelete 7;
   HContains 7; HFind 21; HDelete 7; HFind 5].

Lemma htable_refines_map_witness :
  Forall (fun o => hop_key o <> 0 /\ hop_key o <> -1) ops_demo /\
  exists h', run_hops 0 ops_demo (snd (htable_init 0 true 1)) = Ok ((spec_hops 0 ops_demo ∅).1, h') /\
    htable_wf h' /\ habs h' = (spec_hops 0 ops_demo ∅).2 /\
    count h' = Z.of_nat (size (spec_hops 0 ops_demo ∅).2).
Proof.
  assert (Hks : Forall (fun o => hop_key o <> 0 /\ hop_key o <> -1) ops_demo)
    by (repeat constructor; done).
  split; [done|]. apply (htable_refines_map 0 1 ops_demo Hks). reflexivity.
Defined.

Definition small_table : @dyco_htable Z := snd (htable_init 0 true 1).

Lemma small_table_wf : htable_wf small_table.
Proof. destruct (htable_init_spec 0 1) as (h & Hi & Hw & _). unfold small_table. by rewrite Hi. Defined.

Lemma htable_resize_preserves_witness :
  exists h', htable_resize 0 all_ok 0 small_table 3 = Ok (0, h') /\ htable_wf h' /\
    width h' = 3 /\ count h' = count small_table /\ habs h' = habs small_table.
Proof. apply (htable_resize_preserves 0); [apply small_table_wf|done|done|done]. Defined.

(** One insertion before the table of width 1 grows. *)
Definition full_table : @dyco_htable Z :=
  match htable_insert 0 all_ok small_table 3 30 with Ok (_, h) => h | Err _ => small_table end.

Lemma full_table_wf : htable_wf full_table.
Proof.
  destruct (htable_insert_spec 0 all_ok small_table 3 30) as (h & Hi & Hw & _); [apply small_table_wf|done..|].
  unfold full_table. by rewrite Hi.
Defined.

(** With the entry 3 in its bucket the entry 5 needs a node; the new array is
    the second allocation, and the rehash loop makes the third, which fails. *)
Lemma htable_insert_any_allocator_witness :
  htable_insert 0 (fun n => (n <? 2)%nat) full_table 5 50 = Err FTorn /\
  torn_in_rehash (fun n => (n <? 2)%nat) full_table 5 /\
  match htable_insert 0 (fun n => (n <? 1)%nat) full_table 5 50 with
  | Ok (r, h') => r = -1 /\ htable_wf h' /\ habs h' = <[5 := 50]> (habs full_table)
  | Err _ => False
  end.
Proof.
  pose proof (htable_insert_any_allocator 0 (fun n => (n <? 2)%nat) full_table 5 50 full_table_wf ltac:(done) ltac:(done)) as H1.
  pose proof (htable_insert_any_allocator 0 (fun n => (n <? 1)%nat) full_table 5 50 full_table_wf ltac:(done) ltac:(done)) as H2.
  assert (E1 : htable_insert 0 (fun n => (n <? 2)%nat) full_table 5 50 = Err FTorn) by (by vm_compute).
  rewrite E1 in *. split; [done|]. split; [apply H1|].
  destruct (htable_insert 0 (fun n => (n <? 1)%nat) full_table 5 50) as [[r h']|e] eqn:E2; vm_compute in E2; [|done].
  injection E2 as <- E2. destruct H2 as [Hw [H2|(_ & _ & [=])]]. by split_and!.
Defined.

(** After two resizes a table into which key 0 was never inserted reports
    that it contains key 0: the array made by [htable_resize] keeps the inline
    id 0 of [calloc] in every bucket but the first, and the next resize moves
    these phantom entries into bucket 0. *)
Theorem phantom_zero_key :
  let keys := [1; 2; 3; 4; 5; 6; 7]%Z in
  exists h, run_hops 0 ((fun k => HInsert k (10 * k)) <$> keys) small_table = Ok (OutInt <$> [1;1;1;1;1;1;1], h) /\
    htable_contains h 0 = Ok 1 /\ htable_find 0 h 0 = Ok 0 /\ count h = 7 /\
    habs h !! 0 = None.
Proof. eexists. split_and!; [vm_compute; reflexivity..]. Qed.
