(* ===== verification/Queue.v ===== *)
(** * The ready queues: tail queues of [include/dyco/sys_queue.h]

    The scheduler keeps its runnable coroutines on two tail queues threaded
    through the same link field [ready_next].  A queue head holds the address
    of the first element and the address of the last "next" cell; an element
    holds its successor and the address of the "next" cell that points to it.
    Cells are [qloc]s, so the macros are translated assignment by assignment,
    also on elements that are already linked. *)
From S2P Require Import Prelude.

Local Open Scope Z_scope.

(** ** Data *)

Inductive tqh := urgent_ready | ready.

#[export] Instance tqh_eq_dec : EqDecision tqh.
Proof. solve_decision. Defined.

(** The address of a pointer cell: the [tqh_first] of a head or the
    [tqe_next] of an element. *)
Inductive qloc :=
  | HeadFirst (h : tqh)
  | ElmNext (a : addr).

#[export] Instance qloc_eq_dec : EqDecision qloc.
Proof. solve_decision. Defined.

Record qhead := mk_qhead { tqh_first : addr; tqh_last : qloc }.
Record qlink := mk_qlink { tqe_next : addr; tqe_prev : qloc }.

(** The two heads and the [ready_next] fields of the allocated coroutines. *)
Record qmem := mk_qmem {
  urgent_head : qhead;
  ready_head : qhead;
  links : gmap Z qlink
}.

Definition qhead_of (m : qmem) (h : tqh) : qhead :=
  match h with urgent_ready => urgent_head m | ready => ready_head m end.

Definition set_qhead (m : qmem) (h : tqh) (x : qhead) : qmem :=
  match h with
  | urgent_ready => mk_qmem x (ready_head m) (links m)
  | ready => mk_qmem (urgent_head m) x (links m)
  end.

Definition tq_next (m : qmem) (a : addr) : addr :=
  match links m !! a with Some l => tqe_next l | None => NULL end.
Definition tq_prev (m : qmem) (a : addr) : qloc :=
  match links m !! a with Some l => tqe_prev l | None => ElmNext a end.

(** Reads and writes through a cell address. *)
Definition tq_read (m : qmem) (p : qloc) : addr :=
  match p with HeadFirst h => tqh_first (qhead_of m h) | ElmNext a => tq_next m a end.

Definition set_next (m : qmem) (a x : addr) : qmem :=
  mk_qmem (urgent_head m) (ready_head m)
    (alter (fun l => mk_qlink x (tqe_prev l)) a (links m)).
Definition set_prev (m : qmem) (a : addr) (p : qloc) : qmem :=
  mk_qmem (urgent_head m) (ready_head m)
    (alter (fun l => mk_qlink (tqe_next l) p) a (links m)).
Definition set_last (m : qmem) (h : tqh) (p : qloc) : qmem :=
  set_qhead m h (mk_qhead (tqh_first (qhead_of m h)) p).

Definition tq_write (m : qmem) (p : qloc) (x : addr) : qmem :=
  match p with
  | HeadFirst h => set_qhead m h (mk_qhead x (tqh_last (qhead_of m h)))
  | ElmNext a => set_next m a x
  end.

(** ** The macros *)

Definition TAILQ_INIT (m : qmem) (h : tqh) : qmem := set_qhead m h (mk_qhead NULL (HeadFirst h)).

Definition TAILQ_INSERT_TAIL (m : qmem) (h : tqh) (elm : addr) : qmem :=
  let m := set_next m elm NULL in
  let m := set_prev m elm (tqh_last (qhead_of m h)) in
  let m := tq_write m (tqh_last (qhead_of m h)) elm in
  set_last m h (ElmNext elm).

Definition TAILQ_REMOVE (m : qmem) (h : tqh) (elm : addr) : qmem :=
  let m := if tq_next m elm =? NULL
           then set_last m h (tq_prev m elm)
           else set_prev m (tq_next m elm) (tq_prev m elm) in
  tq_write m (tq_prev m elm) (tq_next m elm).

Definition TAILQ_EMPTY (m : qmem) (h : tqh) : bool := tqh_first (qhead_of m h) =? NULL.
Definition TAILQ_FIRST (m : qmem) (h : tqh) : addr := tqh_first (qhead_of m h).

(** [TAILQ_LAST] reads the cell after [*tqh_last] as the [tqh_last] of a
    head: for an element this is its [tqe_prev]. *)
Definition TAILQ_LAST (m : qmem) (h : tqh) : addr :=
  match tqh_last (qhead_of m h) with
  | HeadFirst h' => tq_read m (tqh_last (qhead_of m h'))
  | ElmNext a => tq_read m (tq_prev m a)
  end.

(** A new coroutine has a zeroed link field; a freed one has none. *)
Definition link_alloc (m : qmem) (a : addr) : qmem :=
  mk_qmem (urgent_head m) (ready_head m) (<[a := mk_qlink NULL (HeadFirst ready)]> (links m)).
Definition link_free (m : qmem) (a : addr) : qmem :=
  mk_qmem (urgent_head m) (ready_head m) (delete a (links m)).

(** ** The list a queue represents *)

Fixpoint tq_seg (m : qmem) (h : tqh) (p : qloc) (l : list addr) : Prop :=
  match l with
  | [] => tq_read m p = NULL /\ tqh_last (qhead_of m h) = p
  | a :: l' =>
      tq_read m p = a /\ a <> NULL /\ is_Some (links m !! a) /\ tq_prev m a = p /\
      tq_seg m h (ElmNext a) l'
  end.

Definition tq_rep (m : qmem) (h : tqh) (l : list addr) : Prop :=
  tq_seg m h (HeadFirst h) l /\ NoDup l.

(** ** Lemmas *)

Lemma qhead_set_same m h x : qhead_of (set_qhead m h x) h = x.
Proof. by destruct h. Qed.

Lemma qhead_set_ne m h h' x : h <> h' -> qhead_of (set_qhead m h x) h' = qhead_of m h'.
Proof. by destruct h, h'. Qed.

Lemma links_set_qhead m h x : links (set_qhead m h x) = links m.
Proof. by destruct h. Qed.

Lemma links_write_head m h x : links (tq_write m (HeadFirst h) x) = links m.
Proof. apply links_set_qhead. Qed.

Lemma seg_end m h p l :
  tq_seg m h p l ->
  tqh_last (qhead_of m h) = match last l with Some a => ElmNext a | None => p end.
Proof.
  revert p. induction l as [|a l IH]; simpl; intros p.
  - by intros [_ ?].
  - intros (_ & _ & _ & _ & Hs). rewrite (IH _ Hs). destruct l as [|b l]; [done|].
    rewrite last_cons_cons. by destruct (last_is_Some (b :: l)) as [_ [x ->]].
Qed.

Lemma seg_links m h p l a : tq_seg m h p l -> a ∈ l -> is_Some (links m !! a) /\ a <> NULL.
Proof.
  revert p. induction l as [|b l IH]; simpl; intros p Hs Hin; [by apply elem_of_nil in Hin|].
  destruct Hs as (_ & Hb & Hl & _ & Hs). apply elem_of_cons in Hin as [->|]; eauto.
Qed.

(** Segments only depend on the cells they own. *)
Lemma seg_frame m m' h p l :
  tq_read m' p = tq_read m p ->
  (forall a, a ∈ l -> links m' !! a = links m !! a) ->
  tqh_last (qhead_of m' h) = tqh_last (qhead_of m h) ->
  tq_seg m h p l -> tq_seg m' h p l.
Proof.
  intros Hr Hl Ht. revert p Hr. induction l as [|a l IH]; simpl; intros p Hr Hs.
  - by rewrite Hr, Ht.
  - destruct Hs as (Ha & Hn & Hlk & Hp & Hs).
    assert (Hla : links m' !! a = links m !! a) by (apply Hl; left).
    split_and!; [by rewrite Hr|done|by rewrite Hla|unfold tq_prev in *; by rewrite Hla|].
    apply IH; [intros b Hb; apply Hl; by right| |done].
    simpl. unfold tq_next. by rewrite Hla.
Qed.

(** *** Insertion at the tail *)

Definition valid_cell (m : qmem) (p : qloc) : Prop :=
  match p with HeadFirst _ => True | ElmNext a => is_Some (links m !! a) end.

Lemma insert_tail_head m h h' a :
  qhead_of (TAILQ_INSERT_TAIL m h a) h' =
  if decide (h = h') then
    mk_qhead (if decide (tqh_last (qhead_of m h) = HeadFirst h) then a
              else tqh_first (qhead_of m h)) (ElmNext a)
  else if decide (tqh_last (qhead_of m h) = HeadFirst h')
       then mk_qhead a (tqh_last (qhead_of m h')) else qhead_of m h'.
Proof.
  unfold TAILQ_INSERT_TAIL, set_last. destruct h, h'; simpl;
    destruct (tqh_last _) as [[]|] eqn:E; simpl; by rewrite ?E.
Qed.

Lemma insert_tail_links m h a b :
  links (TAILQ_INSERT_TAIL m h a) !! b =
  let p := tqh_last (qhead_of m h) in
  (fun l => mk_qlink (if decide (p = ElmNext b) then a
                      else if decide (a = b) then NULL else tqe_next l)
              (if decide (a = b) then p else tqe_prev l)) <$> links m !! b.
Proof.
  unfold TAILQ_INSERT_TAIL, set_last. rewrite links_set_qhead. simpl.
  replace (qhead_of (set_prev _ _ _) h) with (qhead_of m h) by (by destruct h).
  replace (qhead_of (set_next _ _ _) h) with (qhead_of m h) by (by destruct h).
  destruct (tqh_last (qhead_of m h)) as [h'|c].
  - rewrite links_write_head. simpl. rewrite !lookup_alter.
    repeat (case_decide; simplify_eq/=); by destruct (links m !! _) as [[]|].
  - simpl. rewrite !lookup_alter.
    repeat (case_decide; simplify_eq/=); by destruct (links m !! _) as [[]|].
Qed.

Lemma insert_tail_read m h a p :
  valid_cell m (tqh_last (qhead_of m h)) -> is_Some (links m !! a) ->
  tqh_last (qhead_of m h) <> ElmNext a ->
  tq_read (TAILQ_INSERT_TAIL m h a) p =
  if decide (p = tqh_last (qhead_of m h)) then a
  else if decide (p = ElmNext a) then NULL else tq_read m p.
Proof.
  intros Hv [la Ha] Hne. destruct p as [h'|c]; simpl.
  - rewrite insert_tail_head. destruct (decide (h = h')) as [->|Hh]; simpl.
    + repeat (case_decide; simpl); congruence.
    + repeat (case_decide; simpl); congruence.
  - unfold tq_next. rewrite insert_tail_links. simpl.
    destruct (decide (tqh_last (qhead_of m h) = ElmNext c)) as [Hl|Hl].
    + rewrite decide_True by congruence. rewrite Hl in Hv. destruct Hv as [lc ->]. done.
    + rewrite decide_False by congruence. destruct (links m !! c) as [lc|] eqn:Hc; simpl.
      * destruct (decide (a = c)), (decide (ElmNext c = ElmNext a)); congruence.
      * rewrite decide_False by congruence. done.
Qed.

Lemma insert_tail_prev m h a b :
  is_Some (links m !! b) ->
  tq_prev (TAILQ_INSERT_TAIL m h a) b =
  if decide (a = b) then tqh_last (qhead_of m h) else tq_prev m b.
Proof.
  intros [lb Hb]. unfold tq_prev. rewrite insert_tail_links, Hb. simpl.
  by destruct (decide (a = b)).
Qed.

Lemma insert_tail_linked m h a b :
  is_Some (links (TAILQ_INSERT_TAIL m h a) !! b) <-> is_Some (links m !! b).
Proof. rewrite insert_tail_links. simpl. by rewrite fmap_is_Some. Qed.

Lemma seg_valid_end m h p l :
  tq_seg m h p l -> valid_cell m p -> valid_cell m (tqh_last (qhead_of m h)).
Proof.
  intros Hs Hp. rewrite (seg_end _ _ _ _ Hs). destruct (last l) as [a|] eqn:Hl; [|done].
  apply last_Some_elem_of in Hl. by eapply seg_links.
Qed.

Lemma seg_insert_tail m h a p l :
  tq_seg m h p l -> valid_cell m p -> NoDup l -> a ∉ l -> a <> NULL ->
  is_Some (links m !! a) -> p <> ElmNext a -> (forall b, b ∈ l -> p <> ElmNext b) ->
  tq_seg (TAILQ_INSERT_TAIL m h a) h p (l ++ [a]).
Proof.
  intros Hs Hv Hnd Hal Ha0 Ha Hpa Hpl.
  pose proof (seg_valid_end _ _ _ _ Hs Hv) as Hve.
  assert (Hla : tqh_last (qhead_of m h) <> ElmNext a).
  { rewrite (seg_end _ _ _ _ Hs). destruct (last l) as [x|] eqn:E; [|done].
    apply last_Some_elem_of in E. congruence. }
  revert p Hs Hv Hpa Hpl. induction l as [|b l IH]; intros p Hs Hv Hpa Hpl.
  - destruct Hs as [Hr Hl]. simpl.
    change (tq_next (TAILQ_INSERT_TAIL m h a) a)
      with (tq_read (TAILQ_INSERT_TAIL m h a) (ElmNext a)).
    rewrite !insert_tail_read, insert_tail_prev, insert_tail_linked, insert_tail_head by done.
    rewrite (decide_True (P := p = _)), !(decide_True (P := a = a)),
      (decide_True (P := h = h)) by done.
    rewrite (decide_False (P := ElmNext a = _)), decide_True by congruence. done.
  - pose proof (seg_end _ _ _ _ Hs) as He.
    destruct Hs as (Hr & Hb0 & Hb & Hp & Hs). simpl.
    apply NoDup_cons in Hnd as [Hbl Hnd].
    apply not_elem_of_cons in Hal as [Hab Hal].
    rewrite insert_tail_read, insert_tail_prev, insert_tail_linked by done.
    rewrite (decide_False (P := a = b)), (decide_False (P := p = ElmNext a)) by congruence.
    split_and!; [|done..|].
    + rewrite decide_False; [done|]. rewrite He.
      destruct (last_is_Some (b :: l)) as [_ [x Hx]]; [done|]. rewrite Hx.
      apply Hpl. by apply last_Some_elem_of.
    + apply IH; [done..|congruence|congruence].
Qed.

Lemma rep_insert_tail m h a l :
  tq_rep m h l -> a ∉ l -> a <> NULL -> is_Some (links m !! a) ->
  tq_rep (TAILQ_INSERT_TAIL m h a) h (l ++ [a]).
Proof.
  intros [Hs Hnd] Hal Ha0 Ha. split; [by apply seg_insert_tail|].
  apply NoDup_app. split_and!; [done| |apply NoDup_singleton].
  by intros x Hx ->%list_elem_of_singleton.
Qed.

(** The other queue is not touched. *)
Lemma rep_insert_tail_other m h h' a l l' :
  h <> h' -> tq_rep m h l -> tq_rep m h' l' -> a ∉ l' -> is_Some (links m !! a) -> a ∉ l ->
  (forall b, b ∈ l -> b ∉ l') ->
  tq_rep (TAILQ_INSERT_TAIL m h a) h' l'.
Proof.
  intros Hh [Hs Hnd] [Hs' Hnd'] Hal Ha Hal' Hdis. split; [|done].
  pose proof (seg_end _ _ _ _ Hs) as He.
  assert (Hne : forall b, b ∈ l' -> tqh_last (qhead_of m h) <> ElmNext b).
  { intros b Hb. rewrite He. destruct (last l) as [x|] eqn:E; [|done].
    apply last_Some_elem_of in E. intros [= ->]. by apply (Hdis b). }
  assert (Hnh : tqh_last (qhead_of m h) <> HeadFirst h').
  { rewrite He. destruct (last l); congruence. }
  eapply seg_frame; [| | |exact Hs'].
  - simpl. rewrite insert_tail_head, decide_False, decide_False by done. done.
  - intros b Hb. rewrite insert_tail_links. specialize (Hne b Hb).
    destruct (links m !! b) as [[n q]|]; simpl; [|done].
    repeat (case_decide; simplify_eq/=); done.
  - rewrite insert_tail_head, decide_False, decide_False by done. done.
Qed.

(** *** Removal of the first element *)

Lemma remove_first_spec m h a l :
  tq_seg m h (HeadFirst h) (a :: l) -> NoDup (a :: l) ->
  tq_seg (TAILQ_REMOVE m h a) h (HeadFirst h) l /\
  (forall b, b ∉ l -> links (TAILQ_REMOVE m h a) !! b = links m !! b) /\
  (forall b, is_Some (links (TAILQ_REMOVE m h a) !! b) <-> is_Some (links m !! b)) /\
  (forall h', h <> h' -> qhead_of (TAILQ_REMOVE m h a) h' = qhead_of m h').
Proof.
  intros (Hr & Ha0 & [la Hla] & Hp & Hs) [Hal Hnd]%NoDup_cons. unfold TAILQ_REMOVE.
  destruct l as [|b l]; simpl in Hs.
  - destruct Hs as [Hn Hl]. rewrite Hn, Z.eqb_refl, Hp. simpl.
    replace (tq_prev (set_last m h (HeadFirst h)) a) with (HeadFirst h)
      by (unfold tq_prev, set_last; rewrite links_set_qhead; exact (eq_sym Hp)).
    replace (tq_next (set_last m h (HeadFirst h)) a) with NULL
      by (unfold tq_next, set_last; rewrite links_set_qhead; exact (eq_sym Hn)).
    unfold tq_write, set_last. rewrite !qhead_set_same, !links_set_qhead. simpl.
    split_and!; try done. intros h' Hh. by rewrite !qhead_set_ne.
  - destruct Hs as (Hn & Hb0 & [lb Hlb] & Hpb & Hs). rewrite Hn, Hp.
    destruct (Z.eqb_spec b NULL) as [|_]; [congruence|].
    assert (Hab : a <> b) by (intros ->; apply Hal; left).
    assert (Hpa : tq_prev (set_prev m b (HeadFirst h)) a = HeadFirst h).
    { unfold tq_prev in *; simpl. by rewrite lookup_alter_ne. }
    assert (Hna : tq_next (set_prev m b (HeadFirst h)) a = b).
    { unfold tq_next in *; simpl. by rewrite lookup_alter_ne. }
    rewrite Hpa, Hna. apply NoDup_cons in Hnd as [Hbl Hnd].
    unfold tq_write. simpl. rewrite links_set_qhead. unfold tq_prev, tq_next. simpl.
    rewrite !links_set_qhead, !qhead_set_same. simpl. rewrite lookup_alter_eq, Hlb. simpl.
    split_and!; try done.
    + eapply seg_frame; [| | |exact Hs].
      * unfold tq_read, tq_next. rewrite links_set_qhead. simpl. by rewrite lookup_alter_eq, Hlb.
      * intros c Hc. rewrite links_set_qhead. simpl. rewrite lookup_alter_ne; [done|congruence].
      * by rewrite qhead_set_same; destruct h.
    + intros c [Hc _]%not_elem_of_cons. by rewrite lookup_alter_ne.
    + intros c. rewrite lookup_alter. case_decide as Hc; [|done].
      rewrite <- Hc, Hlb. simpl. by split; eauto.
    + intros h' Hh. by rewrite qhead_set_ne; [destruct h'|].
Qed.

Lemma rep_remove_first m h a l :
  tq_rep m h (a :: l) -> tq_rep (TAILQ_REMOVE m h a) h l.
Proof.
  intros [Hs Hnd]. split; [by apply remove_first_spec|by apply NoDup_cons in Hnd as [_ ?]].
Qed.

Lemma rep_remove_first_other m h h' a l l' :
  h <> h' -> tq_rep m h (a :: l) -> tq_rep m h' l' -> (forall b, b ∈ l -> b ∉ l') ->
  tq_rep (TAILQ_REMOVE m h a) h' l'.
Proof.
  intros Hh [Hs Hnd] [Hs' Hnd'] Hdis. split; [|done].
  destruct (remove_first_spec _ _ _ _ Hs Hnd) as (_ & Hlk & _ & Hhd).
  eapply seg_frame; [| | |exact Hs'].
  - simpl. by rewrite Hhd.
  - intros b Hb. apply Hlk. intros Hin. by apply (Hdis b).
  - by rewrite Hhd.
Qed.

Lemma remove_first_linked m h a l b :
  tq_rep m h (a :: l) ->
  is_Some (links (TAILQ_REMOVE m h a) !! b) <-> is_Some (links m !! b).
Proof. intros [Hs Hnd]. by apply (remove_first_spec _ _ _ _ Hs Hnd). Qed.

(** *** Access *)

Lemma rep_first m h l : tq_rep m h l -> TAILQ_FIRST m h = match l with a :: _ => a | [] => NULL end.
Proof. intros [Hs _]. destruct l; apply Hs. Qed.

Lemma rep_empty m h l : tq_rep m h l -> TAILQ_EMPTY m h = match l with [] => true | _ => false end.
Proof.
  intros Hr. unfold TAILQ_EMPTY. pose proof (rep_first _ _ _ Hr) as Hf. unfold TAILQ_FIRST in Hf.
  rewrite Hf. destruct Hr as [Hs _]. destruct l as [|a l]; [done|].
  destruct Hs as (_ & Ha & _). by apply Z.eqb_neq.
Qed.

Lemma seg_last_read m h p l a :
  tq_seg m h p l -> last l = Some a -> tq_read m (tq_prev m a) = a.
Proof.
  revert p. induction l as [|b l IH]; intros p Hs Hl; [done|].
  destruct Hs as (Hr & _ & _ & Hp & Hs). destruct l as [|c l].
  - simpl in Hl. simplify_eq. done.
  - rewrite last_cons_cons in Hl. eauto.
Qed.

Lemma rep_last m h l : tq_rep m h l -> TAILQ_LAST m h = default NULL (last l).
Proof.
  intros [Hs _]. unfold TAILQ_LAST. rewrite (seg_end _ _ _ _ Hs).
  destruct (last l) as [a|] eqn:Hl.
  - by eapply seg_last_read.
  - apply last_None in Hl as ->. destruct Hs as [Hn He]. rewrite He. done.
Qed.

(** ** Both queues together

    [rep2 m lu lr]: the urgent queue holds [lu], the ready queue [lr], and no
    coroutine is on both. *)
Record rep2 (m : qmem) (lu lr : list addr) : Prop := {
  rep_urgent : tq_rep m urgent_ready lu;
  rep_ready : tq_rep m ready lr;
  rep_nodup : NoDup (lu ++ lr)
}.

Definition qlist (h : tqh) (q : list addr * list addr) : list addr :=
  match h with urgent_ready => q.1 | ready => q.2 end.
Definition qset (h : tqh) (l : list addr) (q : list addr * list addr) : list addr * list addr :=
  match h with urgent_ready => (l, q.2) | ready => (q.1, l) end.

Definition rep2' (m : qmem) (q : list addr * list addr) : Prop := rep2 m q.1 q.2.

Lemma rep2_dis m q h h' b :
  rep2' m q -> h <> h' -> b ∈ qlist h q -> b ∉ qlist h' q.
Proof.
  intros [_ _ Hnd] Hh. apply NoDup_app in Hnd as (_ & Hd & _).
  destruct h, h'; simpl; try done; intros Hb Hb'; naive_solver.
Qed.

Lemma rep2_of m q h : rep2' m q -> tq_rep m h (qlist h q).
Proof. intros [Hu Hr _]. by destruct h. Qed.

Lemma rep2_intro m q h h' :
  h <> h' -> tq_rep m h (qlist h q) -> tq_rep m h' (qlist h' q) ->
  (forall b, b ∈ qlist h q -> b ∉ qlist h' q) -> rep2' m q.
Proof.
  intros Hh H1 H2 Hd. destruct H1 as [Hs1 Hn1] eqn:E1, H2 as [Hs2 Hn2] eqn:E2.
  destruct h, h'; try done; simpl in *; split; try done;
    apply NoDup_app; split_and!; try done; intros b Hb Hb'; by apply (Hd b).
Qed.

Definition other (h : tqh) : tqh := match h with urgent_ready => ready | ready => urgent_ready end.

Lemma other_ne h : h <> other h.
Proof. by destruct h. Qed.

Lemma qlist_set h l q : qlist h (qset h l q) = l.
Proof. by destruct h. Qed.

Lemma qlist_set_other h l q : qlist (other h) (qset h l q) = qlist (other h) q.
Proof. by destruct h. Qed.

Lemma qlist_app m q h a : rep2' m q -> a ∉ q.1 ++ q.2 -> a ∉ qlist h q.
Proof. intros _ Ha Hin. apply Ha, elem_of_app. destruct h; auto. Qed.

Lemma rep2_insert_tail m q h a :
  rep2' m q -> a ∉ q.1 ++ q.2 -> a <> NULL -> is_Some (links m !! a) ->
  rep2' (TAILQ_INSERT_TAIL m h a) (qset h (qlist h q ++ [a]) q).
Proof.
  intros Hr Ha Ha0 Hl.
  pose proof (qlist_app m q h a Hr Ha) as Hah.
  pose proof (qlist_app m q (other h) a Hr Ha) as Hao.
  apply (rep2_intro _ _ h (other h) (other_ne h)); rewrite ?qlist_set, ?qlist_set_other.
  - apply rep_insert_tail; [by apply rep2_of|done..].
  - eapply (rep_insert_tail_other _ h _ _ (qlist h q)); eauto using other_ne, rep2_of, rep2_dis.
  - intros b Hb Hb'. apply elem_of_app in Hb as [Hb|Hb%list_elem_of_singleton]; [|congruence].
    exact (rep2_dis m q h (other h) b Hr (other_ne h) Hb Hb').
Qed.

Lemma rep2_remove_first m q h a l :
  rep2' m q -> qlist h q = a :: l -> rep2' (TAILQ_REMOVE m h a) (qset h l q).
Proof.
  intros Hr Hq. pose proof (rep2_of m q h Hr) as Hh. rewrite Hq in Hh.
  assert (Hd : forall b, b ∈ l -> b ∉ qlist (other h) q).
  { intros b Hb. apply (rep2_dis m q h); [done|apply other_ne|]. rewrite Hq. by right. }
  apply (rep2_intro _ _ h (other h) (other_ne h)); rewrite ?qlist_set, ?qlist_set_other.
  - by apply rep_remove_first.
  - eapply rep_remove_first_other; eauto using other_ne, rep2_of.
  - done.
Qed.

(** The links of an element that is on neither queue do not matter. *)
Lemma rep2_links m m' q p :
  rep2' m q -> p ∉ q.1 ++ q.2 ->
  (forall h, qhead_of m' h = qhead_of m h) -> (forall a, a <> p -> links m' !! a = links m !! a) ->
  rep2' m' q.
Proof.
  intros Hr Hp Hh Hl.
  assert (Hq : forall h, tq_rep m' h (qlist h q)).
  { intros h. destruct (rep2_of m q h Hr) as [Hs Hn]. split; [|done].
    eapply seg_frame; [| | |exact Hs]; simpl; rewrite ?Hh; try done.
    intros a Ha. apply Hl. intros ->. by apply (qlist_app m q h p Hr Hp). }
  split; [apply (Hq urgent_ready)|apply (Hq ready)|apply Hr].
Qed.

Lemma rep2_link_alloc m q p : rep2' m q -> p ∉ q.1 ++ q.2 -> rep2' (link_alloc m p) q.
Proof.
  intros Hr Hp. apply (rep2_links m _ q p); try done.
  intros a Ha. simpl. by rewrite lookup_insert_ne.
Qed.

Lemma rep2_link_free m q p : rep2' m q -> p ∉ q.1 ++ q.2 -> rep2' (link_free m p) q.
Proof.
  intros Hr Hp. apply (rep2_links m _ q p); try done.
  intros a Ha. simpl. by rewrite lookup_delete_ne.
Qed.

#[export] Hint Resolve rep2_of rep2_insert_tail rep2_remove_first : dyco.

(** ** Sequences of queue operations *)

Inductive qop :=
  | Enqueue (h : tqh) (a : addr)      (* TAILQ_INSERT_TAIL *)
  | Dequeue (h : tqh)                 (* TAILQ_FIRST, then TAILQ_REMOVE *)
  | Peek_last (h : tqh).              (* TAILQ_LAST *)

Definition run_qop (o : qop) (m : qmem) : addr * qmem :=
  match o with
  | Enqueue h a => (a, TAILQ_INSERT_TAIL m h a)
  | Dequeue h =>
      if TAILQ_EMPTY m h then (NULL, m)
      else let a := TAILQ_FIRST m h in (a, TAILQ_REMOVE m h a)
  | Peek_last h => (TAILQ_LAST m h, m)
  end.

Definition spec_qop (o : qop) (q : list addr * list addr) : addr * (list addr * list addr) :=
  match o with
  | Enqueue h a => (a, qset h (qlist h q ++ [a]) q)
  | Dequeue h =>
      match qlist h q with [] => (NULL, q) | a :: l => (a, qset h l q) end
  | Peek_last h => (default NULL (last (qlist h q)), q)
  end.

(** An element is enqueued only when it is on neither queue. *)
Definition qop_legal (known : gset Z) (o : qop) (q : list addr * list addr) : bool :=
  match o with
  | Enqueue _ a => bool_decide (a ∈ known) && bool_decide (a ∉ q.1 ++ q.2)
  | _ => true
  end.

Fixpoint run_qops (os : list qop) (m : qmem) : list addr * qmem :=
  match os with
  | [] => ([], m)
  | o :: os' => let '(r, m1) := run_qop o m in let '(rs, m2) := run_qops os' m1 in (r :: rs, m2)
  end.

Fixpoint spec_qops (os : list qop) (q : list addr * list addr)
  : list addr * (list addr * list addr) :=
  match os with
  | [] => ([], q)
  | o :: os' => let '(r, q1) := spec_qop o q in let '(rs, q2) := spec_qops os' q1 in (r :: rs, q2)
  end.

Fixpoint qops_legal (known : gset Z) (os : list qop) (q : list addr * list addr) : bool :=
  match os with
  | [] => true
  | o :: os' => qop_legal known o q && qops_legal known os' (spec_qop o q).2
  end.

Lemma run_qop_spec (known : gset Z) o m q :
  rep2' m q -> (forall a, a ∈ known -> a <> NULL /\ is_Some (links m !! a)) ->
  qop_legal known o q = true ->
  (run_qop o m).1 = (spec_qop o q).1 /\ rep2' (run_qop o m).2 (spec_qop o q).2 /\
  (forall a, a ∈ known -> a <> NULL /\ is_Some (links (run_qop o m).2 !! a)).
Proof.
  intros Hr Hk Hl. destruct o as [h a|h|h]; simpl in *.
  - apply andb_true_iff in Hl as [Ha%bool_decide_eq_true Hn%bool_decide_eq_true].
    destruct (Hk a Ha). split_and!; [done|by apply rep2_insert_tail|].
    intros b Hb. rewrite insert_tail_linked. auto.
  - pose proof (rep2_of _ _ h Hr) as Hh.
    rewrite (rep_empty _ _ _ Hh), (rep_first _ _ _ Hh).
    destruct (qlist h q) as [|a l] eqn:Hq; simpl; [done|].
    split_and!; [done|by apply rep2_remove_first|].
    intros b Hb. rewrite (remove_first_linked _ _ _ _ _ Hh). auto.
  - rewrite (rep_last m h (qlist h q)) by auto with dyco. done.
Qed.

Definition empty_queues (known : gset Z) : qmem :=
  TAILQ_INIT (TAILQ_INIT (mk_qmem (mk_qhead NULL (ElmNext NULL)) (mk_qhead NULL (ElmNext NULL))
    (gset_to_gmap (mk_qlink NULL (HeadFirst ready)) known)) urgent_ready) ready.

Lemma empty_queues_rep known : rep2' (empty_queues known) ([], []).
Proof. split; [split; [done|constructor]..|constructor]. Qed.

Lemma run_qops_spec known os m q :
  rep2' m q -> (forall a, a ∈ known -> a <> NULL /\ is_Some (links m !! a)) ->
  qops_legal known os q = true ->
  (run_qops os m).1 = (spec_qops os q).1 /\ rep2' (run_qops os m).2 (spec_qops os q).2.
Proof.
  revert m q. induction os as [|o os IH]; intros m q Hr Hk Hl; [done|].
  apply andb_true_iff in Hl as [Ho Hl]. simpl.
  destruct (run_qop_spec known o m q Hr Hk Ho) as (He & Hr' & Hk').
  destruct (run_qop o m) as [r m1], (spec_qop o q) as [r' q1]. simpl in *.
  destruct (IH m1 q1 Hr' Hk' Hl) as [He2 Hr2].
  destruct (run_qops os m1), (spec_qops os q1). simpl in *. by subst.
Qed.

(** C2. Starting from initialised heads, the pointer manipulations of
    [TAILQ_INSERT_TAIL], [TAILQ_FIRST]/[TAILQ_REMOVE] and [TAILQ_LAST] on the
    two ready queues return, for every sequence in which an element is only
    enqueued while it is on neither queue, what the same sequence returns on
    two first-in first-out lists, and the heap represents those lists at the
    end. *)
Theorem queues_refine_lists (known : gset Z) (os : list qop) :
  NULL ∉ known -> qops_legal known os ([], []) = true ->
  (run_qops os (empty_queues known)).1 = (spec_qops os ([], [])).1 /\
  rep2' (run_qops os (empty_queues known)).2 (spec_qops os ([], [])).2.
Proof.
  intros Hn Hl. apply (run_qops_spec known); [apply empty_queues_rep| |done].
  intros a Ha. split; [by intros ->|]. simpl. rewrite lookup_gset_to_gmap.
  by rewrite option_guard_True.
Qed.

Definition qops_demo : list qop :=
  [Enqueue ready 8; Enqueue urgent_ready 24; Enqueue ready 16; Peek_last ready; Dequeue ready;
   Enqueue urgent_ready 8; Dequeue urgent_ready; Dequeue urgent_ready; Dequeue urgent_ready;
   Dequeue ready].

Lemma queues_refine_lists_witness :
  (run_qops qops_demo (empty_queues {[8; 16; 24]})).1 = (spec_qops qops_demo ([], [])).1 /\
  rep2' (run_qops qops_demo (empty_queues {[8; 16; 24]})).2 (spec_qops qops_demo ([], [])).2.
Proof.
  apply (queues_refine_lists {[8; 16; 24]}); [unfold NULL; rewrite !elem_of_union, !elem_of_singleton; lia|].
  vm_compute. reflexivity.
Defined.

(** *** A second insertion of a linked element *)

Definition dequeue_all (n : nat) (m : qmem) (h : tqh) : qmem :=
  Nat.iter n (fun m => TAILQ_REMOVE m h (TAILQ_FIRST m h)) m.

(** A queue whose only element is its own successor. *)
Definition self_linked (m : qmem) (h : tqh) (a : addr) : Prop :=
  links m !! a = Some (mk_qlink a (ElmNext a)) /\ tqh_first (qhead_of m h) = a.

Lemma self_linked_remove m h a :
  a <> NULL -> self_linked m h a -> self_linked (TAILQ_REMOVE m h a) h a.
Proof.
  intros Ha [Hl Hf]. unfold self_linked, TAILQ_REMOVE.
  assert (Hn : tq_next m a = a) by (unfold tq_next; by rewrite Hl).
  assert (Hp : tq_prev m a = ElmNext a) by (unfold tq_prev; by rewrite Hl).
  rewrite Hn, Hp. destruct (Z.eqb_spec a NULL); [done|].
  unfold tq_prev, tq_next. simpl. rewrite lookup_alter_eq, Hl. simpl.
  rewrite !lookup_alter_eq, Hl. simpl. split; [done|]. by destruct h.
Qed.

(** If an element that is already on a queue is appended to it a second time,
    the queue never becomes empty again: however many elements are dequeued,
    the same element is still at its head. *)
Lemma self_linked_dequeue m h a n :
  tq_rep m h [a] ->
  TAILQ_FIRST (dequeue_all n (TAILQ_INSERT_TAIL m h a) h) h = a /\
  TAILQ_EMPTY (dequeue_all n (TAILQ_INSERT_TAIL m h a) h) h = false.
Proof.
  intros [(Hf & Ha & [la Hla] & Hp & _ & He) _].
  assert (Hs : self_linked (TAILQ_INSERT_TAIL m h a) h a).
  { split.
    - rewrite insert_tail_links, Hla, He. simpl. by rewrite !decide_True.
    - rewrite insert_tail_head, decide_True, He by done. done. }
  assert (Hi : self_linked (dequeue_all n (TAILQ_INSERT_TAIL m h a) h) h a).
  { induction n as [|n IH]; [done|]. unfold dequeue_all. rewrite Nat.iter_succ.
    fold (dequeue_all n (TAILQ_INSERT_TAIL m h a) h). unfold TAILQ_FIRST.
    destruct IH as [Hl Hf']. rewrite Hf'. by apply self_linked_remove. }
  destruct Hi as [_ Hi]. unfold TAILQ_FIRST, TAILQ_EMPTY. rewrite Hi.
  split; [done|]. by apply Z.eqb_neq.
Qed.
