(* ===== verification/SleepTree.v ===== *)
(** * What the scheduler asks of its tree of sleeping coroutines

    The scheduler orders the sleeping coroutines by wake-up time in a
    container generated by the [RB_GENERATE] macro of
    [include/dyco/sys_tree.h].  [SleepTree] lists the operations it calls and
    [SleepTreeLaws] what it relies on; the scheduler is verified against this
    interface.  An operation may fault, so that an implementation is free to
    dereference its nodes; the laws say that it does not on a well-formed
    tree. *)
From S2P Require Import Prelude.

Local Open Scope Z_scope.

Class SleepTree (T : Type) := {
  rb_init : T;
  rb_is_empty : T -> bool;
  rb_min : T -> option (Z * addr);
  rb_find : Z -> T -> option addr;
  rb_insert : Z -> addr -> T -> res (option addr * T);
  rb_remove : Z -> T -> res T;
  st_view : T -> gmap Z addr;
  st_wf : T -> Prop
}.

Class SleepTreeLaws (T : Type) `{SleepTree T} : Prop := {
  rb_init_law : st_wf rb_init /\ st_view rb_init = ∅;
  rb_empty_law t : st_wf t -> rb_is_empty t = bool_decide (st_view t = ∅);
  rb_min_law t : st_wf t ->
    match rb_min t with
    | Some (k, a) => st_view t !! k = Some a /\ forall k', is_Some (st_view t !! k') -> k <= k'
    | None => st_view t = ∅
    end;
  rb_find_law t k : st_wf t -> rb_find k t = st_view t !! k;
  rb_insert_law t k a : st_wf t -> a <> NULL -> (forall k', st_view t !! k' <> Some a) ->
    exists t', rb_insert k a t = Ok (st_view t !! k, t') /\ st_wf t' /\
      st_view t' = if st_view t !! k then st_view t else <[k := a]> (st_view t);
  rb_remove_law t k : st_wf t -> is_Some (st_view t !! k) ->
    exists t', rb_remove k t = Ok t' /\ st_wf t' /\ st_view t' = delete k (st_view t)
}.

(** ** The reference implementation: a finite map *)

Definition map_min (m : gmap Z addr) : option (Z * addr) :=
  map_fold (fun k a acc =>
    match acc with
    | Some (k', a') => if k <? k' then Some (k, a) else acc
    | None => Some (k, a)
    end) None m.

Lemma map_min_spec (m : gmap Z addr) :
  match map_min m with
  | Some (k, a) => m !! k = Some a /\ forall k', is_Some (m !! k') -> k <= k'
  | None => m = ∅
  end.
Proof.
  unfold map_min.
  apply (map_fold_weak_ind (fun (r : option (Z * addr)) (m : gmap Z addr) =>
    match r with
    | Some (k, a) => m !! k = Some a /\ forall k', is_Some (m !! k') -> k <= k'
    | None => m = ∅
    end)); [done|].
  intros k a m' r Hk Hr. destruct r as [[k0 a0]|].
  - destruct Hr as [Hk0 Hmin].
    assert (k <> k0) by congruence.
    destruct (Z.ltb_spec k k0) as [Hlt|Hge]; split.
    + apply lookup_insert_eq.
    + intros k' [->|[_ Hk']]%lookup_insert_is_Some; [lia|]. specialize (Hmin _ Hk'). lia.
    + by rewrite lookup_insert_ne.
    + intros k' [->|[_ Hk']]%lookup_insert_is_Some; [lia|auto].
  - subst m'. split; [apply lookup_insert_eq|].
    intros k' [->|[_ Hk']]%lookup_insert_is_Some; [lia|]. rewrite lookup_empty in Hk'.
    by destruct Hk'.
Qed.

Instance map_sleep_tree : SleepTree (gmap Z addr) := {
  rb_init := ∅;
  rb_is_empty m := bool_decide (m = ∅);
  rb_min := map_min;
  rb_find k m := m !! k;
  rb_insert k a m := Ok (m !! k, if m !! k then m else <[k := a]> m);
  rb_remove k m := Ok (delete k m);
  st_view m := m;
  st_wf _ := True
}.

Instance map_sleep_tree_laws : SleepTreeLaws (gmap Z addr).
Proof.
  split; simpl; try done.
  - intros t _. apply map_min_spec.
  - intros t k a _ _ _. eauto.
  - intros t k _ _. eauto.
Qed.
