(* ===== verification/RBTree.v ===== *)
(** * The red-black tree of sleeping coroutines

    [RB_GENERATE_INTERNAL] of [include/dyco/sys_tree.h], as the scheduler
    instantiates it with [coroutine_sleep_cmp].  The links of a node are an
    entry of a memory of nodes, and every assignment of the macros is an update
    of that memory.  The wake-up time of a coroutine, which the comparison
    reads and which does not change while the coroutine is in the tree, is
    kept with its links.  [RB_AUGMENT] is empty.

    The operations are proved against functional trees in which a position is
    a subtree with its context; the file ends with the instance of
    [SleepTree] and its laws. *)
From S2P Require Import Prelude SleepTree.

Local Open Scope Z_scope.
Local Open Scope dyco_scope.

(** ** Nodes *)

Inductive rb_color := RB_BLACK | RB_RED.

#[export] Instance rb_color_eq_dec : EqDecision rb_color.
Proof. solve_decision. Defined.

Record rb_entry := mk_rbe {
  rbe_left : addr;
  rbe_right : addr;
  rbe_parent : addr;
  rbe_color : rb_color;
  rbe_key : Z
}.

Record rb_head := mk_rb {
  rbh_root : addr;
  rbe : gmap Z rb_entry
}.

Definition RB_INIT : rb_head := mk_rb NULL ∅.

Definition rb_read {A} (f : rb_entry -> A) (a : addr) : M rb_head A :=
  fun m => match rbe m !! a with Some e => Ok (f e, m) | None => Err FSegv end.
Definition rb_upd (a : addr) (e : rb_entry) (m : rb_head) : rb_head :=
  mk_rb (rbh_root m) (<[a := e]> (rbe m)).
Definition rb_write (a : addr) (g : rb_entry -> rb_entry) : M rb_head unit :=
  fun m => match rbe m !! a with Some e => Ok (tt, rb_upd a (g e) m) | None => Err FSegv end.

Definition RB_LEFT : addr -> M rb_head addr := rb_read rbe_left.
Definition RB_RIGHT : addr -> M rb_head addr := rb_read rbe_right.
Definition RB_PARENT : addr -> M rb_head addr := rb_read rbe_parent.
Definition RB_COLOR : addr -> M rb_head rb_color := rb_read rbe_color.
Definition RB_ROOT : M rb_head addr := gets rbh_root.
Definition RB_EMPTY (m : rb_head) : bool := rbh_root m =? NULL.

Definition put_left (a x : addr) : M rb_head unit :=
  rb_write a (fun e => mk_rbe x (rbe_right e) (rbe_parent e) (rbe_color e) (rbe_key e)).
Definition put_right (a x : addr) : M rb_head unit :=
  rb_write a (fun e => mk_rbe (rbe_left e) x (rbe_parent e) (rbe_color e) (rbe_key e)).
Definition put_parent (a x : addr) : M rb_head unit :=
  rb_write a (fun e => mk_rbe (rbe_left e) (rbe_right e) x (rbe_color e) (rbe_key e)).
Definition put_color (a : addr) (c : rb_color) : M rb_head unit :=
  rb_write a (fun e => mk_rbe (rbe_left e) (rbe_right e) (rbe_parent e) c (rbe_key e)).
Definition put_root (a : addr) : M rb_head unit := modify (fun m => mk_rb a (rbe m)).

(** [RB_SET] on a node that is not in the tree writes all of its links. *)
Definition RB_SET (elm parent : addr) (key : Z) : M rb_head unit :=
  modify (rb_upd elm (mk_rbe NULL NULL parent RB_RED key)).

Definition RB_SET_BLACKRED (black red : addr) : M rb_head unit :=
  put_color black RB_BLACK ;;; put_color red RB_RED.

(** ** Rotations *)

(** [if (p) RB_PARENT(p) = x]. *)
Definition rb_adopt (p x : addr) : M rb_head unit := when (negb (p =? NULL)) (put_parent p x).

(** The link to [old], in its parent [p] or in the head, is set to [new]. *)
Definition rb_relink (p old new : addr) : M rb_head unit :=
  if negb (p =? NULL) then
    let* l := RB_LEFT p in
    if old =? l then put_left p new else put_right p new
  else put_root new.

Definition RB_ROTATE_LEFT (elm : addr) : M rb_head unit :=
  let* tmp := RB_RIGHT elm in
  let* tl := RB_LEFT tmp in
  put_right elm tl ;;;
  rb_adopt tl elm ;;;
  let* p := RB_PARENT elm in
  put_parent tmp p ;;;
  rb_relink p elm tmp ;;;
  put_left tmp elm ;;;
  put_parent elm tmp.

Definition RB_ROTATE_RIGHT (elm : addr) : M rb_head unit :=
  let* tmp := RB_LEFT elm in
  let* tr := RB_RIGHT tmp in
  put_left elm tr ;;;
  rb_adopt tr elm ;;;
  let* p := RB_PARENT elm in
  put_parent tmp p ;;;
  rb_relink p elm tmp ;;;
  put_right tmp elm ;;;
  put_parent elm tmp.

(** ** Insertion *)

(** [p && RB_COLOR(p) == RB_RED]. *)
Definition rb_is_red (p : addr) : M rb_head bool :=
  if p =? NULL then ret false
  else let* c := RB_COLOR p in ret (bool_decide (c = RB_RED)).

Fixpoint RB_INSERT_COLOR (fuel : nat) (elm : addr) : M rb_head unit :=
  match fuel with
  | O => throw FFuel
  | S fuel' =>
      let* parent := RB_PARENT elm in
      let* red := rb_is_red parent in
      if negb red then let* root := RB_ROOT in put_color root RB_BLACK
      else
        let* gparent := RB_PARENT parent in
        let* gl := RB_LEFT gparent in
        if parent =? gl then
          let* tmp := RB_RIGHT gparent in
          let* tred := rb_is_red tmp in
          if tred : bool then
            put_color tmp RB_BLACK ;;;
            RB_SET_BLACKRED parent gparent ;;;
            RB_INSERT_COLOR fuel' gparent
          else
            let* pr := RB_RIGHT parent in
            (if pr =? elm then
               RB_ROTATE_LEFT parent ;;;
               RB_SET_BLACKRED elm gparent ;;;
               RB_ROTATE_RIGHT gparent ;;;
               RB_INSERT_COLOR fuel' parent
             else
               RB_SET_BLACKRED parent gparent ;;;
               RB_ROTATE_RIGHT gparent ;;;
               RB_INSERT_COLOR fuel' elm)
        else
          let* tmp := RB_LEFT gparent in
          let* tred := rb_is_red tmp in
          if tred : bool then
            put_color tmp RB_BLACK ;;;
            RB_SET_BLACKRED parent gparent ;;;
            RB_INSERT_COLOR fuel' gparent
          else
            let* pl := RB_LEFT parent in
            (if pl =? elm then
               RB_ROTATE_RIGHT parent ;;;
               RB_SET_BLACKRED elm gparent ;;;
               RB_ROTATE_LEFT gparent ;;;
               RB_INSERT_COLOR fuel' parent
             else
               RB_SET_BLACKRED parent gparent ;;;
               RB_ROTATE_LEFT gparent ;;;
               RB_INSERT_COLOR fuel' elm)
  end.

Definition coroutine_sleep_cmp (k1 k2 : Z) : Z := if k1 <? k2 then -1 else if k1 =? k2 then 0 else 1.

(** The search loop of [RB_INSERT]: the node with the same key, or the parent
    of the new node with the result of the last comparison. *)
Fixpoint rb_insert_pos (fuel : nat) (key : Z) (tmp parent : addr) (comp : Z)
  : M rb_head (addr + addr * Z) :=
  match fuel with
  | O => throw FFuel
  | S fuel' =>
      if tmp =? NULL then ret (inr (parent, comp))
      else
        let* k := rb_read rbe_key tmp in
        let comp := coroutine_sleep_cmp key k in
        if comp <? 0 then let* l := RB_LEFT tmp in rb_insert_pos fuel' key l tmp comp
        else if 0 <? comp then let* r := RB_RIGHT tmp in rb_insert_pos fuel' key r tmp comp
        else ret (inl tmp)
  end.

(** Null after an insertion, the node with the same key otherwise. *)
Definition RB_INSERT (elm : addr) (key : Z) : M rb_head addr :=
  let* m := get_st in
  let fuel := S (size (rbe m)) in
  let* pos := rb_insert_pos fuel key (rbh_root m) NULL 0 in
  match pos with
  | inl tmp => ret tmp
  | inr (parent, comp) =>
      RB_SET elm parent key ;;;
      (if negb (parent =? NULL) then
         (if comp <? 0 then put_left parent elm else put_right parent elm)
       else put_root elm) ;;;
      RB_INSERT_COLOR (S fuel) elm ;;;
      ret NULL
  end.

(** ** Removal *)

(** [p == NULL || RB_COLOR(p) == RB_BLACK]. *)
Definition rb_is_black (p : addr) : M rb_head bool :=
  if p =? NULL then ret true
  else let* c := RB_COLOR p in ret (bool_decide (c = RB_BLACK)).

(** The last turn of the loop of [RB_REMOVE_COLOR] for a left child of
    [parent], whose sibling [tmp] has a red right child; the color of the root is the
    statement after the loop. *)
Definition rb_last_left (parent tmp : addr) : M rb_head unit :=
  let* pc := RB_COLOR parent in
  put_color tmp pc ;;;
  put_color parent RB_BLACK ;;;
  let* r := RB_RIGHT tmp in
  when (negb (r =? NULL)) (put_color r RB_BLACK) ;;;
  RB_ROTATE_LEFT parent ;;;
  let* root := RB_ROOT in
  when (negb (root =? NULL)) (put_color root RB_BLACK).

(** The loop body of [RB_REMOVE_COLOR] for a left child [elm] of [parent], from
    the point where the sibling [tmp] is black; [again] is the next turn of the
    loop. *)
Definition rb_fix_left (again : addr -> addr -> M rb_head unit) (parent tmp : addr) : M rb_head unit :=
  let* l := RB_LEFT tmp in
  let* r := RB_RIGHT tmp in
  let* bl := rb_is_black l in
  let* br := rb_is_black r in
  if bl && br then
    put_color tmp RB_RED ;;;
    let* gp := RB_PARENT parent in
    again gp parent
  else
    let* tmp := (if br : bool then
                   when (negb (l =? NULL)) (put_color l RB_BLACK) ;;;
                   put_color tmp RB_RED ;;;
                   RB_ROTATE_RIGHT tmp ;;;
                   RB_RIGHT parent
                 else ret tmp) in
    rb_last_left parent tmp.

(** The last turn of the loop of [RB_REMOVE_COLOR] for a right child of
    [parent], whose sibling [tmp] has a red left child; the color of the root is the
    statement after the loop. *)
Definition rb_last_right (parent tmp : addr) : M rb_head unit :=
  let* pc := RB_COLOR parent in
  put_color tmp pc ;;;
  put_color parent RB_BLACK ;;;
  let* l := RB_LEFT tmp in
  when (negb (l =? NULL)) (put_color l RB_BLACK) ;;;
  RB_ROTATE_RIGHT parent ;;;
  let* root := RB_ROOT in
  when (negb (root =? NULL)) (put_color root RB_BLACK).

(** The same for a right child. *)
Definition rb_fix_right (again : addr -> addr -> M rb_head unit) (parent tmp : addr) : M rb_head unit :=
  let* l := RB_LEFT tmp in
  let* r := RB_RIGHT tmp in
  let* bl := rb_is_black l in
  let* br := rb_is_black r in
  if bl && br then
    put_color tmp RB_RED ;;;
    let* gp := RB_PARENT parent in
    again gp parent
  else
    let* tmp := (if bl : bool then
                   when (negb (r =? NULL)) (put_color r RB_BLACK) ;;;
                   put_color tmp RB_RED ;;;
                   RB_ROTATE_LEFT tmp ;;;
                   RB_LEFT parent
                 else ret tmp) in
    rb_last_right parent tmp.

Fixpoint RB_REMOVE_COLOR (fuel : nat) (parent elm : addr) : M rb_head unit :=
  match fuel with
  | O => throw FFuel
  | S fuel' =>
      let* black := rb_is_black elm in
      let* root := RB_ROOT in
      if black && negb (elm =? root) then
        let* pl := RB_LEFT parent in
        if pl =? elm then
          let* tmp := RB_RIGHT parent in
          let* c := RB_COLOR tmp in
          if bool_decide (c = RB_RED) then
            RB_SET_BLACKRED tmp parent ;;;
            RB_ROTATE_LEFT parent ;;;
            let* tmp := RB_RIGHT parent in
            rb_fix_left (RB_REMOVE_COLOR fuel') parent tmp
          else rb_fix_left (RB_REMOVE_COLOR fuel') parent tmp
        else
          let* tmp := RB_LEFT parent in
          let* c := RB_COLOR tmp in
          if bool_decide (c = RB_RED) then
            RB_SET_BLACKRED tmp parent ;;;
            RB_ROTATE_RIGHT parent ;;;
            let* tmp := RB_LEFT parent in
            rb_fix_right (RB_REMOVE_COLOR fuel') parent tmp
          else rb_fix_right (RB_REMOVE_COLOR fuel') parent tmp
      else when (negb (elm =? NULL)) (put_color elm RB_BLACK)
  end.

Fixpoint rb_leftmost (fuel : nat) (elm : addr) : M rb_head addr :=
  match fuel with
  | O => throw FFuel
  | S fuel' =>
      let* l := RB_LEFT elm in
      if l =? NULL then ret elm else rb_leftmost fuel' l
  end.

(** [elm], which has at most the child [child], is taken out of the tree; its
    parent and its color are returned. *)
Definition rb_unlink (elm child : addr) : M rb_head (addr * rb_color) :=
  let* parent := RB_PARENT elm in
  let* color := RB_COLOR elm in
  rb_adopt child parent ;;;
  rb_relink parent elm child ;;;
  ret (parent, color).

(** [(elm)->field = (old)->field] and the links to [old]. *)
Definition rb_replace (old elm : addr) : M rb_head unit :=
  let* o := rb_read id old in
  rb_write elm (fun e => mk_rbe (rbe_left o) (rbe_right o) (rbe_parent o) (rbe_color o) (rbe_key e)) ;;;
  let* p := RB_PARENT old in
  rb_relink p old elm ;;;
  let* l := RB_LEFT old in
  put_parent l elm ;;;
  let* r := RB_RIGHT old in
  rb_adopt r elm.

(** [RB_REMOVE] up to the label [color]: the parent and the child at the place
    where the node was taken out, and its color. *)
Definition rb_take_out (fuel : nat) (old : addr) : M rb_head (addr * rb_color * addr) :=
  let* l := RB_LEFT old in
  let* r := RB_RIGHT old in
  if l =? NULL then let* (parent, color) := rb_unlink old r in ret (parent, color, r)
  else if r =? NULL then let* (parent, color) := rb_unlink old l in ret (parent, color, l)
  else
    let* elm := rb_leftmost fuel r in
    let* child := RB_RIGHT elm in
    let* (parent, color) := rb_unlink elm child in
    let* ep := RB_PARENT elm in
    rb_replace old elm ;;;
    ret (if ep =? old then elm else parent, color, child).

Definition RB_REMOVE (old : addr) : M rb_head unit :=
  let* m := get_st in
  let fuel := S (size (rbe m)) in
  let* (parent, color, child) := rb_take_out fuel old in
  when (bool_decide (color = RB_BLACK)) (RB_REMOVE_COLOR fuel parent child).

(** ** Searching *)

Fixpoint rb_find_loop (fuel : nat) (key : Z) (tmp : addr) : M rb_head addr :=
  match fuel with
  | O => throw FFuel
  | S fuel' =>
      if tmp =? NULL then ret NULL
      else
        let* k := rb_read rbe_key tmp in
        let comp := coroutine_sleep_cmp key k in
        if comp <? 0 then let* l := RB_LEFT tmp in rb_find_loop fuel' key l
        else if 0 <? comp then let* r := RB_RIGHT tmp in rb_find_loop fuel' key r
        else ret tmp
  end.

Definition RB_FIND (key : Z) : M rb_head addr :=
  let* m := get_st in rb_find_loop (S (size (rbe m))) key (rbh_root m).

(** [RB_MINMAX] with a negative [val]. *)
Fixpoint rb_min_loop (fuel : nat) (tmp parent : addr) : M rb_head addr :=
  match fuel with
  | O => throw FFuel
  | S fuel' =>
      if tmp =? NULL then ret parent
      else let* l := RB_LEFT tmp in rb_min_loop fuel' l tmp
  end.

Definition RB_MIN : M rb_head addr :=
  let* m := get_st in rb_min_loop (S (size (rbe m))) (rbh_root m) NULL.

(** * Functional trees *)

Inductive tree := Lf | Nd (c : rb_color) (l : tree) (a : addr) (k : Z) (r : tree).

(** The place of a subtree: the frames from its parent to the root. *)
Inductive frame :=
  | FL (c : rb_color) (a : addr) (k : Z) (r : tree)
  | FR (c : rb_color) (l : tree) (a : addr) (k : Z).

Definition ptr (t : tree) : addr := match t with Lf => NULL | Nd _ _ a _ _ => a end.
Definition frame_ptr (f : frame) : addr := match f with FL _ a _ _ | FR _ _ a _ => a end.
Definition cptr (C : list frame) : addr := match C with [] => NULL | f :: _ => frame_ptr f end.
Fixpoint croot (C : list frame) (p : addr) : addr :=
  match C with [] => p | f :: C' => croot C' (frame_ptr f) end.

Definition plug1 (f : frame) (t : tree) : tree :=
  match f with FL c a k r => Nd c t a k r | FR c l a k => Nd c l a k t end.
Fixpoint plug (C : list frame) (t : tree) : tree :=
  match C with [] => t | f :: C' => plug C' (plug1 f t) end.

(** The entries of the memory that a tree below [par] and a context around a
    subtree at [p] stand for. *)
Fixpoint cells (par : addr) (t : tree) : list (addr * rb_entry) :=
  match t with
  | Lf => []
  | Nd c l a k r => (a, mk_rbe (ptr l) (ptr r) par c k) :: cells a l ++ cells a r
  end.
Fixpoint ccells (C : list frame) (p : addr) : list (addr * rb_entry) :=
  match C with
  | [] => []
  | FL c a k r :: C' => (a, mk_rbe p (ptr r) (cptr C') c k) :: cells a r ++ ccells C' a
  | FR c l a k :: C' => (a, mk_rbe (ptr l) p (cptr C') c k) :: cells a l ++ ccells C' a
  end.

Record holds (m : rb_head) (L : list (addr * rb_entry)) : Prop := {
  holds_cell a e : (a, e) ∈ L -> rbe m !! a = Some e;
  holds_nodup : NoDup L.*1;
  holds_null : NULL ∉ L.*1
}.

(** The memory holds the tree [plug C t], seen at the subtree [t]. *)
Definition zrep (m : rb_head) (C : list frame) (t : tree) : Prop :=
  holds m (ccells C (ptr t) ++ cells (cptr C) t) /\ rbh_root m = croot C (ptr t).

(** ** Reading and writing cells *)

Section memory.
Implicit Types (m : rb_head) (L R : list (addr * rb_entry)) (C : list frame) (t l r : tree).

Lemma holds_perm m L L' : holds m L -> L ≡ₚ L' -> holds m L'.
Proof.
  intros [Hc Hn H0] HP. split.
  - intros a e. rewrite <- HP. apply Hc.
  - by rewrite <- HP.
  - by rewrite <- HP.
Qed.

Lemma rb_read_run {A} (f : rb_entry -> A) a e m L :
  holds m L -> (a, e) ∈ L -> rb_read f a m = Ok (f e, m).
Proof. intros H Ha. unfold rb_read. by rewrite (holds_cell _ _ H a e Ha). Qed.

Lemma holds_upd a e e' m R :
  holds m ((a, e) :: R) -> holds (rb_upd a e' m) ((a, e') :: R).
Proof.
  intros [Hc Hn H0]. apply NoDup_cons in Hn as [Ha Hn]. split; [|by apply NoDup_cons|done].
  intros b x [[= -> ->]|Hb]%elem_of_cons; simpl; [apply lookup_insert_eq|].
  rewrite lookup_insert_ne; [apply Hc; by right|].
  intros ->. apply Ha. by apply (list_elem_of_fmap_2 fst) in Hb.
Qed.

Lemma rb_write_run g a e m R :
  holds m ((a, e) :: R) ->
  exists m', rb_write a g m = Ok (tt, m') /\ holds m' ((a, g e) :: R) /\ rbh_root m' = rbh_root m.
Proof.
  intros H. eexists. split; [|split; [by eapply holds_upd|done]]. unfold rb_write.
  by rewrite (holds_cell _ _ H a e) by left.
Qed.

Lemma holds_root x m L : holds m L -> holds (mk_rb x (rbe m)) L.
Proof. by intros []. Qed.

Lemma holds_app_l m L R : holds m (L ++ R) -> holds m R.
Proof.
  intros [Hc Hn H0]. rewrite fmap_app in Hn, H0. apply NoDup_app in Hn as (_ & _ & Hn). split; [|done|].
  - intros a e Ha. apply Hc, elem_of_app. by right.
  - intros Ha. apply H0, elem_of_app. by right.
Qed.

(** A cell that is held is not at the null address. *)
Lemma holds_not_null m L a e : holds m L -> (a, e) ∈ L -> (a =? NULL) = false.
Proof.
  intros H Ha. apply Z.eqb_neq. intros ->. apply (holds_null _ _ H).
  by apply (list_elem_of_fmap_2 fst) in Ha.
Qed.

Lemma holds_ne m L R a e b e' :
  holds m (L ++ R) -> (a, e) ∈ L -> (b, e') ∈ R -> (a =? b) = false.
Proof.
  intros [_ Hn _] Ha Hb. rewrite fmap_app in Hn. apply NoDup_app in Hn as (_ & Hd & _).
  apply Z.eqb_neq. intros ->. apply (list_elem_of_fmap_2 fst) in Ha, Hb. by eapply Hd.
Qed.

(** [if (p) RB_PARENT(p) = x] on the root of a subtree. *)
Lemma rb_adopt_run m t p x R :
  holds m (cells p t ++ R) ->
  exists m', rb_adopt (ptr t) x m = Ok (tt, m') /\ holds m' (cells x t ++ R) /\ rbh_root m' = rbh_root m.
Proof.
  intros H. unfold rb_adopt. destruct t as [|c l a k r]; [by exists m|]. cbn [ptr cells app] in *.
  rewrite (holds_not_null _ _ _ _ H (list_elem_of_here _ _)). simpl.
  destruct (rb_write_run (fun e => mk_rbe (rbe_left e) (rbe_right e) x (rbe_color e) (rbe_key e)) _ _ _ _ H)
    as (m' & Hw & H' & Hr'). exists m'. split_and!; [done..|by rewrite Hr'].
Qed.

(** The link to a subtree is redirected. *)
Lemma rb_relink_run m C old new e R :
  holds m (ccells C old ++ R) -> (old, e) ∈ R -> rbh_root m = croot C old ->
  exists m', rb_relink (cptr C) old new m = Ok (tt, m') /\ holds m' (ccells C new ++ R) /\
    rbh_root m' = croot C new.
Proof.
  intros H Ho Hr. unfold rb_relink. destruct C as [|[c a k r|c l a k] C].
  - eexists. split; [reflexivity|]. split; [by apply holds_root|done].
  - cbn [cptr frame_ptr ccells app] in *. rewrite (holds_not_null _ _ _ _ H (list_elem_of_here _ _)). simpl.
    unfold RB_LEFT. rewrite (bind_ok _ _ _ _ _ (rb_read_run rbe_left _ _ _ _ H (list_elem_of_here _ _))).
    simpl. rewrite Z.eqb_refl.
    destruct (rb_write_run (fun e => mk_rbe new (rbe_right e) (rbe_parent e) (rbe_color e) (rbe_key e)) _ _ _ _ H)
      as (m' & Hw & H' & Hr'). exists m'. split_and!; [done..|by rewrite Hr'].
  - cbn [cptr frame_ptr ccells app] in *. rewrite (holds_not_null _ _ _ _ H (list_elem_of_here _ _)). simpl.
    unfold RB_LEFT. rewrite (bind_ok _ _ _ _ _ (rb_read_run rbe_left _ _ _ _ H (list_elem_of_here _ _))).
    simpl. assert ((old =? ptr l) = false) as ->.
    { destruct l as [|cl ll al kl rl]; simpl.
      - eapply holds_not_null; [exact H|]. right. rewrite !elem_of_app. by right.
      - rewrite Z.eqb_sym. eapply (holds_ne _ _ R); [|left|exact Ho].
        apply (holds_app_l _ [(a, mk_rbe al old (cptr C) c k)]). simpl in H. exact H. }
    destruct (rb_write_run (fun e => mk_rbe (rbe_left e) new (rbe_parent e) (rbe_color e) (rbe_key e)) _ _ _ _ H)
      as (m' & Hw & H' & Hr'). exists m'. split_and!; [done..|by rewrite Hr'].
Qed.

End memory.

(** Permutations of cell lists, by rotating the right-hand side until its head
    cancels. *)
Ltac perm_norm := cbn [app ccells cells cptr frame_ptr ptr]; rewrite <- ?app_assoc; cbn [app]; rewrite ?app_nil_r.
Ltac perm_step :=
  match goal with
  | |- ?l ≡ₚ ?l => reflexivity
  | |- ?x :: _ ≡ₚ ?x :: _ => apply perm_skip
  | |- ?x ++ _ ≡ₚ ?x ++ _ => apply Permutation_app_head
  | |- _ ≡ₚ ?x :: ?r => transitivity (r ++ [x]); [|symmetry; apply Permutation_cons_append]
  | |- _ ≡ₚ ?x ++ ?r => transitivity (r ++ x); [|apply Permutation_app_comm]
  end; perm_norm.
Ltac perm := solve [perm_norm; do 80 (try perm_step)].

(** Membership in a list of cells some of which are explicit. *)
Ltac in_cells :=
  cbn [ccells cells cptr frame_ptr ptr app];
  solve [repeat first [apply list_elem_of_here | apply list_elem_of_further
    | apply elem_of_app; first [left; solve [in_cells] | right]]].

(** One step of a program on a memory whose cells are [H]. *)
Ltac rb_rd H := erewrite bind_ok; [|eapply (rb_read_run _ _ _ _ _ H); in_cells]; cbv beta iota;
  cbn [rbe_left rbe_right rbe_parent rbe_color rbe_key id].
Ltac rb_order H L := eapply holds_perm with (L' := L) in H; [|perm].
Ltac rb_wr H Hr :=
  let m' := fresh "m" in let Hw := fresh "Hw" in let H' := fresh "H" in let Hr' := fresh "Hr" in
  match type of H with
  | holds ?m ((?a, ?e) :: ?R) =>
      match goal with
      | |- context [rb_write a ?g] => destruct (rb_write_run g a e m R H) as (m' & Hw & H' & Hr')
      end
  end;
  first [rewrite (bind_ok _ _ _ _ _ Hw) | rewrite Hw]; rewrite Hr in Hr'; clear Hw H Hr;
  rename H' into H; rename Hr' into Hr; cbv beta;
  cbn [rbe_left rbe_right rbe_parent rbe_color rbe_key id] in H.
Ltac rb_call H Hr lem :=
  let m' := fresh "m" in let Hw := fresh "Hw" in let H' := fresh "H" in let Hr' := fresh "Hr" in
  destruct lem as (m' & Hw & H' & Hr'); first [rewrite (bind_ok _ _ _ _ _ Hw) | rewrite Hw];
  try rewrite Hr in Hr'; clear Hw H Hr; rename H' into H; rename Hr' into Hr; cbv beta.

Section rotations.
Implicit Types (m : rb_head) (C : list frame).

Lemma rotate_left_run m C c1 ta e k1 c2 tb t k2 tc :
  zrep m C (Nd c1 ta e k1 (Nd c2 tb t k2 tc)) ->
  exists m', RB_ROTATE_LEFT e m = Ok (tt, m') /\ zrep m' C (Nd c2 (Nd c1 ta e k1 tb) t k2 tc).
Proof.
  intros [H Hr]. unfold RB_ROTATE_LEFT, RB_RIGHT, RB_LEFT, RB_PARENT, put_left, put_right, put_parent.
  rb_rd H. rb_rd H. cbn [ptr cells] in H, Hr.
  rb_order H ((e, mk_rbe (ptr ta) t (cptr C) c1 k1) :: cells t tb ++
    (t, mk_rbe (ptr tb) (ptr tc) e c2 k2) :: cells t tc ++ cells e ta ++ ccells C e).
  rb_wr H Hr. 
  rb_order H (cells t tb ++ (e, mk_rbe (ptr ta) (ptr tb) (cptr C) c1 k1) ::
    (t, mk_rbe (ptr tb) (ptr tc) e c2 k2) :: cells t tc ++ cells e ta ++ ccells C e).
  rb_call H Hr (rb_adopt_run _ _ _ e _ H). rb_rd H.
  rb_order H ((t, mk_rbe (ptr tb) (ptr tc) e c2 k2) :: cells e tb ++
    (e, mk_rbe (ptr ta) (ptr tb) (cptr C) c1 k1) :: cells t tc ++ cells e ta ++ ccells C e).
  rb_wr H Hr.
  rb_order H (ccells C e ++ (t, mk_rbe (ptr tb) (ptr tc) (cptr C) c2 k2) :: cells e tb ++
    (e, mk_rbe (ptr ta) (ptr tb) (cptr C) c1 k1) :: cells t tc ++ cells e ta).
  rb_call H Hr (rb_relink_run _ _ e t (mk_rbe (ptr ta) (ptr tb) (cptr C) c1 k1) _ H ltac:(in_cells) Hr).
  rb_order H ((t, mk_rbe (ptr tb) (ptr tc) (cptr C) c2 k2) :: ccells C t ++ cells e tb ++
    (e, mk_rbe (ptr ta) (ptr tb) (cptr C) c1 k1) :: cells t tc ++ cells e ta).
  rb_wr H Hr.
  rb_order H ((e, mk_rbe (ptr ta) (ptr tb) (cptr C) c1 k1) ::
    (t, mk_rbe e (ptr tc) (cptr C) c2 k2) :: ccells C t ++ cells e tb ++ cells t tc ++ cells e ta).
  rb_wr H Hr. eexists. split; [reflexivity|]. split; [|done]. eapply holds_perm; [exact H|]. perm.
Qed.

Lemma rotate_right_run m C c1 ta e k1 c2 tb t k2 tc :
  zrep m C (Nd c1 (Nd c2 tc t k2 tb) e k1 ta) ->
  exists m', RB_ROTATE_RIGHT e m = Ok (tt, m') /\ zrep m' C (Nd c2 tc t k2 (Nd c1 tb e k1 ta)).
Proof.
  intros [H Hr]. unfold RB_ROTATE_RIGHT, RB_RIGHT, RB_LEFT, RB_PARENT, put_left, put_right, put_parent.
  rb_rd H. rb_rd H. cbn [ptr cells] in H, Hr.
  rb_order H ((e, mk_rbe t (ptr ta) (cptr C) c1 k1) :: cells t tb ++
    (t, mk_rbe (ptr tc) (ptr tb) e c2 k2) :: cells t tc ++ cells e ta ++ ccells C e).
  rb_wr H Hr. 
  rb_order H (cells t tb ++ (e, mk_rbe (ptr tb) (ptr ta) (cptr C) c1 k1) ::
    (t, mk_rbe (ptr tc) (ptr tb) e c2 k2) :: cells t tc ++ cells e ta ++ ccells C e).
  rb_call H Hr (rb_adopt_run _ _ _ e _ H). rb_rd H.
  rb_order H ((t, mk_rbe (ptr tc) (ptr tb) e c2 k2) :: cells e tb ++
    (e, mk_rbe (ptr tb) (ptr ta) (cptr C) c1 k1) :: cells t tc ++ cells e ta ++ ccells C e).
  rb_wr H Hr.
  rb_order H (ccells C e ++ (t, mk_rbe (ptr tc) (ptr tb) (cptr C) c2 k2) :: cells e tb ++
    (e, mk_rbe (ptr tb) (ptr ta) (cptr C) c1 k1) :: cells t tc ++ cells e ta).
  rb_call H Hr (rb_relink_run _ _ e t (mk_rbe (ptr tb) (ptr ta) (cptr C) c1 k1) _ H ltac:(in_cells) Hr).
  rb_order H ((t, mk_rbe (ptr tc) (ptr tb) (cptr C) c2 k2) :: ccells C t ++ cells e tb ++
    (e, mk_rbe (ptr tb) (ptr ta) (cptr C) c1 k1) :: cells t tc ++ cells e ta).
  rb_wr H Hr.
  rb_order H ((e, mk_rbe (ptr tb) (ptr ta) (cptr C) c1 k1) ::
    (t, mk_rbe (ptr tc) e (cptr C) c2 k2) :: ccells C t ++ cells e tb ++ cells t tc ++ cells e ta).
  rb_wr H Hr. eexists. split; [reflexivity|]. split; [|done]. eapply holds_perm; [exact H|]. perm.
Qed.

End rotations.

(** ** Positions *)

Section positions.
Implicit Types (m : rb_head) (C : list frame) (t l r : tree) (f : frame).

Lemma zrep_frame m f C t : zrep m (f :: C) t <-> zrep m C (plug1 f t).
Proof.
  unfold zrep. destruct f; simpl; (split; (intros [H Hr]; split; [|done]; eapply holds_perm; [exact H|]; perm)).
Qed.

Lemma zrep_plug m C t : zrep m C t <-> zrep m [] (plug C t).
Proof. revert t. induction C as [|f C IH]; intros t; [done|]. by rewrite zrep_frame, IH. Qed.

Lemma zrep_put_color m C c l a k r c' :
  zrep m C (Nd c l a k r) -> exists m', put_color a c' m = Ok (tt, m') /\ zrep m' C (Nd c' l a k r).
Proof.
  intros [H Hr]. unfold put_color. cbn [ptr cells] in *.
  rb_order H ((a, mk_rbe (ptr l) (ptr r) (cptr C) c k) :: ccells C a ++ cells a l ++ cells a r).
  rb_wr H Hr. eexists. split; [reflexivity|]. split; [|done]. eapply holds_perm; [exact H|]. perm.
Qed.

(** A node is not at the address of a subtree it is apart from. *)
Lemma holds_ptr_ne m L a e b t R :
  holds m L -> L ≡ₚ (a, e) :: cells b t ++ R -> (a =? ptr t) = false.
Proof.
  intros H HP. eapply holds_perm in H; [|exact HP]. destruct t as [|c l a' k r].
  - eapply holds_not_null; [exact H|left].
  - eapply (holds_ne _ [(a, e)]); [exact H|left|left].
Qed.

(** Taking a node with at most one child out of the tree. *)
Lemma rb_unlink_run m C c l a k r t :
  zrep m C (Nd c l a k r) -> (l = Lf /\ t = r) \/ (r = Lf /\ t = l) ->
  exists m', rb_unlink a (ptr t) m = Ok ((cptr C, c), m') /\
    holds m' ((a, mk_rbe (ptr l) (ptr r) (cptr C) c k) :: ccells C (ptr t) ++ cells (cptr C) t) /\
    rbh_root m' = croot C (ptr t).
Proof.
  intros [H Hr] Ht. unfold rb_unlink, RB_PARENT, RB_COLOR. rb_rd H. rb_rd H. cbn [ptr cells] in H, Hr.
  set (e := mk_rbe (ptr l) (ptr r) (cptr C) c k) in *.
  assert (Hp : cells a l ++ cells a r ≡ₚ cells a t) by (destruct Ht as [[-> ->]|[-> ->]]; perm).
  eapply holds_perm in H; [|by rewrite Hp].
  rb_order H (cells a t ++ (a, e) :: ccells C a).
  rb_call H Hr (rb_adopt_run _ _ _ (cptr C) _ H).
  rb_order H (ccells C a ++ (a, e) :: cells (cptr C) t).
  rb_call H Hr (rb_relink_run _ _ a (ptr t) e _ H ltac:(in_cells) Hr).
  eexists. split; [reflexivity|]. split; [|done]. eapply holds_perm; [exact H|]. perm.
Qed.

(** Putting a node outside of the tree in the place of another. *)
Lemma rb_replace_run m C c l old k r elm e :
  holds m ((elm, e) :: ccells C old ++ cells (cptr C) (Nd c l old k r)) -> rbh_root m = croot C old ->
  l <> Lf -> exists m', rb_replace old elm m = Ok (tt, m') /\ zrep m' C (Nd c l elm (rbe_key e) r).
Proof.
  intros H Hr Hl. destruct l as [|cl ll al kl rl]; [done|]. unfold rb_replace, RB_PARENT, RB_LEFT, RB_RIGHT.
  rb_rd H. rb_wr H Hr. rb_rd H. cbn [ptr cells] in H.
  set (o := mk_rbe al (ptr r) (cptr C) c k) in *. set (e' := mk_rbe al (ptr r) (cptr C) c (rbe_key e)) in *.
  rb_order H (ccells C old ++ (elm, e') :: (old, o) :: cells old (Nd cl ll al kl rl) ++ cells old r).
  rb_call H Hr (rb_relink_run _ _ old elm o _ H ltac:(in_cells) Hr).
  unfold o in H. rb_rd H. fold o in H. unfold put_parent. cbn [cells] in H.
  rb_order H ((al, mk_rbe (ptr ll) (ptr rl) old cl kl) :: (old, o) :: ccells C elm ++ (elm, e') ::
    cells al ll ++ cells al rl ++ cells old r).
  rb_wr H Hr. unfold o in H. rb_rd H. fold o in H.
  rb_order H (cells old r ++ (al, mk_rbe (ptr ll) (ptr rl) elm cl kl) :: (old, o) :: ccells C elm ++
    (elm, e') :: cells al ll ++ cells al rl).
  rb_call H Hr (rb_adopt_run _ _ _ elm _ H). eexists. split; [reflexivity|]. split; [|done].
  apply (holds_app_l _ [(old, o)]). eapply holds_perm; [exact H|]. unfold e'. perm.
Qed.

End positions.

(** * Balance and order *)

Definition color (t : tree) : rb_color := match t with Lf => RB_BLACK | Nd c _ _ _ _ => c end.
Definition weight (c : rb_color) : nat := match c with RB_BLACK => 1 | RB_RED => 0 end.
Fixpoint bh (t : tree) : nat := match t with Lf => 0 | Nd c l _ _ _ => weight c + bh l end.

Definition blacken (t : tree) : tree := match t with Lf => Lf | Nd _ l a k r => Nd RB_BLACK l a k r end.

(** Every path from a node to a leaf has the same number of black nodes. *)
Fixpoint bal (t : tree) : Prop :=
  match t with Lf => True | Nd _ l _ _ r => bal l /\ bal r /\ bh l = bh r end.
(** No red node has a red child. *)
Fixpoint nrr (t : tree) : Prop :=
  match t with
  | Lf => True
  | Nd c l _ _ r => nrr l /\ nrr r /\ (c = RB_RED -> color l = RB_BLACK /\ color r = RB_BLACK)
  end.

Record rb_ok (t : tree) : Prop := { ok_bal : bal t; ok_nrr : nrr t; ok_root : color t = RB_BLACK }.

Definition fcolor (f : frame) : rb_color := match f with FL c _ _ _ | FR c _ _ _ => c end.
Definition fsib (f : frame) : tree := match f with FL _ _ _ t | FR _ t _ _ => t end.

(** The same for the context of a subtree with [n] black nodes on its paths. *)
Fixpoint cbal (C : list frame) (n : nat) : Prop :=
  match C with
  | [] => True
  | f :: C' => bal (fsib f) /\ bh (fsib f) = n /\ cbal C' (weight (fcolor f) + n)
  end.
(** A subtree of color [c] fits below a context. *)
Definition fits (c : rb_color) (C : list frame) : Prop :=
  c = RB_RED -> match C with [] => False | f :: _ => fcolor f = RB_BLACK end.
Fixpoint cnrr (C : list frame) : Prop :=
  match C with
  | [] => True
  | f :: C' => nrr (fsib f) /\ (fcolor f = RB_RED -> color (fsib f) = RB_BLACK) /\
               fits (fcolor f) C' /\ cnrr C'
  end.

Fixpoint inorder (t : tree) : list (Z * addr) :=
  match t with Lf => [] | Nd _ l a k r => inorder l ++ (k, a) :: inorder r end.
Fixpoint before (C : list frame) : list (Z * addr) :=
  match C with
  | [] => []
  | FL _ _ _ _ :: C' => before C'
  | FR _ l a k :: C' => before C' ++ inorder l ++ [(k, a)]
  end.
Fixpoint after (C : list frame) : list (Z * addr) :=
  match C with
  | [] => []
  | FL _ a k r :: C' => (k, a) :: inorder r ++ after C'
  | FR _ _ _ _ :: C' => after C'
  end.

Section balance.
Implicit Types (m : rb_head) (C : list frame) (t l r : tree) (f : frame).

Lemma inorder_plug C t : inorder (plug C t) = before C ++ inorder t ++ after C.
Proof.
  revert t. induction C as [|[c a k r|c l a k] C IH]; intros t; simpl; [by rewrite app_nil_r|..];
    rewrite IH; simpl; by rewrite <- !app_assoc.
Qed.

Lemma rb_ok_plug C t :
  rb_ok (plug C t) <-> bal t /\ nrr t /\ cbal C (bh t) /\ cnrr C /\ fits (color t) C.
Proof.
  revert t. induction C as [|f C IH]; intros t; simpl.
  - split.
    + intros [? ? Hc]. split_and!; try done. unfold fits. by rewrite Hc.
    + intros (? & ? & _ & _ & Hf). split; [done..|]. destruct (color t); [done|by destruct Hf].
  - rewrite IH. destruct f; simpl; unfold fits;
      (split; [intros ((Hb1 & Hb2 & Hbh) & (Hn1 & Hn2 & Hr) & Hcb & Hcn & Hf)
              |intros (Hb & Hn & (Hb1 & Hbh & Hcb) & (Hn1 & Hr1 & Hf1 & Hcn) & Hf)]);
      (split_and!; try done; try congruence).
    all: try (intros Hc; by destruct (Hr Hc)).
    all: try (intros Hct; destruct c; [done|]; destruct (Hr eq_refl); congruence).
    all: try (intros Hc; destruct (color t) eqn:Hct; [by auto|]; specialize (Hf eq_refl); simpl in Hf; congruence).
    all: try (by rewrite Hbh). all: try (by rewrite <- Hbh).
Qed.

Lemma blacken_ok t : bal t -> nrr (blacken t) -> rb_ok (blacken t).
Proof. by destruct t. Qed.
Lemma blacken_id t : color t = RB_BLACK -> blacken t = t.
Proof. destruct t as [|c]; [done|]. by intros [= ->]. Qed.
Lemma nrr_blacken t : nrr t -> nrr (blacken t).
Proof. destruct t as [|c]; [done|]. intros (? & ? & _). done. Qed.
Lemma inorder_blacken t : inorder (blacken t) = inorder t.
Proof. by destruct t. Qed.

(** The last statement of both recolorings. *)
Lemma blacken_root_run m t :
  zrep m [] t -> exists m', when (negb (rbh_root m =? NULL)) (put_color (rbh_root m) RB_BLACK) m = Ok (tt, m') /\
    zrep m' [] (blacken t).
Proof.
  intros Z. pose proof Z as [H Hr]. rewrite Hr. destruct t as [|c l a k r]; simpl; [by exists m|].
  rewrite (holds_not_null _ _ _ _ H) by in_cells. simpl. by eapply zrep_put_color.
Qed.

End balance.

(** ** Recoloring after an insertion *)

Ltac refocus Z C t :=
  match type of Z with
  | zrep ?m _ _ => apply zrep_plug in Z; apply (proj2 (zrep_plug m C t)) in Z
  end.
Ltac zcall Z lem :=
  let m' := fresh "m" in let Hw := fresh "Hw" in let Z' := fresh "Z" in
  destruct lem as (m' & Hw & Z'); first [rewrite (bind_ok _ _ _ _ _ Hw) | rewrite Hw];
  clear Hw Z; rename Z' into Z; cbv beta.
Ltac zrd Z := rb_rd (proj1 Z).

Section insertion.
Implicit Types (m : rb_head) (C : list frame) (t l r u : tree) (f : frame).

Lemma rb_is_red_run m L p t R :
  holds m L -> L ≡ₚ cells p t ++ R -> rb_is_red (ptr t) m = Ok (bool_decide (color t = RB_RED), m).
Proof.
  intros H HP. eapply holds_perm in H; [|exact HP]. unfold rb_is_red, RB_COLOR.
  destruct t as [|c l a k r]; [done|]. cbn [ptr]. rewrite (holds_not_null _ _ _ _ H) by in_cells.
  by rb_rd H.
Qed.

Lemma rb_is_red_parent m f C t :
  zrep m (f :: C) t -> rb_is_red (frame_ptr f) m = Ok (bool_decide (fcolor f = RB_RED), m).
Proof.
  intros [H _]. unfold rb_is_red, RB_COLOR.
  destruct f as [c a k r|c l a k]; cbn [frame_ptr]; rewrite (holds_not_null _ _ _ _ H) by in_cells; by rb_rd H.
Qed.

Lemma rb_is_red_sib m f C t :
  zrep m (f :: C) t -> rb_is_red (ptr (fsib f)) m = Ok (bool_decide (color (fsib f) = RB_RED), m).
Proof.
  intros [H _]. destruct f as [c a k r|c l a k]; cbn [fsib ccells] in *; eapply (rb_is_red_run _ _ a _ _ H).
  - instantiate (1 := (a, mk_rbe (ptr t) (ptr r) (cptr C) c k) :: ccells C a ++ cells a t). perm.
  - instantiate (1 := (a, mk_rbe (ptr l) (ptr t) (cptr C) c k) :: ccells C a ++ cells a t). perm.
Qed.

Lemma sib_ptr_ne m f C t :
  zrep m (f :: C) t -> fsib f <> Lf \/ t <> Lf -> (ptr (fsib f) =? ptr t) = false.
Proof.
  intros [H _] Hne. assert (exists a b, holds m (cells a (fsib f) ++ cells b t)) as (a & b & H').
  { destruct f as [c a k r|c l a k]; cbn [fsib ccells] in *; exists a, a;
      [apply (holds_app_l _ ((a, mk_rbe (ptr t) (ptr r) (cptr C) c k) :: ccells C a))
      |apply (holds_app_l _ ((a, mk_rbe (ptr l) (ptr t) (cptr C) c k) :: ccells C a))];
      (eapply holds_perm; [exact H|]; perm). }
  destruct (fsib f) as [|c1 l1 a1 k1 r1], t as [|c2 l2 a2 k2 r2].
  - by destruct Hne.
  - cbn [ptr]. rewrite Z.eqb_sym. eapply holds_not_null; [exact H'|in_cells].
  - cbn [ptr]. eapply holds_not_null; [exact H'|in_cells].
  - eapply holds_ne; [exact H'|left|left].
Qed.

(** The node stands at the root or below a black node. *)
Lemma insert_color_stop fuel m C l a k r :
  zrep m C (Nd RB_RED l a k r) -> bal (Nd RB_RED l a k r) -> nrr (Nd RB_RED l a k r) ->
  cbal C (bh l) -> cnrr C -> C = [] \/ fits RB_RED C ->
  exists m', RB_INSERT_COLOR (S fuel) a m = Ok (tt, m') /\
    zrep m' [] (blacken (plug C (Nd RB_RED l a k r))) /\ rb_ok (blacken (plug C (Nd RB_RED l a k r))).
Proof.
  intros Z Hb Hn Hcb Hcn HC. set (t := Nd RB_RED l a k r) in *. cbn [RB_INSERT_COLOR].
  unfold RB_PARENT at 1. zrd Z.
  assert (rb_is_red (cptr C) m = Ok (false, m)) as Hred.
  { destruct C as [|f C]; [done|]. cbn [cptr]. rewrite (rb_is_red_parent _ _ _ _ Z).
    destruct HC as [?|HC]; [done|]. by rewrite (HC eq_refl). }
  rewrite (bind_ok _ _ _ _ _ Hred). cbv beta. cbn [negb].
  apply zrep_plug in Z. destruct (blacken_root_run _ _ Z) as (m' & Hw & Z').
  assert (Hnn : (rbh_root m =? NULL) = false).
  { rewrite (proj2 Z). destruct (plug C t) as [|c0 l0 a0 k0 r0] eqn:Hp.
    - pose proof (inorder_plug C t) as Hi. rewrite Hp in Hi. unfold t in Hi. simpl in Hi.
      by destruct (before C), (inorder l).
    - simpl. eapply holds_not_null; [exact (proj1 Z)|in_cells]. }
  rewrite Hnn in Hw. exists m'. split; [exact Hw|]. split; [done|].
  destruct HC as [->|HC]; [by apply blacken_ok, nrr_blacken|].
  assert (rb_ok (plug C t)) as Hok by (apply rb_ok_plug; by split_and!).
  by rewrite blacken_id by apply Hok.
Qed.

Lemma inorder_ctx C t t' : inorder t = inorder t' -> inorder (plug C t) = inorder (plug C t').
Proof. intros H. by rewrite !inorder_plug, H. Qed.

(** What both recolorings achieve: a balanced tree with the nodes in the given
    order. *)
Definition fixed (p : M rb_head unit) m (io : list (Z * addr)) : Prop :=
  exists m' t', p m = Ok (tt, m') /\ zrep m' [] t' /\ rb_ok t' /\ inorder t' = io.

Lemma finish_step p m io io' : fixed p m io -> io = io' -> fixed p m io'.
Proof. by intros ? <-. Qed.

Lemma finish_stop fuel m C l a k r io :
  zrep m C (Nd RB_RED l a k r) -> bal (Nd RB_RED l a k r) -> nrr (Nd RB_RED l a k r) ->
  cbal C (bh l) -> cnrr C -> C = [] \/ fits RB_RED C -> (1 <= fuel)%nat ->
  inorder (plug C (Nd RB_RED l a k r)) = io -> fixed (RB_INSERT_COLOR fuel a) m io.
Proof.
  intros Z Hb Hn Hcb Hcn HC Hf <-. destruct fuel as [|fuel]; [lia|].
  destruct (insert_color_stop fuel m C l a k r) as (m' & Hr & Z' & Hok); [done..|].
  eexists m', _. split_and!; [done..|]. apply inorder_blacken.
Qed.

End insertion.

(** The test whether a sibling is at the address of the subtree fails. *)
Ltac apart Z :=
  let H := fresh "H" in
  pose proof (sib_ptr_ne _ _ _ _ Z ltac:(first [by right|by left])) as H; cbn [fsib ptr plug1] in H;
  first [rewrite H | rewrite Z.eqb_sym, H]; clear H.

Ltac bal_solve :=
  simpl in *; try (apply inorder_ctx; simpl; repeat (rewrite <- !app_assoc; simpl); done);
  unfold fits in *; try rewrite !Nat.add_succ_r in *; intuition (try congruence; try lia).

(** Below a red parent with a black uncle: one or two rotations end the loop.
    [s] is the sibling of the new node, [u] the uncle. *)
Section black_uncle.
Context (fuel : nat) (C : list frame) (l r s u : tree) (a k p kp g kg : Z).
Context (Hfuel : (1 <= fuel)%nat) (Hb : bal (Nd RB_RED l a k r)) (Hn : nrr (Nd RB_RED l a k r)).
Context (Hbs : bal s) (Hbhs : bh s = bh l) (Hns : nrr s) (Hcs : color s = RB_BLACK).
Context (Hbu : bal u) (Hbhu : bh u = bh l) (Hnu : nrr u) (Hcu : color u = RB_BLACK).
Context (Hcb : cbal C (S (bh l))) (Hcn : cnrr C).

Lemma insert_outer_left m :
  zrep m (FL RB_RED p kp s :: FL RB_BLACK g kg u :: C) (Nd RB_RED l a k r) ->
  fixed (RB_SET_BLACKRED p g ;;; RB_ROTATE_RIGHT g ;;; RB_INSERT_COLOR fuel a)
    m (inorder (plug (FL RB_RED p kp s :: FL RB_BLACK g kg u :: C) (Nd RB_RED l a k r))).
Proof.
  intros Z. unfold fixed, RB_SET_BLACKRED.
  rewrite bind_bind.
  refocus Z (FL RB_BLACK g kg u :: C) (Nd RB_RED (Nd RB_RED l a k r) p kp s). zcall Z (zrep_put_color _ _ _ _ _ _ _ RB_BLACK Z).
  refocus Z C (Nd RB_BLACK (Nd RB_BLACK (Nd RB_RED l a k r) p kp s) g kg u). zcall Z (zrep_put_color _ _ _ _ _ _ _ RB_RED Z).
  zcall Z (rotate_right_run _ _ _ _ _ _ _ _ _ _ _ Z).
  refocus Z (FL RB_BLACK p kp (Nd RB_RED s g kg u) :: C) (Nd RB_RED l a k r).
  eapply finish_stop; [exact Z|..]; bal_solve.
Qed.

Lemma insert_inner_left m :
  zrep m (FR RB_RED s p kp :: FL RB_BLACK g kg u :: C) (Nd RB_RED l a k r) ->
  fixed (RB_ROTATE_LEFT p ;;; RB_SET_BLACKRED a g ;;; RB_ROTATE_RIGHT g ;;; RB_INSERT_COLOR fuel p)
    m (inorder (plug (FR RB_RED s p kp :: FL RB_BLACK g kg u :: C) (Nd RB_RED l a k r))).
Proof.
  intros Z. unfold fixed, RB_SET_BLACKRED.
  refocus Z (FL RB_BLACK g kg u :: C) (Nd RB_RED s p kp (Nd RB_RED l a k r)). zcall Z (rotate_left_run _ _ _ _ _ _ _ _ _ _ _ Z).
  rewrite bind_bind. zcall Z (zrep_put_color _ _ _ _ _ _ _ RB_BLACK Z).
  refocus Z C (Nd RB_BLACK (Nd RB_BLACK (Nd RB_RED s p kp l) a k r) g kg u). zcall Z (zrep_put_color _ _ _ _ _ _ _ RB_RED Z).
  zcall Z (rotate_right_run _ _ _ _ _ _ _ _ _ _ _ Z).
  refocus Z (FL RB_BLACK a k (Nd RB_RED r g kg u) :: C) (Nd RB_RED s p kp l).
  eapply finish_stop; [exact Z|..]; bal_solve.
Qed.

Lemma insert_inner_right m :
  zrep m (FL RB_RED p kp s :: FR RB_BLACK u g kg :: C) (Nd RB_RED l a k r) ->
  fixed (RB_ROTATE_RIGHT p ;;; RB_SET_BLACKRED a g ;;; RB_ROTATE_LEFT g ;;; RB_INSERT_COLOR fuel p)
    m (inorder (plug (FL RB_RED p kp s :: FR RB_BLACK u g kg :: C) (Nd RB_RED l a k r))).
Proof.
  intros Z. unfold fixed, RB_SET_BLACKRED.
  refocus Z (FR RB_BLACK u g kg :: C) (Nd RB_RED (Nd RB_RED l a k r) p kp s). zcall Z (rotate_right_run _ _ _ _ _ _ _ _ _ _ _ Z).
  rewrite bind_bind. zcall Z (zrep_put_color _ _ _ _ _ _ _ RB_BLACK Z).
  refocus Z C (Nd RB_BLACK u g kg (Nd RB_BLACK l a k (Nd RB_RED r p kp s))). zcall Z (zrep_put_color _ _ _ _ _ _ _ RB_RED Z).
  zcall Z (rotate_left_run _ _ _ _ _ _ _ _ _ _ _ Z).
  refocus Z (FR RB_BLACK (Nd RB_RED u g kg l) a k :: C) (Nd RB_RED r p kp s).
  eapply finish_stop; [exact Z|..]; bal_solve.
Qed.

Lemma insert_outer_right m :
  zrep m (FR RB_RED s p kp :: FR RB_BLACK u g kg :: C) (Nd RB_RED l a k r) ->
  fixed (RB_SET_BLACKRED p g ;;; RB_ROTATE_LEFT g ;;; RB_INSERT_COLOR fuel a)
    m (inorder (plug (FR RB_RED s p kp :: FR RB_BLACK u g kg :: C) (Nd RB_RED l a k r))).
Proof.
  intros Z. unfold fixed, RB_SET_BLACKRED.
  rewrite bind_bind.
  refocus Z (FR RB_BLACK u g kg :: C) (Nd RB_RED s p kp (Nd RB_RED l a k r)). zcall Z (zrep_put_color _ _ _ _ _ _ _ RB_BLACK Z).
  refocus Z C (Nd RB_BLACK u g kg (Nd RB_BLACK s p kp (Nd RB_RED l a k r))). zcall Z (zrep_put_color _ _ _ _ _ _ _ RB_RED Z).
  zcall Z (rotate_left_run _ _ _ _ _ _ _ _ _ _ _ Z).
  refocus Z (FR RB_BLACK (Nd RB_RED u g kg s) p kp :: C) (Nd RB_RED l a k r).
  eapply finish_stop; [exact Z|..]; bal_solve.
Qed.

End black_uncle.

Section insertion_loop.
Implicit Types (m : rb_head) (C : list frame) (t l r u : tree) (f : frame).

Definition set_fcolor (c : rb_color) f : frame :=
  match f with FL _ a k r => FL c a k r | FR _ l a k => FR c l a k end.
Definition set_fsib (s : tree) f : frame :=
  match f with FL c a k _ => FL c a k s | FR c _ a k => FR c s a k end.

Lemma put_color_frame m f C t c :
  zrep m (f :: C) t -> exists m', put_color (frame_ptr f) c m = Ok (tt, m') /\ zrep m' (set_fcolor c f :: C) t.
Proof.
  intros Z%zrep_frame. destruct f; destruct (zrep_put_color _ _ _ _ _ _ _ c Z) as (m' & Hw & Z');
    exists m'; (split; [exact Hw|by apply zrep_frame]).
Qed.

Lemma put_color_sib m f C t c c' l a k r :
  zrep m (f :: C) t -> fsib f = Nd c l a k r ->
  exists m', put_color a c' m = Ok (tt, m') /\ zrep m' (set_fsib (Nd c' l a k r) f :: C) t.
Proof.
  intros Z Hs. destruct f as [fc fa fk fr|fc fl fa fk]; cbn [fsib set_fsib] in *; subst.
  - refocus Z (FR fc t fa fk :: C) (Nd c l a k r). destruct (zrep_put_color _ _ _ _ _ _ _ c' Z) as (m' & Hw & Z').
    exists m'. split; [done|]. by refocus Z' (FL fc fa fk (Nd c' l a k r) :: C) t.
  - refocus Z (FL fc fa fk t :: C) (Nd c l a k r). destruct (zrep_put_color _ _ _ _ _ _ _ c' Z) as (m' & Hw & Z').
    exists m'. split; [done|]. by refocus Z' (FR fc (Nd c' l a k r) fa fk :: C) t.
Qed.

(** Below a red parent with a red uncle: the colors move up. *)
Lemma red_uncle_run m f1 f2 C t c l a k r :
  zrep m (f1 :: f2 :: C) t -> fsib f2 = Nd c l a k r ->
  exists m', (put_color a RB_BLACK ;;; RB_SET_BLACKRED (frame_ptr f1) (frame_ptr f2)) m = Ok (tt, m') /\
    zrep m' (set_fcolor RB_BLACK f1 :: set_fcolor RB_RED (set_fsib (Nd RB_BLACK l a k r) f2) :: C) t.
Proof.
  intros Z Hs. unfold RB_SET_BLACKRED. apply zrep_frame in Z.
  zcall Z (put_color_sib _ _ _ _ _ RB_BLACK _ _ _ _ Z Hs). apply (proj2 (zrep_frame _ _ _ _)) in Z.
  zcall Z (put_color_frame _ _ _ _ RB_BLACK Z). apply zrep_frame in Z.
  destruct (put_color_frame _ _ _ _ RB_RED Z) as (m' & Hw & Z'). exists m'.
  split; [|by apply zrep_frame]. rewrite <- Hw. by destruct f2.
Qed.

Lemma insert_color_run fuel : forall C m l a k r,
  (length C < fuel)%nat -> zrep m C (Nd RB_RED l a k r) -> bal (Nd RB_RED l a k r) ->
  nrr (Nd RB_RED l a k r) -> cbal C (bh l) -> cnrr C ->
  fixed (RB_INSERT_COLOR fuel a) m (inorder (plug C (Nd RB_RED l a k r))).
Proof.
  induction fuel as [|fuel IH]; intros C m l a k r Hlt Z Hb Hn Hcb Hcn; [lia|].
  destruct C as [|f1 C1]; [by eapply finish_stop; eauto; lia|].
  destruct (fcolor f1) eqn:Hf1.
  { eapply finish_stop; eauto; [|lia]. right. by intros _. }
  destruct Hcn as (Hns & Hcs & Hfit & Hcn). destruct Hcb as (Hbs & Hbhs & Hcb).
  rewrite Hf1 in *. specialize (Hfit eq_refl). specialize (Hcs eq_refl). destruct C1 as [|f2 C2]; [done|].
  destruct Hcn as (Hnu & _ & _ & Hcn). destruct Hcb as (Hbu & Hbhu & Hcb). rewrite Hfit in *.
  (* the red uncle *)
  assert (Hred : forall ua, ptr (fsib f2) = ua -> color (fsib f2) = RB_RED -> fixed (put_color ua RB_BLACK ;;;
    RB_SET_BLACKRED (frame_ptr f1) (frame_ptr f2) ;;; RB_INSERT_COLOR fuel (frame_ptr f2)) m
    (inorder (plug (f1 :: f2 :: C2) (Nd RB_RED l a k r)))).
  { intros ua <- Hcu. destruct (fsib f2) as [|uc ul ua uk ur] eqn:Hu; [done|]. simpl in Hcu. subst uc. cbn [ptr].
    destruct (red_uncle_run _ _ _ _ _ _ _ _ _ _ Z Hu) as (m' & Hw & Z'). unfold fixed.
    rewrite <- bind_bind, (bind_ok _ _ _ _ _ Hw).
    destruct f1 as [c1 p kp s|c1 s p kp], f2 as [c2 g kg u|c2 u g kg];
      cbn [fcolor fsib set_fcolor set_fsib frame_ptr] in *; subst;
      apply (proj1 (zrep_frame _ _ _ _)) in Z'; apply (proj1 (zrep_frame _ _ _ _)) in Z';
      (eapply finish_step; [apply (IH C2); [simpl in *; lia|exact Z'|..]; bal_solve|bal_solve]). }
  (* the tests of the loop *)
  unfold fixed. cbn [RB_INSERT_COLOR]. unfold RB_PARENT, RB_LEFT, RB_RIGHT.
  destruct f1 as [c1 p kp s|c1 s p kp], f2 as [c2 g kg u|c2 u g kg];
    cbn [fcolor fsib] in *; subst c1 c2; zrd Z; cbn [cptr frame_ptr];
    rewrite (bind_ok _ _ _ _ _ (rb_is_red_parent _ _ _ _ Z)); cbn [fcolor negb]; cbv beta;
    rewrite bool_decide_eq_true_2 by done; cbn [negb]; zrd Z; zrd Z;
    first [rewrite Z.eqb_refl | apart (proj1 (zrep_frame _ _ _ _) Z)]; zrd Z;
    rewrite (bind_ok _ _ _ _ _ (rb_is_red_sib _ _ _ _ (proj1 (zrep_frame _ _ _ _) Z))); cbn [fsib];
    (destruct (color u) eqn:Hcu;
      [rewrite bool_decide_eq_false_2 by done; zrd Z; cbn [ptr]
      |rewrite bool_decide_eq_true_2 by done; by apply Hred]);
    first [rewrite Z.eqb_refl | apart Z].
  - eapply insert_outer_left; bal_solve.
  - eapply insert_inner_right; bal_solve.
  - eapply insert_inner_left; bal_solve.
  - eapply insert_outer_right; bal_solve.
Qed.

End insertion_loop.

(** ** Recoloring after a removal *)

Section removal.
Implicit Types (m : rb_head) (C : list frame) (t l r x y : tree) (f : frame).

Lemma rb_is_black_run m L p t R :
  holds m L -> L ≡ₚ cells p t ++ R -> rb_is_black (ptr t) m = Ok (bool_decide (color t = RB_BLACK), m).
Proof.
  intros H HP. eapply holds_perm in H; [|exact HP]. unfold rb_is_black, RB_COLOR.
  destruct t as [|c l a k r]; [done|]. cbn [ptr]. rewrite (holds_not_null _ _ _ _ H) by in_cells.
  by rb_rd H.
Qed.

Lemma rb_is_black_at m C t : zrep m C t -> rb_is_black (ptr t) m = Ok (bool_decide (color t = RB_BLACK), m).
Proof. intros [H _]. eapply rb_is_black_run; [exact H|]. apply Permutation_app_comm. Qed.

(** Below a frame the subtree is not the root. *)
Lemma croot_cell C : forall f p, exists e, (croot C (frame_ptr f), e) ∈ ccells (f :: C) p.
Proof.
  induction C as [|f' C IH]; intros f p.
  - destruct f; eexists; in_cells.
  - destruct (IH f' (frame_ptr f)) as [e He]. exists e. cbn [croot].
    destruct f; cbn [ccells frame_ptr cptr] in *; right; apply elem_of_app; by right.
Qed.

Lemma not_root m f C t : zrep m (f :: C) t -> (ptr t =? rbh_root m) = false.
Proof.
  intros [H ->]. cbn [croot]. destruct (croot_cell C f (ptr t)) as [e He].
  rewrite Z.eqb_sym. destruct t as [|c l a k r]; cbn [ptr] in *.
  - eapply holds_not_null; [exact H|]. apply elem_of_app. left. exact He.
  - eapply holds_ne; [exact H|exact He|left].
Qed.

(** The color of a child that is not null. *)
Lemma put_black_run m C t :
  zrep m C t -> exists m', when (negb (ptr t =? NULL)) (put_color (ptr t) RB_BLACK) m = Ok (tt, m') /\
    zrep m' C (blacken t).
Proof.
  intros Z. destruct t as [|c l a k r]; [by exists m|]. cbn [ptr].
  rewrite (holds_not_null _ _ _ _ (proj1 Z)) by in_cells. by eapply zrep_put_color.
Qed.

Lemma last_left_run m c p kp x sa sk y C t :
  zrep m (FL c p kp (Nd RB_BLACK x sa sk y) :: C) t -> color y = RB_RED ->
  bal t -> nrr t -> bal x -> nrr x -> bh x = bh t -> bal y -> nrr y -> bh y = bh t ->
  cbal C (weight c + S (bh t)) -> cnrr C -> fits c C ->
  fixed (rb_last_left p sa) m (inorder (plug C (Nd c t p kp (Nd RB_BLACK x sa sk y)))).
Proof.
  intros Z Hy Hbt Hnt Hbx Hnx Hx Hby Hny Hyt Hcb Hcn Hf.
  unfold fixed, rb_last_left, RB_COLOR, RB_RIGHT. zrd Z.
  refocus Z (FR c t p kp :: C) (Nd RB_BLACK x sa sk y). zcall Z (zrep_put_color _ _ _ _ _ _ _ c Z).
  refocus Z C (Nd c t p kp (Nd c x sa sk y)). zcall Z (zrep_put_color _ _ _ _ _ _ _ RB_BLACK Z).
  zrd Z. refocus Z (FR c x sa sk :: FR RB_BLACK t p kp :: C) y. zcall Z (put_black_run _ _ _ Z).
  refocus Z C (Nd RB_BLACK t p kp (Nd c x sa sk (blacken y))).
  zcall Z (rotate_left_run _ _ _ _ _ _ _ _ _ _ _ Z).
  apply zrep_plug in Z. destruct (blacken_root_run _ _ Z) as (m' & Hw & Z').
  assert (Hok : rb_ok (plug C (Nd c (Nd RB_BLACK t p kp x) sa sk (blacken y)))).
  { destruct y as [|cy yl ya yk yr]; [done|]. simpl in Hy. subst cy. apply rb_ok_plug. bal_solve. }
  unfold RB_ROOT. erewrite bind_ok by reflexivity. eexists m', _. split; [exact Hw|]. split; [exact Z'|].
  rewrite blacken_id by apply Hok. split; [done|].
  apply inorder_ctx. simpl. rewrite inorder_blacken. by rewrite <- !app_assoc.
Qed.

Lemma last_right_run m c p kp x sa sk y C t :
  zrep m (FR c (Nd RB_BLACK y sa sk x) p kp :: C) t -> color y = RB_RED ->
  bal t -> nrr t -> bal x -> nrr x -> bh x = bh t -> bal y -> nrr y -> bh y = bh t ->
  cbal C (weight c + S (bh t)) -> cnrr C -> fits c C ->
  fixed (rb_last_right p sa) m (inorder (plug C (Nd c (Nd RB_BLACK y sa sk x) p kp t))).
Proof.
  intros Z Hy Hbt Hnt Hbx Hnx Hx Hby Hny Hyt Hcb Hcn Hf.
  unfold fixed, rb_last_right, RB_COLOR, RB_LEFT. zrd Z.
  refocus Z (FL c p kp t :: C) (Nd RB_BLACK y sa sk x). zcall Z (zrep_put_color _ _ _ _ _ _ _ c Z).
  refocus Z C (Nd c (Nd c y sa sk x) p kp t). zcall Z (zrep_put_color _ _ _ _ _ _ _ RB_BLACK Z).
  zrd Z. refocus Z (FL c sa sk x :: FL RB_BLACK p kp t :: C) y. zcall Z (put_black_run _ _ _ Z).
  refocus Z C (Nd RB_BLACK (Nd c (blacken y) sa sk x) p kp t).
  zcall Z (rotate_right_run _ _ _ _ _ _ _ _ _ _ _ Z).
  apply zrep_plug in Z. destruct (blacken_root_run _ _ Z) as (m' & Hw & Z').
  assert (Hok : rb_ok (plug C (Nd c (blacken y) sa sk (Nd RB_BLACK x p kp t)))).
  { destruct y as [|cy yl ya yk yr]; [done|]. simpl in Hy. subst cy. apply rb_ok_plug. bal_solve. }
  unfold RB_ROOT. erewrite bind_ok by reflexivity. eexists m', _. split; [exact Hw|]. split; [exact Z'|].
  rewrite blacken_id by apply Hok. split; [done|].
  apply inorder_ctx. simpl. rewrite inorder_blacken. by rewrite <- !app_assoc.
Qed.

(** The next turn of the loop starts one level up. *)
Definition goes_on (again : addr -> addr -> M rb_head unit) C (t : tree) : Prop :=
  forall m, zrep m C t -> fixed (again (cptr C) (ptr t)) m (inorder (plug C t)).

Lemma fix_left_run again m c p kp sl sa sk sr C t :
  zrep m (FL c p kp (Nd RB_BLACK sl sa sk sr) :: C) t -> bal t -> nrr t ->
  bal sl -> nrr sl -> bh sl = bh t -> bal sr -> nrr sr -> bh sr = bh t ->
  cbal C (weight c + S (bh t)) -> cnrr C -> fits c C ->
  (color sl = RB_BLACK -> color sr = RB_BLACK -> goes_on again C (Nd c t p kp (Nd RB_RED sl sa sk sr))) ->
  fixed (rb_fix_left again p sa) m (inorder (plug C (Nd c t p kp (Nd RB_BLACK sl sa sk sr)))).
Proof.
  intros Z Hbt Hnt Hbl Hnl Hl Hbr Hnr Hr Hcb Hcn Hf Hgo.
  unfold rb_fix_left, RB_LEFT, RB_RIGHT, RB_PARENT. unfold fixed. zrd Z. zrd Z.
  refocus Z (FL RB_BLACK sa sk sr :: FR c t p kp :: C) sl. rewrite (bind_ok _ _ _ _ _ (rb_is_black_at _ _ _ Z)).
  refocus Z (FR RB_BLACK sl sa sk :: FR c t p kp :: C) sr. rewrite (bind_ok _ _ _ _ _ (rb_is_black_at _ _ _ Z)).
  destruct (color sr) eqn:Hcr.
  2:{ rewrite (bool_decide_eq_false_2 (RB_RED = RB_BLACK)), andb_false_r by done. erewrite bind_ok by reflexivity.
    refocus Z (FL c p kp (Nd RB_BLACK sl sa sk sr) :: C) t. by apply last_left_run. }
  rewrite (bool_decide_eq_true_2 (RB_BLACK = RB_BLACK)), andb_true_r by done. destruct (color sl) eqn:Hcl.
  - rewrite (bool_decide_eq_true_2 (RB_BLACK = RB_BLACK)) by done.
    refocus Z (FR c t p kp :: C) (Nd RB_BLACK sl sa sk sr). zcall Z (zrep_put_color _ _ _ _ _ _ _ RB_RED Z).
    refocus Z C (Nd c t p kp (Nd RB_RED sl sa sk sr)). zrd Z.
    eapply finish_step; [by apply (Hgo eq_refl eq_refl)|]. by apply inorder_ctx.
  - rewrite (bool_decide_eq_false_2 (RB_RED = RB_BLACK)) by done.
    refocus Z (FL RB_BLACK sa sk sr :: FR c t p kp :: C) sl. rewrite bind_bind. zcall Z (put_black_run _ _ _ Z).
    destruct sl as [|cl la a ka lb]; [done|]. simpl in Hcl. subst cl. cbn [blacken] in Z.
    refocus Z (FR c t p kp :: C) (Nd RB_BLACK (Nd RB_BLACK la a ka lb) sa sk sr).
    rewrite bind_bind. zcall Z (zrep_put_color _ _ _ _ _ _ _ RB_RED Z). rewrite bind_bind.
    zcall Z (rotate_right_run _ _ _ _ _ _ _ _ _ _ _ Z).
    refocus Z (FL c p kp (Nd RB_BLACK la a ka (Nd RB_RED lb sa sk sr)) :: C) t. zrd Z.
    eapply finish_step; [apply last_left_run; [exact Z|..]|]; bal_solve.
Qed.

Lemma fix_right_run again m c p kp sl sa sk sr C t :
  zrep m (FR c (Nd RB_BLACK sl sa sk sr) p kp :: C) t -> bal t -> nrr t ->
  bal sl -> nrr sl -> bh sl = bh t -> bal sr -> nrr sr -> bh sr = bh t ->
  cbal C (weight c + S (bh t)) -> cnrr C -> fits c C ->
  (color sl = RB_BLACK -> color sr = RB_BLACK -> goes_on again C (Nd c (Nd RB_RED sl sa sk sr) p kp t)) ->
  fixed (rb_fix_right again p sa) m (inorder (plug C (Nd c (Nd RB_BLACK sl sa sk sr) p kp t))).
Proof.
  intros Z Hbt Hnt Hbl Hnl Hl Hbr Hnr Hr Hcb Hcn Hf Hgo.
  unfold rb_fix_right, RB_LEFT, RB_RIGHT, RB_PARENT. unfold fixed. zrd Z. zrd Z.
  refocus Z (FL RB_BLACK sa sk sr :: FL c p kp t :: C) sl. rewrite (bind_ok _ _ _ _ _ (rb_is_black_at _ _ _ Z)).
  refocus Z (FR RB_BLACK sl sa sk :: FL c p kp t :: C) sr. rewrite (bind_ok _ _ _ _ _ (rb_is_black_at _ _ _ Z)).
  destruct (color sl) eqn:Hcl.
  2:{ rewrite (bool_decide_eq_false_2 (RB_RED = RB_BLACK)) by done. cbn [andb]. erewrite bind_ok by reflexivity.
    refocus Z (FR c (Nd RB_BLACK sl sa sk sr) p kp :: C) t. by apply last_right_run. }
  rewrite (bool_decide_eq_true_2 (RB_BLACK = RB_BLACK)) by done. cbn [andb]. destruct (color sr) eqn:Hcr.
  - rewrite (bool_decide_eq_true_2 (RB_BLACK = RB_BLACK)) by done.
    refocus Z (FL c p kp t :: C) (Nd RB_BLACK sl sa sk sr). zcall Z (zrep_put_color _ _ _ _ _ _ _ RB_RED Z).
    refocus Z C (Nd c (Nd RB_RED sl sa sk sr) p kp t). zrd Z.
    eapply finish_step; [by apply (Hgo eq_refl eq_refl)|]. by apply inorder_ctx.
  - rewrite (bool_decide_eq_false_2 (RB_RED = RB_BLACK)) by done.
    refocus Z (FR RB_BLACK sl sa sk :: FL c p kp t :: C) sr. rewrite bind_bind. zcall Z (put_black_run _ _ _ Z).
    destruct sr as [|cr la a ka lb]; [done|]. simpl in Hcr. subst cr. cbn [blacken] in Z.
    refocus Z (FL c p kp t :: C) (Nd RB_BLACK sl sa sk (Nd RB_BLACK la a ka lb)).
    rewrite bind_bind. zcall Z (zrep_put_color _ _ _ _ _ _ _ RB_RED Z). rewrite bind_bind.
    zcall Z (rotate_left_run _ _ _ _ _ _ _ _ _ _ _ Z).
    refocus Z (FR c (Nd RB_BLACK (Nd RB_RED sl sa sk la) a ka lb) p kp :: C) t. zrd Z.
    eapply finish_step; [apply last_right_run; [exact Z|..]|]; bal_solve.
Qed.

(** The loop ends at a red node, which takes the missing black, or at the
    root. *)
Lemma remove_color_stop fuel C m t :
  zrep m C t -> bal t -> nrr (blacken t) -> cbal C (S (bh t)) -> cnrr C -> C = [] \/ color t = RB_RED ->
  fixed (RB_REMOVE_COLOR (S fuel) (cptr C) (ptr t)) m (inorder (plug C t)).
Proof.
  intros Z Hb Hn Hcb Hcn HC. unfold fixed. cbn [RB_REMOVE_COLOR].
  rewrite (bind_ok _ _ _ _ _ (rb_is_black_at _ _ _ Z)). unfold RB_ROOT. erewrite bind_ok by reflexivity.
  assert (bool_decide (color t = RB_BLACK) && negb (ptr t =? rbh_root m) = false) as ->.
  { destruct HC as [->|HC]; [|by rewrite HC]. rewrite (proj2 Z). cbn [croot].
    by rewrite Z.eqb_refl, andb_false_r. }
  destruct (put_black_run _ _ _ Z) as (m' & Hw & Z'). apply zrep_plug in Z'.
  exists m', (plug C (blacken t)). split_and!; [done..| |apply inorder_ctx, inorder_blacken].
  destruct HC as [->|HC]; [by apply blacken_ok|].
  destruct t as [|c l a k r]; [done|]. simpl in HC. subst c. apply rb_ok_plug. bal_solve.
Qed.

Lemma remove_color_run fuel : forall C m t,
  (length C < fuel)%nat -> zrep m C t -> bal t -> nrr (blacken t) -> cbal C (S (bh t)) -> cnrr C ->
  fixed (RB_REMOVE_COLOR fuel (cptr C) (ptr t)) m (inorder (plug C t)).
Proof.
  induction fuel as [|fuel IH]; intros C m t Hlt Z Hb Hn Hcb Hcn; [lia|].
  destruct C as [|f C]; [by apply remove_color_stop; eauto|].
  destruct (color t) eqn:Hct; [|by apply remove_color_stop; eauto].
  rewrite blacken_id in Hn by done. unfold fixed. cbn [RB_REMOVE_COLOR].
  rewrite (bind_ok _ _ _ _ _ (rb_is_black_at _ _ _ Z)). unfold RB_ROOT at 1. erewrite bind_ok by reflexivity.
  rewrite (not_root _ _ _ _ Z), bool_decide_eq_true_2 by done. cbn [andb negb].
  destruct Hcn as (Hns & Hcs & Hfit & Hcn). destruct Hcb as (Hbs & Hbhs & Hcb).
  unfold RB_LEFT, RB_RIGHT, RB_COLOR.
  destruct f as [c p kp s|c s p kp]; cbn [fcolor fsib cptr frame_ptr] in *;
    (destruct s as [|cs sl sa sk sr]; [done|]); zrd Z.
  - rewrite Z.eqb_refl. zrd Z. cbn [ptr]. zrd Z. destruct cs.
    + rewrite bool_decide_eq_false_2 by done.
      eapply finish_step; [apply fix_left_run; [exact Z|..]|done]; try bal_solve.
      intros m' Z'. apply IH; try done; bal_solve.
    + rewrite bool_decide_eq_true_2 by done. assert (c = RB_BLACK) as -> by (destruct c; [done|]; by destruct Hcs).
      destruct sl as [|csl a1 b1 c1 d1]; [bal_solve|].
      destruct sr as [|csr a2 b2 c2 d2]; [bal_solve|].
      assert (csl = RB_BLACK) as -> by bal_solve. assert (csr = RB_BLACK) as -> by bal_solve.
      unfold RB_SET_BLACKRED. rewrite bind_bind.
      refocus Z (FR RB_BLACK t p kp :: C) (Nd RB_RED (Nd RB_BLACK a1 b1 c1 d1) sa sk (Nd RB_BLACK a2 b2 c2 d2)).
      zcall Z (zrep_put_color _ _ _ _ _ _ _ RB_BLACK Z).
      refocus Z C (Nd RB_BLACK t p kp (Nd RB_BLACK (Nd RB_BLACK a1 b1 c1 d1) sa sk (Nd RB_BLACK a2 b2 c2 d2))).
      zcall Z (zrep_put_color _ _ _ _ _ _ _ RB_RED Z).
      zcall Z (rotate_left_run _ _ _ _ _ _ _ _ _ _ _ Z).
      refocus Z (FL RB_RED p kp (Nd RB_BLACK a1 b1 c1 d1) :: FL RB_BLACK sa sk (Nd RB_BLACK a2 b2 c2 d2) :: C) t.
      zrd Z. eapply finish_step; [apply fix_left_run; [exact Z|..]|]; try bal_solve.
      intros m' Z'. destruct fuel as [|fuel]; [simpl in *; lia|].
      apply remove_color_stop; try done; bal_solve.
  - apart Z. zrd Z. cbn [ptr]. zrd Z. destruct cs.
    + rewrite bool_decide_eq_false_2 by done.
      eapply finish_step; [apply fix_right_run; [exact Z|..]|done]; try bal_solve.
      intros m' Z'. apply IH; try done; bal_solve.
    + rewrite bool_decide_eq_true_2 by done. assert (c = RB_BLACK) as -> by (destruct c; [done|]; by destruct Hcs).
      destruct sl as [|csl a1 b1 c1 d1]; [bal_solve|].
      destruct sr as [|csr a2 b2 c2 d2]; [bal_solve|].
      assert (csl = RB_BLACK) as -> by bal_solve. assert (csr = RB_BLACK) as -> by bal_solve.
      unfold RB_SET_BLACKRED. rewrite bind_bind.
      refocus Z (FL RB_BLACK p kp t :: C) (Nd RB_RED (Nd RB_BLACK a1 b1 c1 d1) sa sk (Nd RB_BLACK a2 b2 c2 d2)).
      zcall Z (zrep_put_color _ _ _ _ _ _ _ RB_BLACK Z).
      refocus Z C (Nd RB_BLACK (Nd RB_BLACK (Nd RB_BLACK a1 b1 c1 d1) sa sk (Nd RB_BLACK a2 b2 c2 d2)) p kp t).
      zcall Z (zrep_put_color _ _ _ _ _ _ _ RB_RED Z).
      zcall Z (rotate_right_run _ _ _ _ _ _ _ _ _ _ _ Z).
      refocus Z (FR RB_RED (Nd RB_BLACK a2 b2 c2 d2) p kp :: FR RB_BLACK (Nd RB_BLACK a1 b1 c1 d1) sa sk :: C) t.
      zrd Z. eapply finish_step; [apply fix_right_run; [exact Z|..]|]; try bal_solve.
      intros m' Z'. destruct fuel as [|fuel]; [simpl in *; lia|].
      apply remove_color_stop; try done; bal_solve.
Qed.

End removal.
