(* ===== verification/RBMap.v ===== *)
(** * The red-black tree implements the sleep tree

    Searching, insertion and removal of file RBTree as operations on finite
    maps from wake-up times to coroutines: [rb_sleep_tree] is the instance of
    the scheduler's interface, [rb_sleep_tree_laws] discharges what the
    scheduler relies on. *)
From S2P Require Import Prelude SleepTree RBTree.

Local Open Scope Z_scope.
Local Open Scope dyco_scope.

(** ** Sizes *)

Fixpoint height (t : tree) : nat :=
  match t with Lf => 0 | Nd _ l _ _ r => S (Nat.max (height l) (height r)) end.

Section sizes.
Implicit Types (m : rb_head) (C : list frame) (t l r : tree).

Lemma cells_plug C t : ccells C (ptr t) ++ cells (cptr C) t ≡ₚ cells NULL (plug C t).
Proof.
  revert t. induction C as [|[c a k r|c l a k] C IH]; intros t; [done|..];
    cbn [plug]; rewrite <- IH; cbn [plug1]; perm.
Qed.

Lemma cells_length p t : length (cells p t) = length (inorder t).
Proof.
  revert p. induction t as [|c l IHl a k r IHr]; intros p; [done|]. simpl.
  rewrite !length_app, IHl, IHr. simpl. lia.
Qed.

Lemma holds_size m L : holds m L -> (length L <= size (rbe m))%nat.
Proof.
  intros [Hc Hn _]. rewrite <- (length_fmap fst), <- (size_list_to_set (C := gset Z)), <- size_dom by done.
  apply subseteq_size. intros a [[a' e] [-> He]]%elem_of_list_to_set%list_elem_of_fmap.
  apply elem_of_dom. cbn [fst]. rewrite (Hc _ _ He). by eexists.
Qed.

Lemma height_le t : (height t <= length (inorder t))%nat.
Proof. induction t; simpl; [done|]. rewrite length_app. simpl. lia. Qed.

Lemma plug_length C t : (length C + length (inorder t) <= length (inorder (plug C t)))%nat.
Proof.
  revert t. induction C as [|[c a k r|c l a k] C IH]; intros t; simpl; [lia|..];
    (eapply Nat.le_trans; [|apply IH]); simpl; rewrite length_app; simpl; lia.
Qed.

Lemma zrep_size m C t : zrep m C t -> (length C + length (inorder t) <= size (rbe m))%nat.
Proof.
  intros [H _]. eapply Nat.le_trans; [apply plug_length|]. rewrite <- (cells_length NULL), <- cells_plug.
  by apply holds_size.
Qed.

Lemma plug_app C1 C2 t : plug (C1 ++ C2) t = plug C2 (plug C1 t).
Proof. revert t. induction C1; intros t; [done|]. simpl. by rewrite IHC1. Qed.

Lemma cbal_swap C1 c l a k a' k' C2 n :
  cbal (C1 ++ FR c l a k :: C2) n <-> cbal (C1 ++ FR c l a' k' :: C2) n.
Proof. revert n. induction C1 as [|f C1 IH]; intros n; simpl; [done|]. by rewrite IH. Qed.

Lemma fits_swap d C1 c l a k a' k' C2 :
  fits d (C1 ++ FR c l a k :: C2) <-> fits d (C1 ++ FR c l a' k' :: C2).
Proof. by destruct C1. Qed.

Lemma cnrr_swap C1 c l a k a' k' C2 :
  cnrr (C1 ++ FR c l a k :: C2) <-> cnrr (C1 ++ FR c l a' k' :: C2).
Proof.
  induction C1 as [|f C1 IH]; simpl; [done|]. by rewrite IH, (fits_swap (fcolor f) C1 c l a k a' k').
Qed.

End sizes.

(** ** Order *)

Definition ordered (t : tree) : Prop := StronglySorted (fun x y => x.1 < y.1) (inorder t).
Definition tmap (t : tree) : gmap Z addr := list_to_map (inorder t).

Fixpoint tfind (key : Z) (t : tree) : option addr :=
  match t with
  | Lf => None
  | Nd _ l a k r => if key <? k then tfind key l else if key =? k then Some a else tfind key r
  end.

Section order.
Implicit Types (C : list frame) (t l r : tree).

Lemma sorted_nodup (l : list (Z * addr)) : StronglySorted (fun x y => x.1 < y.1) l -> NoDup l.*1.
Proof.
  induction 1 as [|[k a] l _ IH Hf]; simpl; constructor; [|done].
  intros ([k' a'] & -> & Hx)%list_elem_of_fmap. rewrite Forall_forall in Hf. specialize (Hf _ Hx). simpl in Hf. lia.
Qed.

Lemma ordered_node c l a k r :
  ordered (Nd c l a k r) <->
  ordered l /\ ordered r /\ (forall x, x ∈ inorder l -> x.1 < k) /\ (forall x, x ∈ inorder r -> k < x.1).
Proof.
  unfold ordered. simpl. rewrite StronglySorted_app, StronglySorted_cons, Forall_forall. simpl. split.
  - intros (H & Hl & Hr & Hs). split_and!; try done. intros x Hx. apply (H x (k, a)); [done|left].
  - intros (Hl & Hs & H1 & H2). split_and!; try done.
    intros x y Hx [->|Hy]%elem_of_cons; [by apply H1|]. specialize (H1 _ Hx). specialize (H2 _ Hy). lia.
Qed.

Lemma tfind_in key t a : ordered t -> tfind key t = Some a <-> (key, a) ∈ inorder t.
Proof.
  induction t as [|c l IHl b k r IHr]; [intros _; simpl; split; [done|by intros ?%elem_of_nil]|].
  intros (Hl & Hr & H1 & H2)%ordered_node. specialize (IHl Hl). specialize (IHr Hr). simpl.
  rewrite elem_of_app, elem_of_cons. destruct (Z.ltb_spec key k); [|destruct (Z.eqb_spec key k) as [->|]].
  - rewrite IHl. split; [by left|]. intros [?|[[= -> ->]|Hx]]; [done|lia|]. specialize (H2 _ Hx). simpl in H2. lia.
  - split; [intros [= ->]; by right; left|]. intros [Hx|[[= ->]|Hx]]; [|done|];
      [specialize (H1 _ Hx)|specialize (H2 _ Hx)]; simpl in *; lia.
  - rewrite IHr. split; [by right; right|]. intros [Hx|[[= -> ->]|Hx]]; [|lia|done].
    specialize (H1 _ Hx). simpl in H1. lia.
Qed.

Lemma tmap_lookup key t : ordered t -> tmap t !! key = tfind key t.
Proof.
  intros Ho. apply option_eq. intros a. unfold tmap. rewrite tfind_in by done.
  symmetry. apply elem_of_list_to_map. by apply sorted_nodup.
Qed.

(** A node of the tree has a position. *)
Lemma in_position k a t : (k, a) ∈ inorder t -> exists C c l r, t = plug C (Nd c l a k r).
Proof.
  assert (forall C0, (k, a) ∈ inorder t -> exists C c l r, plug C0 t = plug C (Nd c l a k r)) as H.
  { induction t as [|c l IHl b k' r IHr]; intros C0; simpl; [by intros ?%elem_of_nil|].
    rewrite elem_of_app, elem_of_cons. intros [Hx|[[= -> ->]|Hx]].
    - destruct (IHl (FL c b k' r :: C0) Hx) as (C & c' & l' & r' & He). eauto.
    - eauto.
    - destruct (IHr (FR c l b k' :: C0) Hx) as (C & c' & l' & r' & He). eauto. }
  apply (H []).
Qed.

End order.

(** ** Searching *)

Section searching.
Implicit Types (m : rb_head) (C : list frame) (t l r : tree).

Lemma zrep_null m C c l a k r : zrep m C (Nd c l a k r) -> (a =? NULL) = false.
Proof. intros [H _]. eapply holds_not_null; [exact H|in_cells]. Qed.

Lemma cmp_cases key k :
  (key < k /\ (coroutine_sleep_cmp key k <? 0) = true) \/
  (k < key /\ (coroutine_sleep_cmp key k <? 0) = false /\ (0 <? coroutine_sleep_cmp key k) = true) \/
  (key = k /\ (coroutine_sleep_cmp key k <? 0) = false /\ (0 <? coroutine_sleep_cmp key k) = false).
Proof.
  unfold coroutine_sleep_cmp. destruct (Z.ltb_spec key k); [by left|right].
  destruct (Z.eqb_spec key k); [by right|left]. split_and!; [lia|done..].
Qed.

Lemma tfind_cmp key c l a k r :
  tfind key (Nd c l a k r) = if coroutine_sleep_cmp key k <? 0 then tfind key l
                             else if 0 <? coroutine_sleep_cmp key k then tfind key r else Some a.
Proof.
  simpl. destruct (cmp_cases key k) as [[H ->]|[(H & -> & ->)|(-> & -> & ->)]].
  - by destruct (Z.ltb_spec key k); [|lia].
  - destruct (Z.ltb_spec key k); [lia|]. by destruct (Z.eqb_spec key k); [lia|].
  - by rewrite Z.ltb_irrefl, Z.eqb_refl.
Qed.

Lemma find_loop_run key t : forall fuel C m, zrep m C t -> (height t < fuel)%nat ->
  rb_find_loop fuel key (ptr t) m = Ok (default NULL (tfind key t), m).
Proof.
  induction t as [|c l IHl a k r IHr]; intros fuel C m Z Hf; (destruct fuel as [|fuel]; [lia|]); [done|].
  cbn [rb_find_loop ptr]. rewrite (zrep_null _ _ _ _ _ _ _ Z). zrd Z. rewrite tfind_cmp. simpl in Hf.
  destruct (coroutine_sleep_cmp key k <? 0); [|destruct (0 <? coroutine_sleep_cmp key k); [|done]].
  - unfold RB_LEFT. zrd Z. apply (IHl _ (FL c a k r :: C)); [by apply zrep_frame|lia].
  - unfold RB_RIGHT. zrd Z. apply (IHr _ (FR c l a k :: C)); [by apply zrep_frame|lia].
Qed.

Lemma min_loop_run t : forall fuel C m parent, zrep m C t -> (height t < fuel)%nat ->
  rb_min_loop fuel (ptr t) parent m = Ok (from_option snd parent (head (inorder t)), m).
Proof.
  induction t as [|c l IHl a k r IHr]; intros fuel C m parent Z Hf; (destruct fuel as [|fuel]; [lia|]); [done|].
  cbn [rb_min_loop ptr]. rewrite (zrep_null _ _ _ _ _ _ _ Z). unfold RB_LEFT. zrd Z. simpl in Hf.
  rewrite (IHl _ (FL c a k r :: C)) by (by apply zrep_frame || lia). simpl. by destruct (inorder l).
Qed.

(** The position the search of [RB_INSERT] ends at. *)
Definition agrees (comp : Z) C : Prop :=
  match C with [] => True | FL _ _ _ _ :: _ => comp < 0 | FR _ _ _ _ :: _ => 0 < comp end.
Definition bounds (key : Z) C : Prop :=
  (forall x, x ∈ before C -> x.1 < key) /\ (forall x, x ∈ after C -> key < x.1).

Lemma bounds_left key c a k r C :
  bounds key C -> key < k -> (forall x, x ∈ inorder r -> k < x.1) -> bounds key (FL c a k r :: C).
Proof.
  intros [H1 H2] Hk Hr. split; [done|]. simpl.
  intros x [-> | [Hx|Hx]%elem_of_app]%elem_of_cons; [done| |by apply H2]. specialize (Hr _ Hx). lia.
Qed.

Lemma bounds_right key c l a k C :
  bounds key C -> k < key -> (forall x, x ∈ inorder l -> x.1 < k) -> bounds key (FR c l a k :: C).
Proof.
  intros [H1 H2] Hk Hl. split; [|done]. simpl.
  intros x [Hx | [Hx | ->%list_elem_of_singleton]%elem_of_app]%elem_of_app; [by apply H1| |done].
  specialize (Hl _ Hx). lia.
Qed.

Lemma insert_pos_run key t : forall fuel C m comp,
  zrep m C t -> (height t < fuel)%nat -> agrees comp C -> bounds key C -> ordered t ->
  match tfind key t with
  | Some a => rb_insert_pos fuel key (ptr t) (cptr C) comp m = Ok (inl a, m)
  | None => exists C' comp', rb_insert_pos fuel key (ptr t) (cptr C) comp m = Ok (inr (cptr C', comp'), m) /\
      agrees comp' C' /\ bounds key C' /\ plug C' Lf = plug C t
  end.
Proof.
  induction t as [|c l IHl a k r IHr]; intros fuel C m comp Z Hf Ha Hbo Ho;
    (destruct fuel as [|fuel]; [lia|]); [by exists C, comp|].
  cbn [rb_insert_pos ptr]. rewrite (zrep_null _ _ _ _ _ _ _ Z). zrd Z. rewrite tfind_cmp. simpl in Hf.
  apply ordered_node in Ho as (Hl & Hr & H1 & H2).
  destruct (cmp_cases key k) as [[H Hc]|[(H & Hc & Hc')|(H & Hc & Hc')]]; rewrite Hc, ?Hc'; [..|done].
  - unfold RB_LEFT. zrd Z. apply (IHl _ (FL c a k r :: C)); try done; [by apply zrep_frame|lia| |by apply bounds_left].
    by apply Z.ltb_lt.
  - unfold RB_RIGHT. zrd Z. apply (IHr _ (FR c l a k :: C)); try done; [by apply zrep_frame|lia| |by apply bounds_right].
    by apply Z.ltb_lt.
Qed.

End searching.

(** ** Insertion *)

Section inserting.
Implicit Types (m : rb_head) (C : list frame) (t l r : tree).

Lemma holds_new m L a e :
  holds m L -> a ∉ L.*1 -> a <> NULL -> holds (rb_upd a e m) ((a, e) :: L).
Proof.
  intros [Hc Hn H0] Ha Hne. split.
  - intros b x [[= -> ->]|Hb]%elem_of_cons; simpl; [apply lookup_insert_eq|].
    rewrite lookup_insert_ne; [by apply Hc|]. intros ->. apply Ha. by apply (list_elem_of_fmap_2 fst) in Hb.
  - simpl. by constructor.
  - simpl. by intros [?|?]%elem_of_cons.
Qed.

Lemma cells_addrs p t : (cells p t).*1 ≡ₚ (inorder t).*2.
Proof.
  revert p. induction t as [|c l IHl a k r IHr]; intros p; [done|]. simpl.
  rewrite !fmap_app, IHl, IHr. simpl. apply Permutation_middle.
Qed.

Lemma attach_run m C comp elm key :
  zrep m C Lf -> elm ∉ (ccells C NULL).*1 -> elm <> NULL -> agrees comp C ->
  exists m', (if negb (cptr C =? NULL) then
                (if comp <? 0 then put_left (cptr C) elm else put_right (cptr C) elm)
              else put_root elm) (rb_upd elm (mk_rbe NULL NULL (cptr C) RB_RED key) m) = Ok (tt, m') /\
    zrep m' C (Nd RB_RED Lf elm key Lf).
Proof.
  intros [H Hr] Hnew Hne Hag. cbn [ptr cells] in H. rewrite app_nil_r in H.
  pose proof (holds_new _ _ _ (mk_rbe NULL NULL (cptr C) RB_RED key) H Hnew Hne) as H'. clear H.
  set (m1 := rb_upd elm _ m) in *. assert (Hr1 : rbh_root m1 = croot C NULL) by done. clearbody m1. clear Hr m.
  destruct C as [|[c a k r|c l a k] C]; cbn [cptr frame_ptr].
  - eexists. split; [reflexivity|]. split; [by apply holds_root|done].
  - simpl in Hag. apply Z.ltb_lt in Hag. rewrite (holds_not_null _ _ _ _ H') by in_cells.
    cbn [negb]. rewrite Hag. unfold put_left. cbn [ccells] in H'.
    rb_order H' ((a, mk_rbe NULL (ptr r) (cptr C) c k) :: (elm, mk_rbe NULL NULL a RB_RED key) ::
      cells a r ++ ccells C a).
    rb_wr H' Hr1. eexists. split; [reflexivity|]. split; [|done]. eapply holds_perm; [exact H'|]. perm.
  - simpl in Hag. rewrite (holds_not_null _ _ _ _ H') by in_cells.
    cbn [negb]. destruct (Z.ltb_spec comp 0); [lia|]. unfold put_right. cbn [ccells] in H'.
    rb_order H' ((a, mk_rbe (ptr l) NULL (cptr C) c k) :: (elm, mk_rbe NULL NULL a RB_RED key) ::
      cells a l ++ ccells C a).
    rb_wr H' Hr1. eexists. split; [reflexivity|]. split; [|done]. eapply holds_perm; [exact H'|]. perm.
Qed.

Lemma RB_INSERT_run m t elm key :
  zrep m [] t -> rb_ok t -> ordered t -> elm <> NULL -> elm ∉ (inorder t).*2 ->
  match tfind key t with
  | Some a => RB_INSERT elm key m = Ok (a, m)
  | None => exists m' t', RB_INSERT elm key m = Ok (NULL, m') /\ zrep m' [] t' /\ rb_ok t' /\ ordered t' /\
      inorder t' ≡ₚ (key, elm) :: inorder t
  end.
Proof.
  intros Z Hok Ho Hne Hnew. unfold RB_INSERT. erewrite bind_ok by reflexivity.
  pose proof (zrep_size _ _ _ Z) as Hsz. pose proof (height_le t) as Hh. simpl in Hsz.
  assert (Hpos := insert_pos_run key t (S (size (rbe m))) [] m 0 Z ltac:(lia) I
    ltac:(split; simpl; by intros x ?%elem_of_nil) Ho).
  rewrite (proj2 Z). cbn [croot].
  destruct (tfind key t); [by rewrite (bind_ok _ _ _ _ _ Hpos)|].
  destruct Hpos as (C & comp & Hrun & Hag & [Hb1 Hb2] & Hp). cbn [plug] in Hp. cbn [cptr] in Hrun.
  rewrite (bind_ok _ _ _ _ _ Hrun). cbv beta iota. unfold RB_SET. erewrite bind_ok by reflexivity. cbv beta.
  rewrite <- Hp in *. apply zrep_plug in Z.
  destruct (attach_run m C comp elm key Z) as (m1 & Hatt & Z1); [|done..|].
  { rewrite <- (cells_addrs NULL), <- cells_plug in Hnew. cbn [ptr cells] in Hnew. by rewrite app_nil_r in Hnew. }
  rewrite (bind_ok _ _ _ _ _ Hatt). cbv beta.
  apply rb_ok_plug in Hok as (_ & _ & Hcb & Hcn & _).
  destruct (insert_color_run (S (S (size (rbe m)))) C m1 Lf elm key Lf) as (m' & t' & Hcol & Z' & Hok' & Hi); try done.
  { pose proof (plug_length C Lf). simpl in *. lia. }
  rewrite (bind_ok _ _ _ _ _ Hcol). exists m', t'. rewrite inorder_plug in *. simpl in *.
  unfold ordered in *. rewrite inorder_plug in Ho. simpl in Ho. rewrite Hi.
  apply StronglySorted_app in Ho as (Ho1 & Ho2 & Ho3). split_and!; try done; [|symmetry; apply Permutation_middle].
  apply StronglySorted_app. split_and!; [|done|].
  - intros x y Hx [->|Hy]%elem_of_cons; [by apply Hb1|by apply Ho1].
  - apply StronglySorted_cons. split; [|done]. apply Forall_forall. by apply Hb2.
Qed.

End inserting.

(** ** Removal *)

Section removing.
Implicit Types (m : rb_head) (C : list frame) (t l r : tree).

(** The first node of a subtree, at the end of its left spine. *)
Lemma leftmost_run t : forall fuel C m, zrep m C t -> (height t < fuel)%nat -> t <> Lf ->
  exists C' c a k r, t = plug C' (Nd c Lf a k r) /\ before C' = [] /\ rb_leftmost fuel (ptr t) m = Ok (a, m).
Proof.
  induction t as [|c l IHl a k r IHr]; intros fuel C m Z Hf Hne; [done|]. simpl in Hf.
  destruct fuel as [|fuel]; [lia|]. cbn [rb_leftmost ptr]. unfold RB_LEFT. zrd Z.
  apply zrep_frame with (f := FL c a k r) in Z as Zl.
  destruct l as [|cl ll al kl rl]; [by exists [], c, a, k, r|].
  destruct (IHl fuel (FL c a k r :: C) m Zl ltac:(lia) ltac:(done)) as (C' & c' & a' & k' & r' & He & Hb & Hr).
  cbn [ptr] in *. rewrite (zrep_null _ _ _ _ _ _ _ Zl), Hr. exists (C' ++ [FL c a k r]), c', a', k', r'.
  rewrite plug_app, <- He. split_and!; [done| |done].
  clear -Hb. induction C' as [|[]]; simpl in *; [done|by apply IHC'|].
  by destruct (before C') ; destruct (inorder l).
Qed.

(** Where a node of color [c] was taken out: the tree is balanced if it was
    red, and a black is missing if it was black. *)
Record taken_out c C t : Prop := {
  to_red : c = RB_RED -> rb_ok (plug C t);
  to_bal : bal t;
  to_nrr : nrr (blacken t);
  to_black : c = RB_BLACK -> cbal C (S (bh t));
  to_cnrr : cnrr C
}.

Lemma taken_out_ok C c l a k r t :
  rb_ok (plug C (Nd c l a k r)) -> (l = Lf /\ t = r) \/ (r = Lf /\ t = l) -> taken_out c C t.
Proof.
  intros (Hb & Hn & Hcb & Hcn & Hf)%rb_ok_plug Ht.
  simpl in Hb, Hn, Hcb, Hf. destruct Hb as (Hbl & Hbr & Hbh), Hn as (Hnl & Hnr & Hred).
  assert (bal t /\ nrr t /\ bh t = bh l /\ (c = RB_RED -> color t = RB_BLACK)) as (Hbt & Hnt & Hbht & Hct).
  { destruct Ht as [[-> ->]|[-> ->]]; split_and!; try done; intros Hc; by destruct (Hred Hc). }
  split; try done; [|by apply nrr_blacken|].
  - intros ->. apply rb_ok_plug. rewrite Hbht, (Hct eq_refl). by split_and!.
  - intros ->. by rewrite Hbht.
Qed.

Lemma taken_out_swap c0 C1 c l a k a' k' C2 t :
  taken_out c0 (C1 ++ FR c l a k :: C2) t -> taken_out c0 (C1 ++ FR c l a' k' :: C2) t.
Proof.
  intros [Hr Hb Hn Hbl Hcn]. split; try done.
  - intros Hc. specialize (Hr Hc). rewrite rb_ok_plug in *.
    by rewrite (cbal_swap _ _ _ a' k' a k), (cnrr_swap _ _ _ a' k' a k), (fits_swap _ _ _ _ a' k' a k).
  - intros Hc. rewrite (cbal_swap _ _ _ a' k' a k). auto.
  - by rewrite (cnrr_swap _ _ _ a' k' a k).
Qed.

Lemma croot_plug C t : croot C (ptr t) = ptr (plug C t).
Proof. revert t. induction C as [|f C IH]; intros t; [done|]. simpl. rewrite <- IH. by destruct f. Qed.

Lemma cell_below C1 c l a k C2 p : exists e, (a, e) ∈ ccells (C1 ++ FR c l a k :: C2) p.
Proof.
  revert p. induction C1 as [|f C1 IH]; intros p; [eexists; left|].
  destruct (IH (frame_ptr f)) as [e He]. exists e. destruct f; simpl; right; apply elem_of_app; by right.
Qed.

(** What [rb_take_out] achieves. *)
Definition takes_out fuel (old : addr) m (io : list (Z * addr)) : Prop :=
  exists m' C c t, rb_take_out fuel old m = Ok ((cptr C, c, ptr t), m') /\ zrep m' C t /\
    taken_out c C t /\ inorder (plug C t) = io.

Lemma take_out_one fuel m C c l old k r t :
  zrep m C (Nd c l old k r) -> rb_ok (plug C (Nd c l old k r)) ->
  (l = Lf /\ t = r) \/ (r = Lf /\ t = l) -> takes_out fuel old m (inorder (plug C t)).
Proof.
  intros Z Hok Ht. destruct (rb_unlink_run _ _ _ _ _ _ _ _ Z Ht) as (m' & Hu & H & Hr).
  exists m', C, c, t. split.
  - unfold rb_take_out, RB_LEFT, RB_RIGHT. zrd Z. zrd Z.
    destruct Ht as [[-> ->]|[-> ->]]; cbn [ptr] in *; rewrite ?Z.eqb_refl;
      [by rewrite (bind_ok _ _ _ _ _ Hu)|].
    destruct (ptr l =? NULL) eqn:Hl; [|by rewrite (bind_ok _ _ _ _ _ Hu)].
    apply Z.eqb_eq in Hl. rewrite Hl in *. by rewrite (bind_ok _ _ _ _ _ Hu).
  - split; [split; [by eapply (holds_app_l _ [_])|done]|]. split; [|done]. by eapply taken_out_ok.
Qed.

Lemma take_out_two fuel m C c l old k r :
  zrep m C (Nd c l old k r) -> rb_ok (plug C (Nd c l old k r)) -> l <> Lf -> r <> Lf ->
  (height r < fuel)%nat ->
  takes_out fuel old m (before C ++ inorder l ++ inorder r ++ after C).
Proof.
  intros Z Hok Hl Hr Hf. unfold takes_out, rb_take_out, RB_LEFT, RB_RIGHT, RB_PARENT. zrd Z. zrd Z.
  assert (Zr : zrep m (FR c l old k :: C) r) by (by apply zrep_frame).
  destruct (leftmost_run r fuel _ m Zr Hf Hr) as (Cm & cm & elm & km & rc & -> & Hbm & Hmin).
  set (C1 := Cm ++ FR c l old k :: C).
  assert (Z1 : zrep m C1 (Nd cm Lf elm km rc)).
  { apply zrep_plug. unfold C1. rewrite plug_app. by apply (proj1 (zrep_plug _ C _)). }
  assert ((ptr l =? NULL) = false) as ->.
  { destruct l; [done|]. eapply holds_not_null; [exact (proj1 Z)|in_cells]. }
  assert ((ptr (plug Cm (Nd cm Lf elm km rc)) =? NULL) = false) as ->.
  { destruct (plug Cm (Nd cm Lf elm km rc)) eqn:He; [done|]. by eapply zrep_null. }
  rewrite (bind_ok _ _ _ _ _ Hmin). cbv beta. rb_rd (proj1 Z1).
  destruct (rb_unlink_run _ _ _ _ _ _ _ rc Z1) as (m1 & Hu & H1 & Hr1); [by left|].
  rewrite (bind_ok _ _ _ _ _ Hu). cbv beta iota. rb_rd H1.
  assert (Hw : plug C1 rc = plug C (Nd c l old k (plug Cm rc))) by (unfold C1; by rewrite plug_app).
  eapply holds_perm in H1; [|apply perm_skip; rewrite cells_plug, Hw, <- cells_plug; reflexivity].
  rewrite croot_plug, Hw, <- croot_plug in Hr1.
  destruct (rb_replace_run _ _ _ _ _ _ _ _ _ H1 Hr1 Hl) as (m2 & Hrep & Z2).
  rewrite (bind_ok _ _ _ _ _ Hrep). cbv beta. cbn [rbe_key] in Z2.
  set (C2 := Cm ++ FR c l elm km :: C).
  assert (Hw2 : plug C2 rc = plug C (Nd c l elm km (plug Cm rc))) by (unfold C2; by rewrite plug_app).
  exists m2, C2, cm, rc. split; [|split; [|split]].
  - unfold ret. do 4 f_equal. unfold C1, C2. destruct Cm as [|f Cm]; cbn; [by rewrite Z.eqb_refl|].
    destruct (cell_below Cm c l old k C (frame_ptr f)) as [e He].
    assert ((frame_ptr f =? old) = false) as ->; [|done].
    destruct Z1 as [Hh _]. unfold C1 in Hh.
    eapply holds_perm in Hh; [|apply Permutation_app_comm].
    destruct f as [cf af kf rf|cf lf af kf]; cbn [ccells app frame_ptr] in *.
    + eapply (holds_ne _ [(af, _)]); [|left|].
      * eapply (holds_app_l _ (cells af (Nd cm Lf elm km rc))). cbn [app]. exact Hh.
      * apply elem_of_app. by right.
    + eapply (holds_ne _ [(af, _)]); [|left|].
      * eapply (holds_app_l _ (cells af (Nd cm Lf elm km rc))). cbn [app]. exact Hh.
      * apply elem_of_app. by right.
  - apply zrep_plug. rewrite Hw2. by apply (proj1 (zrep_plug _ C _)).
  - apply (taken_out_swap _ _ _ _ old k). eapply (taken_out_ok _ _ Lf elm km rc); [|by left].
    unfold C1 in Z1. rewrite plug_app. done.
  - rewrite Hw2, !inorder_plug. simpl. rewrite !inorder_plug, Hbm. simpl. rewrite <- !app_assoc. simpl. by rewrite <- ?app_assoc.
Qed.

Lemma RB_REMOVE_run m C c l old k r :
  zrep m C (Nd c l old k r) -> rb_ok (plug C (Nd c l old k r)) ->
  fixed (RB_REMOVE old) m (before C ++ inorder l ++ inorder r ++ after C).
Proof.
  intros Z Hok. pose proof (zrep_size _ _ _ Z) as Hsz. pose proof (height_le r) as Hh. simpl in Hsz.
  rewrite length_app in Hsz. simpl in Hsz.
  assert (Htake : takes_out (S (size (rbe m))) old m (before C ++ inorder l ++ inorder r ++ after C)).
  { destruct l as [|cl ll al kl rl]; [|destruct r as [|cr rl0 ar kr rr]].
    - pose proof (take_out_one (S (size (rbe m))) _ _ _ _ _ _ _ r Z Hok ltac:(by left)) as Ht.
      by rewrite inorder_plug in Ht.
    - pose proof (take_out_one (S (size (rbe m))) _ _ _ _ _ _ _ (Nd cl ll al kl rl) Z Hok ltac:(by right)) as Ht.
      by rewrite inorder_plug in Ht.
    - apply (take_out_two _ _ _ _ _ _ _ _ Z Hok); try done. lia. }
  destruct Htake as (m1 & C1 & c1 & t1 & Hrun & Z1 & [Hred Hbal Hnrr Hblk Hcn] & Hi).
  unfold fixed, RB_REMOVE. erewrite bind_ok by reflexivity. rewrite (bind_ok _ _ _ _ _ Hrun), <- Hi. cbv beta iota.
  destruct c1.
  - rewrite bool_decide_eq_true_2 by done. cbn [when]. apply remove_color_run; auto.
    pose proof (f_equal length Hi) as Hlen. pose proof (plug_length C1 t1). rewrite !length_app in Hlen.
    pose proof (zrep_size _ _ _ (proj1 (zrep_plug _ _ _) Z)) as Hall.
    rewrite inorder_plug, !length_app in Hall. simpl in Hall. rewrite length_app in Hall. simpl in Hall. lia.
  - rewrite bool_decide_eq_false_2 by done. exists m1, (plug C1 t1).
    split; [done|]. split; [by apply (proj1 (zrep_plug _ _ _))|]. split; [by apply Hred|done].
Qed.

End removing.

(** * The sleep tree *)

(** The coroutines of the tree with their wake-up times, in order. *)
Fixpoint rb_walk (fuel : nat) (m : rb_head) (p : addr) : list (Z * addr) :=
  match fuel with
  | O => []
  | S fuel' =>
      if p =? NULL then []
      else match rbe m !! p with
           | None => []
           | Some e => rb_walk fuel' m (rbe_left e) ++ (rbe_key e, p) :: rb_walk fuel' m (rbe_right e)
           end
  end.

Definition rb_view (m : rb_head) : gmap Z addr :=
  list_to_map (rb_walk (S (size (rbe m))) m (rbh_root m)).

Record rb_tree (m : rb_head) (t : tree) : Prop := {
  rt_rep : zrep m [] t;
  rt_ok : rb_ok t;
  rt_ordered : ordered t
}.

Definition nonnull (a : addr) : option addr := if a =? NULL then None else Some a.

#[export] Instance rb_sleep_tree : SleepTree rb_head := {
  rb_init := RB_INIT;
  rb_is_empty := RB_EMPTY;
  rb_min m :=
    match RB_MIN m with
    | Ok (a, _) =>
        if a =? NULL then None
        else match rbe m !! a with Some e => Some (rbe_key e, a) | None => None end
    | Err _ => None
    end;
  rb_find k m := match RB_FIND k m with Ok (a, _) => nonnull a | Err _ => None end;
  rb_insert k a m :=
    match RB_INSERT a k m with Ok (r, m') => Ok (nonnull r, m') | Err e => Err e end;
  rb_remove k m :=
    match (let* a := RB_FIND k in RB_REMOVE a) m with Ok (_, m') => Ok m' | Err e => Err e end;
  st_view := rb_view;
  st_wf m := exists t, rb_tree m t
}.

Section sleep_tree.
Implicit Types (m : rb_head) (C : list frame) (t l r : tree).

Lemma rb_walk_run t : forall fuel C m, zrep m C t -> (height t < fuel)%nat -> rb_walk fuel m (ptr t) = inorder t.
Proof.
  induction t as [|c l IHl a k r IHr]; intros fuel C m Z Hf; (destruct fuel as [|fuel]; [lia|]); [done|].
  simpl in Hf. cbn [rb_walk ptr]. rewrite (zrep_null _ _ _ _ _ _ _ Z).
  rewrite (holds_cell _ _ (proj1 Z) a (mk_rbe (ptr l) (ptr r) (cptr C) c k)) by in_cells.
  cbn [rbe_left rbe_right rbe_key].
  rewrite (IHl _ (FL c a k r :: C)), (IHr _ (FR c l a k :: C)); try done; try lia; by apply zrep_frame.
Qed.

Lemma rb_view_tmap m t : rb_tree m t -> rb_view m = tmap t.
Proof.
  intros [Z Hok Ho]. unfold rb_view, tmap. rewrite (proj2 Z). cbn [croot].
  rewrite (rb_walk_run t _ [] m Z); [done|]. pose proof (zrep_size _ _ _ Z). pose proof (height_le t). simpl in *. lia.
Qed.

Lemma rb_view_lookup m t k : rb_tree m t -> rb_view m !! k = tfind k t.
Proof. intros H. rewrite (rb_view_tmap m t H). apply tmap_lookup, H. Qed.

Lemma tree_fuel m t : rb_tree m t -> (height t < S (size (rbe m)))%nat.
Proof. intros [Z _ _]. pose proof (zrep_size _ _ _ Z). pose proof (height_le t). simpl in *. lia. Qed.

Lemma tfind_not_null m t k a : rb_tree m t -> tfind k t = Some a -> nonnull a = Some a.
Proof.
  intros [Z _ Ho] Hf. apply tfind_in in Hf; [|done]. destruct (in_position _ _ _ Hf) as (C & c & l & r & ->).
  apply zrep_plug in Z. unfold nonnull. by rewrite (zrep_null _ _ _ _ _ _ _ Z).
Qed.

Lemma RB_FIND_run m t k : rb_tree m t -> RB_FIND k m = Ok (default NULL (rb_view m !! k), m).
Proof.
  intros H. unfold RB_FIND. erewrite bind_ok by reflexivity. rewrite (proj2 (rt_rep _ _ H)). cbn [croot].
  rewrite (find_loop_run k t _ []); [by rewrite (rb_view_lookup m t)|apply H|by apply tree_fuel].
Qed.

Lemma RB_MIN_run m t : rb_tree m t -> RB_MIN m = Ok (from_option snd NULL (head (inorder t)), m).
Proof.
  intros H. unfold RB_MIN. erewrite bind_ok by reflexivity. rewrite (proj2 (rt_rep _ _ H)). cbn [croot].
  apply (min_loop_run t _ []); [apply H|by apply tree_fuel].
Qed.

Lemma rb_tree_key m t k a : rb_tree m t -> (k, a) ∈ inorder t -> exists e, rbe m !! a = Some e /\ rbe_key e = k.
Proof.
  intros [Z _ _] Hi. destruct (in_position _ _ _ Hi) as (C & c & l & r & ->).
  apply zrep_plug in Z. eexists. split; [eapply holds_cell; [exact (proj1 Z)|in_cells]|done].
Qed.

Lemma rb_tree_insert m t k a :
  rb_tree m t -> a <> NULL -> (forall k', rb_view m !! k' <> Some a) ->
  exists m' t', rb_insert k a m = Ok (rb_view m !! k, m') /\ rb_tree m' t' /\
    rb_view m' = if rb_view m !! k then rb_view m else <[k := a]> (rb_view m).
Proof.
  intros H Ha Hnew. pose proof H as [Z Hok Ho]. simpl. rewrite (rb_view_lookup m t k H).
  assert (Hfresh : a ∉ (inorder t).*2).
  { intros ([k' a'] & -> & Hi)%list_elem_of_fmap. apply (Hnew k'). rewrite (rb_view_lookup m t k' H).
    by apply tfind_in. }
  pose proof (RB_INSERT_run m t a k Z Hok Ho Ha Hfresh) as Hr. destruct (tfind k t) as [b|] eqn:Hf.
  - exists m, t. rewrite Hr. by rewrite (tfind_not_null m t k b H Hf).
  - destruct Hr as (m' & t' & -> & Z' & Hok' & Ho' & HP). exists m', t'.
    assert (H' : rb_tree m' t') by (by split). split; [done|]. split; [done|].
    rewrite (rb_view_tmap m' t' H'), (rb_view_tmap m t H). unfold tmap.
    rewrite (list_to_map_proper (inorder t') ((k, a) :: inorder t)); [done|by apply sorted_nodup|done].
Qed.

Lemma rb_tree_remove m t k a :
  rb_tree m t -> rb_view m !! k = Some a ->
  exists m' t', rb_remove k m = Ok m' /\ rb_tree m' t' /\ rb_view m' = delete k (rb_view m).
Proof.
  intros H Hv. pose proof H as [Z Hok Ho]. simpl. rewrite (bind_ok _ _ _ _ _ (RB_FIND_run m t k H)), Hv. simpl.
  rewrite (rb_view_lookup m t k H) in Hv. apply tfind_in in Hv; [|done].
  destruct (in_position _ _ _ Hv) as (C & c & l & r & He). rewrite (rb_view_tmap m t H). subst t.
  apply zrep_plug in Z. destruct (RB_REMOVE_run m C c l a k r Z Hok) as (m' & t' & -> & Z' & Hok' & Hi).
  unfold ordered in Ho. rewrite inorder_plug in Ho. simpl in Ho. rewrite <- app_assoc in Ho. simpl in Ho.
  pose proof (sorted_nodup _ Ho) as Hnd. rewrite app_assoc in Ho, Hnd.
  apply StronglySorted_app in Ho as (Hx & Hs1 & Hs2). apply StronglySorted_cons in Hs2 as [Hs2 Hs3].
  assert (H' : rb_tree m' t').
  { split; try done. unfold ordered. rewrite Hi, app_assoc. apply StronglySorted_app. split_and!; try done.
    intros x y ? ?. apply Hx; [done|by right]. }
  exists m', t'. split; [done|]. split; [done|]. rewrite (rb_view_tmap m' t' H'). unfold tmap.
  rewrite Hi, inorder_plug. simpl. rewrite <- (app_assoc (inorder l)). simpl. rewrite !(app_assoc (before C)).
  set (L := before C ++ inorder l) in *. set (R := inorder r ++ after C) in *. clearbody L R.
  rewrite fmap_app in Hnd. simpl in Hnd. apply NoDup_app in Hnd as (_ & HL & HR).
  assert (k ∉ (L ++ R).*1).
  { rewrite fmap_app. intros [HkL|HkR]%elem_of_app; [by apply (HL k HkL); left|]. by apply NoDup_cons in HR as []. }
  rewrite (list_to_map_proper (L ++ (k, a) :: R) ((k, a) :: L ++ R)).
  - simpl. by rewrite delete_insert_id by (by apply not_elem_of_list_to_map_1).
  - rewrite <- Permutation_middle. simpl. constructor; [done|]. rewrite fmap_app in *.
    apply NoDup_cons in HR as [_ HR]. apply NoDup_app. split_and!; [|by intros y Hy ?; apply (HL y Hy); right|done].
    by apply sorted_nodup.
  - symmetry. apply Permutation_middle.
Qed.

#[export] Instance rb_sleep_tree_laws : SleepTreeLaws rb_head.
Proof.
  split.
  - split; [|done]. exists Lf. split; [|done|constructor]. split; [|done]. split; [by intros a e ?%elem_of_nil|constructor|].
    by intros ?%elem_of_nil.
  - intros m [t H]. simpl. rewrite (rb_view_tmap m t H). unfold RB_EMPTY. rewrite (proj2 (rt_rep _ _ H)). cbn [croot].
    destruct t as [|c l a k r]; [done|]. cbn [ptr]. rewrite (zrep_null _ _ _ _ _ _ _ (rt_rep _ _ H)).
    symmetry. apply bool_decide_eq_false_2. intros He.
    assert (Hk : tmap (Nd c l a k r) !! k = Some a); [|by rewrite He, lookup_empty in Hk].
    rewrite tmap_lookup by apply H. simpl. by rewrite Z.ltb_irrefl, Z.eqb_refl.
  - intros m [t H]. simpl. rewrite (RB_MIN_run m t H), (rb_view_tmap m t H).
    pose proof (rt_ordered _ _ H) as Ho. unfold ordered in Ho. destruct (inorder t) as [|[k a] L] eqn:Hi; simpl.
    + unfold tmap. by rewrite Hi.
    + assert (Hin : (k, a) ∈ inorder t) by (rewrite Hi; left).
      destruct (rb_tree_key m t k a H Hin) as (e & He & <-). apply (tfind_in _ _ _ (rt_ordered _ _ H)) in Hin as Hf.
      pose proof (tfind_not_null m t _ a H Hf) as Hn. unfold nonnull in Hn. destruct (a =? NULL); [done|].
      rewrite He. rewrite tmap_lookup by apply H. split; [done|]. intros k' [b Hb]. rewrite tmap_lookup in Hb by apply H.
      apply tfind_in in Hb; [|apply H]. rewrite Hi in Hb. apply StronglySorted_cons in Ho as [Ho _].
      rewrite Forall_forall in Ho. apply elem_of_cons in Hb as [[= -> ->]|Hb]; [lia|]. specialize (Ho _ Hb). simpl in Ho. lia.
  - intros m k [t H]. simpl. rewrite (RB_FIND_run m t k H). destruct (rb_view m !! k) as [a|] eqn:Hv; [|done].
    simpl. rewrite (rb_view_lookup m t k H) in Hv. by apply (tfind_not_null m t k a H).
  - intros m k a [t H] Ha Hnew. destruct (rb_tree_insert m t k a H Ha Hnew) as (m' & t' & Hr & H' & Hv).
    exists m'. split; [done|]. split; [by exists t'|done].
  - intros m k [t H] [a Hv]. destruct (rb_tree_remove m t k a H Hv) as (m' & t' & Hr & H' & Hv').
    exists m'. split; [done|]. split; [by exists t'|done].
Qed.

End sleep_tree.

(** ** Sequences of operations *)

Inductive top := TInsert (k : Z) (a : addr) | TRemove (k : Z) | TFind (k : Z) | TMin | TEmpty.
Inductive tout := OutNode (o : option addr) | OutMin (o : option (Z * addr)) | OutBool (b : bool) | OutDone.

Section sequences.
Context {T : Type} {st : SleepTree T}.

Definition run_top (o : top) (t : T) : res (tout * T) :=
  match o with
  | TInsert k a => match rb_insert k a t with Ok (r, t') => Ok (OutNode r, t') | Err e => Err e end
  | TRemove k => match rb_remove k t with Ok t' => Ok (OutDone, t') | Err e => Err e end
  | TFind k => Ok (OutNode (rb_find k t), t)
  | TMin => Ok (OutMin (rb_min t), t)
  | TEmpty => Ok (OutBool (rb_is_empty t), t)
  end.

Fixpoint run_tops (os : list top) (t : T) : res (list tout * T) :=
  match os with
  | [] => Ok ([], t)
  | o :: os' =>
      match run_top o t with
      | Err e => Err e
      | Ok (r, t') => match run_tops os' t' with Ok (rs, t'') => Ok (r :: rs, t'') | Err e => Err e end
      end
  end.

End sequences.

(** The same on a finite map; an insertion that finds its key leaves the map. *)
Definition spec_top (o : top) (mp : gmap Z addr) : tout * gmap Z addr :=
  match o with
  | TInsert k a => (OutNode (mp !! k), if mp !! k then mp else <[k := a]> mp)
  | TRemove k => (OutDone, delete k mp)
  | TFind k => (OutNode (mp !! k), mp)
  | TMin => (OutMin (map_min mp), mp)
  | TEmpty => (OutBool (bool_decide (mp = ∅)), mp)
  end.

Fixpoint spec_tops (os : list top) (mp : gmap Z addr) : list tout * gmap Z addr :=
  match os with
  | [] => ([], mp)
  | o :: os' => let '(r, mp') := spec_top o mp in let '(rs, mp'') := spec_tops os' mp' in (r :: rs, mp'')
  end.

(** A node is inserted while it is not in the tree, and a node that is in the
    tree is removed. *)
Definition top_legal (o : top) (mp : gmap Z addr) : bool :=
  match o with
  | TInsert k a => negb (a =? NULL) && bool_decide (map_Forall (fun _ b => b <> a) mp)
  | TRemove k => bool_decide (is_Some (mp !! k))
  | _ => true
  end.

Fixpoint tops_legal (os : list top) (mp : gmap Z addr) : bool :=
  match os with
  | [] => true
  | o :: os' => top_legal o mp && tops_legal os' (spec_top o mp).2
  end.

Section sequences_proofs.
Context {T : Type} {st : SleepTree T} {stl : SleepTreeLaws T}.

Lemma rb_min_map_min (t : T) : st_wf t -> rb_min t = map_min (st_view t).
Proof.
  intros Hwf. pose proof (rb_min_law t Hwf) as H1. pose proof (map_min_spec (st_view t)) as H2.
  destruct (rb_min t) as [[k a]|], (map_min (st_view t)) as [[k' a']|].
  - destruct H1 as [H1 Hm1], H2 as [H2 Hm2].
    assert (k = k') as <- by (apply Z.le_antisymm; [apply Hm1|apply Hm2]; by eexists). congruence.
  - destruct H1 as [H1 _]. by rewrite H2, lookup_empty in H1.
  - destruct H2 as [H2 _]. by rewrite H1, lookup_empty in H2.
  - done.
Qed.

Lemma run_top_spec o (t : T) :
  st_wf t -> top_legal o (st_view t) = true ->
  exists t', run_top o t = Ok ((spec_top o (st_view t)).1, t') /\ st_wf t' /\
    st_view t' = (spec_top o (st_view t)).2.
Proof.
  intros Hwf Hl. destruct o as [k a|k|k| |]; simpl in *.
  - apply andb_true_iff in Hl as [Ha Hl]. apply negb_true_iff, Z.eqb_neq in Ha. apply bool_decide_eq_true_1 in Hl.
    destruct (rb_insert_law t k a Hwf Ha) as (t' & -> & Hw' & Hv').
    { intros k' Hk'. by apply (Hl k' a Hk'). }
    eauto.
  - apply bool_decide_eq_true_1 in Hl. destruct (rb_remove_law t k Hwf Hl) as (t' & -> & Hw' & Hv'). eauto.
  - rewrite rb_find_law by done. eauto.
  - rewrite rb_min_map_min by done. eauto.
  - rewrite rb_empty_law by done. eauto.
Qed.

Lemma run_tops_spec os : forall t : T,
  st_wf t -> tops_legal os (st_view t) = true ->
  exists t', run_tops os t = Ok ((spec_tops os (st_view t)).1, t') /\ st_wf t' /\
    st_view t' = (spec_tops os (st_view t)).2.
Proof.
  induction os as [|o os IH]; intros t Hwf Hl; simpl in *; [eauto|].
  apply andb_true_iff in Hl as [Hl Hls]. destruct (run_top_spec o t Hwf Hl) as (t1 & -> & Hw1 & Hv1).
  destruct (spec_top o (st_view t)) as [r mp] eqn:Hs. simpl in *. subst mp.
  destruct (IH t1 Hw1 Hls) as (t2 & -> & Hw2 & Hv2). exists t2.
  by destruct (spec_tops os (st_view t1)).
Qed.

End sequences_proofs.

(** C3. The red-black tree implements ordered maps: from an empty tree, every
    sequence of [RB_INSERT], [RB_REMOVE], [RB_FIND], [RB_MIN] and [RB_EMPTY] in
    which a node is inserted while it is outside of the tree and removed while
    it is inside returns what the same sequence returns on a finite map; no
    null pointer is followed, every loop ends, and the memory holds a
    balanced search tree with the entries of that map at the end. *)
Theorem rb_tree_refines_map os :
  tops_legal os ∅ = true ->
  exists m', run_tops os RB_INIT = Ok ((spec_tops os ∅).1, m') /\
    (exists t, rb_tree m' t) /\ rb_view m' = (spec_tops os ∅).2.
Proof.
  intros Hl. destruct (rb_init_law (T := rb_head)) as [Hw Hv].
  destruct (run_tops_spec os rb_init Hw) as (m' & Hr & Hw' & Hv'); rewrite Hv in *; [done|].
  by exists m'.
Qed.

(** ** Balance *)

Section height.
Implicit Types t : tree.

Lemma height_bh t : bal t -> nrr t -> (height t <= 2 * bh t + (1 - weight (color t)))%nat.
Proof.
  induction t as [|c l IHl a k r IHr]; simpl; [lia|]. intros (Hl & Hr & Hbh) (Hnl & Hnr & Hred).
  specialize (IHl Hl Hnl). specialize (IHr Hr Hnr). destruct c; simpl.
  - destruct (color l), (color r); simpl in *; lia.
  - destruct (Hred eq_refl) as [Hcl Hcr]. rewrite Hcl, Hcr in *. simpl in *. lia.
Qed.

Lemma bh_size t : bal t -> (2 ^ bh t <= S (length (inorder t)))%nat.
Proof.
  induction t as [|c l IHl a k r IHr]; simpl; [lia|]. intros (Hl & Hr & Hbh).
  specialize (IHl Hl). specialize (IHr Hr). rewrite Hbh in *. rewrite length_app. simpl.
  destruct c; simpl; lia.
Qed.

Lemma height_log t : rb_ok t -> (height t <= 2 * Nat.log2 (S (length (inorder t))))%nat.
Proof.
  intros [Hb Hn Hc]. pose proof (height_bh t Hb Hn) as Hh. rewrite Hc in Hh. simpl in Hh.
  pose proof (Nat.log2_le_mono _ _ (bh_size t Hb)) as Hl. rewrite Nat.log2_pow2 in Hl by lia. lia.
Qed.

End height.

(** C37. Searching takes logarithmic time: on a well-formed tree of [n] sleepers the
    search loop of [RB_FIND] ends within [2 * log2 (n + 1) + 1] turns, with the
    coroutine that has the given wake-up time or null. *)
Theorem rb_search_logarithmic m t key :
  rb_tree m t ->
  rb_find_loop (S (2 * Nat.log2 (S (size (rb_view m))))) key (rbh_root m) m
    = Ok (default NULL (rb_view m !! key), m).
Proof.
  intros H. pose proof (height_log t (rt_ok _ _ H)) as Hh.
  assert (size (rb_view m) = length (inorder t)) as ->.
  { rewrite (rb_view_tmap m t H). unfold tmap. rewrite <- (length_fmap fst), <- size_dom, dom_list_to_map_L.
    apply size_list_to_set, sorted_nodup, H. }
  rewrite (proj2 (rt_rep _ _ H)), (rb_view_lookup m t key H). apply (find_loop_run key t _ []); [apply H|lia].
Qed.

(** ** Witnesses *)

Definition tops_demo : list top :=
  [TInsert 50 16; TInsert 20 32; TInsert 70 48; TInsert 10 64; TInsert 30 80; TInsert 60 96; TInsert 25 112;
   TInsert 28 128; TInsert 27 144; TInsert 50 160; TMin; TRemove 10; TRemove 50; TFind 27; TFind 50; TMin;
   TRemove 20; TRemove 70; TEmpty].

Lemma rb_tree_refines_map_witness :
  exists m', run_tops tops_demo RB_INIT = Ok ((spec_tops tops_demo ∅).1, m') /\
    (exists t, rb_tree m' t) /\ rb_view m' = (spec_tops tops_demo ∅).2.
Proof. apply (rb_tree_refines_map tops_demo). by vm_compute. Defined.

Definition rb_demo : tree :=
  Nd RB_BLACK (Nd RB_RED (Nd RB_BLACK Lf 16 10 Lf) 32 20 (Nd RB_BLACK Lf 48 30 Lf)) 64 40 (Nd RB_BLACK Lf 80 50 Lf).
Definition rb_demo_head : rb_head := mk_rb 64 (list_to_map (cells NULL rb_demo)).

Lemma rb_demo_ok : rb_tree rb_demo_head rb_demo.
Proof.
  split.
  - split; [|done]. split.
    + intros a e He. apply elem_of_list_to_map_1; [|done]. by apply (bool_decide_unpack _); vm_compute.
    + by apply (bool_decide_unpack _); vm_compute.
    + by apply (bool_decide_unpack _); vm_compute.
  - split; [simpl; lia|simpl; intuition|done].
  - unfold ordered. simpl. repeat (constructor; simpl; try lia).
Qed.

Lemma rb_search_logarithmic_witness :
  rb_find_loop (S (2 * Nat.log2 (S (size (rb_view rb_demo_head))))) 30 (rbh_root rb_demo_head) rb_demo_head
    = Ok (default NULL (rb_view rb_demo_head !! 30), rb_demo_head).
Proof. apply (rb_search_logarithmic rb_demo_head rb_demo 30). apply rb_demo_ok. Defined.
