(* ===== verification/World.v ===== *)
(** * The state of the program

    The structures of [include/dyco/dyco_coroutine.h], the interface to the
    operating system and the C library ([OS]), the state of one thread
    ([world]) and the accessors the components share.

    One thread is modelled: its scheduler is the value of the thread-specific
    key ([w_sched]).  Objects live in maps indexed by their address, so that
    an access to a freed object is the fault [FSegv].  The [ready_next] links
    of the coroutines are kept with the queue heads ([s_queues], file Queue),
    their saved contexts with the interpreter of context switches (file Run),
    and the pointer lists [dyco_sublist] and [freelist] are lists. *)
From S2P Require Import Prelude Htable Queue SleepTree.

Local Open Scope Z_scope.

(** ** Constants *)

Definition DYCO_MAX_EVENTS : Z := 1024.
Definition DYCO_MAX_STACKSIZE : Z := 64 * 1024.
Definition DYCO_DEFAULT_TIMEOUT : Z := 10000000.
Definition DYCO_DEFAULT_CHANNELSIZE : Z := 256.
Definition DYCO_URGENT_MAXEXEC : Z := 128.
Definition DYCO_URGENT_MAXWAIT : Z := 128.

(** The enumeration [dyco_coroutine_status]: bit numbers of the status word. *)
Definition COROUTINE_STATUS_NEW : Z := 0.
Definition COROUTINE_STATUS_READY : Z := 1.
Definition COROUTINE_STATUS_EXITED : Z := 2.
Definition COROUTINE_STATUS_RUNNING : Z := 3.
Definition COROUTINE_STATUS_SLEEPING : Z := 4.
Definition COROUTINE_STATUS_SCHEDCALL : Z := 5.
Definition COROUTINE_STATUS_KILLED : Z := 6.
Definition COROUTINE_FLAGS_URGENT : Z := 7.
Definition COROUTINE_FLAGS_OWNSTACK : Z := 8.
Definition COROUTINE_FLAGS_ALLOCSTACKMEM : Z := 9.
Definition COROUTINE_FLAGS_WAITING : Z := 10.
Definition COROUTINE_FLAGS_EXPIRED : Z := 11.
Definition COROUTINE_FLAGS_IOMULTIPLEXING : Z := 12.
Definition COROUTINE_FLAGS_WAITSIGNAL : Z := 13.
Definition COROUTINE_FLAGS_INCOROPOOL : Z := 14.
Definition COROUTINE_FLAGS_ASYMMETRIC : Z := 15.

(** [poll]/[epoll] event bits of the Linux interface. *)
Definition EPOLLIN : Z := 1.
Definition EPOLLOUT : Z := 4.
Definition EPOLLERR : Z := 8.
Definition EPOLLHUP : Z := 16.

Inductive dyco_schedcall_num := CALLNUM_SIGPROCMASK | CALLNUM_SCHED_STOP | CALLNUM_SCHED_ABORT.

Inductive dyco_schedule_status :=
  | SCHEDULE_STATUS_READY
  | SCHEDULE_STATUS_RUNNING
  | SCHEDULE_STATUS_STOPPED
  | SCHEDULE_STATUS_ABORTED
  | SCHEDULE_STATUS_DONE.

Inductive half_duplex_channel_status :=
  | HDC_STATUS_NOP
  | HDC_STATUS_EMPTY
  | HDC_STATUS_FULL
  | HDC_STATUS_WANTREAD
  | HDC_STATUS_WANTWRITE
  | HDC_STATUS_WANTCLOSE
  | HDC_STATUS_CANCLOSE.

Inductive dyco_pubsub_channel_status :=
  | PSC_STATUS_NOP
  | PSC_STATUS_EMPTY
  | PSC_STATUS_TRANS
  | PSC_STATUS_CLOSE.

#[export] Instance schedule_status_eq_dec : EqDecision dyco_schedule_status.
Proof. solve_decision. Defined.
#[export] Instance hdc_status_eq_dec : EqDecision half_duplex_channel_status.
Proof. solve_decision. Defined.
#[export] Instance psc_status_eq_dec : EqDecision dyco_pubsub_channel_status.
Proof. solve_decision. Defined.

(** ** The operating system and the C library

    [kernel] is the state of everything outside the program.  A call returns
    its result and the new kernel state; [os_epoll_wait] returns the number of
    events and the descriptors of the event list.  [os_malloc] is given the
    set of addresses in use and returns 0 when memory is exhausted. *)
Class OS := {
  kernel : Type;
  os_clock_gettime : kernel -> (Z * Z) * kernel;
  os_malloc : gset Z -> kernel -> addr * kernel;
  os_alloc_ok : kernel -> (nat -> bool) * kernel;
  os_epoll_create : kernel -> Z * kernel;
  os_epoll_add : Z -> Z -> Z -> kernel -> Z * kernel;
  os_epoll_del : Z -> Z -> kernel -> Z * kernel;
  os_epoll_wait : Z -> Z -> kernel -> (Z * list Z) * kernel;
  os_errno_eintr : kernel -> bool;
  os_poll : Z -> Z -> kernel -> Z * kernel;
  os_close : Z -> kernel -> Z * kernel;
  os_eventfd : kernel -> Z * kernel;
  os_eventfd_write : Z -> Z -> kernel -> Z * kernel;
  os_eventfd_read : Z -> kernel -> option Z * kernel;
  os_sigprocmask : Z -> Z -> kernel -> (Z * Z) * kernel;
  os_getpagesize : Z;
  os_stack_used : kernel -> Z
}.

(** ** Structures *)

(** [struct schedcall]; the argument is used by [CALLNUM_SIGPROCMASK] only: the
    pair of its [__how] and [__set], and the mask stored through its [__oset]. *)
Record schedcall := mk_schedcall {
  call_num : dyco_schedcall_num;
  call_ret : Z;
  call_arg : Z * Z;
  call_oset : Z
}.

(** [struct dyco_coroutine]. [co_stack] is the address of the stack buffer and
    [co_stack_buf] the bytes saved in it; [co_sched] is null until a scheduler
    adopts the coroutine. *)
Record dyco_coroutine := mk_co {
  co_func : Z;
  co_arg : Z;
  co_sched : addr;
  co_stack : addr;
  co_stack_buf : list Z;
  co_stack_size : Z;
  co_status : Z;
  co_sched_count : Z;
  co_sleep_usecs : Z;
  co_old_sigmask : Z;
  co_cid : Z;
  co_cpool : addr;
  co_udata : Z;
  co_epollfd : Z;
  co_sigfd : Z
}.

Definition set_co_func (x : Z) (r : dyco_coroutine) : dyco_coroutine :=
  mk_co x (co_arg r) (co_sched r) (co_stack r) (co_stack_buf r) (co_stack_size r) (co_status r)
    (co_sched_count r) (co_sleep_usecs r) (co_old_sigmask r) (co_cid r) (co_cpool r) (co_udata
    r) (co_epollfd r) (co_sigfd r).
Definition set_co_arg (x : Z) (r : dyco_coroutine) : dyco_coroutine :=
  mk_co (co_func r) x (co_sched r) (co_stack r) (co_stack_buf r) (co_stack_size r) (co_status r)
    (co_sched_count r) (co_sleep_usecs r) (co_old_sigmask r) (co_cid r) (co_cpool r) (co_udata
    r) (co_epollfd r) (co_sigfd r).
Definition set_co_sched (x : addr) (r : dyco_coroutine) : dyco_coroutine :=
  mk_co (co_func r) (co_arg r) x (co_stack r) (co_stack_buf r) (co_stack_size r) (co_status r)
    (co_sched_count r) (co_sleep_usecs r) (co_old_sigmask r) (co_cid r) (co_cpool r) (co_udata
    r) (co_epollfd r) (co_sigfd r).
Definition set_co_stack (x : addr) (r : dyco_coroutine) : dyco_coroutine :=
  mk_co (co_func r) (co_arg r) (co_sched r) x (co_stack_buf r) (co_stack_size r) (co_status r)
    (co_sched_count r) (co_sleep_usecs r) (co_old_sigmask r) (co_cid r) (co_cpool r) (co_udata
    r) (co_epollfd r) (co_sigfd r).
Definition set_co_stack_buf (x : list Z) (r : dyco_coroutine) : dyco_coroutine :=
  mk_co (co_func r) (co_arg r) (co_sched r) (co_stack r) x (co_stack_size r) (co_status r)
    (co_sched_count r) (co_sleep_usecs r) (co_old_sigmask r) (co_cid r) (co_cpool r) (co_udata
    r) (co_epollfd r) (co_sigfd r).
Definition set_co_stack_size (x : Z) (r : dyco_coroutine) : dyco_coroutine :=
  mk_co (co_func r) (co_arg r) (co_sched r) (co_stack r) (co_stack_buf r) x (co_status r)
    (co_sched_count r) (co_sleep_usecs r) (co_old_sigmask r) (co_cid r) (co_cpool r) (co_udata
    r) (co_epollfd r) (co_sigfd r).
Definition set_co_status (x : Z) (r : dyco_coroutine) : dyco_coroutine :=
  mk_co (co_func r) (co_arg r) (co_sched r) (co_stack r) (co_stack_buf r) (co_stack_size r) x
    (co_sched_count r) (co_sleep_usecs r) (co_old_sigmask r) (co_cid r) (co_cpool r) (co_udata
    r) (co_epollfd r) (co_sigfd r).
Definition set_co_sched_count (x : Z) (r : dyco_coroutine) : dyco_coroutine :=
  mk_co (co_func r) (co_arg r) (co_sched r) (co_stack r) (co_stack_buf r) (co_stack_size r)
    (co_status r) x (co_sleep_usecs r) (co_old_sigmask r) (co_cid r) (co_cpool r) (co_udata r)
    (co_epollfd r) (co_sigfd r).
Definition set_co_sleep_usecs (x : Z) (r : dyco_coroutine) : dyco_coroutine :=
  mk_co (co_func r) (co_arg r) (co_sched r) (co_stack r) (co_stack_buf r) (co_stack_size r)
    (co_status r) (co_sched_count r) x (co_old_sigmask r) (co_cid r) (co_cpool r) (co_udata r)
    (co_epollfd r) (co_sigfd r).
Definition set_co_old_sigmask (x : Z) (r : dyco_coroutine) : dyco_coroutine :=
  mk_co (co_func r) (co_arg r) (co_sched r) (co_stack r) (co_stack_buf r) (co_stack_size r)
    (co_status r) (co_sched_count r) (co_sleep_usecs r) x (co_cid r) (co_cpool r) (co_udata r)
    (co_epollfd r) (co_sigfd r).
Definition set_co_cid (x : Z) (r : dyco_coroutine) : dyco_coroutine :=
  mk_co (co_func r) (co_arg r) (co_sched r) (co_stack r) (co_stack_buf r) (co_stack_size r)
    (co_status r) (co_sched_count r) (co_sleep_usecs r) (co_old_sigmask r) x (co_cpool r)
    (co_udata r) (co_epollfd r) (co_sigfd r).
Definition set_co_cpool (x : addr) (r : dyco_coroutine) : dyco_coroutine :=
  mk_co (co_func r) (co_arg r) (co_sched r) (co_stack r) (co_stack_buf r) (co_stack_size r)
    (co_status r) (co_sched_count r) (co_sleep_usecs r) (co_old_sigmask r) (co_cid r) x
    (co_udata r) (co_epollfd r) (co_sigfd r).
Definition set_co_udata (x : Z) (r : dyco_coroutine) : dyco_coroutine :=
  mk_co (co_func r) (co_arg r) (co_sched r) (co_stack r) (co_stack_buf r) (co_stack_size r)
    (co_status r) (co_sched_count r) (co_sleep_usecs r) (co_old_sigmask r) (co_cid r) (co_cpool
    r) x (co_epollfd r) (co_sigfd r).
Definition set_co_epollfd (x : Z) (r : dyco_coroutine) : dyco_coroutine :=
  mk_co (co_func r) (co_arg r) (co_sched r) (co_stack r) (co_stack_buf r) (co_stack_size r)
    (co_status r) (co_sched_count r) (co_sleep_usecs r) (co_old_sigmask r) (co_cid r) (co_cpool
    r) (co_udata r) x (co_sigfd r).
Definition set_co_sigfd (x : Z) (r : dyco_coroutine) : dyco_coroutine :=
  mk_co (co_func r) (co_arg r) (co_sched r) (co_stack r) (co_stack_buf r) (co_stack_size r)
    (co_status r) (co_sched_count r) (co_sleep_usecs r) (co_old_sigmask r) (co_cid r) (co_cpool
    r) (co_udata r) (co_epollfd r) x.

(** [struct coroutinepool], [struct half_duplex_channel], [struct waitgroup],
    [struct pubsub_channel] and [struct semaphore]; the tail pointer of the
    semaphore queue is the last node of the list. *)
Record coroutinepool := mk_cp {
  cp_totalsize : Z;
  cp_activenum : Z;
  cp_stacksize : Z;
  cp_sublist : list Z;
  cp_freelist : list addr
}.

Definition set_cp_totalsize (x : Z) (r : coroutinepool) : coroutinepool :=
  mk_cp x (cp_activenum r) (cp_stacksize r) (cp_sublist r) (cp_freelist r).
Definition set_cp_activenum (x : Z) (r : coroutinepool) : coroutinepool :=
  mk_cp (cp_totalsize r) x (cp_stacksize r) (cp_sublist r) (cp_freelist r).
Definition set_cp_stacksize (x : Z) (r : coroutinepool) : coroutinepool :=
  mk_cp (cp_totalsize r) (cp_activenum r) x (cp_sublist r) (cp_freelist r).
Definition set_cp_sublist (x : list Z) (r : coroutinepool) : coroutinepool :=
  mk_cp (cp_totalsize r) (cp_activenum r) (cp_stacksize r) x (cp_freelist r).
Definition set_cp_freelist (x : list addr) (r : coroutinepool) : coroutinepool :=
  mk_cp (cp_totalsize r) (cp_activenum r) (cp_stacksize r) (cp_sublist r) x.

Record half_duplex_channel := mk_chan {
  ch_maxsize : Z;
  ch_msglen : Z;
  ch_msg : list Z;
  ch_r_notifyfd : Z;
  ch_w_notifyfd : Z;
  ch_status : half_duplex_channel_status
}.

Definition set_ch_maxsize (x : Z) (r : half_duplex_channel) : half_duplex_channel :=
  mk_chan x (ch_msglen r) (ch_msg r) (ch_r_notifyfd r) (ch_w_notifyfd r) (ch_status r).
Definition set_ch_msglen (x : Z) (r : half_duplex_channel) : half_duplex_channel :=
  mk_chan (ch_maxsize r) x (ch_msg r) (ch_r_notifyfd r) (ch_w_notifyfd r) (ch_status r).
Definition set_ch_msg (x : list Z) (r : half_duplex_channel) : half_duplex_channel :=
  mk_chan (ch_maxsize r) (ch_msglen r) x (ch_r_notifyfd r) (ch_w_notifyfd r) (ch_status r).
Definition set_ch_r_notifyfd (x : Z) (r : half_duplex_channel) : half_duplex_channel :=
  mk_chan (ch_maxsize r) (ch_msglen r) (ch_msg r) x (ch_w_notifyfd r) (ch_status r).
Definition set_ch_w_notifyfd (x : Z) (r : half_duplex_channel) : half_duplex_channel :=
  mk_chan (ch_maxsize r) (ch_msglen r) (ch_msg r) (ch_r_notifyfd r) x (ch_status r).
Definition set_ch_status (x : half_duplex_channel_status) (r : half_duplex_channel) :
    half_duplex_channel :=
  mk_chan (ch_maxsize r) (ch_msglen r) (ch_msg r) (ch_r_notifyfd r) (ch_w_notifyfd r) x.

Record waitgroup := mk_wg {
  wg_tot_size : Z;
  wg_finished : Z;
  wg_cid_set : @dyco_htable (list Z);
  wg_target_sublist_map : @dyco_htable (list Z);
  wg_final_sublist : list Z
}.

Definition set_wg_tot_size (x : Z) (r : waitgroup) : waitgroup :=
  mk_wg x (wg_finished r) (wg_cid_set r) (wg_target_sublist_map r) (wg_final_sublist r).
Definition set_wg_finished (x : Z) (r : waitgroup) : waitgroup :=
  mk_wg (wg_tot_size r) x (wg_cid_set r) (wg_target_sublist_map r) (wg_final_sublist r).
Definition set_wg_cid_set (x : @dyco_htable (list Z)) (r : waitgroup) : waitgroup :=
  mk_wg (wg_tot_size r) (wg_finished r) x (wg_target_sublist_map r) (wg_final_sublist r).
Definition set_wg_target_sublist_map (x : @dyco_htable (list Z)) (r : waitgroup) : waitgroup :=
  mk_wg (wg_tot_size r) (wg_finished r) (wg_cid_set r) x (wg_final_sublist r).
Definition set_wg_final_sublist (x : list Z) (r : waitgroup) : waitgroup :=
  mk_wg (wg_tot_size r) (wg_finished r) (wg_cid_set r) (wg_target_sublist_map r) x.

Record pubsub_channel := mk_psc {
  psc_maxsize : Z;
  psc_msglen : Z;
  psc_msg : list Z;
  psc_pub_notifyfd : Z;
  psc_sub_num : Z;
  psc_ack_rem : Z;
  psc_sublist : list Z;
  psc_status : dyco_pubsub_channel_status
}.

Definition set_psc_maxsize (x : Z) (r : pubsub_channel) : pubsub_channel :=
  mk_psc x (psc_msglen r) (psc_msg r) (psc_pub_notifyfd r) (psc_sub_num r) (psc_ack_rem r)
    (psc_sublist r) (psc_status r).
Definition set_psc_msglen (x : Z) (r : pubsub_channel) : pubsub_channel :=
  mk_psc (psc_maxsize r) x (psc_msg r) (psc_pub_notifyfd r) (psc_sub_num r) (psc_ack_rem r)
    (psc_sublist r) (psc_status r).
Definition set_psc_msg (x : list Z) (r : pubsub_channel) : pubsub_channel :=
  mk_psc (psc_maxsize r) (psc_msglen r) x (psc_pub_notifyfd r) (psc_sub_num r) (psc_ack_rem r)
    (psc_sublist r) (psc_status r).
Definition set_psc_pub_notifyfd (x : Z) (r : pubsub_channel) : pubsub_channel :=
  mk_psc (psc_maxsize r) (psc_msglen r) (psc_msg r) x (psc_sub_num r) (psc_ack_rem r)
    (psc_sublist r) (psc_status r).
Definition set_psc_sub_num (x : Z) (r : pubsub_channel) : pubsub_channel :=
  mk_psc (psc_maxsize r) (psc_msglen r) (psc_msg r) (psc_pub_notifyfd r) x (psc_ack_rem r)
    (psc_sublist r) (psc_status r).
Definition set_psc_ack_rem (x : Z) (r : pubsub_channel) : pubsub_channel :=
  mk_psc (psc_maxsize r) (psc_msglen r) (psc_msg r) (psc_pub_notifyfd r) (psc_sub_num r) x
    (psc_sublist r) (psc_status r).
Definition set_psc_sublist (x : list Z) (r : pubsub_channel) : pubsub_channel :=
  mk_psc (psc_maxsize r) (psc_msglen r) (psc_msg r) (psc_pub_notifyfd r) (psc_sub_num r)
    (psc_ack_rem r) x (psc_status r).
Definition set_psc_status (x : dyco_pubsub_channel_status) (r : pubsub_channel) : pubsub_channel
    :=
  mk_psc (psc_maxsize r) (psc_msglen r) (psc_msg r) (psc_pub_notifyfd r) (psc_sub_num r)
    (psc_ack_rem r) (psc_sublist r) x.

Record semaphore := mk_sem {
  sem_semval : Z;
  sem_wqueue : list Z
}.

Definition set_sem_semval (x : Z) (r : semaphore) : semaphore :=
  mk_sem x (sem_wqueue r).
Definition set_sem_wqueue (x : list Z) (r : semaphore) : semaphore :=
  mk_sem (sem_semval r) x.

Section world.
Context {os : OS} {T : Type} {st : SleepTree T}.

(** [struct dyco_schedule]; [s_queues] holds [urgent_ready] and [ready]. *)
Record dyco_schedule := mk_sched {
  s_epollfd : Z;
  s_stack : list Z;
  s_stack_size : Z;
  s_sched_id : Z;
  s_loopwait_timeout : Z;
  s_birth : Z;
  s_coro_count : Z;
  s_cid_gen : Z;
  s_curr_thread : addr;
  s_schedcall : schedcall;
  s_status : dyco_schedule_status;
  s_udata : Z;
  s_queues : qmem;
  s_sleeping : T;
  s_fd_co_map : @dyco_htable addr;
  s_cid_co_map : @dyco_htable addr
}.

Definition set_s_epollfd (x : Z) (r : dyco_schedule) : dyco_schedule :=
  mk_sched x (s_stack r) (s_stack_size r) (s_sched_id r) (s_loopwait_timeout r) (s_birth r)
    (s_coro_count r) (s_cid_gen r) (s_curr_thread r) (s_schedcall r) (s_status r) (s_udata r)
    (s_queues r) (s_sleeping r) (s_fd_co_map r) (s_cid_co_map r).
Definition set_s_stack (x : list Z) (r : dyco_schedule) : dyco_schedule :=
  mk_sched (s_epollfd r) x (s_stack_size r) (s_sched_id r) (s_loopwait_timeout r) (s_birth r)
    (s_coro_count r) (s_cid_gen r) (s_curr_thread r) (s_schedcall r) (s_status r) (s_udata r)
    (s_queues r) (s_sleeping r) (s_fd_co_map r) (s_cid_co_map r).
Definition set_s_stack_size (x : Z) (r : dyco_schedule) : dyco_schedule :=
  mk_sched (s_epollfd r) (s_stack r) x (s_sched_id r) (s_loopwait_timeout r) (s_birth r)
    (s_coro_count r) (s_cid_gen r) (s_curr_thread r) (s_schedcall r) (s_status r) (s_udata r)
    (s_queues r) (s_sleeping r) (s_fd_co_map r) (s_cid_co_map r).
Definition set_s_coro_count (x : Z) (r : dyco_schedule) : dyco_schedule :=
  mk_sched (s_epollfd r) (s_stack r) (s_stack_size r) (s_sched_id r) (s_loopwait_timeout r)
    (s_birth r) x (s_cid_gen r) (s_curr_thread r) (s_schedcall r) (s_status r) (s_udata r)
    (s_queues r) (s_sleeping r) (s_fd_co_map r) (s_cid_co_map r).
Definition set_s_cid_gen (x : Z) (r : dyco_schedule) : dyco_schedule :=
  mk_sched (s_epollfd r) (s_stack r) (s_stack_size r) (s_sched_id r) (s_loopwait_timeout r)
    (s_birth r) (s_coro_count r) x (s_curr_thread r) (s_schedcall r) (s_status r) (s_udata r)
    (s_queues r) (s_sleeping r) (s_fd_co_map r) (s_cid_co_map r).
Definition set_s_curr_thread (x : addr) (r : dyco_schedule) : dyco_schedule :=
  mk_sched (s_epollfd r) (s_stack r) (s_stack_size r) (s_sched_id r) (s_loopwait_timeout r)
    (s_birth r) (s_coro_count r) (s_cid_gen r) x (s_schedcall r) (s_status r) (s_udata r)
    (s_queues r) (s_sleeping r) (s_fd_co_map r) (s_cid_co_map r).
Definition set_s_schedcall (x : schedcall) (r : dyco_schedule) : dyco_schedule :=
  mk_sched (s_epollfd r) (s_stack r) (s_stack_size r) (s_sched_id r) (s_loopwait_timeout r)
    (s_birth r) (s_coro_count r) (s_cid_gen r) (s_curr_thread r) x (s_status r) (s_udata r)
    (s_queues r) (s_sleeping r) (s_fd_co_map r) (s_cid_co_map r).
Definition set_s_status (x : dyco_schedule_status) (r : dyco_schedule) : dyco_schedule :=
  mk_sched (s_epollfd r) (s_stack r) (s_stack_size r) (s_sched_id r) (s_loopwait_timeout r)
    (s_birth r) (s_coro_count r) (s_cid_gen r) (s_curr_thread r) (s_schedcall r) x (s_udata r)
    (s_queues r) (s_sleeping r) (s_fd_co_map r) (s_cid_co_map r).
Definition set_s_udata (x : Z) (r : dyco_schedule) : dyco_schedule :=
  mk_sched (s_epollfd r) (s_stack r) (s_stack_size r) (s_sched_id r) (s_loopwait_timeout r)
    (s_birth r) (s_coro_count r) (s_cid_gen r) (s_curr_thread r) (s_schedcall r) (s_status r) x
    (s_queues r) (s_sleeping r) (s_fd_co_map r) (s_cid_co_map r).
Definition set_s_queues (x : qmem) (r : dyco_schedule) : dyco_schedule :=
  mk_sched (s_epollfd r) (s_stack r) (s_stack_size r) (s_sched_id r) (s_loopwait_timeout r)
    (s_birth r) (s_coro_count r) (s_cid_gen r) (s_curr_thread r) (s_schedcall r) (s_status r)
    (s_udata r) x (s_sleeping r) (s_fd_co_map r) (s_cid_co_map r).
Definition set_s_sleeping (x : T) (r : dyco_schedule) : dyco_schedule :=
  mk_sched (s_epollfd r) (s_stack r) (s_stack_size r) (s_sched_id r) (s_loopwait_timeout r)
    (s_birth r) (s_coro_count r) (s_cid_gen r) (s_curr_thread r) (s_schedcall r) (s_status r)
    (s_udata r) (s_queues r) x (s_fd_co_map r) (s_cid_co_map r).
Definition set_s_fd_co_map (x : @dyco_htable addr) (r : dyco_schedule) : dyco_schedule :=
  mk_sched (s_epollfd r) (s_stack r) (s_stack_size r) (s_sched_id r) (s_loopwait_timeout r)
    (s_birth r) (s_coro_count r) (s_cid_gen r) (s_curr_thread r) (s_schedcall r) (s_status r)
    (s_udata r) (s_queues r) (s_sleeping r) x (s_cid_co_map r).
Definition set_s_cid_co_map (x : @dyco_htable addr) (r : dyco_schedule) : dyco_schedule :=
  mk_sched (s_epollfd r) (s_stack r) (s_stack_size r) (s_sched_id r) (s_loopwait_timeout r)
    (s_birth r) (s_coro_count r) (s_cid_gen r) (s_curr_thread r) (s_schedcall r) (s_status r)
    (s_udata r) (s_queues r) (s_sleeping r) (s_fd_co_map r) x.

Record world := mk_world {
  w_kern : kernel;
  w_sched_id_gen : Z;
  w_sched : option dyco_schedule;
  w_coros : gmap Z dyco_coroutine;
  w_pools : gmap Z coroutinepool;
  w_chans : gmap Z half_duplex_channel;
  w_groups : gmap Z waitgroup;
  w_pubsubs : gmap Z pubsub_channel;
  w_sems : gmap Z semaphore
}.

Definition set_w_kern (x : kernel) (r : world) : world :=
  mk_world x (w_sched_id_gen r) (w_sched r) (w_coros r) (w_pools r) (w_chans r) (w_groups r)
    (w_pubsubs r) (w_sems r).
Definition set_w_sched_id_gen (x : Z) (r : world) : world :=
  mk_world (w_kern r) x (w_sched r) (w_coros r) (w_pools r) (w_chans r) (w_groups r) (w_pubsubs
    r) (w_sems r).
Definition set_w_sched (x : option dyco_schedule) (r : world) : world :=
  mk_world (w_kern r) (w_sched_id_gen r) x (w_coros r) (w_pools r) (w_chans r) (w_groups r)
    (w_pubsubs r) (w_sems r).
Definition set_w_coros (x : gmap Z dyco_coroutine) (r : world) : world :=
  mk_world (w_kern r) (w_sched_id_gen r) (w_sched r) x (w_pools r) (w_chans r) (w_groups r)
    (w_pubsubs r) (w_sems r).
Definition set_w_pools (x : gmap Z coroutinepool) (r : world) : world :=
  mk_world (w_kern r) (w_sched_id_gen r) (w_sched r) (w_coros r) x (w_chans r) (w_groups r)
    (w_pubsubs r) (w_sems r).
Definition set_w_chans (x : gmap Z half_duplex_channel) (r : world) : world :=
  mk_world (w_kern r) (w_sched_id_gen r) (w_sched r) (w_coros r) (w_pools r) x (w_groups r)
    (w_pubsubs r) (w_sems r).
Definition set_w_groups (x : gmap Z waitgroup) (r : world) : world :=
  mk_world (w_kern r) (w_sched_id_gen r) (w_sched r) (w_coros r) (w_pools r) (w_chans r) x
    (w_pubsubs r) (w_sems r).
Definition set_w_pubsubs (x : gmap Z pubsub_channel) (r : world) : world :=
  mk_world (w_kern r) (w_sched_id_gen r) (w_sched r) (w_coros r) (w_pools r) (w_chans r)
    (w_groups r) x (w_sems r).
Definition set_w_sems (x : gmap Z semaphore) (r : world) : world :=
  mk_world (w_kern r) (w_sched_id_gen r) (w_sched r) (w_coros r) (w_pools r) (w_chans r)
    (w_groups r) (w_pubsubs r) x.

(** ** Accessors *)

Local Open Scope dyco_scope.

(** A system call. *)
Definition sys {A} (f : kernel -> A * kernel) : M world A :=
  fun w => let '(a, k) := f (w_kern w) in Ok (a, set_w_kern k w).

(** [get_sched]: the thread's scheduler, which may be null. *)
Definition get_sched : M world (option dyco_schedule) := gets w_sched.

(** The scheduler through a pointer that is dereferenced. *)
Definition the_sched : M world dyco_schedule :=
  let* s := get_sched in match s with Some s => ret s | None => throw FSegv end.

Definition upd_sched (f : dyco_schedule -> dyco_schedule) : M world unit :=
  let* s := the_sched in modify (set_w_sched (Some (f s))).

Definition getco (a : addr) : M world dyco_coroutine :=
  let* w := get_st in
  match w_coros w !! a with Some c => ret c | None => throw FSegv end.

Definition upd_co (a : addr) (f : dyco_coroutine -> dyco_coroutine) : M world unit :=
  let* c := getco a in modify (fun w => set_w_coros (<[a := f c]> (w_coros w)) w).

(** [co->sched], dereferenced. *)
Definition co_sched_of (a : addr) : M world dyco_schedule :=
  let* c := getco a in
  if co_sched c =? NULL then throw FSegv else the_sched.

Definition test_co (a : addr) (flag : Z) : M world bool :=
  let* c := getco a in ret (TESTBIT (co_status c) flag).
Definition set_flag (a : addr) (flag : Z) : M world unit :=
  upd_co a (fun c => set_co_status (SETBIT (co_status c) flag) c).
Definition clr_flag (a : addr) (flag : Z) : M world unit :=
  upd_co a (fun c => set_co_status (CLRBIT (co_status c) flag) c).

(** A result that is not in the state monad. *)
Definition lift {A} (r : res A) : M world A :=
  fun w => match r with Ok a => Ok (a, w) | Err e => Err e end.

(** [usec_now] and [diff_usecs] (unsigned 64-bit arithmetic). *)
Definition usec_now : M world Z :=
  let* (sec, nsec) := sys os_clock_gettime in
  ret (u64 (sec * 1000000 + nsec / 1000)).

Definition diff_usecs (t1 t2 : Z) : Z := u64 (t2 - t1).

(** Allocation of an object: a fresh address, or null. *)
Definition used_addrs (w : world) : gset Z :=
  dom (w_coros w) ∪ dom (w_pools w) ∪ dom (w_chans w) ∪ dom (w_groups w) ∪
  dom (w_pubsubs w) ∪ dom (w_sems w).

Definition malloc : M world addr :=
  let* w := get_st in sys (os_malloc (used_addrs w)).

End world.

(** ** Running the accessors *)
Section world_facts.
Context {os : OS} {T : Type} {st : SleepTree T}.
Local Abbreviation world := (@world os T).
Implicit Types (w : world) (s : @dyco_schedule T) (c : dyco_coroutine) (a : addr).

Lemma getco_run a c w : w_coros w !! a = Some c -> getco a w = Ok (c, w).
Proof. unfold getco, bind, get_st. by intros ->. Qed.

Lemma upd_co_run a f c w :
  w_coros w !! a = Some c -> upd_co a f w = Ok (tt, set_w_coros (<[a := f c]> (w_coros w)) w).
Proof. intros Hc. unfold upd_co, bind. by rewrite (getco_run a c w Hc). Qed.

Lemma test_co_run a flag c w :
  w_coros w !! a = Some c -> test_co a flag w = Ok (TESTBIT (co_status c) flag, w).
Proof. intros Hc. unfold test_co, bind. by rewrite (getco_run a c w Hc). Qed.

Lemma set_flag_run a flag c w :
  w_coros w !! a = Some c ->
  set_flag a flag w =
  Ok (tt, set_w_coros (<[a := set_co_status (SETBIT (co_status c) flag) c]> (w_coros w)) w).
Proof. intros Hc. exact (upd_co_run a _ c w Hc). Qed.

Lemma clr_flag_run a flag c w :
  w_coros w !! a = Some c ->
  clr_flag a flag w =
  Ok (tt, set_w_coros (<[a := set_co_status (CLRBIT (co_status c) flag) c]> (w_coros w)) w).
Proof. intros Hc. exact (upd_co_run a _ c w Hc). Qed.

Lemma get_sched_run w : get_sched w = Ok (w_sched w, w).
Proof. done. Qed.

Lemma the_sched_run s w : w_sched w = Some s -> the_sched w = Ok (s, w).
Proof. unfold the_sched, bind, get_sched, gets. by intros ->. Qed.

Lemma upd_sched_run f s w :
  w_sched w = Some s -> upd_sched f w = Ok (tt, set_w_sched (Some (f s)) w).
Proof. intros Hs. unfold upd_sched, bind. by rewrite (the_sched_run s w Hs). Qed.

Lemma co_sched_of_run a c s w :
  w_coros w !! a = Some c -> co_sched c <> NULL -> w_sched w = Some s ->
  co_sched_of a w = Ok (s, w).
Proof.
  intros Hc Hn Hs. unfold co_sched_of, bind. rewrite (getco_run a c w Hc).
  destruct (Z.eqb_spec (co_sched c) NULL); [done|]. by apply the_sched_run.
Qed.

Lemma sys_run {A} (f : kernel -> A * kernel) w x k :
  f (w_kern w) = (x, k) -> sys f w = Ok (x, set_w_kern k w).
Proof. unfold sys. by intros ->. Qed.

Lemma lift_run {A} (r : res A) x w : r = Ok x -> lift r w = Ok (x, w).
Proof. by intros ->. Qed.

Lemma malloc_run w p k :
  os_malloc (used_addrs w) (w_kern w) = (p, k) -> malloc w = Ok (p, set_w_kern k w).
Proof. intros Hm. unfold malloc, bind, get_st. by apply sys_run. Qed.

(** Two states that agree outside the scheduler, its coroutines and the
    kernel. *)
Definition same_outside w w' : Prop :=
  w_pools w' = w_pools w /\ w_chans w' = w_chans w /\ w_groups w' = w_groups w /\
  w_pubsubs w' = w_pubsubs w /\ w_sems w' = w_sems w.

Lemma same_outside_trans w1 w2 w3 : same_outside w1 w2 -> same_outside w2 w3 -> same_outside w1 w3.
Proof. unfold same_outside. intros (-> & -> & -> & -> & ->) (-> & -> & -> & -> & ->). done. Qed.

End world_facts.

(** Run the first operation of a sequence whose result is determined by the
    hypotheses. *)
Ltac mrun_side :=
  simpl; first [eassumption | apply lookup_insert_eq | reflexivity
    | rewrite lookup_insert_ne by congruence; eassumption].
Ltac mrun :=
  erewrite bind_ok;
  [|first
     [ eapply the_sched_run; mrun_side
     | eapply getco_run; mrun_side
     | eapply test_co_run; mrun_side
     | eapply set_flag_run; mrun_side
     | eapply clr_flag_run; mrun_side
     | eapply upd_co_run; mrun_side
     | eapply upd_sched_run; mrun_side
     | eapply co_sched_of_run; [mrun_side|mrun_side|mrun_side]
     | eapply lift_run; mrun_side
     | eapply sys_run; mrun_side
     | eapply malloc_run; mrun_side
     | eapply get_sched_run
     | eassumption
     | reflexivity ]]; cbv beta iota.

(** The same, with the lemma that runs the operation. *)
Tactic Notation "mrun" "with" uconstr(lem) :=
  erewrite bind_ok; [|eapply lem; mrun_side]; cbv beta iota.
