(* ===== verification/SimOS.v ===== *)
(** * What the library relies on in the operating system

    [OSLaws] states the documented behaviour of the system calls the proofs
    use: [eventfd(2)] counters, the descriptors an eventfd returns and a close
    releases, [epoll_ctl(2)] registrations and the freshness of allocations.
    [sim] is a small executable system that satisfies it: a clock that
    advances at every reading, eventfd counters, epoll registrations and an
    allocator that does not fail. *)
From S2P Require Import Prelude Htable Queue SleepTree World.

Local Open Scope Z_scope.

(** [os_counter k fd]: the counter of the open eventfd [fd], if it is one. *)
Class OSLaws (os : OS) := {
  os_counter : kernel -> Z -> option Z;
  os_registered : kernel -> Z -> Z -> bool;
  eventfd_new k fd k' : os_eventfd k = (fd, k') -> fd <> -1 ->
    0 <= fd /\ os_counter k fd = None /\ os_counter k' fd = Some 0 /\
    (forall fd', fd' <> fd -> os_counter k' fd' = os_counter k fd') /\
    (forall ep, os_registered k' ep fd = false) /\
    (forall ep fd', os_registered k' ep fd' = os_registered k ep fd');
  eventfd_write_open k fd v n : os_counter k fd = Some n -> 0 <= v -> n + v < 2 ^ 64 - 1 ->
    exists k', os_eventfd_write fd v k = (0, k') /\ os_counter k' fd = Some (n + v) /\
    (forall fd', fd' <> fd -> os_counter k' fd' = os_counter k fd');
  eventfd_write_closed k fd v : os_counter k fd = None ->
    exists k', os_eventfd_write fd v k = (-1, k') /\
    forall fd', os_counter k' fd' = os_counter k fd';
  eventfd_counter_fd k fd n : os_counter k fd = Some n -> 0 <= fd;
  eventfd_read_positive k fd n : os_counter k fd = Some n -> 0 < n ->
    exists k', os_eventfd_read fd k = (Some n, k') /\ os_counter k' fd = Some 0 /\
    (forall fd', fd' <> fd -> os_counter k' fd' = os_counter k fd');
  eventfd_read_zero k fd : os_counter k fd = Some 0 ->
    exists k', os_eventfd_read fd k = (None, k') /\
    forall fd', os_counter k' fd' = os_counter k fd';
  close_eventfd k fd : os_counter (os_close fd k).2 fd = None /\
    (forall fd', fd' <> fd -> os_counter (os_close fd k).2 fd' = os_counter k fd');
  epoll_add_new k ep fd ev : os_registered k ep fd = false -> is_Some (os_counter k fd) ->
    exists k', os_epoll_add ep fd ev k = (0, k') /\
    (forall ep' fd', os_registered k' ep' fd' =
       bool_decide ((ep', fd') = (ep, fd)) || os_registered k ep' fd') /\
    (forall fd', os_counter k' fd' = os_counter k fd');
  epoll_del_registered k ep fd : os_registered k ep fd = true ->
    exists k', os_epoll_del ep fd k = (0, k') /\
    (forall ep' fd', os_registered k' ep' fd' =
       negb (bool_decide ((ep', fd') = (ep, fd))) && os_registered k ep' fd') /\
    (forall fd', os_counter k' fd' = os_counter k fd');
  epoll_del_unregistered k ep fd : os_registered k ep fd = false ->
    exists k', os_epoll_del ep fd k = (-1, k');
  malloc_fresh used k a k' : os_malloc used k = (a, k') -> a <> NULL -> a ∉ used;
  alloc_quiet k fd : os_counter (os_alloc_ok k).2 fd = os_counter k fd;
  alloc_registered k ep fd : os_registered (os_alloc_ok k).2 ep fd = os_registered k ep fd;
  malloc_quiet used k fd : os_counter (os_malloc used k).2 fd = os_counter k fd;
  malloc_registered used k ep fd :
    os_registered (os_malloc used k).2 ep fd = os_registered k ep fd;
  clock_quiet k fd : os_counter (os_clock_gettime k).2 fd = os_counter k fd;
  clock_registered k ep fd : os_registered (os_clock_gettime k).2 ep fd = os_registered k ep fd;
  poll_registered fd ev k ep fd' : os_registered (os_poll fd ev k).2 ep fd' = os_registered k ep fd'
}.

(** ** A simulated system *)

(** The part of the system that sockets and signals use. *)
Record sim_net := mk_net {
  n_open : gset Z;                (* open sockets, epoll and signal descriptors *)
  n_nonblock : gset Z;
  n_sent : gmap Z (list Z);       (* bytes taken from the program *)
  n_inbox : gmap Z (list Z);      (* bytes for the program *)
  n_room : Z;                     (* what one call of send takes at most *)
  n_errno : Z;
  n_mask : Z                      (* the signal mask *)
}.

Record sim_kernel := mk_kernel {
  k_clock : Z;                    (* nanoseconds *)
  k_next_fd : Z;
  k_counters : gmap Z Z;
  k_regs : gset (Z * Z);          (* (epoll descriptor, descriptor) *)
  k_net : sim_net
}.

Definition quiet_net : sim_net := mk_net ∅ ∅ ∅ ∅ 4 0 0.
Abbreviation mk_sim c n m r := (mk_kernel c n m r quiet_net).

Definition sim_tick : Z := 1000.  (* nanoseconds per reading of the clock *)

Definition set_clock (c : Z) (k : sim_kernel) : sim_kernel :=
  mk_kernel c (k_next_fd k) (k_counters k) (k_regs k) (k_net k).
Definition set_counters (m : gmap Z Z) (k : sim_kernel) : sim_kernel :=
  mk_kernel (k_clock k) (k_next_fd k) m (k_regs k) (k_net k).
Definition set_regs (r : gset (Z * Z)) (k : sim_kernel) : sim_kernel :=
  mk_kernel (k_clock k) (k_next_fd k) (k_counters k) r (k_net k).
Definition set_net (n : sim_net) (k : sim_kernel) : sim_kernel :=
  mk_kernel (k_clock k) (k_next_fd k) (k_counters k) (k_regs k) n.
Definition set_open (o : gset Z) (n : sim_net) : sim_net :=
  mk_net o (n_nonblock n) (n_sent n) (n_inbox n) (n_room n) (n_errno n) (n_mask n).
Definition set_mask (m : Z) (n : sim_net) : sim_net :=
  mk_net (n_open n) (n_nonblock n) (n_sent n) (n_inbox n) (n_room n) (n_errno n) m.

(** The registered descriptors whose counter is positive. *)
Definition sim_ready (ep : Z) (k : sim_kernel) : list Z :=
  (filter (fun p : Z * Z => p.1 = ep /\ 0 < default 0 (k_counters k !! p.2)) (elements (k_regs k))).*2.

(** Waiting without a ready descriptor lets the time pass. *)
Definition sim_epoll_wait (ep timeout : Z) (k : sim_kernel) : (Z * list Z) * sim_kernel :=
  let l := sim_ready ep k in
  match l with
  | [] => ((0, []), set_clock (k_clock k + timeout * 1000000) k)
  | _ => ((Z.of_nat (length l), l), k)
  end.

Definition sim_malloc (used : gset Z) (k : sim_kernel) : Z * sim_kernel :=
  (set_fold (fun a m => Z.max (a + 16) m) 16 used, k).

Definition sim_counter (k : sim_kernel) (fd : Z) : option Z :=
  if 0 <=? fd then k_counters k !! fd else None.

Definition sim_eventfd (k : sim_kernel) : Z * sim_kernel :=
  let fd := k_next_fd k in
  if decide (0 <= fd /\ k_counters k !! fd = None /\ set_Forall (fun p => p.2 <> fd) (k_regs k))
  then (fd, mk_kernel (k_clock k) (fd + 1) (<[fd := 0]> (k_counters k)) (k_regs k) (k_net k))
  else (-1, k).

Definition sim_eventfd_write (fd v : Z) (k : sim_kernel) : Z * sim_kernel :=
  match sim_counter k fd with
  | Some n =>
      if (0 <=? v) && (n + v <? 2 ^ 64 - 1)
      then (0, set_counters (<[fd := n + v]> (k_counters k)) k) else (-1, k)
  | None => (-1, k)
  end.

Definition sim_eventfd_read (fd : Z) (k : sim_kernel) : option Z * sim_kernel :=
  match sim_counter k fd with
  | Some n => if 0 <? n then (Some n, set_counters (<[fd := 0]> (k_counters k)) k) else (None, k)
  | None => (None, k)
  end.

(** A new socket, epoll or signal descriptor, if the next number is free. *)
Definition sim_open (k : sim_kernel) : Z * sim_kernel :=
  let fd := k_next_fd k in
  if decide (0 <= fd /\ fd ∉ n_open (k_net k))
  then (fd, mk_kernel (k_clock k) (fd + 1) (k_counters k) (k_regs k)
              (set_open ({[fd]} ∪ n_open (k_net k)) (k_net k)))
  else (-1, k).

(** [sigprocmask]: SIG_BLOCK is 0, SIG_UNBLOCK 1 and SIG_SETMASK 2. *)
Definition new_mask (how old set : Z) : Z :=
  if how =? 0 then Z.lor old set else if how =? 1 then Z.ldiff old set else set.

Definition sim_sigprocmask (how set : Z) (k : sim_kernel) : (Z * Z) * sim_kernel :=
  let old := n_mask (k_net k) in
  ((0, old), set_net (set_mask (new_mask how old set) (k_net k)) k).

Instance sim : OS := {
  kernel := sim_kernel;
  os_clock_gettime k :=
    ((k_clock k / 1000000000, k_clock k mod 1000000000), set_clock (k_clock k + sim_tick) k);
  os_malloc := sim_malloc;
  os_alloc_ok k := (fun _ => true, k);
  os_epoll_create := sim_open;
  os_epoll_add ep fd _ k :=
    if decide ((ep, fd) ∈ k_regs k) then (-1, k)
    else (0, set_regs ({[(ep, fd)]} ∪ k_regs k) k);
  os_epoll_del ep fd k :=
    if decide ((ep, fd) ∈ k_regs k) then (0, set_regs (k_regs k ∖ {[(ep, fd)]}) k) else (-1, k);
  os_epoll_wait := sim_epoll_wait;
  os_errno_eintr _ := false;
  os_poll fd _ k := (if 0 <? default 0 (k_counters k !! fd) then 1 else 0, k);
  os_close fd k :=
    (0, set_net (set_open (n_open (k_net k) ∖ {[fd]}) (k_net k))
          (set_regs (filter (fun p => p.2 <> fd) (k_regs k)) (set_counters (delete fd (k_counters k)) k)));
  os_eventfd := sim_eventfd;
  os_eventfd_write := sim_eventfd_write;
  os_eventfd_read := sim_eventfd_read;
  os_sigprocmask := sim_sigprocmask;
  os_getpagesize := 4096;
  os_stack_used _ := 64
}.

Lemma sim_counter_insert k fd n fd' :
  0 <= fd ->
  sim_counter (set_counters (<[fd := n]> (k_counters k)) k) fd' =
  if decide (fd' = fd) then Some n else sim_counter k fd'.
Proof.
  intros Hfd. unfold sim_counter. simpl. rewrite lookup_insert.
  destruct (Z.leb_spec 0 fd'), (decide (fd = fd')), (decide (fd' = fd)); congruence || lia.
Qed.

Lemma sim_counter_fd k fd n : sim_counter k fd = Some n -> 0 <= fd.
Proof. unfold sim_counter. destruct (Z.leb_spec 0 fd); [done|discriminate]. Qed.

Lemma sim_malloc_fresh (used : gset Z) k : (sim_malloc used k).1 ∉ used.
Proof.
  intros Hin. unfold sim_malloc in Hin. simpl in Hin.
  assert (Hle : forall a, a ∈ used -> a + 16 <= set_fold (fun a m => Z.max (a + 16) m) 16 used).
  { apply (set_fold_ind_L (fun r X => forall a, a ∈ X -> a + 16 <= r)).
    - intros a Ha. by apply elem_of_empty in Ha.
    - intros x X r _ IH a [->%elem_of_singleton|Ha]%elem_of_union; [lia|].
      specialize (IH a Ha). lia. }
  specialize (Hle _ Hin). lia.
Qed.

Lemma sim_malloc_not_null (used : gset Z) k : (sim_malloc used k).1 <> NULL.
Proof.
  unfold sim_malloc. simpl.
  assert (16 <= set_fold (fun a m => Z.max (a + 16) m) 16 used); [|unfold NULL; lia].
  apply (set_fold_ind_L (fun r _ => 16 <= r)); lia.
Qed.

Instance sim_laws : OSLaws sim.
Proof.
  refine {| os_counter := (sim_counter : @kernel sim -> Z -> option Z);
            os_registered (k : @kernel sim) ep fd := bool_decide ((ep, fd) ∈ k_regs k) |}; simpl.
  - intros k fd k'. unfold sim_eventfd. case_decide as Hd; [|by intros [= <- <-]].
    intros [= <- <-] _. destruct Hd as (H0 & Hn & Hr). split; [done|].
    unfold sim_counter; simpl. destruct (Z.leb_spec 0 (k_next_fd k)); [|lia].
    split_and!; [done|by rewrite lookup_insert_eq| | |done].
    + intros fd' Hne. destruct (0 <=? fd'); [|done]. by rewrite lookup_insert_ne.
    + intros ep. apply bool_decide_eq_false. intros Hin. by apply (Hr _ Hin).
  - intros k fd v n Hc Hv Hb. pose proof (sim_counter_fd _ _ _ Hc) as H0.
    unfold sim_eventfd_write. rewrite Hc.
    destruct (Z.leb_spec 0 v), (Z.ltb_spec (n + v) (2 ^ 64 - 1)); try lia. simpl.
    eexists; split; [reflexivity|]. split; [|intros fd' Hne];
      rewrite sim_counter_insert by done; by case_decide.
  - intros k fd v Hc. unfold sim_eventfd_write. rewrite Hc. eauto.
  - apply sim_counter_fd.
  - intros k fd n Hc Hn. pose proof (sim_counter_fd _ _ _ Hc) as H0.
    unfold sim_eventfd_read. rewrite Hc. destruct (Z.ltb_spec 0 n); [|lia].
    eexists; split; [reflexivity|]. split; [|intros fd' Hne];
      rewrite sim_counter_insert by done; by case_decide.
  - intros k fd Hc. unfold sim_eventfd_read. rewrite Hc. eauto.
  - intros k fd. unfold sim_counter; simpl. split; [destruct (0 <=? fd); [apply lookup_delete_eq|done]|].
    intros fd' Hne. by rewrite lookup_delete_ne.
  - intros k ep fd _ Hr%bool_decide_eq_false _. case_decide; [done|].
    eexists; split; [reflexivity|]. split; [|done]. intros ep' fd'. simpl.
    rewrite (bool_decide_ext _ _ (elem_of_union {[(ep, fd)]} (k_regs k) (ep', fd'))), bool_decide_or.
    f_equal. apply bool_decide_ext, elem_of_singleton.
  - intros k ep fd Hr%bool_decide_eq_true. case_decide; [|done].
    eexists; split; [reflexivity|]. split; [|done]. intros ep' fd'. simpl.
    rewrite (bool_decide_ext _ _ (elem_of_difference (k_regs k) {[(ep, fd)]} (ep', fd'))),
      bool_decide_and, bool_decide_not, andb_comm.
    do 2 f_equal. apply bool_decide_ext, elem_of_singleton.
  - intros k ep fd Hr%bool_decide_eq_false. case_decide; [done|]. eauto.
  - intros used k a k' Hm _. pose proof (sim_malloc_fresh used k) as Hf. by rewrite Hm in Hf.
  - done.
  - done.
  - done.
  - done.
  - done.
  - done.
  - done.
Defined.
