(* ===== verification/Schedule.v ===== *)
(** * The scheduler's timers, event registrations and lifetime

    The operations of [src/dyco_schedule.c] other than the abort of a
    scheduler (file Schedcall) and the main loop (file Run). *)
From S2P Require Import Prelude Htable Queue SleepTree World SimOS.

Local Open Scope Z_scope.
Local Open Scope dyco_scope.

Section schedule.
Context {os : OS} {T : Type} {st : SleepTree T}.
Local Abbreviation world := (@world os T).
Local Abbreviation dyco_schedule := (@dyco_schedule T).

(** ** Container operations on the state *)

Definition fd_map_insert (fd : Z) (co : addr) : M world Z :=
  let* ok := sys os_alloc_ok in
  let* s := the_sched in
  let* (r, h) := lift (htable_insert NULL ok (s_fd_co_map s) fd co) in
  upd_sched (set_s_fd_co_map h) ;;; ret r.

Definition fd_map_delete (fd : Z) : M world Z :=
  let* s := the_sched in
  let* (r, _, h) := lift (htable_delete NULL (s_fd_co_map s) fd) in
  upd_sched (set_s_fd_co_map h) ;;; ret r.

Definition cid_map_insert (cid : Z) (co : addr) : M world Z :=
  let* ok := sys os_alloc_ok in
  let* s := the_sched in
  let* (r, h) := lift (htable_insert NULL ok (s_cid_co_map s) cid co) in
  upd_sched (set_s_cid_co_map h) ;;; ret r.

Definition cid_map_delete (cid : Z) : M world Z :=
  let* s := the_sched in
  let* (r, _, h) := lift (htable_delete NULL (s_cid_co_map s) cid) in
  upd_sched (set_s_cid_co_map h) ;;; ret r.

Definition cid_map_find (cid : Z) : M world addr :=
  let* s := the_sched in lift (htable_find NULL (s_cid_co_map s) cid).

(** [TAILQ_INSERT_TAIL] of a coroutine on the queue its urgency selects,
    after [SETBIT(co->status, COROUTINE_STATUS_READY)]. *)
Definition make_ready (co : addr) : M world unit :=
  set_flag co COROUTINE_STATUS_READY ;;;
  let* urgent := test_co co COROUTINE_FLAGS_URGENT in
  upd_sched (fun s => set_s_queues
    (TAILQ_INSERT_TAIL (s_queues s) (if urgent then urgent_ready else ready) co) s).

(** [RB_REMOVE] of a coroutine that must be in the tree. *)
Definition remove_timer (co : addr) : M world unit :=
  let* c := getco co in
  let* s := the_sched in
  if decide (rb_find (co_sleep_usecs c) (s_sleeping s) = Some co) then
    let* t := lift (rb_remove (co_sleep_usecs c) (s_sleeping s)) in
    upd_sched (set_s_sleeping t)
  else throw FSegv.

(** [SCHEDULE_ISDONE]. *)
Definition SCHEDULE_ISDONE (s : dyco_schedule) : bool :=
  (count (s_fd_co_map s) =? 0) && rb_is_empty (s_sleeping s) &&
  TAILQ_EMPTY (s_queues s) ready && TAILQ_EMPTY (s_queues s) urgent_ready.

(** ** Timers *)

(** The coroutine whose timer has expired, or null. *)
Definition schedule_get_expired : M world addr :=
  let* s := the_sched in
  let* now := usec_now in
  let tdiff_usecs := diff_usecs (s_birth s) now in
  match rb_min (s_sleeping s) with
  | None => ret NULL
  | Some (_, co) =>
      let* c := getco co in
      if co_sleep_usecs c <=? tdiff_usecs then
        remove_timer co ;;;
        clr_flag co COROUTINE_STATUS_SLEEPING ;;;
        set_flag co COROUTINE_FLAGS_EXPIRED ;;;
        ret co
      else ret NULL
  end.

Definition schedule_min_timeout : M world Z :=
  let* s := the_sched in
  match rb_min (s_sleeping s) with
  | None => ret (s_loopwait_timeout s)
  | Some (_, co) =>
      let* c := getco co in
      let* now := usec_now in
      let now_relative_usecs := diff_usecs (s_birth s) now in
      ret (if now_relative_usecs <? co_sleep_usecs c
           then co_sleep_usecs c - now_relative_usecs else 0)
  end.

(** The insertion loop: an occupied wake-up time is moved by one
    microsecond. *)
Fixpoint insert_sleeping (fuel : nat) (co : addr) : M world unit :=
  match fuel with
  | O => throw FFuel
  | S fuel' =>
      let* c := getco co in
      let* s := the_sched in
      let* (co_tmp, t) := lift (rb_insert (co_sleep_usecs c) co (s_sleeping s)) in
      upd_sched (set_s_sleeping t) ;;;
      match co_tmp with
      | Some _ =>
          upd_co co (fun c => set_co_sleep_usecs (u64 (co_sleep_usecs c + 1)) c) ;;;
          insert_sleeping fuel' co
      | None =>
          set_flag co COROUTINE_STATUS_SLEEPING ;;;
          clr_flag co COROUTINE_FLAGS_EXPIRED
      end
  end.

(** [msecs * 1000u] is computed on 32 bits. *)
Definition sleep_duration (msecs : Z) : Z := u32 (msecs * 1000).

Definition schedule_sched_sleep (co : addr) (msecs : Z) : M world unit :=
  let* c := getco co in
  let* s := co_sched_of co in
  match rb_find (co_sleep_usecs c) (s_sleeping s) with
  | Some co_tmp => remove_timer co_tmp
  | None => ret tt
  end ;;;
  if msecs <=? 0 then ret tt
  else
    let* now := usec_now in
    upd_co co (set_co_sleep_usecs (u64 (diff_usecs (s_birth s) now + sleep_duration msecs))) ;;;
    let* s := the_sched in
    insert_sleeping (S (size (st_view (s_sleeping s)))) co.

Definition schedule_cancel_sleep (co : addr) : M world unit :=
  let* b := test_co co COROUTINE_STATUS_SLEEPING in
  when b (remove_timer co ;;; clr_flag co COROUTINE_STATUS_SLEEPING).

(** ** Events *)

Fixpoint epoll_wait_loop (fuel : nat) (epfd timeout : Z) : M world (Z * list Z) :=
  match fuel with
  | O => throw FFuel
  | S fuel' =>
      let* (nready, fds) := sys (os_epoll_wait epfd timeout) in
      if nready =? -1 then
        let* w := get_st in
        if os_errno_eintr (w_kern w) then epoll_wait_loop fuel' epfd timeout
        else throw FExit
      else ret (nready, fds)
  end.

(** The number of events and the descriptors of the event list; [fuel] bounds
    the retries after an interrupted [epoll_wait]. *)
Definition schedule_epoll_wait (fuel : nat) : M world (Z * list Z) :=
  let* s := the_sched in
  if (count (s_fd_co_map s) =? 0) && rb_is_empty (s_sleeping s) then ret (0, [])
  else if negb (TAILQ_EMPTY (s_queues s) ready) || negb (TAILQ_EMPTY (s_queues s) urgent_ready)
  then sys (os_epoll_wait (s_epollfd s) 0)
  else
    let* timeout := schedule_min_timeout in
    if timeout =? 0 then sys (os_epoll_wait (s_epollfd s) 0)
    else epoll_wait_loop fuel (s_epollfd s) (i32 (timeout / 1000)).

Definition schedule_get_waitco (fd : Z) : M world addr :=
  let* s := the_sched in lift (htable_find NULL (s_fd_co_map s) fd).

Definition schedule_cancel_wait (co : addr) (fd : Z) : M world Z :=
  let* b := test_co co COROUTINE_FLAGS_WAITING in
  if b then
    let* s := co_sched_of co in
    fd_map_delete fd ;;;
    clr_flag co COROUTINE_FLAGS_WAITING ;;;
    let* r := sys (os_epoll_del (s_epollfd s) fd) in
    DYCO_MUST (r =? 0) ;;;
    ret 0
  else ret 1.

(** The result of the insertion is only asserted, and assertions are
    disabled ([NDEBUG]). *)
Definition schedule_sched_wait (co : addr) (fd events : Z) : M world unit :=
  let* s := co_sched_of co in
  let* r := sys (os_epoll_add (s_epollfd s) fd events) in
  DYCO_MUST (r =? 0) ;;;
  fd_map_insert fd co ;;;
  set_flag co COROUTINE_FLAGS_WAITING.

Definition schedule_sched_waitR (co : addr) (fd : Z) : M world unit :=
  schedule_sched_wait co fd (Z.lor (Z.lor EPOLLIN EPOLLHUP) EPOLLERR).
Definition schedule_sched_waitW (co : addr) (fd : Z) : M world unit :=
  schedule_sched_wait co fd (Z.lor (Z.lor EPOLLOUT EPOLLHUP) EPOLLERR).
Definition schedule_sched_waitRW (co : addr) (fd : Z) : M world unit :=
  schedule_sched_wait co fd (Z.lor (Z.lor (Z.lor EPOLLIN EPOLLOUT) EPOLLHUP) EPOLLERR).

Definition schedule_stop : M world unit :=
  upd_sched (fun s => set_s_curr_thread NULL (set_s_status SCHEDULE_STATUS_STOPPED s)).

(** ** Creation and disposal *)

Definition new_queues : qmem :=
  TAILQ_INIT (TAILQ_INIT (mk_qmem (mk_qhead NULL (HeadFirst ready)) (mk_qhead NULL (HeadFirst ready)) ∅)
    urgent_ready) ready.

Definition dyco_schedule_create (stack_size loopwait_timeout : Z) : M world Z :=
  let* ok := sys os_alloc_ok in
  if negb (ok O) then ret (-1)
  else
    let* epollfd := sys os_epoll_create in
    DYCO_MUSTNOT (epollfd =? -1) ;;;
    let sched_stack_size := i32 (if stack_size =? 0 then DYCO_MAX_STACKSIZE else stack_size) in
    let size := u64 sched_stack_size in
    let* w := get_st in
    let sched_id := u32 (w_sched_id_gen w + 1) in
    put_st (set_w_sched_id_gen sched_id w) ;;;
    let* now := usec_now in
    let s := mk_sched epollfd (replicate (Z.to_nat size) 0) size sched_id
      (if loopwait_timeout =? 0 then DYCO_DEFAULT_TIMEOUT else loopwait_timeout) now 0 0 NULL
      (mk_schedcall CALLNUM_SIGPROCMASK 0 (0, 0) 0) SCHEDULE_STATUS_READY 0
      new_queues rb_init
      (snd (htable_init NULL (ok 1%nat) 0)) (snd (htable_init NULL (ok 2%nat) 0)) in
    modify (set_w_sched (Some s)) ;;;
    ret (i32 sched_id).

(** [dyco_schedule_free] on the scheduler of the thread; [close] of the epoll
    descriptor is skipped when the descriptor is not positive. *)
Definition dyco_schedule_free : M world unit :=
  let* s := the_sched in
  when (0 <? s_epollfd s) (let* _ := sys (os_close (s_epollfd s)) in ret tt) ;;;
  let* _ := lift (htable_clear (s_fd_co_map s)) in
  let* _ := lift (htable_clear (s_cid_co_map s)) in
  modify (set_w_sched None).

(** ** Accessors of the user interface *)

Definition dyco_schedule_schedID : M world Z :=
  let* s := get_sched in match s with None => ret (-1) | Some s => ret (i32 (s_sched_id s)) end.

Definition dyco_schedule_setUdata (udata : Z) : M world Z :=
  let* s := get_sched in
  match s with None => ret (-1) | Some s => upd_sched (set_s_udata udata) ;;; ret 0 end.

(** The out parameter is the second component of the result. *)
Definition dyco_schedule_getUdata : M world (Z * option Z) :=
  let* s := get_sched in
  match s with None => ret (-1, None) | Some s => ret (0, Some (s_udata s)) end.

Definition dyco_schedule_getCoroCount : M world Z :=
  let* s := get_sched in match s with None => ret (-1) | Some s => ret (i32 (s_coro_count s)) end.

End schedule.

(** * Correctness of the timers *)

Section timers.
Context {os : OS} {T : Type} {st : SleepTree T} {stl : SleepTreeLaws T}.
Local Abbreviation world := (@world os T).
Local Abbreviation dyco_schedule := (@dyco_schedule T).
Implicit Types (w : world) (s : dyco_schedule) (c : dyco_coroutine) (a : addr).

Definition sleeping_flag c : bool := TESTBIT (co_status c) COROUTINE_STATUS_SLEEPING.
Definition view s : gmap Z addr := st_view (s_sleeping s).

(** ** The invariant: the tree and the SLEEPING flags agree *)
Record timers_ok w s : Prop := {
  tm_wf : st_wf (s_sleeping s);
  tm_entry k a : view s !! k = Some a ->
    exists c, w_coros w !! a = Some c /\ co_sleep_usecs c = k /\ sleeping_flag c = true;
  tm_flag a c : w_coros w !! a = Some c -> sleeping_flag c = true ->
    view s !! co_sleep_usecs c = Some a
}.

Definition with_tree (t : T) s w : world := set_w_sched (Some (set_s_sleeping t s)) w.
Definition with_co a c w : world := set_w_coros (<[a := c]> (w_coros w)) w.

(** Flag updates as the code composes them. *)
Definition mark_awake c : dyco_coroutine :=
  set_co_status (CLRBIT (co_status c) COROUTINE_STATUS_SLEEPING) c.
Definition mark_expired c : dyco_coroutine :=
  set_co_status (SETBIT (co_status (mark_awake c)) COROUTINE_FLAGS_EXPIRED) c.
Definition mark_asleep (k : Z) c : dyco_coroutine :=
  set_co_sleep_usecs k (set_co_status (CLRBIT (SETBIT (co_status c) COROUTINE_STATUS_SLEEPING)
    COROUTINE_FLAGS_EXPIRED) c).

Lemma mark_awake_flag c : sleeping_flag (mark_awake c) = false.
Proof. unfold sleeping_flag. simpl. by rewrite TESTBIT_CLRBIT. Qed.

Lemma mark_expired_flag c : sleeping_flag (mark_expired c) = false.
Proof. unfold sleeping_flag. simpl. by rewrite TESTBIT_SETBIT, TESTBIT_CLRBIT. Qed.

Lemma mark_asleep_flag k c : sleeping_flag (mark_asleep k c) = true.
Proof. unfold sleeping_flag. simpl. by rewrite TESTBIT_CLRBIT, TESTBIT_SETBIT. Qed.

(** ** Removal *)

Lemma remove_timer_run a c s w :
  w_coros w !! a = Some c -> w_sched w = Some s -> st_wf (s_sleeping s) ->
  view s !! co_sleep_usecs c = Some a ->
  exists t, remove_timer a w = Ok (tt, with_tree t s w) /\ st_wf t /\
    st_view t = delete (co_sleep_usecs c) (view s).
Proof.
  intros Hc Hs Hwf Hv. destruct (rb_remove_law (s_sleeping s) (co_sleep_usecs c)) as (t & Ht & Hwt & Hvt);
    [done|unfold view in Hv; by rewrite Hv|].
  exists t. split; [|done]. unfold remove_timer.
  rewrite (bind_ok _ _ _ _ _ (getco_run a c w Hc)), (bind_ok _ _ _ _ _ (the_sched_run s w Hs)).
  rewrite decide_True by (by rewrite rb_find_law).
  rewrite (bind_ok _ _ _ _ _ (lift_run _ _ w Ht)). by apply upd_sched_run.
Qed.

(** A coroutine that is not in the tree cannot be removed from it. *)
Lemma remove_timer_absent a c s w :
  w_coros w !! a = Some c -> w_sched w = Some s -> st_wf (s_sleeping s) ->
  view s !! co_sleep_usecs c <> Some a -> remove_timer a w = Err FSegv.
Proof.
  intros Hc Hs Hwf Hv. unfold remove_timer.
  rewrite (bind_ok _ _ _ _ _ (getco_run a c w Hc)), (bind_ok _ _ _ _ _ (the_sched_run s w Hs)).
  by rewrite decide_False by (by rewrite rb_find_law).
Qed.

(** Taking one coroutine out of the tree and clearing its flag keeps the
    invariant, whatever else of its status changes. *)
Lemma timers_ok_remove w s a c c' t :
  timers_ok w s -> w_coros w !! a = Some c -> view s !! co_sleep_usecs c = Some a ->
  st_wf t -> st_view t = delete (co_sleep_usecs c) (view s) -> sleeping_flag c' = false ->
  timers_ok (with_co a c' (with_tree t s w)) (set_s_sleeping t s).
Proof.
  intros [Hwf He Hf] Hc Hv Hwt Hvt Hc'. split; unfold view; simpl; [done|..]; rewrite Hvt.
  - intros k b [Hk Hb]%lookup_delete_Some. destruct (He k b Hb) as (cb & Hcb & <- & Hfb).
    assert (a <> b) by congruence. exists cb. by rewrite lookup_insert_ne.
  - intros b cb [[<- <-]|[Hne Hcb]]%lookup_insert_Some Hfb; [congruence|].
    pose proof (Hf b cb Hcb Hfb). rewrite lookup_delete_ne; [done|]. intros Heq.
    rewrite Heq in Hv. congruence.
Qed.

Lemma schedule_cancel_sleep_run a c s w :
  w_coros w !! a = Some c -> w_sched w = Some s -> timers_ok w s ->
  exists t c', schedule_cancel_sleep a w = Ok (tt, with_co a c' (with_tree t s w)) /\
    timers_ok (with_co a c' (with_tree t s w)) (set_s_sleeping t s) /\
    st_view t = (if sleeping_flag c then delete (co_sleep_usecs c) (view s) else view s) /\
    c' = (if sleeping_flag c then mark_awake c else c).
Proof.
  intros Hc Hs Hok. unfold schedule_cancel_sleep.
  rewrite (bind_ok _ _ _ _ _ (test_co_run a _ c w Hc)). fold (sleeping_flag c).
  destruct (sleeping_flag c) eqn:Hfl.
  - pose proof (tm_flag _ _ Hok a c Hc Hfl) as Hv.
    destruct (remove_timer_run a c s w Hc Hs (tm_wf _ _ Hok) Hv) as (t & Hr & Hwt & Hvt).
    exists t, (mark_awake c). split_and!; [|eapply timers_ok_remove; eauto using mark_awake_flag|done..].
    simpl. rewrite (bind_ok _ _ _ _ _ Hr). by apply clr_flag_run.
  - exists (s_sleeping s), c.
    assert (Hw : with_co a c (with_tree (s_sleeping s) s w) = w).
    { unfold with_co, with_tree. rewrite insert_id by done. destruct w, s. simpl in *. by subst. }
    rewrite Hw. split_and!; [done| |done..]. by destruct s.
Qed.

(** ** Expiry *)

(** Microseconds since the birth of the scheduler at a reading of the clock. *)
Definition elapsed s (now : Z * Z) : Z :=
  diff_usecs (s_birth s) (u64 (now.1 * 1000000 + now.2 / 1000)).

Lemma usec_now_run w now k :
  os_clock_gettime (w_kern w) = (now, k) ->
  usec_now w = Ok (u64 (now.1 * 1000000 + now.2 / 1000), set_w_kern k w).
Proof.
  intros Hk. unfold usec_now. rewrite (bind_ok _ _ _ _ _ (sys_run _ w now k Hk)).
  by destruct now.
Qed.

Lemma schedule_get_expired_none s w now k :
  w_sched w = Some s -> timers_ok w s -> os_clock_gettime (w_kern w) = (now, k) ->
  (forall key, is_Some (view s !! key) -> elapsed s now < key) ->
  schedule_get_expired w = Ok (NULL, set_w_kern k w).
Proof.
  intros Hs Hok Hk Hnone. unfold schedule_get_expired.
  rewrite (bind_ok _ _ _ _ _ (the_sched_run s w Hs)), (bind_ok _ _ _ _ _ (usec_now_run w now k Hk)).
  pose proof (rb_min_law _ (tm_wf _ _ Hok)) as Hm.
  destruct (rb_min (s_sleeping s)) as [[key a]|]; [|done]. destruct Hm as [Hv _].
  destruct (tm_entry _ _ Hok key a Hv) as (c & Hc & Hkey & _).
  rewrite (bind_ok _ _ _ _ _ (getco_run a c (set_w_kern k w) Hc)), Hkey.
  fold (elapsed s now). destruct (Z.leb_spec key (elapsed s now)); [|done].
  specialize (Hnone key ltac:(by eexists)). lia.
Qed.

Lemma schedule_get_expired_some s w now k key a c :
  w_sched w = Some s -> timers_ok w s -> os_clock_gettime (w_kern w) = (now, k) ->
  view s !! key = Some a -> (forall key', is_Some (view s !! key') -> key <= key') ->
  key <= elapsed s now -> w_coros w !! a = Some c ->
  exists t, schedule_get_expired w =
      Ok (a, with_co a (mark_expired c) (with_tree t s (set_w_kern k w))) /\
    st_wf t /\ st_view t = delete key (view s).
Proof.
  intros Hs Hok Hk Hv Hmin Hle Hc. unfold schedule_get_expired.
  rewrite (bind_ok _ _ _ _ _ (the_sched_run s w Hs)), (bind_ok _ _ _ _ _ (usec_now_run w now k Hk)).
  pose proof (rb_min_law _ (tm_wf _ _ Hok)) as Hm.
  destruct (rb_min (s_sleeping s)) as [[key' a']|]; [|unfold view in Hv; by rewrite Hm, lookup_empty in Hv].
  destruct Hm as [Hv' Hmin'].
  assert (key' = key) as ->.
  { apply Z.le_antisymm; [apply Hmin'; by eexists|apply Hmin; by eexists]. }
  assert (a' = a) as -> by (unfold view in Hv; congruence).
  destruct (tm_entry _ _ Hok key a Hv) as (c0 & Hc0 & Hkey & _).
  assert (c0 = c) as -> by congruence.
  rewrite (bind_ok _ _ _ _ _ (getco_run a c (set_w_kern k w) Hc)).
  rewrite Hkey. fold (elapsed s now). destruct (Z.leb_spec key (elapsed s now)); [|lia].
  destruct (remove_timer_run a c s (set_w_kern k w)) as (t & Hr & Hwt & Hvt);
    [done|done|apply Hok|by rewrite Hkey|].
  exists t. rewrite Hkey in Hvt. split; [|done]. rewrite (bind_ok _ _ _ _ _ Hr).
  mrun. mrun. unfold with_co; simpl. by rewrite insert_insert_eq.
Qed.

(** ** Insertion *)

(** Moving the timer of [a] to a free key keeps the invariant, provided the
    key the coroutine carries is not the one of another sleeper. *)
Lemma timers_ok_insert w s a c c' t key :
  timers_ok w s -> w_coros w !! a = Some c ->
  (forall b, view s !! co_sleep_usecs c = Some b -> b = a) ->
  delete (co_sleep_usecs c) (view s) !! key = None ->
  st_wf t -> st_view t = <[key := a]> (delete (co_sleep_usecs c) (view s)) ->
  co_sleep_usecs c' = key -> sleeping_flag c' = true ->
  timers_ok (with_co a c' (with_tree t s w)) (set_s_sleeping t s).
Proof.
  intros [Hwf He Hf] Hc Hown Hfree Hwt Hvt Hk' Hc'.
  split; unfold view; simpl; [done|..]; rewrite Hvt.
  - intros k b [[<- <-]|[Hne [Hk Hb]%lookup_delete_Some]]%lookup_insert_Some.
    + exists c'. by rewrite lookup_insert_eq.
    + destruct (He k b Hb) as (cb & Hcb & <- & Hfb).
      assert (a <> b) by congruence. exists cb. by rewrite lookup_insert_ne.
  - intros b cb [[<- <-]|[Hne Hcb]]%lookup_insert_Some Hfb; [by rewrite Hk', lookup_insert_eq|].
    pose proof (Hf b cb Hcb Hfb) as Hb.
    assert (co_sleep_usecs c <> co_sleep_usecs cb)
      by (intros Heq; rewrite Heq in Hown; by apply Hne; rewrite (Hown b)).
    rewrite lookup_insert_ne, lookup_delete_ne; [done..|].
    intros ->. by rewrite lookup_delete_ne, Hb in Hfree.
Qed.

Lemma with_co_tree a c t s w : with_co a c (with_tree t s w) = with_tree t s (with_co a c w).
Proof. done. Qed.

(** The loop ends at the first free key, which it reaches within the size of
    the tree. *)
Lemma insert_sleeping_run j fuel a c s w :
  (j < fuel)%nat -> w_coros w !! a = Some c -> w_sched w = Some s -> st_wf (s_sleeping s) ->
  a <> NULL -> (forall k, view s !! k <> Some a) -> first_free (view s) (co_sleep_usecs c) j ->
  0 <= co_sleep_usecs c -> co_sleep_usecs c + Z.of_nat j < 2 ^ 64 ->
  exists t, insert_sleeping fuel a w =
      Ok (tt, with_co a (mark_asleep (co_sleep_usecs c + Z.of_nat j) c) (with_tree t s w)) /\
    st_wf t /\ st_view t = <[co_sleep_usecs c + Z.of_nat j := a]> (view s).
Proof.
  revert fuel c s w. induction j as [|j IH]; intros [|fuel] c s w Hj Hc Hs Hwf Ha Hnew Hff H0 Hlt;
    [lia| |lia|]; simpl; mrun; mrun;
    destruct (rb_insert_law (s_sleeping s) (co_sleep_usecs c) a Hwf Ha Hnew) as (t & Ht & Hwt & Hvt);
    unfold view in *; mrun; mrun.
  - destruct Hff as [Hn _]. rewrite Z.add_0_r in *. rewrite Hn in *.
    exists t. split_and!; [|done..]. mrun. erewrite clr_flag_run by mrun_side.
    unfold with_co, with_tree, mark_asleep. simpl. rewrite insert_insert_eq. by destruct c.
  - apply first_free_succ in Hff as [[b Hb] Hff]. rewrite Hb in *. mrun.
    rewrite u64_small by (unfold is_u64; lia).
    destruct (IH fuel (set_co_sleep_usecs (co_sleep_usecs c + 1) c) (set_s_sleeping t s)
      (with_co a (set_co_sleep_usecs (co_sleep_usecs c + 1) c) (with_tree t s w)))
      as (t' & Hr & Hwt' & Hvt'); simpl; try done; try lia.
    + apply lookup_insert_eq.
    + by rewrite Hvt.
    + by rewrite Hvt.
    + exists t'. unfold view in Hvt'. simpl in Hvt'. rewrite Hvt in Hvt'.
      replace (co_sleep_usecs c + Z.of_nat (S j)) with (co_sleep_usecs c + 1 + Z.of_nat j) by lia.
      split_and!; [|done..]. etrans; [exact Hr|]. simpl.
      unfold with_co, with_tree, mark_asleep; simpl. by rewrite insert_insert_eq.
Qed.

(** The first step of [schedule_sched_sleep]: whatever timer is set for the
    key the coroutine carries is taken out of the tree. *)
Lemma remove_stale_run w s key :
  w_sched w = Some s -> timers_ok w s ->
  exists t, match rb_find key (s_sleeping s) with
      | Some co_tmp => remove_timer co_tmp
      | None => ret tt
      end w = Ok (tt, with_tree t s w) /\ st_wf t /\ st_view t = delete key (view s).
Proof.
  intros Hs Hok. rewrite rb_find_law by apply Hok. fold (view s).
  destruct (view s !! key) as [b|] eqn:Hb.
  - destruct (tm_entry _ _ Hok key b Hb) as (cb & Hcb & Hk & _). subst key.
    apply remove_timer_run; [done..|apply Hok|done].
  - exists (s_sleeping s). split_and!; [|apply Hok|by rewrite delete_id].
    unfold ret, with_tree. destruct w, s; simpl in *. by subst.
Qed.

Definition deadline s (now : Z * Z) (msecs : Z) : Z := elapsed s now + sleep_duration msecs.

Lemma schedule_sched_sleep_run w s a c msecs now k :
  a <> NULL -> w_coros w !! a = Some c -> co_sched c <> NULL -> w_sched w = Some s -> timers_ok w s ->
  os_clock_gettime (w_kern w) = (now, k) -> 0 < msecs ->
  deadline s now msecs + Z.of_nat (size (view s)) < 2 ^ 64 ->
  let V := delete (co_sleep_usecs c) (view s) in
  exists t j, (j <= size (view s))%nat /\ first_free V (deadline s now msecs) j /\
    schedule_sched_sleep a msecs w =
      Ok (tt, with_co a (mark_asleep (deadline s now msecs + Z.of_nat j) c)
                (with_tree t s (set_w_kern k w))) /\
    st_wf t /\ st_view t = <[deadline s now msecs + Z.of_nat j := a]> V.
Proof.
  intros Ha Hc Hsc Hs Hok Hk Hm Hlt V. unfold schedule_sched_sleep. mrun. mrun.
  destruct (remove_stale_run w s (co_sleep_usecs c) Hs Hok) as (t & Hr & Hwt & Hvt). mrun.
  destruct (Z.leb_spec msecs 0); [lia|].
  erewrite bind_ok by (by apply usec_now_run). fold (elapsed s now). mrun. mrun.
  destruct (first_free_exists V (deadline s now msecs)) as (j & Hj & Hff).
  assert (Hsz : (size V <= size (view s))%nat) by (apply map_subseteq_size, delete_subseteq).
  assert (0 <= deadline s now msecs) as H0.
  { unfold deadline, elapsed, diff_usecs, sleep_duration.
    pose proof (u64_range (u64 (now.1 * 1000000 + now.2 / 1000) - s_birth s)).
    pose proof (u32_range (msecs * 1000)). unfold is_u64, is_u32 in *. lia. }
  assert (Hu : u64 (elapsed s now + sleep_duration msecs) = deadline s now msecs)
    by (apply u64_small; unfold is_u64, deadline in *; lia).
  rewrite Hu.
  destruct (insert_sleeping_run j (S (size (st_view t))) a (set_co_sleep_usecs (deadline s now msecs) c)
    (set_s_sleeping t s) (with_co a (set_co_sleep_usecs (deadline s now msecs) c)
      (with_tree t s (set_w_kern k w)))) as (t' & Hr' & Hwt' & Hvt'); simpl; try done; try lia.
  - rewrite Hvt. fold V. lia.
  - apply lookup_insert_eq.
  - intros key. unfold view; simpl. rewrite Hvt. intros [Hne Hv]%lookup_delete_Some.
    destruct (tm_entry _ _ Hok key a Hv) as (ca & Hca & Hkey & _). congruence.
  - unfold view; simpl. by rewrite Hvt.
  - exists t', j. unfold view in Hvt'; simpl in Hvt'. rewrite Hvt in Hvt'.
    split_and!; [lia|done| |done..]. etrans; [exact Hr'|].
    unfold with_co, with_tree, mark_asleep; simpl. by rewrite insert_insert_eq.
Qed.

(** The invariant as a decidable condition on the two maps. *)
Definition entry_ok w (k : Z) (a : addr) : Prop :=
  match w_coros w !! a with
  | Some c => co_sleep_usecs c = k /\ sleeping_flag c = true
  | None => False
  end.
#[global] Instance entry_ok_dec w k a : Decision (entry_ok w k a).
Proof. unfold entry_ok. destruct (w_coros w !! a); apply _. Defined.

Lemma timers_ok_intro w s :
  st_wf (s_sleeping s) -> map_Forall (entry_ok w) (view s) ->
  map_Forall (fun a c => sleeping_flag c = true -> view s !! co_sleep_usecs c = Some a) (w_coros w) ->
  timers_ok w s.
Proof.
  intros Hwf He Hf. split; [done| |intros a c; apply Hf].
  intros k a Hk. specialize (He k a Hk). unfold entry_ok in He.
  destruct (w_coros w !! a) as [c|]; [by exists c|done].
Qed.

(** ** Properties of the timers *)

(** C20. Setting a timer: when no other sleeper owns the key the coroutine
    carries, [schedule_sched_sleep] with a positive time returns, gives the
    coroutine the first free wake-up time from the deadline on, leaves every
    other timer as it was and keeps the tree and the flags consistent. *)
Theorem sleep_sets_timer w s a c msecs now k :
  a <> NULL -> w_coros w !! a = Some c -> co_sched c <> NULL -> w_sched w = Some s -> timers_ok w s ->
  (forall b, view s !! co_sleep_usecs c = Some b -> b = a) ->
  os_clock_gettime (w_kern w) = (now, k) -> 0 < msecs ->
  deadline s now msecs + Z.of_nat (size (view s)) < 2 ^ 64 ->
  exists w' s' c' j,
    schedule_sched_sleep a msecs w = Ok (tt, w') /\ w_sched w' = Some s' /\
    timers_ok w' s' /\ w_coros w' !! a = Some c' /\ sleeping_flag c' = true /\
    co_sleep_usecs c' = deadline s now msecs + Z.of_nat j /\
    first_free (delete (co_sleep_usecs c) (view s)) (deadline s now msecs) j /\
    (forall b, b <> a -> w_coros w' !! b = w_coros w !! b) /\
    (forall key b, b <> a -> view s' !! key = Some b <-> view s !! key = Some b).
Proof.
  intros Ha Hc Hsc Hs Hok Hown Hk Hm Hlt.
  destruct (schedule_sched_sleep_run w s a c msecs now k Ha Hc Hsc Hs Hok Hk Hm Hlt)
    as (t & j & Hj & Hff & Hrun & Hwt & Hvt).
  eexists _, (set_s_sleeping t s), _, j. split_and!;
    [exact Hrun|done| |apply lookup_insert_eq|apply mark_asleep_flag|done|done|..].
  - eapply (timers_ok_insert (set_w_kern k w)); try done; [by destruct Hok|apply Hff|apply mark_asleep_flag].
  - intros b Hb. by apply lookup_insert_ne.
  - intros key b Hb. unfold view at 1; simpl. rewrite Hvt. split.
    + intros [[_ ?]|[_ [_ ?]%lookup_delete_Some]]%lookup_insert_Some; congruence.
    + intros Hkey. assert (co_sleep_usecs c <> key) as Hne.
      { intros Heq. rewrite Heq in Hown. by apply Hb, Hown. }
      rewrite lookup_insert_ne, lookup_delete_ne; [done..|].
      intros Heq. destruct Hff as [Hn _]. by rewrite Heq, lookup_delete_ne, Hkey in Hn.
Qed.

(** A timer that is set and then cancelled leaves no trace: the coroutine
    is awake and the tree holds the timers of the other sleepers. *)
Theorem sleep_cancel_roundtrip w s a c msecs now k :
  a <> NULL -> w_coros w !! a = Some c -> co_sched c <> NULL -> w_sched w = Some s -> timers_ok w s ->
  sleeping_flag c = false -> view s !! co_sleep_usecs c = None ->
  os_clock_gettime (w_kern w) = (now, k) -> 0 < msecs ->
  deadline s now msecs + Z.of_nat (size (view s)) < 2 ^ 64 ->
  exists w' s' c',
    (schedule_sched_sleep a msecs ;;; schedule_cancel_sleep a)%dyco w = Ok (tt, w') /\
    w_sched w' = Some s' /\ view s' = view s /\ timers_ok w' s' /\
    w_coros w' !! a = Some c' /\ sleeping_flag c' = false.
Proof.
  intros Ha Hc Hsc Hs Hok Hfl Hnone Hk Hm Hlt.
  destruct (schedule_sched_sleep_run w s a c msecs now k Ha Hc Hsc Hs Hok Hk Hm Hlt)
    as (t & j & Hj & Hff & Hrun & Hwt & Hvt).
  assert (Hok' : timers_ok (with_co a (mark_asleep (deadline s now msecs + Z.of_nat j) c)
    (with_tree t s (set_w_kern k w))) (set_s_sleeping t s)).
  { eapply (timers_ok_insert (set_w_kern k w)); try done; [by destruct Hok|congruence|apply Hff|
      apply mark_asleep_flag]. }
  rewrite (bind_ok _ _ _ _ _ Hrun).
  edestruct (schedule_cancel_sleep_run a) as (t' & c' & Hc' & Hok'' & Hvt' & Hceq);
    [| |exact Hok'|]; [apply lookup_insert_eq|done|].
  rewrite mark_asleep_flag in Hvt', Hceq. subst c'.
  eexists _, (set_s_sleeping t' (set_s_sleeping t s)), _.
  split_and!; [exact Hc'|done| |exact Hok''|apply lookup_insert_eq|apply mark_awake_flag].
  unfold view in *; simpl. rewrite Hvt'. simpl. rewrite Hvt, delete_insert_id, delete_id; [done..|].
  apply Hff.
Qed.

(** [schedule_get_expired] delivers the sleepers in the order of their
    wake-up times: it returns the sleeper with the least wake-up time if that
    time has come, with its timer removed and its EXPIRED flag set, and null
    without touching a timer if it has not. *)
Theorem get_expired_earliest_first w s now k :
  w_sched w = Some s -> timers_ok w s -> os_clock_gettime (w_kern w) = (now, k) ->
  exists a w' s', schedule_get_expired w = Ok (a, w') /\ w_sched w' = Some s' /\ timers_ok w' s' /\
    match map_min (view s) with
    | Some (key, b) =>
        if key <=? elapsed s now then
          a = b /\ view s' = delete key (view s) /\
          (exists c, w_coros w !! a = Some c /\ w_coros w' !! a = Some (mark_expired c))
        else a = NULL /\ view s' = view s /\ w_coros w' = w_coros w
    | None => a = NULL /\ view s' = view s /\ w_coros w' = w_coros w
    end.
Proof.
  intros Hs Hok Hk. pose proof (map_min_spec (view s)) as Hmin.
  assert (Hok' : timers_ok (set_w_kern k w) s) by (by destruct Hok).
  destruct (map_min (view s)) as [[key b]|].
  - destruct Hmin as [Hv Hle]. destruct (tm_entry _ _ Hok key b Hv) as (c & Hc & Hkey & _).
    destruct (Z.leb_spec key (elapsed s now)) as [Hdue|Hnot].
    + destruct (schedule_get_expired_some s w now k key b c Hs Hok Hk Hv Hle Hdue Hc)
        as (t & Hr & Hwt & Hvt).
      eexists b, _, (set_s_sleeping t s). split_and!; [exact Hr|done| |done|done|].
      * apply (timers_ok_remove (set_w_kern k w) s b c); try done;
          [by rewrite Hkey|by rewrite Hkey|apply mark_expired_flag].
      * exists c. split; [done|apply lookup_insert_eq].
    + exists NULL, (set_w_kern k w), s. split_and!; [|done..].
      apply (schedule_get_expired_none s w now k Hs Hok Hk). intros key' Hk'.
      specialize (Hle _ Hk'). lia.
  - exists NULL, (set_w_kern k w), s. split_and!; [|done..].
    apply (schedule_get_expired_none s w now k Hs Hok Hk). intros key' [b Hb].
    by rewrite Hmin, lookup_empty in Hb.
Qed.

(** The key a coroutine carries from its previous timer is used to look for
    its own entry, so it can hit the timer of another sleeper: a call of
    [schedule_sched_sleep] that sets no timer (a wait without timeout) then
    takes the other sleeper out of the tree.  Its SLEEPING flag stays set, it
    will not expire, and its [schedule_cancel_sleep] removes a node that is not
    in the tree. *)
Theorem stale_key_evicts_sleeper w s a c b cb msecs :
  w_coros w !! a = Some c -> co_sched c <> NULL -> w_sched w = Some s -> timers_ok w s ->
  w_coros w !! b = Some cb -> sleeping_flag cb = true -> co_sleep_usecs cb = co_sleep_usecs c ->
  msecs <= 0 ->
  exists w' s', schedule_sched_sleep a msecs w = Ok (tt, w') /\ w_sched w' = Some s' /\
    w_coros w' = w_coros w /\ (forall key, view s' !! key <> Some b) /\
    schedule_cancel_sleep b w' = Err FSegv.
Proof.
  intros Hc Hsc Hs Hok Hb Hfl Hkey Hm. unfold schedule_sched_sleep. mrun. mrun.
  destruct (remove_stale_run w s (co_sleep_usecs c) Hs Hok) as (t & Hr & Hwt & Hvt). mrun.
  destruct (Z.leb_spec msecs 0); [|lia].
  eexists _, (set_s_sleeping t s). split_and!; [done..| |].
  - unfold view; simpl. intros key. rewrite Hvt. intros [Hne Hkb]%lookup_delete_Some.
    destruct (tm_entry _ _ Hok _ _ Hkb) as (cb' & Hb' & Hk' & _). congruence.
  - unfold schedule_cancel_sleep. mrun. fold (sleeping_flag cb). rewrite Hfl. simpl.
    unfold bind at 1. rewrite (remove_timer_absent b cb (set_s_sleeping t s)); try done.
    unfold view; simpl. by rewrite Hvt, Hkey, lookup_delete_eq.
Qed.

(** The time given to a timer, computed on 32 bits, is the requested one for
    every time below 2^32 microseconds and a shorter one beyond: a sleep of
    4294968 milliseconds, an hour and a quarter, takes less than a
    millisecond. *)
Theorem sleep_duration_exact_below_wrap :
  (forall msecs, 0 <= msecs <= 4294967 -> sleep_duration msecs = msecs * 1000) /\
  (forall msecs, 4294967 < msecs < 2 ^ 31 -> 0 <= sleep_duration msecs < msecs * 1000) /\
  sleep_duration 4294968 = 704.
Proof.
  split_and!; [| |done].
  - intros msecs H. apply u32_small. unfold is_u32. lia.
  - intros msecs H. pose proof (u32_range (msecs * 1000)) as [H0 H1].
    unfold sleep_duration. lia.
Qed.

(** The earliest wake-up time, relative to the clock. *)
Lemma schedule_min_timeout_run w s now k :
  w_sched w = Some s -> timers_ok w s -> os_clock_gettime (w_kern w) = (now, k) ->
  exists r w', schedule_min_timeout w = Ok (r, w') /\
    match map_min (view s) with
    | Some (key, _) => r = Z.max 0 (key - elapsed s now) /\ w' = set_w_kern k w
    | None => r = s_loopwait_timeout s /\ w' = w
    end.
Proof.
  intros Hs Hok Hk. unfold schedule_min_timeout. mrun.
  pose proof (rb_min_law _ (tm_wf _ _ Hok)) as Hm. fold (view s) in Hm.
  pose proof (map_min_spec (view s)) as Hm'.
  destruct (rb_min (s_sleeping s)) as [[key a]|], (map_min (view s)) as [[key' b]|].
  - destruct Hm as [Hv Hle], Hm' as [Hv' Hle'].
    assert (key' = key) as -> by (apply Z.le_antisymm; [apply Hle'|apply Hle]; by eexists).
    destruct (tm_entry _ _ Hok key a Hv) as (c & Hc & Hkey & _). mrun.
    erewrite bind_ok by (by apply usec_now_run). fold (elapsed s now). rewrite Hkey.
    eexists _, _. split; [reflexivity|]. destruct (Z.ltb_spec (elapsed s now) key); split; [lia|done|lia|done].
  - rewrite Hm' in Hm. destruct Hm as [Hm _]. by rewrite lookup_empty in Hm.
  - rewrite Hm in Hm'. destruct Hm' as [Hm' _]. by rewrite lookup_empty in Hm'.
  - eauto.
Qed.

(** C23. With no coroutine ready and the earliest wake-up time [key], the first
    call of [epoll_wait] blocks for the whole milliseconds of [left], what is
    left until [key] at the last reading of the clock: never longer.  Its
    result is that of [schedule_epoll_wait] unless it fails.  When a signal
    interrupts it, the code does not read the clock again: it repeats the call
    with the same timeout, so that a timer may be late by the time spent in
    interrupted calls. *)
Theorem epoll_wait_respects_timers fuel w s now k key b nready fds k' :
  w_sched w = Some s -> timers_ok w s -> os_clock_gettime (w_kern w) = (now, k) ->
  TAILQ_EMPTY (s_queues s) ready = true -> TAILQ_EMPTY (s_queues s) urgent_ready = true ->
  map_min (view s) = Some (key, b) -> key - elapsed s now < 2 ^ 31 * 1000 ->
  let left := Z.max 0 (key - elapsed s now) in
  os_epoll_wait (s_epollfd s) (left / 1000) k = ((nready, fds), k') ->
  0 <= left / 1000 /\ left / 1000 * 1000 <= left < (left / 1000 + 1) * 1000 /\
  (nready <> -1 -> schedule_epoll_wait (S fuel) w = Ok ((nready, fds), set_w_kern k' w)) /\
  (nready = -1 -> 0 < left -> schedule_epoll_wait (S fuel) w =
     if os_errno_eintr k' then epoll_wait_loop fuel (s_epollfd s) (left / 1000) (set_w_kern k' w) else Err FExit).
Proof.
  intros Hs Hok Hk Hr Hu Hmin Hlt left Hep.
  assert (Hl : 0 <= left) by (unfold left; lia).
  split; [by apply Z.div_pos|]. split; [clearbody left; Z.to_euclidean_division_equations; lia|].
  assert (Hrun : schedule_epoll_wait (S fuel) w =
    if left =? 0 then Ok ((nready, fds), set_w_kern k' w)
    else epoll_wait_loop (S fuel) (s_epollfd s) (left / 1000) (set_w_kern k w)).
  { unfold schedule_epoll_wait. mrun. rewrite rb_empty_law, Hr, Hu by apply Hok. fold (view s).
    rewrite bool_decide_eq_false_2, andb_false_r.
    2: { intros Hemp. pose proof (map_min_spec (view s)) as Hm. rewrite Hmin in Hm.
         destruct Hm as [Hm _]. by rewrite Hemp, lookup_empty in Hm. }
    simpl. destruct (schedule_min_timeout_run w s now k Hs Hok Hk) as (r & w' & Hrun & Hres).
    rewrite Hmin in Hres. destruct Hres as [-> ->]. fold left in Hrun.
    rewrite (bind_ok _ _ _ _ _ Hrun). destruct (Z.eqb_spec left 0) as [H0|H0].
    - rewrite H0 in Hep. exact (sys_run _ (set_w_kern k w) _ k' Hep).
    - by rewrite i32_small by (unfold is_i32; pose proof (Z.div_pos left 1000);
        pose proof (Z.div_lt_upper_bound left 1000 (2 ^ 31)); lia). }
  rewrite Hrun. cbn [epoll_wait_loop].
  erewrite (bind_ok (sys _)) by (apply sys_run; exact Hep). cbv beta iota. split.
  - intros Hne. destruct (left =? 0); [done|]. by destruct (Z.eqb_spec nready (-1)).
  - intros -> Hpos. destruct (Z.eqb_spec left 0); [lia|]. 
    change (-1 =? -1) with true. cbv iota. erewrite (bind_ok get_st) by reflexivity.
    change (w_kern (set_w_kern k' (set_w_kern k w))) with k'. by destruct (os_errno_eintr k').
Qed.

End timers.

(** * Correctness of the event registrations *)

Section events.
Context {os : OS} {osl : OSLaws os} {T : Type} {st : SleepTree T}.
Local Abbreviation world := (@world os T).
Local Abbreviation dyco_schedule := (@dyco_schedule T).
Implicit Types (w : world) (s : dyco_schedule) (c : dyco_coroutine) (a : addr).

Definition waiting_flag c : bool := TESTBIT (co_status c) COROUTINE_FLAGS_WAITING.
Definition fds s : gmap Z addr := habs (s_fd_co_map s).

(** The wait map and the registrations of the scheduler's epoll set agree. *)
Record events_ok w s : Prop := {
  ev_wf : htable_wf (s_fd_co_map s);
  ev_entry fd a : fds s !! fd = Some a ->
    os_registered (w_kern w) (s_epollfd s) fd = true /\
    exists c, w_coros w !! a = Some c /\ waiting_flag c = true
}.

(** The memory of the hash tables is not exhausted. *)
Definition memory_ok (k : kernel) : Prop := forall j, (os_alloc_ok k).1 j = true.

Definition with_fds h s w : world := set_w_sched (Some (set_s_fd_co_map h s)) w.

Lemma fd_map_insert_run fd a s w :
  w_sched w = Some s -> htable_wf (s_fd_co_map s) -> memory_ok (w_kern w) -> fd <> 0 -> fd <> -1 ->
  exists r h, fd_map_insert fd a w = Ok (r, with_fds h s (set_w_kern (os_alloc_ok (w_kern w)).2 w)) /\
    htable_wf h /\ habs h = <[fd := a]> (fds s).
Proof.
  intros Hs Hwf Hmem H0 H1. unfold fd_map_insert.
  destruct (os_alloc_ok (w_kern w)) as [ok k] eqn:Hk. unfold memory_ok in Hmem. rewrite Hk in Hmem.
  destruct (htable_insert_spec NULL ok _ fd a Hwf Hmem H0 H1) as (h & Hh & Hwh & Hah).
  mrun. mrun. mrun. mrun. eexists _, h. split; [done|]. by split.
Qed.

Lemma fd_map_delete_run fd s w :
  w_sched w = Some s -> htable_wf (s_fd_co_map s) -> fd <> 0 -> fd <> -1 ->
  exists r h, fd_map_delete fd w = Ok (r, with_fds h s w) /\
    htable_wf h /\ habs h = delete fd (fds s).
Proof.
  intros Hs Hwf H0 H1. unfold fd_map_delete.
  destruct (htable_delete_spec NULL _ fd Hwf H0 H1) as (h & Hh & Hwh & Hah).
  mrun. mrun. mrun. eexists _, h. split; [done|]. by split.
Qed.

Lemma schedule_get_waitco_run fd s w :
  w_sched w = Some s -> htable_wf (s_fd_co_map s) -> fd <> 0 -> fd <> -1 ->
  schedule_get_waitco fd w = Ok (default NULL (fds s !! fd), w).
Proof.
  intros Hs Hwf H0 H1. unfold schedule_get_waitco. mrun.
  by apply lift_run, htable_find_spec.
Qed.

Definition mark_waiting c : dyco_coroutine :=
  set_co_status (SETBIT (co_status c) COROUTINE_FLAGS_WAITING) c.
Definition mark_unwaiting c : dyco_coroutine :=
  set_co_status (CLRBIT (co_status c) COROUTINE_FLAGS_WAITING) c.

(** The kernel after the two calls of a registration. *)
Definition after_wait s (fd events : Z) (k : kernel) : kernel :=
  (os_alloc_ok (os_epoll_add (s_epollfd s) fd events k).2).2.

(** The kernel accepts the descriptor. *)
Lemma schedule_sched_wait_added a fd events c s w :
  w_coros w !! a = Some c -> co_sched c <> NULL -> w_sched w = Some s -> htable_wf (s_fd_co_map s) ->
  (os_epoll_add (s_epollfd s) fd events (w_kern w)).1 = 0 ->
  memory_ok (os_epoll_add (s_epollfd s) fd events (w_kern w)).2 -> fd <> 0 -> fd <> -1 ->
  exists h, schedule_sched_wait a fd events w =
      Ok (tt, with_co a (mark_waiting c) (with_fds h s (set_w_kern (after_wait s fd events (w_kern w)) w))) /\
    htable_wf h /\ habs h = <[fd := a]> (fds s).
Proof.
  intros Hc Hsc Hs Hwf H0 Hmem Hn0 Hn1. unfold after_wait.
  destruct (os_epoll_add (s_epollfd s) fd events (w_kern w)) as [r k] eqn:Hk. simpl in H0, Hmem. subst r.
  unfold schedule_sched_wait. mrun. mrun. simpl. mrun.
  destruct (fd_map_insert_run fd a s (set_w_kern k w)) as (r & h & Hins & Hwh & Hah); try done.
  mrun. erewrite set_flag_run by mrun_side. by exists h.
Qed.

Lemma schedule_sched_wait_run a fd events c s w :
  w_coros w !! a = Some c -> co_sched c <> NULL -> w_sched w = Some s ->
  htable_wf (s_fd_co_map s) -> os_registered (w_kern w) (s_epollfd s) fd = false ->
  is_Some (os_counter (w_kern w) fd) ->
  memory_ok (os_epoll_add (s_epollfd s) fd events (w_kern w)).2 -> fd <> 0 ->
  let k := after_wait s fd events (w_kern w) in
  exists h, schedule_sched_wait a fd events w =
      Ok (tt, with_co a (mark_waiting c) (with_fds h s (set_w_kern k w))) /\
    htable_wf h /\ habs h = <[fd := a]> (fds s) /\
    (forall ep' fd', os_registered k ep' fd' =
      bool_decide ((ep', fd') = (s_epollfd s, fd)) || os_registered (w_kern w) ep' fd') /\
    (forall fd', os_counter k fd' = os_counter (w_kern w) fd').
Proof.
  intros Hc Hsc Hs Hwf Hreg [n Hn] Hmem H0 k'. pose proof (eventfd_counter_fd _ _ _ Hn).
  destruct (epoll_add_new (w_kern w) (s_epollfd s) fd events Hreg ltac:(by eexists))
    as (k & Hk & Hr & Hcnt).
  destruct (schedule_sched_wait_added a fd events c s w) as (h & Hrun & Hwh & Hah); try done; [by rewrite Hk|lia|].
  exists h. unfold k' in *. split_and!; [done..| |]; unfold after_wait; rewrite Hk; simpl.
  - intros ep' fd'. by rewrite alloc_registered.
  - intros fd'. by rewrite alloc_quiet.
Qed.

Lemma schedule_cancel_wait_run a fd c s w :
  w_coros w !! a = Some c -> co_sched c <> NULL -> w_sched w = Some s ->
  htable_wf (s_fd_co_map s) -> waiting_flag c = true ->
  os_registered (w_kern w) (s_epollfd s) fd = true -> fd <> 0 -> fd <> -1 ->
  exists h k, schedule_cancel_wait a fd w =
      Ok (0, set_w_kern k (with_co a (mark_unwaiting c) (with_fds h s w))) /\
    htable_wf h /\ habs h = delete fd (fds s) /\
    (forall ep' fd', os_registered k ep' fd' =
      negb (bool_decide ((ep', fd') = (s_epollfd s, fd))) && os_registered (w_kern w) ep' fd') /\
    (forall fd', os_counter k fd' = os_counter (w_kern w) fd') /\
    k = (os_epoll_del (s_epollfd s) fd (w_kern w)).2.
Proof.
  intros Hc Hsc Hs Hwf Hfl Hreg H0 H1. unfold schedule_cancel_wait. mrun.
  fold (waiting_flag c). rewrite Hfl. mrun.
  destruct (fd_map_delete_run fd s w Hs Hwf H0 H1) as (r & h & Hd & Hwh & Hah). mrun. mrun.
  destruct (epoll_del_registered (w_kern w) (s_epollfd s) fd Hreg) as (k & Hk & Hr & Hcnt).
  mrun. simpl. mrun. exists h, k. by rewrite Hk.
Qed.

(** A wait that is registered is found by its descriptor; cancelling it gives
    back the wait map, clears the WAITING flag and removes the descriptor from
    the epoll set. *)
Theorem wait_cancel_roundtrip a fd events c s w :
  w_coros w !! a = Some c -> co_sched c <> NULL -> w_sched w = Some s -> events_ok w s ->
  fds s !! fd = None -> os_registered (w_kern w) (s_epollfd s) fd = false ->
  is_Some (os_counter (w_kern w) fd) -> memory_ok (os_epoll_add (s_epollfd s) fd events (w_kern w)).2 -> fd <> 0 ->
  exists w1 w2 s2,
    schedule_sched_wait a fd events w = Ok (tt, w1) /\
    schedule_get_waitco fd w1 = Ok (a, w1) /\
    schedule_cancel_wait a fd w1 = Ok (0, w2) /\
    w_sched w2 = Some s2 /\ fds s2 = fds s /\
    w_coros w2 !! a = Some (mark_unwaiting (mark_waiting c)) /\
    os_registered (w_kern w2) (s_epollfd s2) fd = false /\
    (forall ep' fd', fd' <> fd -> os_registered (w_kern w2) ep' fd' = os_registered (w_kern w) ep' fd').
Proof.
  intros Hc Hsc Hs [Hwf Hent] Hnone Hreg Hcnt Hmem H0.
  assert (fd <> -1) as H1 by (destruct Hcnt as [n Hn]; pose proof (eventfd_counter_fd _ _ _ Hn); lia).
  destruct (schedule_sched_wait_run a fd events c s w) as (h & Hw & Hwh & Hah & Hr & _); try done.
  set (k := after_wait s fd events (w_kern w)) in *.
  destruct (schedule_cancel_wait_run a fd (mark_waiting c) (set_s_fd_co_map h s)
    (with_co a (mark_waiting c) (with_fds h s (set_w_kern k w))))
    as (h' & k' & Hw' & Hwh' & Hah' & Hr' & _); simpl; try done.
  - apply lookup_insert_eq.
  - unfold waiting_flag. simpl. by rewrite TESTBIT_SETBIT.
  - rewrite Hr. by rewrite bool_decide_eq_true_2.
  - eexists _, _, _. split_and!; [exact Hw| |exact Hw'|done|..].
    + erewrite schedule_get_waitco_run by done. unfold fds. simpl. by rewrite Hah, lookup_insert_eq.
    + unfold fds in *; simpl in *. by rewrite Hah', Hah, delete_insert_id.
    + apply lookup_insert_eq.
    + simpl. rewrite Hr'. by rewrite bool_decide_eq_true_2.
    + intros ep' fd' Hne. simpl. rewrite Hr', Hr.
      by rewrite !bool_decide_eq_false_2 by (by intros [=]).
Qed.

End events.

(** ** Concrete states *)

(** A thread with the sleepers [(address, status, wake-up time)]; all of them
    belong to the scheduler, whose tree holds [tree] and whose clock reads one
    second. *)
Definition ex_co (status key : Z) : dyco_coroutine :=
  mk_co 0 0 1 NULL [] 0 status 0 key 0 0 NULL 0 (-1) (-1).
Definition ex_sched (tree : gmap Z addr) : @dyco_schedule (gmap Z addr) :=
  mk_sched 3 [] 0 1 DYCO_DEFAULT_TIMEOUT 0 0 0 NULL (mk_schedcall CALLNUM_SIGPROCMASK 0 (0, 0) 0)
    SCHEDULE_STATUS_RUNNING 0 new_queues tree
    (snd (htable_init NULL true 1)) (snd (htable_init NULL true 1)).
Definition ex_kern : sim_kernel := mk_sim 1000000000 10 ∅ ∅.
Definition ex_world (tree : gmap Z addr) (coros : gmap Z dyco_coroutine) :
    @world sim (gmap Z addr) :=
  mk_world (os := sim) ex_kern 1 (Some (ex_sched tree)) coros ∅ ∅ ∅ ∅ ∅.

(** Coroutine 16 is awake and carries the key 1300000, at which 32 sleeps; 48
    sleeps until 900000. *)
Definition ex_tree : gmap Z addr := {[1300000 := 32; 900000 := 48]}.
Definition ex_coros : gmap Z dyco_coroutine :=
  {[16 := ex_co 0 1300000; 32 := ex_co 16 1300000; 48 := ex_co 16 900000; 64 := ex_co 0 5]}.

Lemma ex_timers_ok : timers_ok (ex_world ex_tree ex_coros) (ex_sched ex_tree).
Proof. apply timers_ok_intro; [done|refine (bool_decide_unpack _ _); by vm_compute..]. Qed.

Lemma sleep_sets_timer_witness :
  exists w' s' c' j,
    schedule_sched_sleep 64 300 (ex_world ex_tree ex_coros) = Ok (tt, w') /\
    w_sched w' = Some s' /\ timers_ok w' s' /\ w_coros w' !! 64 = Some c' /\
    sleeping_flag c' = true /\
    co_sleep_usecs c' = deadline (ex_sched ex_tree) (1, 0) 300 + Z.of_nat j /\
    first_free (delete 5 ex_tree) (deadline (ex_sched ex_tree) (1, 0) 300) j /\
    (forall b, b <> 64 -> w_coros w' !! b = ex_coros !! b) /\
    (forall key b, b <> 64 -> view s' !! key = Some b <-> ex_tree !! key = Some b).
Proof.
  refine (sleep_sets_timer (ex_world ex_tree ex_coros) (ex_sched ex_tree) 64 (ex_co 0 5) 300
    (1, 0) (set_clock 1000001000 ex_kern) _ _ _ _ _ _ _ _ _); try done; apply ex_timers_ok.
Defined.

Lemma sleep_cancel_roundtrip_witness :
  exists w' s' c',
    (schedule_sched_sleep 64 300 ;;; schedule_cancel_sleep 64) (ex_world ex_tree ex_coros)
      = Ok (tt, w') /\
    w_sched w' = Some s' /\ view s' = ex_tree /\ timers_ok w' s' /\
    w_coros w' !! 64 = Some c' /\ sleeping_flag c' = false.
Proof.
  refine (sleep_cancel_roundtrip (ex_world ex_tree ex_coros) (ex_sched ex_tree) 64 (ex_co 0 5) 300
    (1, 0) (set_clock 1000001000 ex_kern) _ _ _ _ _ _ _ _ _ _); try done; apply ex_timers_ok.
Defined.

Lemma get_expired_earliest_first_witness :
  exists a w' s', schedule_get_expired (ex_world ex_tree ex_coros) = Ok (a, w') /\
    w_sched w' = Some s' /\ timers_ok w' s' /\ a = 48 /\ view s' = delete 900000 ex_tree /\
    (exists c, ex_coros !! a = Some c /\ w_coros w' !! a = Some (mark_expired c)).
Proof.
  refine (get_expired_earliest_first (ex_world ex_tree ex_coros) (ex_sched ex_tree) (1, 0)
    (set_clock 1000001000 ex_kern) _ _ _); try done; apply ex_timers_ok.
Defined.

Lemma stale_key_evicts_sleeper_witness :
  exists w' s', schedule_sched_sleep 16 (-1) (ex_world ex_tree ex_coros) = Ok (tt, w') /\
    w_sched w' = Some s' /\ w_coros w' = ex_coros /\ (forall key, view s' !! key <> Some 32) /\
    schedule_cancel_sleep 32 w' = Err FSegv.
Proof.
  refine (stale_key_evicts_sleeper (ex_world ex_tree ex_coros) (ex_sched ex_tree) 16
    (ex_co 0 1300000) 32 (ex_co 16 1300000) (-1) _ _ _ _ _ _ _ _); try done; apply ex_timers_ok.
Defined.

(** Descriptor 7 is an eventfd; coroutine 64 waits for it. *)
Definition ex_evworld : @world sim (gmap Z addr) :=
  set_w_kern (mk_sim 1000000000 10 {[7 := 0]} ∅ : @kernel sim) (ex_world ∅ {[64 := ex_co 0 5]}).

Lemma ex_sched_fds t : htable_wf (s_fd_co_map (ex_sched t)) /\ fds (ex_sched t) = ∅.
Proof.
  unfold fds, ex_sched. cbn [s_fd_co_map]. destruct (htable_init_spec NULL 1) as (h & -> & Hwf & Hab). done.
Qed.

Lemma ex_sched_cids t :
  htable_wf (s_cid_co_map (ex_sched t)) /\ habs (s_cid_co_map (ex_sched t)) = ∅.
Proof.
  unfold ex_sched. cbn [s_cid_co_map]. destruct (htable_init_spec NULL 1) as (h & -> & Hwf & Hab). done.
Qed.

Lemma wait_cancel_roundtrip_witness :
  exists w1 w2 s2,
    schedule_sched_wait 64 7 EPOLLIN ex_evworld = Ok (tt, w1) /\
    schedule_get_waitco 7 w1 = Ok (64, w1) /\
    schedule_cancel_wait 64 7 w1 = Ok (0, w2) /\
    w_sched w2 = Some s2 /\ fds s2 = fds (ex_sched ∅) /\
    w_coros w2 !! 64 = Some (mark_unwaiting (mark_waiting (ex_co 0 5))) /\
    os_registered (w_kern w2) (s_epollfd s2) 7 = false /\
    (forall ep' fd', fd' <> 7 -> os_registered (w_kern w2) ep' fd' = os_registered (w_kern ex_evworld) ep' fd').
Proof.
  pose proof (ex_sched_fds ∅) as Hwf.
  refine (wait_cancel_roundtrip 64 7 EPOLLIN (ex_co 0 5) (ex_sched ∅) ex_evworld _ _ _ _ _ _ _ _ _);
    try done.
  split; [apply Hwf|]. intros fd a. by rewrite (proj2 Hwf), lookup_empty.
Defined.

Lemma epoll_wait_respects_timers_witness :
  exists k', schedule_epoll_wait 1 (ex_world {[1300000 := 32]} {[32 := ex_co 16 1300000]}) =
    Ok ((0, []), set_w_kern (k' : @kernel sim)
      (ex_world {[1300000 := 32]} {[32 := ex_co 16 1300000]})) /\
    300000 <= 300000 < 301000.
Proof.
  assert (Hok : timers_ok (ex_world {[1300000 := 32]} {[32 := ex_co 16 1300000]}) (ex_sched {[1300000 := 32]})).
  { apply timers_ok_intro; [done|refine (bool_decide_unpack _ _); by vm_compute..]. }
  pose proof (epoll_wait_respects_timers 0 (ex_world {[1300000 := 32]} {[32 := ex_co 16 1300000]})
    (ex_sched {[1300000 := 32]}) (1, 0) (set_clock 1000001000 ex_kern) 1300000 32 0 [] _ eq_refl Hok
    eq_refl eq_refl eq_refl eq_refl eq_refl eq_refl) as (_ & H1 & H2 & _).
  eexists. split; [by apply H2|exact H1].
Defined.
