(* ===== verification/TimerEquiv.v ===== *)
(** * Timers on the red-black tree and on a finite map

    The operations of the scheduler on its tree of sleepers behave on every
    implementation of the tree interface, in particular on the red-black tree
    of [sys_tree.h] (files RBTree, RBMap), exactly as they do on a finite map
    from wake-up times to coroutines. *)
From S2P Require Import Prelude Htable Queue SleepTree RBTree RBMap World SimOS Schedule.

Local Open Scope Z_scope.
Local Open Scope dyco_scope.

Section equiv.
Context {os : OS} {T : Type} {st : SleepTree T} {stl : SleepTreeLaws T}.
Local Abbreviation world := (@world os T).
Local Abbreviation dyco_schedule := (@dyco_schedule T).
Local Abbreviation world' := (@World.world os (gmap Z addr)).
Implicit Types (w : world) (s : dyco_schedule) (c : dyco_coroutine) (a : addr).

(** ** The same state with a map in place of the tree *)

Definition abs_sched s : @World.dyco_schedule (gmap Z addr) :=
  mk_sched (s_epollfd s) (s_stack s) (s_stack_size s) (s_sched_id s) (s_loopwait_timeout s) (s_birth s)
    (s_coro_count s) (s_cid_gen s) (s_curr_thread s) (s_schedcall s) (s_status s) (s_udata s) (s_queues s)
    (st_view (s_sleeping s)) (s_fd_co_map s) (s_cid_co_map s).

Definition abs_world w : world' :=
  mk_world (w_kern w) (w_sched_id_gen w) (abs_sched <$> w_sched w) (w_coros w) (w_pools w) (w_chans w)
    (w_groups w) (w_pubsubs w) (w_sems w).

(** [track g m m' Q w]: from [w] and from its abstraction the two computations
    make the same step, with results related by [g]. *)
Definition track {A A'} (g : A -> A') (m : M world A) (m' : M world' A') (Q : A -> world -> Prop) w : Prop :=
  match m w with
  | Ok (x, w1) => m' (abs_world w) = Ok (g x, abs_world w1) /\ Q x w1
  | Err e => m' (abs_world w) = Err e
  end.

Lemma track_bind {A A' B B'} (g : A -> A') (g2 : B -> B') m m' (k : A -> M world B) (k' : A' -> M world' B') Q w :
  track g m m' (fun x w1 => track g2 (k x) (k' (g x)) Q w1) w -> track g2 (bind m k) (bind m' k') Q w.
Proof.
  unfold track, bind. destruct (m w) as [[x w1]|e]; [|by intros ->]. by intros [-> H].
Qed.

Lemma track_ret {A A'} (g : A -> A') x (Q : A -> world -> Prop) w : Q x w -> track g (ret x) (ret (g x)) Q w.
Proof. by split. Qed.

Lemma track_throw {A A'} (g : A -> A') e (Q : A -> world -> Prop) w : track g (throw e) (throw e) Q w.
Proof. done. Qed.

Lemma track_mono {A A'} (g : A -> A') m m' (Q Q2 : A -> world -> Prop) w :
  track g m m' Q w -> (forall x w1, Q x w1 -> Q2 x w1) -> track g m m' Q2 w.
Proof. unfold track. destruct (m w) as [[x w1]|e]; [|done]. intros [-> H] HQ. auto. Qed.

Lemma track_getco a (Q : dyco_coroutine -> world -> Prop) w :
  (forall c, w_coros w !! a = Some c -> Q c w) -> track id (getco a) (getco a) Q w.
Proof.
  intros HQ. unfold track, getco, get_st, bind. simpl. destruct (w_coros w !! a) as [c|]; [|done]. by split; [|apply HQ].
Qed.

Lemma track_sched (Q : dyco_schedule -> world -> Prop) w :
  (forall s, w_sched w = Some s -> Q s w) -> track abs_sched the_sched the_sched Q w.
Proof.
  intros HQ. unfold track, the_sched, get_sched, gets, bind. simpl.
  destruct (w_sched w) as [s|]; [|done]. by split; [|apply HQ].
Qed.

Lemma track_upd_co a f (Q : unit -> world -> Prop) w :
  (forall c, w_coros w !! a = Some c -> Q tt (with_co a (f c) w)) -> track id (upd_co a f) (upd_co a f) Q w.
Proof.
  intros HQ. unfold upd_co. apply (track_bind id), track_getco. intros c Hc. by split; [|apply HQ].
Qed.

Lemma track_sys {A} (f : kernel -> A * kernel) (Q : A -> world -> Prop) w :
  Q (f (w_kern w)).1 (set_w_kern (f (w_kern w)).2 w) -> track id (sys f) (sys f) Q w.
Proof. unfold track, sys. simpl. by destruct (f (w_kern w)) as [x k]. Qed.

Lemma track_test_co a flag (Q : bool -> world -> Prop) w :
  (forall c, w_coros w !! a = Some c -> Q (TESTBIT (co_status c) flag) w) ->
  track id (test_co a flag) (test_co a flag) Q w.
Proof. intros HQ. apply (track_bind id), track_getco. intros c Hc. by split; [|apply HQ]. Qed.

(** ** The tree and its entries *)

(** Every entry of the tree is a coroutine that carries its key. *)
Record keyed w s : Prop := {
  ky_wf : st_wf (s_sleeping s);
  ky_entry k a : view s !! k = Some a -> exists c, w_coros w !! a = Some c /\ co_sleep_usecs c = k;
  ky_null : w_coros w !! NULL = None
}.

Definition timers_keyed w : Prop := exists s, w_sched w = Some s /\ keyed w s.

Lemma rb_min_abs s : st_wf (s_sleeping s) -> rb_min (s_sleeping (abs_sched s)) = rb_min (s_sleeping s).
Proof.
  intros Hwf. simpl. pose proof (rb_min_law _ Hwf) as H1. pose proof (map_min_spec (st_view (s_sleeping s))) as H2.
  destruct (rb_min (s_sleeping s)) as [[k a]|], (map_min (st_view (s_sleeping s))) as [[k' a']|]; try done.
  - destruct H1 as [H1 Hm1], H2 as [H2 Hm2]. assert (k' = k) as ->; [|congruence].
    specialize (Hm1 k' ltac:(by eexists)). specialize (Hm2 k ltac:(by eexists)). lia.
  - destruct H1 as [H1 _]. by rewrite H2, lookup_empty in H1.
  - destruct H2 as [H2 _]. by rewrite H1, lookup_empty in H2.
Qed.

Lemma abs_wf s : st_wf (s_sleeping (abs_sched s)).
Proof. done. Qed.

Lemma rb_find_abs s k : st_wf (s_sleeping s) -> rb_find k (s_sleeping (abs_sched s)) = rb_find k (s_sleeping s).
Proof. intros Hwf. simpl. by rewrite rb_find_law. Qed.

(** A change of a coroutine that is not in the tree, or that keeps its key. *)
Lemma keyed_co w s a c c' :
  keyed w s -> w_coros w !! a = Some c ->
  co_sleep_usecs c' = co_sleep_usecs c \/ (forall k, view s !! k <> Some a) -> keyed (with_co a c' w) s.
Proof.
  intros [Hwf He Hn] Hc Hk. split; [done| |].
  - intros k b Hb. simpl. destruct (decide (a = b)) as [<-|Hne].
    + rewrite lookup_insert_eq. exists c'. split; [done|]. destruct (He k a Hb) as (c0 & Hc0 & Hk0).
      destruct Hk as [Hk|Hk]; [|by destruct (Hk k)]. congruence.
    + rewrite lookup_insert_ne by done. by apply He.
  - simpl. rewrite lookup_insert_ne; [done|]. intros ->. congruence.
Qed.

(** The removal of a timer: the entry is gone, the coroutines are unchanged. *)
Lemma track_remove_timer a w s (Q : unit -> world -> Prop) :
  w_sched w = Some s -> keyed w s ->
  (forall c t, w_coros w !! a = Some c -> view s !! co_sleep_usecs c = Some a ->
     view (set_s_sleeping t s) = delete (co_sleep_usecs c) (view s) ->
     keyed (with_tree t s w) (set_s_sleeping t s) -> Q tt (with_tree t s w)) ->
  track id (remove_timer a) (remove_timer a) Q w.
Proof.
  intros Hs Hk HQ. unfold track. destruct (w_coros w !! a) as [c|] eqn:Hc.
  2: { unfold remove_timer, getco, get_st, bind. simpl. by rewrite Hc. }
  assert (Hs' : w_sched (abs_world w) = Some (abs_sched s)) by (simpl; by rewrite Hs).
  destruct (decide (view s !! co_sleep_usecs c = Some a)) as [Hv|Hv].
  - destruct (remove_timer_run a c s w Hc Hs (ky_wf _ _ Hk) Hv) as (t & -> & Hwt & Hvt).
    destruct (remove_timer_run a c (abs_sched s) (abs_world w) Hc Hs' (abs_wf s) Hv) as (t' & -> & _ & Hvt').
    split.
    + unfold with_tree, abs_world, set_w_sched. simpl in *. rewrite Hvt'. unfold abs_sched, set_s_sleeping. simpl.
      by rewrite Hvt.
    + apply (HQ c); try done. split; [done| |apply Hk]. unfold view. simpl. rewrite Hvt.
      intros k b [_ Hb]%lookup_delete_Some. by apply (ky_entry _ _ Hk).
  - rewrite (remove_timer_absent a c s w Hc Hs (ky_wf _ _ Hk) Hv).
    by rewrite (remove_timer_absent a c (abs_sched s) (abs_world w) Hc Hs' (abs_wf s) Hv).
Qed.

Lemma track_set_tree t w s (Q : unit -> world -> Prop) :
  w_sched w = Some s -> Q tt (with_tree t s w) ->
  track id (upd_sched (set_s_sleeping t)) (upd_sched (set_s_sleeping (st_view t))) Q w.
Proof.
  intros Hs HQ. unfold track. rewrite (upd_sched_run _ s w Hs).
  rewrite (upd_sched_run _ (abs_sched s) (abs_world w)) by (simpl; by rewrite Hs). by split.
Qed.

(** The insertion loop, for a coroutine that is not in the tree. *)
Lemma track_insert_sleeping fuel a w s :
  w_sched w = Some s -> keyed w s -> a <> NULL -> (forall k, view s !! k <> Some a) ->
  track id (insert_sleeping fuel a) (insert_sleeping fuel a) (fun _ w' => timers_keyed w') w.
Proof.
  revert w s. induction fuel as [|fuel IH]; intros w s Hs Hk Ha Hout; [done|]. cbn [insert_sleeping].
  apply (track_bind id), track_getco. intros c Hc. cbv beta.
  apply (track_bind abs_sched), track_sched. intros s0 Hs0. cbv beta. assert (s0 = s) as -> by congruence.
  pose proof (rb_insert_law _ (co_sleep_usecs c) a (ky_wf _ _ Hk) Ha Hout) as (t & Hins & Hwt & Hvt).
  set (w1 := with_tree t s w).
  assert (Hins1 : track (fun p => (p.1, st_view p.2)) (lift (rb_insert (co_sleep_usecs c) a (s_sleeping s)))
    (lift (rb_insert (co_sleep_usecs c) a (s_sleeping (abs_sched s))))
    (fun p w' => p = (view s !! co_sleep_usecs c, t) /\ w' = w) w).
  { unfold track, lift. rewrite Hins. simpl. by rewrite Hvt. }
  apply (track_bind (fun p => (p.1, st_view p.2))). eapply track_mono; [exact Hins1|].
  intros ? ? [-> ->]. cbn [fst snd]. apply (track_bind id), (track_set_tree t w s _ Hs). fold w1. cbv beta.
  assert (Hv1 : view (set_s_sleeping t s) = if view s !! co_sleep_usecs c then view s else <[co_sleep_usecs c := a]> (view s))
    by exact Hvt.
  assert (Hk1 : keyed w1 (set_s_sleeping t s)).
  { split; [done| |apply Hk]. rewrite Hv1. intros k b. destruct (view s !! co_sleep_usecs c); [apply Hk|].
    intros [[<- <-]|[_ Hb]]%lookup_insert_Some; [by exists c|by apply Hk]. }
  destruct (view s !! co_sleep_usecs c) as [b|].
  - apply (track_bind id), track_upd_co. intros c0 Hc0. cbv beta.
    apply (IH _ (set_s_sleeping t s)); try done; [|by rewrite Hv1].
    eapply keyed_co; [done|exact Hc0|]. right. by rewrite Hv1.
  - apply (track_bind id), track_upd_co. intros c0 Hc0. apply track_upd_co. intros c1 Hc1.
    exists (set_s_sleeping t s). split; [done|]. eapply keyed_co; [|exact Hc1|by left].
    eapply keyed_co; [done|exact Hc0|by left].
Qed.

(** ** The operations *)

Lemma track_usec_now (Q : Z -> world -> Prop) w :
  (forall x k, Q x (set_w_kern k w)) -> track id usec_now usec_now Q w.
Proof.
  intros HQ. unfold usec_now. apply (track_bind id), track_sys. destruct (os_clock_gettime (w_kern w)) as [[sec nsec] k].
  by split; [|apply HQ].
Qed.

Lemma track_co_sched_of a (Q : dyco_schedule -> world -> Prop) w :
  (forall s, w_sched w = Some s -> Q s w) -> track abs_sched (co_sched_of a) (co_sched_of a) Q w.
Proof.
  intros HQ. unfold co_sched_of. apply (track_bind id), track_getco. intros c Hc. cbn.
  destruct (co_sched c =? NULL); [done|by apply track_sched].
Qed.

Lemma keyed_kern k w s : keyed w s -> keyed (set_w_kern k w) s.
Proof. intros []. by split. Qed.

Lemma track_sched_sleep a msecs w :
  timers_keyed w -> track id (schedule_sched_sleep a msecs) (schedule_sched_sleep a msecs) (fun _ w' => timers_keyed w') w.
Proof.
  intros (s & Hs & Hk). unfold schedule_sched_sleep.
  apply (track_bind id), track_getco. intros c Hc. cbv beta.
  assert (Ha : a <> NULL) by (intros ->; by rewrite (ky_null _ _ Hk) in Hc).
  apply (track_bind abs_sched), track_co_sched_of. intros s0 Hs0. cbv beta. assert (s0 = s) as -> by congruence.
  cbn [id]. rewrite (rb_find_abs s _ (ky_wf _ _ Hk)), rb_find_law by apply Hk. fold (view s).
  apply (track_bind id).
  apply (track_mono _ _ _ (fun _ w1 => exists s1, w_sched w1 = Some s1 /\ keyed w1 s1 /\ w_coros w1 = w_coros w /\
    s_birth s1 = s_birth s /\ view s1 = delete (co_sleep_usecs c) (view s))).
  { destruct (view s !! co_sleep_usecs c) as [b|] eqn:Hb.
    - apply (track_remove_timer b w s _ Hs Hk). intros cb t Hcb Hkey Hv Hk1.
      destruct (ky_entry _ _ Hk _ _ Hb) as (cb' & Hcb' & Heq). assert (cb' = cb) as -> by congruence.
      exists (set_s_sleeping t s). by rewrite <- Heq.
    - apply track_ret. exists s. split_and!; try done. by rewrite delete_id. }
  intros _ w1 (s1 & Hs1 & Hk1 & Hco1 & Hb1 & Hv1).
  destruct (msecs <=? 0); [apply track_ret; by exists s1|].
  apply (track_bind id), track_usec_now. intros now k. cbv beta.
  apply (track_bind id), track_upd_co. intros c0 Hc0. cbv beta.
  apply (track_bind abs_sched), track_sched. intros s2 Hs2. simpl in Hs2.
  assert (s2 = s1) as -> by congruence. cbv beta.
  assert (Hout : forall k0, view s1 !! k0 <> Some a).
  { rewrite Hv1. intros k0 [Hne Hk0]%lookup_delete_Some. destruct (ky_entry _ _ Hk _ _ Hk0) as (c1 & Hc1 & Heq). congruence. }
  apply track_insert_sleeping with (s := s1); try done.
  eapply keyed_co; [by apply keyed_kern|exact Hc0|by right].
Qed.


Lemma track_cancel_sleep a w :
  timers_keyed w -> track id (schedule_cancel_sleep a) (schedule_cancel_sleep a) (fun _ w' => timers_keyed w') w.
Proof.
  intros (s & Hs & Hk). unfold schedule_cancel_sleep. apply (track_bind id), track_test_co. intros c Hc. cbn.
  destruct (TESTBIT _ _); [|apply track_ret; by exists s]. apply (track_bind id), (track_remove_timer a w s _ Hs Hk).
  intros c0 t _ _ _ Hk1. apply track_upd_co. intros c1 Hc1. exists (set_s_sleeping t s). split; [done|].
  eapply keyed_co; [done|exact Hc1|by left].
Qed.

Lemma track_get_expired w :
  timers_keyed w -> track id schedule_get_expired schedule_get_expired (fun _ w' => timers_keyed w') w.
Proof.
  intros (s & Hs & Hk). unfold schedule_get_expired. apply (track_bind abs_sched), track_sched. intros s0 Hs0. cbv beta.
  assert (s0 = s) as -> by congruence. apply (track_bind id), track_usec_now. intros now k. cbv beta.
  rewrite (rb_min_abs s (ky_wf _ _ Hk)). assert (Hk1 : keyed (set_w_kern k w) s) by (by apply keyed_kern).
  destruct (rb_min (s_sleeping s)) as [[key a]|]; [|apply track_ret; by exists s].
  apply (track_bind id), track_getco. intros c Hc. cbn [id]. destruct (_ <=? _); [|apply track_ret; by exists s].
  apply (track_bind id), (track_remove_timer a (set_w_kern k w) s _ Hs Hk1). intros c0 t _ _ _ Hk2. cbv beta.
  apply (track_bind id), track_upd_co. intros c1 Hc1. apply (track_bind id), track_upd_co. intros c2 Hc2.
  apply track_ret. exists (set_s_sleeping t s). split; [done|].
  eapply keyed_co; [eapply keyed_co; [done|exact Hc1|by left]|exact Hc2|by left].
Qed.

Lemma track_min_timeout w :
  timers_keyed w -> track id schedule_min_timeout schedule_min_timeout (fun _ w' => timers_keyed w') w.
Proof.
  intros (s & Hs & Hk). unfold schedule_min_timeout. apply (track_bind abs_sched), track_sched. intros s0 Hs0. cbv beta.
  assert (s0 = s) as -> by congruence. rewrite (rb_min_abs s (ky_wf _ _ Hk)).
  destruct (rb_min (s_sleeping s)) as [[key a]|]; [|apply (track_ret id); by exists s].
  apply (track_bind id), track_getco. intros c Hc. cbv beta. apply (track_bind id), track_usec_now. intros now k.
  apply (track_ret id). exists s. split; [done|by apply keyed_kern].
Qed.

End equiv.

(** ** Sequences of operations *)

Inductive timer_op :=
  | TSleep (co : addr) (msecs : Z)
  | TCancel (co : addr)
  | TExpired
  | TTimeout.

Section ops.
Context {os : OS} {T : Type} {st : SleepTree T}.

Definition run_timer_op (o : timer_op) : M (@world os T) Z :=
  match o with
  | TSleep co msecs => schedule_sched_sleep co msecs ;;; ret 0
  | TCancel co => schedule_cancel_sleep co ;;; ret 0
  | TExpired => schedule_get_expired
  | TTimeout => schedule_min_timeout
  end.

Fixpoint run_timer_ops (l : list timer_op) : M (@world os T) (list Z) :=
  match l with
  | [] => ret []
  | o :: l' => let* r := run_timer_op o in let* rs := run_timer_ops l' in ret (r :: rs)
  end.

End ops.

Section equivalence.
Context {os : OS} {T : Type} {st : SleepTree T} {stl : SleepTreeLaws T}.
Local Abbreviation world := (@world os T).

Lemma track_timer_ops (l : list timer_op) (w : world) :
  timers_keyed w -> track id (run_timer_ops l) (run_timer_ops l) (fun _ w' => timers_keyed w') w.
Proof.
  revert w. induction l as [|o l IH]; intros w Hw; [by apply (track_ret id)|]. cbn [run_timer_ops].
  apply (track_bind id). apply (track_mono _ _ _ (fun _ w' => timers_keyed w')).
  - destruct o; cbn [run_timer_op]; [| |by apply track_get_expired|by apply track_min_timeout];
      apply (track_bind id); (eapply track_mono; [by (apply track_sched_sleep + apply track_cancel_sleep)|]);
      intros ? w1 Hw1; by apply (track_ret id).
  - intros r w1 Hw1. apply (track_bind id). eapply track_mono; [by apply IH|]. intros rs w2 Hw2. by apply (track_ret id).
Qed.

(** C4. The timers of the scheduler on the red-black tree, or on any
    implementation of its interface: from a state in which every entry of the
    tree is a coroutine that carries its key, every sequence of sleeps,
    cancellations, searches for an expired sleeper and computations of the
    next timeout returns exactly what it returns on a finite map, faults
    included, and ends in the same state up to the tree, which then represents
    that map. *)
Theorem timers_on_tree_as_on_map (l : list timer_op) (w : world) :
  timers_keyed w ->
  run_timer_ops l (abs_world w) =
  match run_timer_ops l w with
  | Ok (rs, w') => Ok (rs, abs_world w')
  | Err e => Err e
  end.
Proof.
  intros Hw. pose proof (track_timer_ops l w Hw) as H. unfold track in H.
  by destruct (run_timer_ops l w) as [[rs w']|e]; [destruct H|].
Qed.

End equivalence.

(** ** Concrete states

    Two coroutines sleep on a red-black tree, one is cancelled, one expires. *)
Definition ex_rb_world : @world sim rb_head :=
  mk_world (os := sim) ex_kern 1
    (Some (mk_sched 3 [] 0 1 DYCO_DEFAULT_TIMEOUT 0 0 0 NULL (mk_schedcall CALLNUM_SIGPROCMASK 0 (0, 0) 0)
      SCHEDULE_STATUS_RUNNING 0 new_queues rb_init
      (snd (htable_init NULL true 1)) (snd (htable_init NULL true 1))))
    {[16 := ex_co 0 0; 32 := ex_co 0 0]} ∅ ∅ ∅ ∅ ∅.
Definition ex_timer_ops : list timer_op := [TSleep 16 300; TSleep 32 100; TExpired; TTimeout; TCancel 32; TTimeout].

Lemma timers_on_tree_as_on_map_witness :
  exists w', run_timer_ops ex_timer_ops ex_rb_world = Ok ([0; 0; 0; 99998; 0; 299996], w') /\
    run_timer_ops ex_timer_ops (abs_world ex_rb_world) = Ok ([0; 0; 0; 99998; 0; 299996], abs_world w').
Proof.
  destruct (observe_ok fst (run_timer_ops ex_timer_ops ex_rb_world) [0; 0; 0; 99998; 0; 299996])
    as ([rs w'] & Hrun & Hrs); [by vm_compute|].
  simpl in Hrs. subst rs. exists w'. split; [done|].
  rewrite (timers_on_tree_as_on_map ex_timer_ops ex_rb_world); [by rewrite Hrun|].
  eexists. split; [reflexivity|]. split; [apply rb_init_law| |done].
  intros k a Hk. vm_compute in Hk. done.
Defined.
