(* ===== verification/SchedInv.v ===== *)
(** * The invariant of a scheduler

    [sched_ok w s q] relates the containers of the scheduler [s] to each other
    and to the coroutines: the tree of sleepers and the SLEEPING flags, the
    ready queues (which hold the lists [q], the urgent one first) and the READY
    flags, the wait map, the WAITING flags and the epoll registrations, the
    identifier map and the identifiers.  The lemmas say how the steps of the
    library move from one such state to another. *)
From S2P Require Import Prelude Htable Queue SleepTree World SimOS Schedule.

Local Open Scope Z_scope.
Local Open Scope dyco_scope.

Section invariant.
Context {os : OS} {osl : OSLaws os} {T : Type} {st : SleepTree T} {stl : SleepTreeLaws T}.
Local Abbreviation world := (@world os T).
Local Abbreviation dyco_schedule := (@dyco_schedule T).
Implicit Types (w : world) (s : dyco_schedule) (c : dyco_coroutine) (a : addr)
  (q : list Z * list Z).

Definition ready_flag c : bool := TESTBIT (co_status c) COROUTINE_STATUS_READY.
Definition urgent_flag c : bool := TESTBIT (co_status c) COROUTINE_FLAGS_URGENT.
Definition cids s : gmap Z addr := habs (s_cid_co_map s).
Definition queued q : list Z := q.1 ++ q.2.

Record sched_ok w s q : Prop := {
  ok_timers : timers_ok w s;
  ok_queues : rep2' (s_queues s) q;
  ok_links a : is_Some (links (s_queues s) !! a) <-> is_Some (w_coros w !! a);
  ok_null : w_coros w !! NULL = None;
  ok_queued a : a ∈ queued q -> exists c, w_coros w !! a = Some c /\ ready_flag c = true;
  ok_fds_wf : htable_wf (s_fd_co_map s);
  ok_fds fd a : fds s !! fd = Some a ->
    os_registered (w_kern w) (s_epollfd s) fd = true /\ fd <> 0 /\ fd <> -1 /\
    exists c, w_coros w !! a = Some c /\ waiting_flag c = true /\ co_sched c <> NULL;
  ok_cids_wf : htable_wf (s_cid_co_map s);
  ok_cids cid a : cids s !! cid = Some a -> exists c, w_coros w !! a = Some c /\ co_cid c = cid
}.

(** ** Changes of one coroutine *)

(** What the containers know of a coroutine. *)
Definition co_stable c c' : Prop :=
  sleeping_flag c' = sleeping_flag c /\ co_sleep_usecs c' = co_sleep_usecs c /\
  waiting_flag c' = waiting_flag c /\ co_sched c' = co_sched c /\ co_cid c' = co_cid c.

Lemma timers_ok_co w s a c c' :
  timers_ok w s -> w_coros w !! a = Some c -> sleeping_flag c' = sleeping_flag c ->
  co_sleep_usecs c' = co_sleep_usecs c -> timers_ok (with_co a c' w) s.
Proof.
  intros [Hwf He Hf] Hc Hs Hu. split; [done|..].
  - intros k b Hb. destruct (He k b Hb) as (cb & Hcb & Hk & Hfb). simpl.
    destruct (decide (a = b)) as [<-|Hne].
    + exists c'. rewrite lookup_insert_eq. assert (cb = c) as -> by congruence.
      by rewrite Hu, Hs.
    + exists cb. by rewrite lookup_insert_ne.
  - simpl. intros b cb [[<- <-]|[Hne Hcb]]%lookup_insert_Some; [|by apply Hf].
    rewrite Hs, Hu. by apply Hf.
Qed.

(** A fact about the coroutine at [b] survives the update of the one at [a]. *)
Lemma coros_upd (m : gmap Z dyco_coroutine) a b c c' (P : dyco_coroutine -> Prop) :
  m !! a = Some c -> (a = b -> P c -> P c') -> (exists cb, m !! b = Some cb /\ P cb) ->
  exists cb, <[a := c']> m !! b = Some cb /\ P cb.
Proof.
  intros Hc HP (cb & Hcb & Hb). destruct (decide (a = b)) as [<-|Hne].
  - exists c'. rewrite lookup_insert_eq. split; [done|]. apply HP; [done|congruence].
  - exists cb. by rewrite lookup_insert_ne.
Qed.

Lemma sched_ok_change w s q a c c' t :
  sched_ok w s q -> w_coros w !! a = Some c ->
  timers_ok (with_co a c' w) (set_s_sleeping t s) ->
  waiting_flag c' = waiting_flag c -> co_sched c' = co_sched c -> co_cid c' = co_cid c ->
  (a ∈ queued q -> ready_flag c' = true) ->
  sched_ok (with_co a c' w) (set_s_sleeping t s) q.
Proof.
  intros [] Hc Ht Hw Hsc Hcid Hr. split; try done; simpl.
  - intros b. rewrite ok_links0, lookup_insert_is_Some.
    destruct (decide (a = b)) as [<-|]; [|tauto]. rewrite Hc. by split; [left|].
  - rewrite lookup_insert_ne; [done|]. congruence.
  - intros b Hb. eapply coros_upd; [done| |by apply ok_queued0]. by intros <- _; apply Hr.
  - intros fd b Hb. destruct (ok_fds0 fd b Hb) as (? & ? & ? & Hex).
    split_and!; [done..|]. eapply coros_upd; [done| |exact Hex]. simpl. by rewrite Hw, Hsc.
  - intros cid b Hb. eapply coros_upd; [done| |by apply ok_cids0]. simpl. by rewrite Hcid.
Qed.

Lemma sched_ok_co w s q a c c' :
  sched_ok w s q -> w_coros w !! a = Some c -> co_stable c c' ->
  (a ∈ queued q -> ready_flag c' = true) -> sched_ok (with_co a c' w) s q.
Proof.
  intros Hok Hc (Hs & Hu & Hw & Hsc & Hcid) Hr.
  replace s with (set_s_sleeping (s_sleeping s) s) by (by destruct s).
  apply (sched_ok_change w s q a c); try done.
  apply (timers_ok_co w _ a c); try done. by destruct s; apply Hok.
Qed.

(** ** Changes of the kernel and of the queues *)

Lemma sched_ok_kern w s q k :
  sched_ok w s q ->
  (forall fd, os_registered k (s_epollfd s) fd = os_registered (w_kern w) (s_epollfd s) fd) ->
  sched_ok (set_w_kern k w) s q.
Proof.
  intros [] Hk. split; try done; [by destruct ok_timers0|].
  intros fd a. simpl. rewrite Hk. apply ok_fds0.
Qed.

Lemma sched_ok_sched w s s' q : sched_ok w s q -> sched_ok (set_w_sched (Some s') w) s q.
Proof. intros []. split; try done. by destruct ok_timers0. Qed.

Lemma sched_ok_queues w s q q' m :
  sched_ok w s q -> rep2' m q' ->
  (forall a, is_Some (links m !! a) <-> is_Some (links (s_queues s) !! a)) ->
  (forall a, a ∈ queued q' -> exists c, w_coros w !! a = Some c /\ ready_flag c = true) ->
  sched_ok w (set_s_queues m s) q'.
Proof.
  intros [] Hr Hl Hq. split; try done; [by destruct ok_timers0|].
  intros a. simpl. by rewrite Hl.
Qed.

Lemma queued_qset h q l b :
  b ∈ queued (qset h l q) <-> b ∈ l \/ b ∈ qlist (other h) q.
Proof. unfold queued. destruct h; simpl; rewrite elem_of_app; tauto. Qed.

Lemma queued_split h q b : b ∈ queued q <-> b ∈ qlist h q \/ b ∈ qlist (other h) q.
Proof. unfold queued. destruct h; simpl; rewrite elem_of_app; tauto. Qed.

(** ** [make_ready] *)

Definition mark_ready c : dyco_coroutine :=
  set_co_status (SETBIT (co_status c) COROUTINE_STATUS_READY) c.

(** The queue a coroutine goes to, and the lists after it was appended. *)
Definition queue_of c : tqh := if urgent_flag c then urgent_ready else ready.
Definition append c a q : list Z * list Z := qset (queue_of c) (qlist (queue_of c) q ++ [a]) q.

Lemma mark_ready_flags c :
  co_stable c (mark_ready c) /\ ready_flag (mark_ready c) = true /\
  urgent_flag (mark_ready c) = urgent_flag c.
Proof.
  unfold co_stable, sleeping_flag, waiting_flag, ready_flag, urgent_flag. simpl.
  by rewrite !TESTBIT_SETBIT.
Qed.

Lemma make_ready_run w s a c :
  w_sched w = Some s -> w_coros w !! a = Some c ->
  make_ready a w = Ok (tt, set_w_sched
    (Some (set_s_queues (TAILQ_INSERT_TAIL (s_queues s) (queue_of c) a) s))
    (with_co a (mark_ready c) w)).
Proof.
  intros Hs Hc. unfold make_ready. mrun. mrun. simpl.
  destruct (mark_ready_flags c) as (_ & _ & Hu).
  unfold urgent_flag in Hu. simpl in Hu. rewrite Hu. by erewrite upd_sched_run by done.
Qed.

Lemma make_ready_ok w s q a c :
  sched_ok w s q -> w_sched w = Some s -> w_coros w !! a = Some c -> a ∉ queued q ->
  exists w' s', make_ready a w = Ok (tt, w') /\ w_sched w' = Some s' /\
    sched_ok w' s' (append c a q) /\ w_kern w' = w_kern w /\
    w_coros w' = <[a := mark_ready c]> (w_coros w) /\ s_sleeping s' = s_sleeping s /\
    s_birth s' = s_birth s /\ s_fd_co_map s' = s_fd_co_map s /\ s_epollfd s' = s_epollfd s.
Proof.
  intros Hok Hs Hc Ha. eexists _, _. split; [by apply make_ready_run|].
  split; [done|]. split; [|done].
  destruct (mark_ready_flags c) as (Hst & Hr & _).
  assert (Hl : is_Some (links (s_queues s) !! a)) by (apply (ok_links _ _ _ Hok); eauto).
  apply sched_ok_sched. eapply sched_ok_queues.
  - by apply (sched_ok_co w s q a c).
  - apply rep2_insert_tail; [apply Hok|done| |done]. intros ->. by rewrite (ok_null _ _ _ Hok) in Hc.
  - intros b. apply insert_tail_linked.
  - intros b [[Hb| ->%list_elem_of_singleton]%elem_of_app|Hb]%queued_qset; simpl.
    + destruct (ok_queued _ _ _ Hok b) as (cb & Hcb & Hrb);
        [apply (queued_split (queue_of c)); by left|].
      assert (a <> b) by (intros ->; apply Ha, (queued_split (queue_of c)); by left).
      exists cb. by rewrite lookup_insert_ne.
    + exists (mark_ready c). by rewrite lookup_insert_eq.
    + destruct (ok_queued _ _ _ Hok b) as (cb & Hcb & Hrb);
        [apply (queued_split (queue_of c)); by right|].
      assert (a <> b) by (intros ->; apply Ha, (queued_split (queue_of c)); by right).
      exists cb. by rewrite lookup_insert_ne.
Qed.

(** ** Timers *)

(** A step that only touches the tree of sleepers and the timer of [a]. *)
Lemma sched_ok_timer w s q a c c' t :
  sched_ok w s q -> w_coros w !! a = Some c ->
  timers_ok (with_co a c' (with_tree t s w)) (set_s_sleeping t s) ->
  ready_flag c' = ready_flag c -> waiting_flag c' = waiting_flag c ->
  co_sched c' = co_sched c -> co_cid c' = co_cid c ->
  sched_ok (with_co a c' (with_tree t s w)) (set_s_sleeping t s) q.
Proof.
  intros Hok Hc Ht Hr Hw Hsc Hcid.
  apply (sched_ok_sched (with_co a c' w)), (sched_ok_change w s q a c); try done; [by destruct Ht|].
  intros Ha. rewrite Hr. destruct (ok_queued _ _ _ Hok a Ha) as (c0 & Hc0 & <-). congruence.
Qed.

Lemma mark_expired_flags c :
  ready_flag (mark_expired c) = ready_flag c /\ waiting_flag (mark_expired c) = waiting_flag c /\
  urgent_flag (mark_expired c) = urgent_flag c.
Proof.
  unfold ready_flag, waiting_flag, urgent_flag. simpl.
  by rewrite !TESTBIT_SETBIT, !TESTBIT_CLRBIT.
Qed.

Lemma get_expired_ok w s q now k :
  sched_ok w s q -> w_sched w = Some s -> os_clock_gettime (w_kern w) = (now, k) ->
  ((forall key, is_Some (view s !! key) -> elapsed s now < key) /\
   schedule_get_expired w = Ok (NULL, set_w_kern k w) /\ sched_ok (set_w_kern k w) s q) \/
  (exists key a c t, view s !! key = Some a /\
     (forall key', is_Some (view s !! key') -> key <= key') /\ w_coros w !! a = Some c /\
     sleeping_flag c = true /\
     schedule_get_expired w = Ok (a, with_co a (mark_expired c) (with_tree t s (set_w_kern k w))) /\
     st_view t = delete key (view s) /\
     sched_ok (with_co a (mark_expired c) (with_tree t s (set_w_kern k w))) (set_s_sleeping t s) q /\
     key <= elapsed s now).
Proof.
  intros Hok Hs Hk. pose proof (ok_timers _ _ _ Hok) as Ht.
  assert (Hok' : sched_ok (set_w_kern k w) s q).
  { apply sched_ok_kern; [done|]. intros fd. pose proof (clock_registered (w_kern w) (s_epollfd s) fd) as Hq.
    by rewrite Hk in Hq. }
  pose proof (map_min_spec (view s)) as Hm. destruct (map_min (view s)) as [[key a]|].
  - destruct Hm as [Hv Hle]. destruct (Z.le_gt_cases key (elapsed s now)) as [Hd|Hd].
    + right. destruct (tm_entry _ _ Ht key a Hv) as (c & Hc & Hkey & Hfl).
      destruct (schedule_get_expired_some s w now k key a c Hs Ht Hk Hv Hle Hd Hc) as (t & Hr & Hwt & Hvt).
      exists key, a, c, t. split_and!; try done.
      destruct (mark_expired_flags c) as (Hf1 & Hf2 & _).
      apply (sched_ok_timer _ s q a c); try done.
      apply (timers_ok_remove (set_w_kern k w) s a c); try done;
        [apply Hok'|by rewrite Hkey|by rewrite Hkey|apply mark_expired_flag].
    + left. assert (Hall : forall key', is_Some (view s !! key') -> elapsed s now < key')
        by (intros key' Hk'; specialize (Hle _ Hk'); lia).
      split_and!; [done|by eapply schedule_get_expired_none|done].
  - left. assert (Hall : forall key', is_Some (view s !! key') -> elapsed s now < key')
      by (intros key' [b Hb]; by rewrite Hm, lookup_empty in Hb).
    split_and!; [done|by eapply schedule_get_expired_none|done].
Qed.

(** ** Events *)

(** No coroutine waits for two descriptors. *)
Definition one_wait s : Prop :=
  forall fd1 fd2 a, fds s !! fd1 = Some a -> fds s !! fd2 = Some a -> fd1 = fd2.

Lemma mark_unwaiting_flags c :
  ready_flag (mark_unwaiting c) = ready_flag c /\
  sleeping_flag (mark_unwaiting c) = sleeping_flag c /\
  urgent_flag (mark_unwaiting c) = urgent_flag c /\ waiting_flag (mark_unwaiting c) = false.
Proof.
  unfold ready_flag, sleeping_flag, urgent_flag, waiting_flag. simpl. by rewrite !TESTBIT_CLRBIT.
Qed.

Lemma cancel_wait_ok w s q a c fd :
  sched_ok w s q -> w_sched w = Some s -> one_wait s -> fds s !! fd = Some a ->
  w_coros w !! a = Some c ->
  exists w' s', schedule_cancel_wait a fd w = Ok (0, w') /\ w_sched w' = Some s' /\
    sched_ok w' s' q /\ fds s' = delete fd (fds s) /\ s_epollfd s' = s_epollfd s /\
    w_coros w' = <[a := mark_unwaiting c]> (w_coros w) /\
    (forall ep fd', os_registered (w_kern w') ep fd' =
       negb (bool_decide ((ep, fd') = (s_epollfd s, fd))) && os_registered (w_kern w) ep fd') /\
    (forall fd', os_counter (w_kern w') fd' = os_counter (w_kern w) fd') /\
    same_outside w w' /\ s_curr_thread s' = s_curr_thread s.
Proof.
  intros Hok Hs Hone Hfd Hc. destruct (ok_fds _ _ _ Hok fd a Hfd) as (Hreg & H0 & H1 & c0 & Hc0 & Hw & Hsc).
  assert (c0 = c) as -> by congruence.
  destruct (schedule_cancel_wait_run a fd c s w Hc Hsc Hs (ok_fds_wf _ _ _ Hok) Hw Hreg H0 H1)
    as (h & k & Hrun & Hwh & Hah & Hr & Hcnt & _).
  destruct (mark_unwaiting_flags c) as (Hf1 & Hf2 & _ & _).
  eexists _, (set_s_fd_co_map h s). split_and!; [exact Hrun|done| |done..].
  destruct Hok as [Ht Hq Hl Hn Hqd _ Hf Hcw Hcid]. split; try done; simpl.
  - destruct (timers_ok_co w s a c (mark_unwaiting c) Ht Hc Hf2 eq_refl). by split.
  - intros b. rewrite Hl, lookup_insert_is_Some.
    destruct (decide (a = b)) as [<-|]; [|tauto]. rewrite Hc. by split; [left|].
  - rewrite lookup_insert_ne; [done|]. congruence.
  - intros b Hb. eapply coros_upd; [done| |by apply Hqd]. by rewrite Hf1.
  - intros fd' b. unfold fds; simpl. rewrite Hah. intros [Hne Hb]%lookup_delete_Some.
    destruct (Hf fd' b Hb) as (Hr' & ? & ? & cb & Hcb & ?). rewrite Hr.
    rewrite bool_decide_eq_false_2 by (by intros [= ->]). split_and!; [done..|].
    assert (a <> b) by (intros ->; by apply Hne, (Hone _ _ b)).
    exists cb. by rewrite lookup_insert_ne.
  - intros cid b Hb. eapply coros_upd; [done| |by apply Hcid]. done.
Qed.

(** A coroutine starts to wait for a registered descriptor. *)
Lemma sched_wait_ok w s q a c fd h k :
  sched_ok w s q -> w_coros w !! a = Some c -> co_sched c <> NULL -> (a ∈ queued q -> ready_flag c = true) ->
  htable_wf h -> habs h = <[fd := a]> (fds s) -> fd <> 0 -> fd <> -1 ->
  (forall ep' fd', os_registered k ep' fd' =
    bool_decide ((ep', fd') = (s_epollfd s, fd)) || os_registered (w_kern w) ep' fd') ->
  sched_ok (with_co a (mark_waiting c) (with_fds h s (set_w_kern k w))) (set_s_fd_co_map h s) q.
Proof.
  intros [Ht Hq Hl Hn Hqd _ Hf Hcw Hcid] Hc Hsc Hrd Hwh Hah H0 H1 Hr.
  assert (Hfl : sleeping_flag (mark_waiting c) = sleeping_flag c /\ ready_flag (mark_waiting c) = ready_flag c /\
    waiting_flag (mark_waiting c) = true).
  { unfold sleeping_flag, ready_flag, waiting_flag. simpl. by rewrite !TESTBIT_SETBIT. }
  destruct Hfl as (Hf1 & Hf2 & Hf3). split; try done; simpl.
  - destruct (timers_ok_co w s a c (mark_waiting c) Ht Hc Hf1 eq_refl). by split.
  - intros b. rewrite Hl, lookup_insert_is_Some. destruct (decide (a = b)) as [<-|]; [|tauto]. rewrite Hc. by split; [left|].
  - rewrite lookup_insert_ne; [done|]. congruence.
  - intros b Hb. eapply coros_upd; [done| |by apply Hqd]. intros <- _. rewrite Hf2. by apply Hrd.
  - intros fd' b. unfold fds; simpl. rewrite Hah, Hr. intros [[<- <-]|[Hne Hb]]%lookup_insert_Some.
    + rewrite bool_decide_eq_true_2 by done. split_and!; [done..|]. exists (mark_waiting c). by rewrite lookup_insert_eq.
    + destruct (Hf fd' b Hb) as (-> & ? & ? & Hex). rewrite orb_true_r. split_and!; [done..|].
      eapply coros_upd; [done| |exact Hex]. by intros <- [_ ?].
  - intros cid b Hb. eapply coros_upd; [done| |by apply Hcid]. done.
Qed.

(** ** Identifiers *)

Lemma cid_map_insert_run cid a s w :
  w_sched w = Some s -> htable_wf (s_cid_co_map s) -> memory_ok (w_kern w) -> cid <> 0 -> cid <> -1 ->
  exists h, cid_map_insert cid a w = Ok (insert_result (s_cid_co_map s) cid,
      set_w_sched (Some (set_s_cid_co_map h s)) (set_w_kern (os_alloc_ok (w_kern w)).2 w)) /\
    htable_wf h /\ habs h = <[cid := a]> (cids s).
Proof.
  intros Hs Hwf Hmem H0 H1. unfold cid_map_insert.
  destruct (os_alloc_ok (w_kern w)) as [ok k] eqn:Hk. unfold memory_ok in Hmem. rewrite Hk in Hmem.
  destruct (htable_insert_spec NULL ok _ cid a Hwf Hmem H0 H1) as (h & Hh & Hwh & Hah).
  mrun. mrun. mrun. mrun. by exists h.
Qed.

Lemma cid_map_delete_run cid s w :
  w_sched w = Some s -> htable_wf (s_cid_co_map s) -> cid <> 0 -> cid <> -1 ->
  exists r h, cid_map_delete cid w = Ok (r, set_w_sched (Some (set_s_cid_co_map h s)) w) /\
    htable_wf h /\ habs h = delete cid (cids s).
Proof.
  intros Hs Hwf H0 H1. unfold cid_map_delete.
  destruct (htable_delete_spec NULL _ cid Hwf H0 H1) as (h & Hh & Hwh & Hah).
  mrun. mrun. mrun. eexists _, h. split; [done|]. by split.
Qed.

Lemma cid_map_find_run cid s w :
  w_sched w = Some s -> htable_wf (s_cid_co_map s) -> cid <> 0 -> cid <> -1 ->
  cid_map_find cid w = Ok (default NULL (cids s !! cid), w).
Proof.
  intros Hs Hwf H0 H1. unfold cid_map_find. mrun. by apply lift_run, htable_find_spec.
Qed.

(** ** Allocation and identification of a coroutine *)

Lemma sched_ok_irrel w s s' q :
  sched_ok w s q -> s_sleeping s' = s_sleeping s -> s_queues s' = s_queues s ->
  s_fd_co_map s' = s_fd_co_map s -> s_epollfd s' = s_epollfd s ->
  s_cid_co_map s' = s_cid_co_map s -> sched_ok w s' q.
Proof.
  intros [[] ] H1 H2 H3 H4 H5. unfold fds, cids, view in *.
  split; unfold fds, cids; rewrite ?H1, ?H2, ?H3, ?H4, ?H5; try done.
  split; unfold view; by rewrite H1.
Qed.

Lemma sched_ok_alloc w s q p c :
  sched_ok w s q -> w_coros w !! p = None -> p <> NULL -> sleeping_flag c = false ->
  sched_ok (with_co p c w) (set_s_queues (link_alloc (s_queues s) p) s) q.
Proof.
  intros [Ht Hq Hl Hn Hqd Hfw Hf Hcw Hcid] Hp Hp0 Hfl.
  assert (Hne : forall b cb, w_coros w !! b = Some cb -> p <> b) by (intros b cb Hb ->; congruence).
  assert (Hex : forall b (P : dyco_coroutine -> Prop),
    (exists cb, w_coros w !! b = Some cb /\ P cb) ->
    exists cb, <[p := c]> (w_coros w) !! b = Some cb /\ P cb).
  { intros b P (cb & Hcb & HP). exists cb. by rewrite lookup_insert_ne by (by eapply Hne). }
  split; try done; simpl.
  - destruct Ht as [Hwf He Hfg]. split; [done| |].
    + intros k b Hb. apply Hex. by apply He.
    + simpl. intros b cb [[<- <-]|[Hpb Hcb]]%lookup_insert_Some Hfb; [congruence|by apply Hfg].
  - apply rep2_link_alloc; [done|]. intros (c0 & Hc0 & _)%Hqd. congruence.
  - intros b. by rewrite !lookup_insert_is_Some, Hl.
  - by rewrite lookup_insert_ne.
  - intros b Hb. by apply Hex, Hqd.
  - intros fd b Hb. destruct (Hf fd b Hb) as (? & ? & ? & ?). split_and!; try done. by apply Hex.
  - intros cid b Hb. by apply Hex, Hcid.
Qed.

Lemma sched_ok_cid w s q h cid p c :
  sched_ok w s q -> htable_wf h -> habs h = <[cid := p]> (cids s) ->
  w_coros w !! p = Some c -> co_cid c = cid -> sched_ok w (set_s_cid_co_map h s) q.
Proof.
  intros [[] ] Hwh Hah Hc Hcid. split; try done.
  intros cid' b. unfold cids; simpl. rewrite Hah.
  intros [[<- <-]|[_ Hb]]%lookup_insert_Some; [by eexists|by apply ok_cids0].
Qed.

(** A coroutine that no container knows may be changed at will. *)
Lemma sched_ok_idle w s q a c c' :
  sched_ok w s q -> w_coros w !! a = Some c -> sleeping_flag c = false -> waiting_flag c = false ->
  a ∉ queued q -> (forall cid, cids s !! cid <> Some a) -> sleeping_flag c' = false ->
  sched_ok (with_co a c' w) s q.
Proof.
  intros [Ht Hq Hl Hn Hqd Hfw Hf Hcw Hcid] Hc Hsl Hw Ha Hnc Hsl'.
  assert (Hex : forall b (P : dyco_coroutine -> Prop), a <> b ->
    (exists cb, w_coros w !! b = Some cb /\ P cb) ->
    exists cb, <[a := c']> (w_coros w) !! b = Some cb /\ P cb).
  { intros b P Hb (cb & Hcb & HP). exists cb. by rewrite lookup_insert_ne. }
  split; try done; simpl.
  - destruct Ht as [Hwf He Hfg]. split; [done| |].
    + intros k b Hb. apply Hex; [|by apply He]. intros <-.
      destruct (He k a Hb) as (c0 & Hc0 & _ & Hf0). congruence.
    + simpl. intros b cb [[<- <-]|[Hpb Hcb]]%lookup_insert_Some Hfb; [congruence|by apply Hfg].
  - intros b. rewrite Hl, lookup_insert_is_Some.
    destruct (decide (a = b)) as [<-|]; [|tauto]. rewrite Hc. by split; [left|].
  - rewrite lookup_insert_ne; [done|]. congruence.
  - intros b Hb. apply Hex; [by intros <-|by apply Hqd].
  - intros fd b Hb. destruct (Hf fd b Hb) as (? & ? & ? & Hb'). split_and!; try done.
    apply Hex; [|done]. intros <-. destruct Hb' as (c0 & Hc0 & Hw0 & _). congruence.
  - intros cid b Hb. apply Hex; [|by apply Hcid]. intros <-. by apply (Hnc cid).
Qed.

(** The last steps of every creation: the coroutine enters the identifier map
    and a ready queue. *)
Lemma sched_ok_enlist w s q h cid p c hq :
  sched_ok w s q -> w_coros w !! p = Some c -> co_cid c = cid -> ready_flag c = true ->
  p ∉ queued q -> htable_wf h -> habs h = <[cid := p]> (cids s) ->
  sched_ok w (set_s_queues (TAILQ_INSERT_TAIL (s_queues s) hq p) (set_s_cid_co_map h s))
    (qset hq (qlist hq q ++ [p]) q).
Proof.
  intros Hok Hc Hcid Hr Hp Hwh Hah.
  assert (Hok1 : sched_ok w (set_s_cid_co_map h s) q) by (by eapply sched_ok_cid).
  apply (sched_ok_queues w (set_s_cid_co_map h s) q).
  - done.
  - apply rep2_insert_tail; [apply Hok1|done| |apply (ok_links _ _ _ Hok); eauto].
    intros ->. by rewrite (ok_null _ _ _ Hok) in Hc.
  - intros a. apply insert_tail_linked.
  - intros a [[Ha| ->%list_elem_of_singleton]%elem_of_app|Ha]%queued_qset; [|by exists c|];
      apply (ok_queued _ _ _ Hok), (queued_split hq); tauto.
Qed.

(** The release of a coroutine that no container but the identifier map
    knows. *)
Lemma sched_ok_free w s q h a c :
  sched_ok w s q -> w_coros w !! a = Some c -> sleeping_flag c = false ->
  waiting_flag c = false -> a ∉ queued q -> htable_wf h -> habs h = delete (co_cid c) (cids s) ->
  sched_ok (set_w_coros (delete a (w_coros w)) w)
    (set_s_queues (link_free (s_queues s) a) (set_s_cid_co_map h s)) q.
Proof.
  intros [Ht Hq Hl Hn Hqd Hfw Hf Hcw Hcid] Hc Hsl Hw Ha Hwh Hah.
  assert (Hex : forall b (P : dyco_coroutine -> Prop), a <> b ->
    (exists cb, w_coros w !! b = Some cb /\ P cb) ->
    exists cb, delete a (w_coros w) !! b = Some cb /\ P cb).
  { intros b P Hb (cb & Hcb & HP). exists cb. by rewrite lookup_delete_ne. }
  split; try done; simpl.
  - destruct Ht as [Hwf He Hfg]. split; [done| |].
    + intros k b Hb. apply Hex; [|by apply He]. intros <-.
      destruct (He k a Hb) as (c0 & Hc0 & _ & Hf0). congruence.
    + simpl. intros b cb [Hpb Hcb]%lookup_delete_Some Hfb. by apply Hfg.
  - by apply rep2_link_free.
  - intros b. by rewrite !lookup_delete_is_Some, Hl.
  - rewrite lookup_delete_ne; [done|]. congruence.
  - intros b Hb. apply Hex; [by intros <-|by apply Hqd].
  - intros fd b Hb. destruct (Hf fd b Hb) as (? & ? & ? & Hb'). split_and!; try done.
    apply Hex; [|done]. intros <-. destruct Hb' as (c0 & Hc0 & Hw0 & _). congruence.
  - intros cid b. unfold cids; simpl. rewrite Hah. intros [Hne Hb]%lookup_delete_Some.
    apply Hex; [|by apply Hcid]. intros <-. destruct (Hcid cid a Hb) as (c0 & Hc0 & <-). congruence.
Qed.

(** ** Cancelling a timer or a wait that may not be there *)

Lemma mark_awake_flags c :
  ready_flag (mark_awake c) = ready_flag c /\ waiting_flag (mark_awake c) = waiting_flag c.
Proof. unfold ready_flag, waiting_flag. simpl. by rewrite !TESTBIT_CLRBIT. Qed.

Lemma cancel_sleep_ok w s q a c :
  sched_ok w s q -> w_sched w = Some s -> w_coros w !! a = Some c ->
  exists w' s' c', schedule_cancel_sleep a w = Ok (tt, w') /\ w_sched w' = Some s' /\
    sched_ok w' s' q /\ w_coros w' !! a = Some c' /\ sleeping_flag c' = false /\
    waiting_flag c' = waiting_flag c /\ co_sched c' = co_sched c /\ fds s' = fds s /\
    w_kern w' = w_kern w /\ same_outside w w' /\ s_curr_thread s' = s_curr_thread s.
Proof.
  intros Hok Hs Hc.
  destruct (schedule_cancel_sleep_run a c s w Hc Hs (ok_timers _ _ _ Hok)) as (t & c' & Hr & Ht & _ & Hc').
  destruct (mark_awake_flags c) as (Hf1 & Hf2).
  eexists _, _, c'. split_and!; [exact Hr|done| |apply lookup_insert_eq|..];
    destruct (sleeping_flag c) eqn:Hfl; subst c'; try done; try apply mark_awake_flag;
    by apply (sched_ok_timer w s q a c).
Qed.

Lemma cancel_any_wait_ok w s q a c fd :
  sched_ok w s q -> w_sched w = Some s -> one_wait s -> w_coros w !! a = Some c ->
  (waiting_flag c = true -> fds s !! fd = Some a) ->
  exists r w' s' c', schedule_cancel_wait a fd w = Ok (r, w') /\ w_sched w' = Some s' /\
    sched_ok w' s' q /\ w_coros w' !! a = Some c' /\ waiting_flag c' = false /\
    sleeping_flag c' = sleeping_flag c /\
    fds s' = (if waiting_flag c then delete fd (fds s) else fds s) /\
    (forall fd', os_counter (w_kern w') fd' = os_counter (w_kern w) fd') /\
    same_outside w w' /\ s_curr_thread s' = s_curr_thread s.
Proof.
  intros Hok Hs Hone Hc Hfd. destruct (waiting_flag c) eqn:Hw.
  - destruct (cancel_wait_ok w s q a c fd Hok Hs Hone (Hfd eq_refl) Hc)
      as (w' & s' & Hr & Hs' & Hok' & Hf' & _ & Hcos & _ & Hcnt & Hout & Hcur).
    destruct (mark_unwaiting_flags c) as (_ & Hsl & _ & Hun).
    exists 0, w', s', (mark_unwaiting c). split_and!; try done. rewrite Hcos. apply lookup_insert_eq.
  - exists 1, w, s, c. split_and!; try done. unfold schedule_cancel_wait. mrun.
    unfold waiting_flag in Hw. by rewrite Hw.
Qed.

End invariant.

(** ** Concrete states

    Coroutine 16 is ready, 32 sleeps until 1300000 and 48 until 900000, 64 waits
    for descriptor 7; the clock reads 1000000. *)
Definition ex_links : gmap Z qlink :=
  gset_to_gmap (mk_qlink NULL (HeadFirst ready)) {[16; 32; 48; 64]}.
Definition ex_queues : qmem :=
  TAILQ_INSERT_TAIL (mk_qmem (mk_qhead NULL (HeadFirst urgent_ready)) (mk_qhead NULL (HeadFirst ready))
    ex_links) ready 16.
Definition ex_fd_map : @dyco_htable addr :=
  match htable_insert NULL (fun _ => true) (snd (htable_init NULL true 1)) 7 64 with
  | Ok (_, h) => h
  | Err _ => cleared
  end.
Definition ex_full_coros : gmap Z dyco_coroutine :=
  {[16 := ex_co (BIT COROUTINE_STATUS_READY) 0; 32 := ex_co (BIT COROUTINE_STATUS_SLEEPING) 1300000;
    48 := ex_co (BIT COROUTINE_STATUS_SLEEPING) 900000; 64 := ex_co (BIT COROUTINE_FLAGS_WAITING) 0]}.
Definition ex_full_sched : @dyco_schedule (gmap Z addr) :=
  set_s_fd_co_map ex_fd_map (set_s_queues ex_queues (ex_sched ex_tree)).
Definition ex_full : @world sim (gmap Z addr) :=
  mk_world (os := sim) (mk_sim 1000000000 10 {[7 := 1]} {[(3, 7)]}) 1 (Some ex_full_sched)
    ex_full_coros ∅ ∅ ∅ ∅ ∅.

Lemma ex_fd_map_ok : htable_wf ex_fd_map /\ habs ex_fd_map = {[7 := 64]}.
Proof.
  unfold ex_fd_map. destruct (htable_init_spec NULL 1) as (h & -> & Hwf & Hab).
  destruct (htable_insert_spec NULL (fun _ => true) h 7 64) as (h' & Hh & Hwf' & Hab'); [done..|].
  unfold snd. rewrite Hh. by rewrite Hab', Hab.
Qed.

Lemma ex_full_ok : sched_ok ex_full ex_full_sched ([], [16]).
Proof.
  split.
  - apply timers_ok_intro; [done|refine (bool_decide_unpack _ _); by vm_compute..].
  - split; [|split|]; try (split; [|constructor]); vm_compute; try done.
    + by split_and!; try done; eexists.
    + apply NoDup_singleton.
    + apply NoDup_singleton.
  - intros a. rewrite <- !elem_of_dom.
    replace (dom (links (s_queues ex_full_sched))) with (dom (w_coros ex_full)); [done|].
    by apply (bool_decide_unpack _); vm_compute.
  - done.
  - intros a ->%list_elem_of_singleton. by eexists.
  - apply ex_fd_map_ok.
  - intros fd a. unfold fds. simpl. rewrite (proj2 ex_fd_map_ok).
    intros [<- <-]%lookup_singleton_Some. split_and!; [done..|]. by eexists.
  - exact (proj1 (ex_sched_cids ex_tree)).
  - intros cid a. change (cids ex_full_sched) with (habs (s_cid_co_map (ex_sched ex_tree))).
    by rewrite (proj2 (ex_sched_cids ex_tree)).
Qed.
