(* ===== verification/Prog.v ===== *)
(** * Programs that switch contexts

    A coroutine runs on its own context: a call such as [waitev] is suspended
    in its middle by [swapcontext] and continues when the scheduler resumes
    the coroutine.  [prog W A] is such a computation on the state [W]: state
    accesses interleaved with context switches, each switch carrying the rest
    of the computation, which is what [swapcontext] saves.  Functions that do
    not switch are in the monad [M] of the prelude and are lifted by [atomic].
    A tree is well-founded: a loop of a coroutine body is unrolled as far as
    its run goes. *)
From S2P Require Import Prelude.

(** The [swapcontext] calls of the library, named by the context they save
    the caller in and the context they switch to. *)
Inductive switch :=
  | SwapSched (co : addr)    (* swapcontext(&co->ctx, &co->sched->ctx) *)
  | SwapTo (co : addr)       (* swapcontext(&co->ret, &co->ctx) *)
  | SwapRet (co : addr)      (* swapcontext(&co->ctx, &co->ret) *)
  | MakeCtx (co : addr).     (* makecontext(&co->ctx, execute, 1, co) *)

Inductive prog (W A : Type) : Type :=
  | PRet (a : A)
  | PFault (e : fault)
  | PGet (k : W -> prog W A)
  | PPut (w : W) (k : prog W A)
  | PSwitch (s : switch) (k : prog W A).
Arguments PRet {W A} a.
Arguments PFault {W A} e.
Arguments PGet {W A} k.
Arguments PPut {W A} w k.
Arguments PSwitch {W A} s k.

Section prog.
Context {W : Type}.

Fixpoint pbind {A B} (p : prog W A) (f : A -> prog W B) : prog W B :=
  match p with
  | PRet a => f a
  | PFault e => PFault e
  | PGet k => PGet (fun w => pbind (k w) f)
  | PPut w k => PPut w (pbind k f)
  | PSwitch s k => PSwitch s (pbind k f)
  end.

Definition atomic {A} (m : M W A) : prog W A :=
  PGet (fun w => match m w with
                 | Ok (a, w') => PPut w' (PRet a)
                 | Err e => PFault e
                 end).

Definition pswitch (s : switch) : prog W unit := PSwitch s (PRet tt).
Definition pwhen (b : bool) (p : prog W unit) : prog W unit := if b then p else PRet tt.

(** Where a run of a program stops: at its end, at a fault, or at a switch
    with the rest of the program. *)
Inductive stop (A : Type) : Type :=
  | SDone (a : A)
  | SFault (e : fault)
  | SSwitch (s : switch) (k : prog W A).
#[global] Arguments SDone {A} a.
#[global] Arguments SFault {A} e.
#[global] Arguments SSwitch {A} s k.

Fixpoint exec {A} (p : prog W A) (w : W) : stop A * W :=
  match p with
  | PRet a => (SDone a, w)
  | PFault e => (SFault e, w)
  | PGet k => exec (k w) w
  | PPut w' k => exec k w'
  | PSwitch s k => (SSwitch s k, w)
  end.

(** Composition: a run of [pbind p f] is a run of [p], followed by a run of
    [f] if [p] ends. *)
Lemma exec_bind {A B} (p : prog W A) (f : A -> prog W B) w :
  exec (pbind p f) w =
  match exec p w with
  | (SDone a, w') => exec (f a) w'
  | (SFault e, w') => (SFault e, w')
  | (SSwitch s k, w') => (SSwitch s (pbind k f), w')
  end.
Proof. revert w. induction p as [a|e|k IH|w' k IH|s k IH]; intros w; simpl; auto. Qed.

Lemma exec_atomic {A} (m : M W A) w :
  exec (atomic m) w =
  match m w with Ok (a, w') => (SDone a, w') | Err e => (SFault e, w) end.
Proof. unfold atomic; simpl. by destruct (m w) as [[a w']|e]. Qed.

Lemma exec_atomic_bind {A B} (m : M W A) (f : A -> prog W B) w a w' :
  m w = Ok (a, w') -> exec (pbind (atomic m) f) w = exec (f a) w'.
Proof. intros Hm. by rewrite exec_bind, exec_atomic, Hm. Qed.

(** [short n p]: no run of [p] switches more than [n] times. *)
Fixpoint short {A} (n : nat) (p : prog W A) : Prop :=
  match p with
  | PRet _ | PFault _ => True
  | PGet k => forall w, short n (k w)
  | PPut _ k => short n k
  | PSwitch _ k => match n with O => False | S n' => short n' k end
  end.

Lemma short_mono {A} (p : prog W A) n m : (n <= m)%nat -> short n p -> short m p.
Proof.
  revert n m. induction p as [a|e|k IH|w k IH|s k IH]; intros n m Hle; simpl; [done..| | |].
  - intros H w. by apply (IH w n).
  - by apply IH.
  - destruct n as [|n]; [done|]. destruct m as [|m]; [lia|]. apply IH. lia.
Qed.

Lemma short_bind {A B} (p : prog W A) (f : A -> prog W B) n m :
  short n p -> (forall x, short m (f x)) -> short (n + m) (pbind p f).
Proof.
  intros Hp Hf. revert n Hp. induction p as [a|e|k IH|w k IH|s k IH]; intros n; simpl; [|done|auto..|].
  - intros _. apply (short_mono _ m); [lia|apply Hf].
  - destruct n as [|n]; [done|]. apply IH.
Qed.

Lemma short_atomic_bind {A B} (x : M W A) (f : A -> prog W B) n :
  (forall y, short n (f y)) -> short n (pbind (atomic x) f).
Proof. intros Hf w. simpl. destruct (x w) as [[y w']|e]; [apply Hf|done]. Qed.

Lemma short_atomic {A} (x : M W A) n : short n (atomic x).
Proof. intros w. simpl. by destruct (x w) as [[y w']|e]. Qed.

Lemma short_exec {A} (p : prog W A) n w :
  short n p -> match exec p w with (SSwitch _ k, _) => exists n', n = S n' /\ short n' k | _ => True end.
Proof.
  revert w. induction p as [a|e|k IH|w1 k IH|s k IH]; intros w; simpl; [done..| | |].
  - intros H. by apply IH.
  - apply IH.
  - destruct n as [|n]; [done|]. by exists n.
Qed.

End prog.

(** Counting the switches of a program written out. *)
Ltac shorten := repeat match goal with
  | |- forall _, short _ _ => intros ?
  | |- short _ (let _ := _ in _) => cbv zeta
  | |- True => exact I
  | |- short _ (PRet _) => exact I
  | |- short _ (PFault _) => exact I
  | |- short _ (atomic _) => apply short_atomic
  | |- short _ (pbind (atomic _) _) => apply short_atomic_bind; intros ?
  | |- short (S _) (pbind (pswitch _) _) => cbn [short pbind pswitch]
  | |- short _ (pbind (pwhen ?b _) _) => destruct b; cbn [pwhen]
  | |- short _ (pbind (PRet _) _) => cbn [pbind]
  | |- short _ (match ?x with _ => _ end) => destruct x
  end.

Notation "'let!' x := p 'in' k" := (pbind p (fun x => k))
  (at level 200, x pattern, k at level 200, right associativity) : dyco_scope.
Notation "'do!' p ';' k" := (pbind p (fun _ => k))
  (at level 200, p at level 100, k at level 200, right associativity) : dyco_scope.
