(* ===== verification/Coroutine.v ===== *)
(** * Coroutines

    [src/dyco_coroutine.c] without [resume], which is part of the interpreter
    of context switches (file Run).  Functions that suspend the calling
    coroutine are programs with a [SwapSched] switch; the others are
    computations of the state monad. *)
From S2P Require Import Prelude Htable Queue SleepTree World SimOS Schedule SchedInv Prog.

Local Open Scope Z_scope.
Local Open Scope dyco_scope.

Definition SIG_SETMASK : Z := 2.

Section coroutine.
Context {os : OS} {T : Type} {st : SleepTree T}.
Local Abbreviation world := (@world os T).

(** ** The shared stack *)

(** [savestk]: the bytes from the current stack pointer to the top of the
    shared stack are copied to the coroutine's buffer, which is reallocated
    when it is too small. *)
Definition savestk (co : addr) : M world unit :=
  let* own := test_co co COROUTINE_FLAGS_OWNSTACK in
  if own then ret tt
  else
    let* s := co_sched_of co in
    let* w := get_st in
    let cursize := i32 (os_stack_used (w_kern w)) in
    let* c := getco co in
    when (co_stack_size c <? u64 cursize)
      (let* p := malloc in upd_co co (set_co_stack p)) ;;;
    upd_co co (set_co_stack_size (u64 cursize)) ;;;
    let* c := getco co in
    if co_stack c =? NULL then throw FSegv
    else
      let n := Z.to_nat (co_stack_size c) in
      if decide (n <= length (s_stack s))%nat then
        upd_co co (set_co_stack_buf (drop (length (s_stack s) - n) (s_stack s))) ;;;
        set_flag co COROUTINE_FLAGS_ALLOCSTACKMEM
      else throw FSegv.

(** [loadstk]: the saved bytes are copied back below the top of the shared
    stack. *)
Definition loadstk (co : addr) : M world unit :=
  let* own := test_co co COROUTINE_FLAGS_OWNSTACK in
  if own then ret tt
  else
    let* s := co_sched_of co in
    let* c := getco co in
    let n := Z.to_nat (co_stack_size c) in
    if decide (n <= length (s_stack s))%nat then
      upd_sched (set_s_stack (take (length (s_stack s) - n) (s_stack s) ++ take n (co_stack_buf c)))
    else throw FSegv.

(** [checkstk]: 0 below seven eighths of the stack, 1 above; an overflow
    kills the coroutine. *)
Definition checkstk (co : addr) : prog world Z :=
  let! s := atomic (co_sched_of co) in
  let! c := atomic (getco co) in
  let total_size := i32 (if TESTBIT (co_status c) COROUTINE_FLAGS_OWNSTACK
                         then co_stack_size c else s_stack_size s) in
  let! w := atomic get_st in
  let cur_size := i32 (os_stack_used (w_kern w)) in
  if total_size <? cur_size then
    do! atomic (set_flag co COROUTINE_STATUS_KILLED);
    do! atomic (clr_flag co COROUTINE_STATUS_RUNNING);
    do! pswitch (SwapSched co);
    PRet 0
  else if (total_size - Z.shiftr total_size 3) <? cur_size then PRet 1
  else PRet 0.

(** ** Switching *)

Definition yield (co : addr) : prog world unit :=
  do! checkstk co;
  let! exited := atomic (test_co co COROUTINE_STATUS_EXITED) in
  do! pwhen (negb exited) (atomic (savestk co));
  do! atomic (clr_flag co COROUTINE_STATUS_RUNNING);
  do! pswitch (SwapSched co);
  atomic (set_flag co COROUTINE_STATUS_RUNNING).

(** The scheduler and the running coroutine, as the [DYCO_MUST] checks of the
    blocking calls read them. *)
Definition must_curr : M world addr :=
  let* s := get_sched in
  match s with
  | None => throw FExit
  | Some s => DYCO_MUST (negb (s_curr_thread s =? NULL)) ;;; ret (s_curr_thread s)
  end.

(** The running coroutine for the calls that return an error outside of one. *)
Definition opt_curr : M world (option addr) :=
  let* s := get_sched in
  match s with
  | None => ret None
  | Some s => ret (if s_curr_thread s =? NULL then None else Some (s_curr_thread s))
  end.

(** Suspension until an event on [fd] or the timeout, the five calls that the
    blocking operations share. *)
Definition suspend (co : addr) (fd events timeout : Z) : prog world unit :=
  do! atomic (schedule_sched_wait co fd events);
  do! atomic (schedule_sched_sleep co timeout);
  do! yield co;
  do! atomic (schedule_cancel_sleep co);
  let! _ := atomic (schedule_cancel_wait co fd) in PRet tt.

Definition EVENTS_R : Z := Z.lor (Z.lor EPOLLIN EPOLLHUP) EPOLLERR.

Definition waitev (fd events timeout : Z) : prog world Z :=
  let pev := swrap 16 (Z.land events 0xffff) in
  let! r := atomic (sys (os_poll fd pev)) in
  if (0 <? r) || (timeout =? 0) then PRet r
  else
    let! co := atomic must_curr in
    let! asym := atomic (test_co co COROUTINE_FLAGS_ASYMMETRIC) in
    do! atomic (DYCO_MUSTNOT asym);
    do! suspend co fd events timeout;
    atomic (sys (os_poll fd pev)).

Definition dyco_coroutine_waitRead (fd timeout : Z) : prog world Z :=
  waitev fd (Z.lor (Z.lor EPOLLIN EPOLLERR) EPOLLHUP) timeout.
Definition dyco_coroutine_waitWrite (fd timeout : Z) : prog world Z :=
  waitev fd (Z.lor (Z.lor EPOLLOUT EPOLLERR) EPOLLHUP) timeout.
Definition dyco_coroutine_waitRW (fd timeout : Z) : prog world Z :=
  waitev fd (Z.lor (Z.lor (Z.lor EPOLLOUT EPOLLIN) EPOLLERR) EPOLLHUP) timeout.

(** [msecs] is unsigned; [schedule_sched_sleep] takes an [int]. *)
Definition dyco_coroutine_sleep (msecs : Z) : prog world unit :=
  let! co := atomic must_curr in
  let! asym := atomic (test_co co COROUTINE_FLAGS_ASYMMETRIC) in
  do! atomic (DYCO_MUSTNOT asym);
  do! atomic (if msecs =? 0 then make_ready co else schedule_sched_sleep co (i32 msecs));
  yield co.

Definition dyco_coroutine_abort : prog world unit :=
  let! co := atomic must_curr in
  do! atomic (set_flag co COROUTINE_STATUS_KILLED);
  do! atomic (clr_flag co COROUTINE_STATUS_RUNNING);
  pswitch (SwapSched co).

Definition dyco_coroutine_checkStack : prog world Z :=
  let! co := atomic must_curr in checkstk co.

(** ** Creation and disposal *)

Definition fresh_co : dyco_coroutine :=
  mk_co 0 0 NULL NULL [] 0 (Z.lor (BIT COROUTINE_STATUS_NEW) (BIT COROUTINE_STATUS_READY))
    0 0 0 0 NULL 0 (-1) (-1).

Definition newcoro : M world addr :=
  let* s := get_sched in
  match s with None => dyco_schedule_create 0 0 | Some _ => ret 0 end ;;;
  let* s := get_sched in
  match s with
  | None => ret NULL
  | Some _ =>
      let* co := malloc in
      if co =? NULL then ret NULL
      else
        modify (fun w => set_w_coros (<[co := fresh_co]> (w_coros w)) w) ;;;
        upd_sched (fun s => set_s_queues (link_alloc (s_queues s) co) s) ;;;
        ret co
  end.

(** The scheduler pointer a coroutine is given; any non-null value. *)
Definition SCHED_PTR : addr := 1.

(** The next coroutine identifier: the low byte of the scheduler identifier
    and a 24-bit generation, converted to [int]. *)
Definition make_cid (sched_id gen : Z) : Z :=
  i32 (Z.lor (u32 (Z.shiftl (Z.land sched_id 0xff) 24)) gen).

Definition next_cid (co : addr) : M world Z :=
  let* s := the_sched in
  let gen := Z.land (s_cid_gen s + 1) 0xffffff in
  upd_sched (set_s_cid_gen gen) ;;;
  let cid := make_cid (s_sched_id s) gen in
  upd_co co (set_co_cid cid) ;;;
  ret cid.

Definition incr_coro_count (d : Z) : M world unit :=
  upd_sched (fun s => set_s_coro_count (u32 (s_coro_count s + d)) s).

Definition wake_done : M world unit :=
  upd_sched (fun s => if decide (s_status s = SCHEDULE_STATUS_DONE)
                      then set_s_status SCHEDULE_STATUS_READY s else s).

Definition dyco_coroutine_create (func arg : Z) : M world Z :=
  let* co := newcoro in
  if co =? NULL then ret (-2)
  else
    upd_co co (fun c => set_co_sched SCHED_PTR (set_co_arg arg (set_co_func func c))) ;;;
    let* cid := next_cid co in
    let* r := cid_map_insert cid co in
    DYCO_MUST (0 <=? r) ;;;
    incr_coro_count 1 ;;;
    upd_sched (fun s => set_s_queues (TAILQ_INSERT_TAIL (s_queues s) ready co) s) ;;;
    wake_done ;;;
    ret cid.

Definition dyco_coroutine_create_urgent (func arg : Z) : M world Z :=
  let* co := newcoro in
  if co =? NULL then ret (-2)
  else
    upd_co co (fun c => set_co_sched SCHED_PTR (set_co_arg arg (set_co_func func c))) ;;;
    let* cid := next_cid co in
    let* r := cid_map_insert cid co in
    DYCO_MUST (0 <=? r) ;;;
    incr_coro_count 1 ;;;
    set_flag co COROUTINE_FLAGS_URGENT ;;;
    upd_sched (fun s => set_s_queues (TAILQ_INSERT_TAIL (s_queues s) urgent_ready co) s) ;;;
    wake_done ;;;
    ret cid.

(** The release of the descriptors a coroutine owns, shared by [freecoro] and
    [cp_return]. *)
Definition release_io (co : addr) : M world unit :=
  let* io := test_co co COROUTINE_FLAGS_IOMULTIPLEXING in
  when io (
    let* c := getco co in
    schedule_cancel_wait co (co_epollfd c) ;;;
    let* s := co_sched_of co in
    let* r := sys (os_epoll_del (s_epollfd s) (co_epollfd c)) in
    DYCO_MUST (r =? 0) ;;;
    let* _ := sys (os_close (co_epollfd c)) in ret tt) ;;;
  let* sg := test_co co COROUTINE_FLAGS_WAITSIGNAL in
  when sg (
    let* c := getco co in
    let* _ := sys (os_sigprocmask SIG_SETMASK (co_old_sigmask c)) in
    let* _ := sys (os_close (co_sigfd c)) in ret tt).

(** [free(co)]. *)
Definition free_co (co : addr) : M world unit :=
  let* _ := getco co in
  modify (fun w => set_w_coros (delete co (w_coros w)) w) ;;;
  upd_sched (fun s => set_s_queues (link_free (s_queues s) co) s).

Definition freecoro (co : addr) : M world unit :=
  if co =? NULL then ret tt
  else
    let* _ := co_sched_of co in
    incr_coro_count (-1) ;;;
    let* c := getco co in
    cid_map_delete (co_cid c) ;;;
    release_io co ;;;
    let* m := test_co co COROUTINE_FLAGS_ALLOCSTACKMEM in
    when m (upd_co co (set_co_stack NULL)) ;;;
    free_co co.

(** ** Attributes *)

(** [coro_setstack] of the pool, whose body [dyco_coroutine_setStack]
    repeats. *)
Definition coro_setstack (co stackptr stacksize : Z) : M world Z :=
  if co =? NULL then ret (-1)
  else
    let* new := test_co co COROUTINE_STATUS_NEW in
    if negb new then ret (-1)
    else if stacksize =? 0 then
      upd_co co (fun c => set_co_stack_size 0 (set_co_stack NULL c)) ;;;
      clr_flag co COROUTINE_FLAGS_OWNSTACK ;;; ret 0
    else if stackptr =? NULL then
      upd_co co (set_co_stack_size (u64 (stacksize + stacksize mod os_getpagesize))) ;;;
      let* p := malloc in
      upd_co co (set_co_stack p) ;;;
      set_flag co COROUTINE_FLAGS_OWNSTACK ;;;
      set_flag co COROUTINE_FLAGS_ALLOCSTACKMEM ;;; ret 1
    else
      upd_co co (fun c => set_co_stack_size stacksize (set_co_stack stackptr c)) ;;;
      set_flag co COROUTINE_FLAGS_OWNSTACK ;;; ret 1.

(** The lookups by identifier: -1 without a scheduler or a coroutine. *)
Definition with_cid {A} (cid : Z) (err : A) (f : addr -> M world A) : M world A :=
  let* s := get_sched in
  match s with
  | None => ret err
  | Some _ =>
      let* co := cid_map_find cid in
      if co =? NULL then ret err else f co
  end.

Definition dyco_coroutine_setStack (cid stackptr stacksize : Z) : M world Z :=
  with_cid cid (-1) (fun co => coro_setstack co stackptr stacksize).

(** The out parameters are the second and third components. *)
Definition dyco_coroutine_getStack (cid : Z) : M world (Z * option (Z * Z)) :=
  with_cid cid (-1, None) (fun co =>
    let* c := getco co in
    ret (Z.b2z (TESTBIT (co_status c) COROUTINE_FLAGS_OWNSTACK),
         Some (co_stack c, co_stack_size c))).

Definition dyco_coroutine_coroID : M world Z :=
  let* co := opt_curr in
  match co with None => ret (-1) | Some co => let* c := getco co in ret (co_cid c) end.

Definition dyco_coroutine_setUdata (cid udata : Z) : M world Z :=
  with_cid cid (-1) (fun co => upd_co co (set_co_udata udata) ;;; ret 0).

Definition dyco_coroutine_getUdata (cid : Z) : M world (Z * option Z) :=
  with_cid cid (-1, None) (fun co => let* c := getco co in ret (0, Some (co_udata c))).

Definition dyco_coroutine_setUrgent (cid : Z) : M world Z :=
  with_cid cid (-1) (fun co => set_flag co COROUTINE_FLAGS_URGENT ;;; ret 0).

Definition dyco_coroutine_unsetUrgent (cid : Z) : M world Z :=
  with_cid cid (-1) (fun co => clr_flag co COROUTINE_FLAGS_URGENT ;;; ret 0).

Definition dyco_coroutine_getSchedCount (cid : Z) : M world Z :=
  with_cid cid (-1) (fun co => let* c := getco co in ret (i32 (co_sched_count c))).

End coroutine.

(** * Properties *)

Section coroutine_proofs.
Context {os : OS} {osl : OSLaws os} {T : Type} {st : SleepTree T} {stl : SleepTreeLaws T}.
Local Abbreviation world := (@world os T).
Local Abbreviation dyco_schedule := (@dyco_schedule T).
Implicit Types (w : world) (s : dyco_schedule) (c : dyco_coroutine) (a : addr).

Definition ownstack c : bool := TESTBIT (co_status c) COROUTINE_FLAGS_OWNSTACK.

(** ** The shared stack *)

(** The bytes of the shared stack that are in use. *)
Definition live_part (n : nat) (stack : list Z) : list Z := drop (length stack - n) stack.

Definition saved_co (p : addr) (n : Z) (stack : list Z) c : dyco_coroutine :=
  set_co_status (SETBIT (co_status c) COROUTINE_FLAGS_ALLOCSTACKMEM)
    (set_co_stack_buf (live_part (Z.to_nat n) stack) (set_co_stack_size n (set_co_stack p c))).

Lemma savestk_exact a c s w :
  w_coros w !! a = Some c -> ownstack c = false -> co_sched c <> NULL -> w_sched w = Some s ->
  let n := os_stack_used (w_kern w) in
  0 <= n < 2 ^ 31 -> (Z.to_nat n <= length (s_stack s))%nat ->
  (n <= co_stack_size c -> co_stack c <> NULL) ->
  (forall used, (os_malloc used (w_kern w)).1 <> NULL) ->
  exists p k, savestk a w = Ok (tt, with_co a (saved_co p n (s_stack s) c) (set_w_kern k w)) /\
    p <> NULL /\ (k = w_kern w \/ k = (os_malloc (used_addrs w) (w_kern w)).2).
Proof.
  intros Hc Hown Hsc Hs n Hn Hlen Hstk Hmal. unfold savestk. mrun. unfold ownstack in Hown.
  rewrite Hown. mrun. mrun. fold n.
  assert (Hu : u64 (i32 n) = n).
  { rewrite (i32_small n) by (unfold is_i32; lia). apply u64_small. unfold is_u64. lia. }
  rewrite Hu. mrun. destruct (Z.ltb_spec (co_stack_size c) n) as [Hlt|Hge]; simpl.
  - destruct (os_malloc (used_addrs w) (w_kern w)) as [p k] eqn:Hm.
    specialize (Hmal (used_addrs w)). rewrite Hm in Hmal. simpl in Hmal.
    exists p, k. split; [|by auto].
    erewrite bind_ok; [|mrun; eapply upd_co_run; mrun_side].
    mrun. mrun. simpl. destruct (Z.eqb_spec p NULL); [done|].
    rewrite decide_True by done. mrun. erewrite set_flag_run by mrun_side.
    unfold with_co, saved_co, live_part; simpl. by rewrite !insert_insert_eq.
  - exists (co_stack c), (w_kern w). split; [|by auto]. mrun. mrun. mrun. simpl.
    destruct (Z.eqb_spec (co_stack c) NULL); [by apply Hstk in Hge|].
    rewrite decide_True by done. mrun. erewrite set_flag_run by mrun_side.
    unfold with_co, saved_co, live_part; simpl. rewrite !insert_insert_eq.
    destruct w, c; done.
Qed.

Lemma savestk_run a c s w :
  w_coros w !! a = Some c -> ownstack c = false -> co_sched c <> NULL -> w_sched w = Some s ->
  let n := os_stack_used (w_kern w) in
  0 <= n < 2 ^ 31 -> (Z.to_nat n <= length (s_stack s))%nat ->
  (n <= co_stack_size c -> co_stack c <> NULL) ->
  (forall used, (os_malloc used (w_kern w)).1 <> NULL) ->
  exists p k, savestk a w = Ok (tt, with_co a (saved_co p n (s_stack s) c) (set_w_kern k w)) /\
    forall ep fd, os_registered k ep fd = os_registered (w_kern w) ep fd.
Proof.
  intros Hc Hown Hsc Hs n Hn Hlen Hstk Hmal.
  destruct (savestk_exact a c s w Hc Hown Hsc Hs Hn Hlen Hstk Hmal) as (p & k & Hrun & _ & Hk).
  exists p, k. split; [done|]. destruct Hk as [->| ->]; [done|]. intros ep fd. apply malloc_registered.
Qed.

Lemma loadstk_run a c s w :
  w_coros w !! a = Some c -> ownstack c = false -> co_sched c <> NULL -> w_sched w = Some s ->
  let n := Z.to_nat (co_stack_size c) in (n <= length (s_stack s))%nat ->
  loadstk a w = Ok (tt, set_w_sched (Some (set_s_stack
    (take (length (s_stack s) - n) (s_stack s) ++ take n (co_stack_buf c)) s)) w).
Proof.
  intros Hc Hown Hsc Hs n Hn. unfold loadstk. mrun. unfold ownstack in Hown. rewrite Hown.
  mrun. mrun. rewrite decide_True by done. by apply upd_sched_run.
Qed.

(** C18. The shared stack: when a coroutine that was suspended with [savestk] is
    resumed with [loadstk], whatever ran on the shared stack in between, the
    part of the stack that was in use is what it was, byte for byte, and the
    rest of the stack is not written. *)
Theorem stack_save_restore a c s w :
  w_coros w !! a = Some c -> ownstack c = false -> co_sched c <> NULL -> w_sched w = Some s ->
  let n := os_stack_used (w_kern w) in
  0 <= n < 2 ^ 31 -> (Z.to_nat n <= length (s_stack s))%nat ->
  (n <= co_stack_size c -> co_stack c <> NULL) ->
  (forall used, (os_malloc used (w_kern w)).1 <> NULL) ->
  exists w1, savestk a w = Ok (tt, w1) /\
    forall w2 s2, w_coros w2 !! a = w_coros w1 !! a -> w_sched w2 = Some s2 ->
      length (s_stack s2) = length (s_stack s) ->
      exists w3 s3, loadstk a w2 = Ok (tt, w3) /\ w_sched w3 = Some s3 /\
        live_part (Z.to_nat n) (s_stack s3) = live_part (Z.to_nat n) (s_stack s) /\
        take (length (s_stack s) - Z.to_nat n) (s_stack s3) =
        take (length (s_stack s) - Z.to_nat n) (s_stack s2) /\
        length (s_stack s3) = length (s_stack s).
Proof.
  intros Hc Hown Hsc Hs n Hn Hlen Hstk Hmal.
  destruct (savestk_run a c s w Hc Hown Hsc Hs Hn Hlen Hstk Hmal) as (p & k & Hsave & _).
  eexists. split; [exact Hsave|]. intros w2 s2 Hc2 Hs2 Hl2. simpl in Hc2.
  rewrite lookup_insert_eq in Hc2.
  assert (Hd : length (drop (length (s_stack s) - Z.to_nat n) (s_stack s)) = Z.to_nat n)
    by (rewrite length_drop; lia).
  pose proof (loadstk_run a _ s2 w2 Hc2) as Hload. simpl in Hload. fold n in Hload.
  unfold live_part in Hload. rewrite Hl2, (take_ge (drop _ _)) in Hload by lia.
  eexists _, _. split; [apply Hload|split; [done|]]; simpl; try done.
  - unfold ownstack in *. simpl. by rewrite TESTBIT_SETBIT.
  - unfold live_part. rewrite length_app, length_take, Hd, Hl2.
    rewrite Nat.min_l by lia. split_and!; [| |lia].
    + rewrite drop_app_ge by (rewrite length_take; lia). rewrite length_take, Hl2.
      replace (_ - _ - _)%nat with O by lia. done.
    + rewrite take_app_le by (rewrite length_take; lia). rewrite take_take. f_equal. lia.
Qed.

(** ** Identifiers *)

Lemma make_cid_word sched_id gen :
  0 <= gen < 2 ^ 24 ->
  make_cid sched_id gen = i32 (Z.land sched_id 0xff * 2 ^ 24 + gen) /\
  is_u32 (Z.land sched_id 0xff * 2 ^ 24 + gen).
Proof.
  intros Hg. unfold make_cid.
  assert (Hl : 0 <= Z.land sched_id 255 < 2 ^ 8).
  { change 255 with (Z.ones 8). rewrite Z.land_ones by lia. apply Z.mod_pos_bound. lia. }
  rewrite u32_small, lor_shift_add; unfold is_u32; [split; [done|lia]|lia|lia|].
  rewrite Z.shiftl_mul_pow2 by lia. lia.
Qed.

(** Coroutine identifiers: two identifiers are equal only if they have the
    same 24-bit generation and come from schedulers whose identifiers agree on
    their low byte; so a scheduler hands out no identifier twice within 2^24
    creations, and an identifier tells the coroutines of different schedulers
    apart. *)
Theorem cid_injective id1 id2 g1 g2 :
  0 <= g1 < 2 ^ 24 -> 0 <= g2 < 2 ^ 24 ->
  make_cid id1 g1 = make_cid id2 g2 <-> Z.land id1 0xff = Z.land id2 0xff /\ g1 = g2.
Proof.
  intros H1 H2. destruct (make_cid_word id1 g1 H1) as [E1 R1], (make_cid_word id2 g2 H2) as [E2 R2].
  split; [|by intros [Hl ->]; rewrite E1, E2, Hl].
  rewrite E1, E2. intros Hi%i32_inj; [|done..].
  assert (0 <= Z.land id1 255 /\ 0 <= Z.land id2 255) by (rewrite !Z.land_nonneg; lia). lia.
Qed.

(** ** Creation *)

Definition new_co (func arg cid : Z) : dyco_coroutine :=
  set_co_cid cid (set_co_sched SCHED_PTR (set_co_arg arg (set_co_func func fresh_co))).

(** The scheduler after the creation of [p]: [h] is the identifier map. *)
Definition adopt (p : addr) (h : @dyco_htable addr) s : dyco_schedule :=
  let gen := Z.land (s_cid_gen s + 1) 0xffffff in
  let s := set_s_queues (link_alloc (s_queues s) p) s in
  let s := set_s_cid_co_map h (set_s_cid_gen gen s) in
  let s := set_s_coro_count (u32 (s_coro_count s + 1)) s in
  let s := set_s_queues (TAILQ_INSERT_TAIL (s_queues s) ready p) s in
  if decide (s_status s = SCHEDULE_STATUS_DONE) then set_s_status SCHEDULE_STATUS_READY s else s.

(** The identifier the next coroutine of the scheduler gets. *)
Definition fresh_cid s : Z := make_cid (s_sched_id s) (Z.land (s_cid_gen s + 1) 0xffffff).

Lemma newcoro_run w s p k :
  w_sched w = Some s -> os_malloc (used_addrs w) (w_kern w) = (p, k) -> p <> NULL ->
  newcoro w = Ok (p, set_w_sched (Some (set_s_queues (link_alloc (s_queues s) p) s))
    (with_co p fresh_co (set_w_kern k w))).
Proof.
  intros Hs Hm Hp. unfold newcoro. mrun. rewrite Hs. mrun. mrun. rewrite Hs. mrun.
  destruct (Z.eqb_spec p NULL); [done|]. mrun. mrun. done.
Qed.

Lemma create_run w s p k func arg :
  w_sched w = Some s -> htable_wf (s_cid_co_map s) ->
  os_malloc (used_addrs w) (w_kern w) = (p, k) -> p <> NULL -> memory_ok k ->
  fresh_cid s <> 0 -> fresh_cid s <> -1 -> count (s_cid_co_map s) + 1 < max_load ->
  exists h, dyco_coroutine_create func arg w = Ok (fresh_cid s,
      set_w_sched (Some (adopt p h s))
        (with_co p (new_co func arg (fresh_cid s)) (set_w_kern (os_alloc_ok k).2 w))) /\
    htable_wf h /\ habs h = <[fresh_cid s := p]> (cids s).
Proof.
  intros Hs Hwf Hm Hp Hmem H0 H1 Hld. unfold dyco_coroutine_create.
  erewrite bind_ok by (by apply newcoro_run). destruct (Z.eqb_spec p NULL); [done|]. mrun.
  unfold next_cid at 1. erewrite bind_ok; [|do 3 mrun; reflexivity]. cbv beta.
  change (make_cid _ _) with (fresh_cid s).
  set (w1 := set_w_coros _ _). set (s1 := set_s_cid_gen _ _) in *.
  destruct (cid_map_insert_run (fresh_cid s) p s1 w1) as (h & Hins & Hwh & Hah); try done.
  exists h. split; [|done]. rewrite (bind_ok _ _ _ _ _ Hins). cbv beta.
  rewrite insert_result_below_limit by done.
  erewrite bind_ok; [|destruct (habs _ !! _); reflexivity].
  unfold incr_coro_count, wake_done. mrun. mrun. mrun. unfold ret.
  unfold w1, with_co, new_co, adopt. simpl. rewrite !insert_insert_eq. by case_decide.
Qed.

(** The invariant after the creation of [p]. *)
Lemma create_ok w s q p k func arg :
  sched_ok w s q -> w_sched w = Some s ->
  os_malloc (used_addrs w) (w_kern w) = (p, k) -> p <> NULL -> memory_ok k ->
  fresh_cid s <> 0 -> fresh_cid s <> -1 -> count (s_cid_co_map s) + 1 < max_load ->
  exists h, let w' := set_w_sched (Some (adopt p h s))
      (with_co p (new_co func arg (fresh_cid s)) (set_w_kern (os_alloc_ok k).2 w)) in
    dyco_coroutine_create func arg w = Ok (fresh_cid s, w') /\ sched_ok w' (adopt p h s) (q.1, q.2 ++ [p]) /\
    htable_wf h /\ habs h = <[fresh_cid s := p]> (cids s) /\ w_coros w !! p = None.
Proof.
  intros Hok Hs Hm Hp Hmem H0 H1 Hld.
  destruct (create_run w s p k func arg Hs (ok_cids_wf _ _ _ Hok) Hm Hp Hmem H0 H1 Hld)
    as (h & Hrun & Hwh & Hah).
  assert (Hfresh : w_coros w !! p = None).
  { pose proof (malloc_fresh _ _ _ _ Hm Hp) as Hf. apply not_elem_of_dom. intros Hd. apply Hf.
    unfold used_addrs. rewrite !elem_of_union. tauto. }
  exists h. split_and!; [exact Hrun| |done..].
  assert (Hst : forall (P : dyco_schedule -> Prop), (forall s0, P s0 -> P (set_s_status SCHEDULE_STATUS_READY s0)) ->
    P (set_s_queues (TAILQ_INSERT_TAIL (link_alloc (s_queues s) p) ready p)
      (set_s_coro_count (u32 (s_coro_count s + 1)) (set_s_cid_co_map h
        (set_s_cid_gen (Z.land (s_cid_gen s + 1) 0xffffff) s)))) -> P (adopt p h s)).
  { intros P HP Hb. unfold adopt. simpl. case_decide; [by apply (HP _ Hb)|exact Hb]. }
  apply sched_ok_sched. apply Hst; [by intros s0 H; eapply sched_ok_irrel|].
  set (c := new_co func arg (fresh_cid s)).
  assert (Hok1 : sched_ok (with_co p c w) (set_s_queues (link_alloc (s_queues s) p) s) q)
    by (by apply sched_ok_alloc).
  assert (Hok2 : sched_ok (with_co p c (set_w_kern (os_alloc_ok k).2 w))
    (set_s_queues (link_alloc (s_queues s) p) s) q).
  { apply (sched_ok_kern (with_co p c w)); [done|].
    intros fd. simpl. rewrite alloc_registered.
    pose proof (malloc_registered (used_addrs w) (w_kern w) (s_epollfd s) fd) as Hr. by rewrite Hm in Hr. }
  eapply sched_ok_irrel; [eapply (sched_ok_enlist _ _ q h (fresh_cid s) p c ready Hok2)|..]; try done.
  - apply lookup_insert_eq.
  - intros (c0 & Hc0 & _)%(ok_queued _ _ _ Hok). congruence.
Qed.


(** ** Disposal *)

Definition io_flag c : bool := TESTBIT (co_status c) COROUTINE_FLAGS_IOMULTIPLEXING.
Definition signal_flag c : bool := TESTBIT (co_status c) COROUTINE_FLAGS_WAITSIGNAL.

Lemma release_io_none w a c :
  w_coros w !! a = Some c -> io_flag c = false -> signal_flag c = false ->
  release_io a w = Ok (tt, w).
Proof.
  unfold io_flag, signal_flag. intros Hc Hio Hsg. unfold release_io.
  mrun. rewrite Hio. simpl. mrun. mrun. by rewrite Hsg.
Qed.

(** The steps of [freecoro] before the descriptors are released. *)
Lemma freecoro_start w s a c :
  w_sched w = Some s -> w_coros w !! a = Some c -> a <> NULL -> co_sched c <> NULL ->
  htable_wf (s_cid_co_map s) -> co_cid c <> 0 -> co_cid c <> -1 ->
  exists h, htable_wf h /\ habs h = delete (co_cid c) (cids s) /\
    let s1 := set_s_cid_co_map h (set_s_coro_count (u32 (s_coro_count s + -1)) s) in
    freecoro a w = (release_io a ;;;
      let* m := test_co a COROUTINE_FLAGS_ALLOCSTACKMEM in
      when m (upd_co a (set_co_stack NULL)) ;;; free_co a)%dyco (set_w_sched (Some s1) w).
Proof.
  intros Hs Hc Ha Hsc Hwf H0 H1.
  destruct (cid_map_delete_run (co_cid c) (set_s_coro_count (u32 (s_coro_count s + -1)) s)
    (set_w_sched (Some (set_s_coro_count (u32 (s_coro_count s + -1)) s)) w) eq_refl Hwf H0 H1)
    as (r & h & Hd & Hwh & Hah).
  exists h. split_and!; [done|done|]. unfold freecoro. destruct (Z.eqb_spec a NULL); [done|].
  mrun. unfold incr_coro_count. mrun. mrun. rewrite (bind_ok _ _ _ _ _ Hd). done.
Qed.

(** The state after the release of [a]. *)
Definition freed (h : @dyco_htable addr) a s : dyco_schedule :=
  set_s_queues (link_free (s_queues s) a)
    (set_s_cid_co_map h (set_s_coro_count (u32 (s_coro_count s + -1)) s)).

Lemma freecoro_run w s q a c :
  sched_ok w s q -> w_sched w = Some s -> w_coros w !! a = Some c -> co_sched c <> NULL ->
  co_cid c <> 0 -> co_cid c <> -1 -> sleeping_flag c = false -> waiting_flag c = false ->
  io_flag c = false -> signal_flag c = false -> a ∉ queued q ->
  exists h, habs h = delete (co_cid c) (cids s) /\
    let w' := set_w_coros (delete a (w_coros w)) (set_w_sched (Some (freed h a s)) w) in
    freecoro a w = Ok (tt, w') /\ sched_ok w' (freed h a s) q.
Proof.
  intros Hok Hs Hc Hsc H0 H1 Hsl Hw Hio Hsg Hq.
  assert (Ha : a <> NULL) by (intros ->; by rewrite (ok_null _ _ _ Hok) in Hc).
  destruct (freecoro_start w s a c Hs Hc Ha Hsc (ok_cids_wf _ _ _ Hok) H0 H1) as (h & Hwh & Hah & Hrun).
  exists h. split; [done|]. split.
  - rewrite Hrun. erewrite bind_ok by (by eapply release_io_none). mrun.
    destruct (TESTBIT (co_status c) COROUTINE_FLAGS_ALLOCSTACKMEM); simpl.
    + mrun. unfold free_co. mrun. mrun. erewrite upd_sched_run by done. simpl.
      by rewrite delete_insert_eq.
    + mrun. unfold free_co. mrun. mrun. by erewrite upd_sched_run by done.
  - apply (sched_ok_sched (set_w_coros _ w)).
    eapply (sched_ok_irrel _ (set_s_queues (link_free (s_queues s) a) (set_s_cid_co_map h s))); try done.
    by apply (sched_ok_free w s q h a c).
Qed.


(** A coroutine that called [dyco_epoll_init] and returns without
    [dyco_epoll_destroy] takes the process down: [freecoro] removes its epoll
    descriptor from the scheduler's epoll set, where it is not registered
    unless a wait is pending, and where the cancelled wait has just removed it
    if one is, and the failed removal is fatal. *)
Theorem free_with_epoll_exits w s q a c :
  sched_ok w s q -> w_sched w = Some s -> w_coros w !! a = Some c -> co_sched c <> NULL ->
  co_cid c <> 0 -> co_cid c <> -1 -> co_epollfd c <> 0 -> co_epollfd c <> -1 ->
  io_flag c = true ->
  os_registered (w_kern w) (s_epollfd s) (co_epollfd c) = waiting_flag c ->
  freecoro a w = Err FExit.
Proof.
  intros Hok Hs Hc Hsc H0 H1 He0 He1 Hio Hreg.
  assert (Ha : a <> NULL) by (intros ->; by rewrite (ok_null _ _ _ Hok) in Hc).
  destruct (freecoro_start w s a c Hs Hc Ha Hsc (ok_cids_wf _ _ _ Hok) H0 H1) as (h & Hwh & Hah & ->).
  set (s1 := set_s_cid_co_map h (set_s_coro_count (u32 (s_coro_count s + -1)) s)).
  unfold bind at 1. unfold release_io. mrun. unfold io_flag in Hio. rewrite Hio. simpl.
  unfold bind at 1. mrun. destruct (waiting_flag c) eqn:Hw.
  - destruct (schedule_cancel_wait_run a (co_epollfd c) c s1 (set_w_sched (Some s1) w))
      as (h' & k & Hcw & _ & _ & Hr & _); try done; [apply Hok|].
    rewrite (bind_ok _ _ _ _ _ Hcw). mrun.
    destruct (epoll_del_unregistered k (s_epollfd s) (co_epollfd c)) as (k' & Hk').
    { rewrite Hr. by rewrite bool_decide_eq_true_2. }
    by erewrite bind_ok by (apply sys_run; exact Hk').
  - destruct (epoll_del_unregistered (w_kern w) (s_epollfd s) (co_epollfd c) Hreg) as (k' & Hk').
    erewrite bind_ok; [|unfold schedule_cancel_wait; mrun; fold (waiting_flag c); rewrite Hw; reflexivity].
    mrun. by erewrite bind_ok by (apply sys_run; exact Hk').
Qed.

(** ** Suspension *)

(** The stack of the running coroutine has not overflowed, and what of it lies
    on the shared stack can be saved. *)
Record stack_ok w s c : Prop := {
  so_total : let total := if ownstack c then co_stack_size c else s_stack_size s in
    0 <= os_stack_used (w_kern w) <= total /\ total < 2 ^ 31;
  so_shared : ownstack c = false ->
    (Z.to_nat (os_stack_used (w_kern w)) <= length (s_stack s))%nat /\
    (os_stack_used (w_kern w) <= co_stack_size c -> co_stack c <> NULL) /\
    (forall used, (os_malloc used (w_kern w)).1 <> NULL)
}.

Lemma savestk_ok w s a c :
  w_coros w !! a = Some c -> co_sched c <> NULL -> w_sched w = Some s -> stack_ok w s c ->
  exists c0 k, savestk a w = Ok (tt, with_co a c0 (set_w_kern k w)) /\ co_stable c c0 /\
    forall ep fd, os_registered k ep fd = os_registered (w_kern w) ep fd.
Proof.
  intros Hc Hsc Hs [Ht Hsh]. destruct (ownstack c) eqn:Ho.
  - exists c, (w_kern w). split; [|by repeat split]. unfold savestk. mrun. unfold ownstack in Ho. rewrite Ho.
    unfold ret, with_co. simpl. rewrite insert_id by done. by destruct w.
  - cbv zeta in Ht. destruct (Hsh eq_refl) as (Hl & Hst & Hm).
    destruct (savestk_run a c s w Hc Ho Hsc Hs ltac:(lia) Hl Hst Hm) as (p & k & Hrun & Hreg).
    eexists _, k. split; [exact Hrun|]. split; [|done].
    unfold co_stable, sleeping_flag, waiting_flag. simpl. by rewrite !TESTBIT_SETBIT.
Qed.

Lemma checkstk_run w s a c :
  w_coros w !! a = Some c -> co_sched c <> NULL -> w_sched w = Some s -> stack_ok w s c ->
  exists r, exec (checkstk a) w = (SDone r, w).
Proof.
  intros Hc Hsc Hs [Ht _]. unfold checkstk.
  rewrite (exec_atomic_bind _ _ _ _ _ (co_sched_of_run a c s w Hc Hsc Hs)).
  rewrite (exec_atomic_bind _ _ _ _ _ (getco_run a c w Hc)).
  rewrite (exec_atomic_bind get_st _ w w w eq_refl). fold (ownstack c). cbv zeta in Ht.
  set (total := if ownstack c then co_stack_size c else s_stack_size s) in *.
  rewrite !i32_small by (unfold is_i32; lia).
  destruct (Z.ltb_spec total (os_stack_used (w_kern w))); [lia|].
  destruct (_ <? _); eauto.
Qed.

(** A coroutine that has not exited gives way to the scheduler, having saved
    its stack and cleared its RUNNING flag, and nothing else. *)
Lemma yield_run w s a c :
  w_coros w !! a = Some c -> co_sched c <> NULL -> w_sched w = Some s -> stack_ok w s c ->
  TESTBIT (co_status c) COROUTINE_STATUS_EXITED = false ->
  exists c' k, exec (yield a) w =
      (SSwitch (SwapSched a) (atomic (set_flag a COROUTINE_STATUS_RUNNING)),
       with_co a c' (set_w_kern k w)) /\ co_stable c c' /\
    forall ep fd, os_registered k ep fd = os_registered (w_kern w) ep fd.
Proof.
  intros Hc Hsc Hs Hst Hex. unfold yield.
  destruct (checkstk_run w s a c Hc Hsc Hs Hst) as (r & Hr). rewrite exec_bind, Hr.
  rewrite (exec_atomic_bind _ _ _ _ _ (test_co_run a _ c w Hc)), Hex. simpl.
  destruct (savestk_ok w s a c Hc Hsc Hs Hst) as (c0 & k & Hsv & Hstab & Hreg).
  rewrite Hsv. simpl.
  erewrite clr_flag_run by (simpl; apply lookup_insert_eq). simpl.
  eexists _, k. split; [unfold with_co; simpl; by rewrite insert_insert_eq|]. split; [|done].
  destruct Hstab as (H1 & H2 & H3 & H4 & H5). unfold co_stable, sleeping_flag, waiting_flag in *.
  simpl. by rewrite !TESTBIT_CLRBIT.
Qed.

(** The running coroutine, as the blocking calls find it. *)
Definition running w s a c : Prop :=
  w_sched w = Some s /\ s_curr_thread s = a /\ a <> NULL /\ w_coros w !! a = Some c /\
  co_sched c <> NULL /\ TESTBIT (co_status c) COROUTINE_FLAGS_ASYMMETRIC = false /\
  TESTBIT (co_status c) COROUTINE_STATUS_EXITED = false.

Lemma must_curr_run w s a c : running w s a c -> must_curr w = Ok (a, w).
Proof.
  intros (Hs & Ha & Hn & _). unfold must_curr. mrun. rewrite Hs, Ha.
  by destruct (Z.eqb_spec a NULL).
Qed.

Lemma opt_curr_run w s :
  w_sched w = Some s -> s_curr_thread s <> NULL -> opt_curr w = Ok (Some (s_curr_thread s), w).
Proof.
  intros Hs Hc. unfold opt_curr. mrun. rewrite Hs. by destruct (Z.eqb_spec (s_curr_thread s) NULL).
Qed.

Lemma opt_curr_of w s a :
  w_sched w = Some s -> s_curr_thread s = a -> a <> NULL -> opt_curr w = Ok (Some a, w).
Proof. intros Hs <- Hn. by apply opt_curr_run. Qed.

(** [dyco_coroutine_sleep] takes an unsigned number of milliseconds but hands
    it on as an [int]: a sleep of 2^31 milliseconds or more suspends the
    coroutine without setting a timer or queueing it, so that nothing will
    ever resume it. *)
Theorem long_sleep_is_never_woken w s a c msecs :
  running w s a c -> timers_ok w s -> stack_ok w s c ->
  sleeping_flag c = false -> view s !! co_sleep_usecs c = None ->
  2 ^ 31 <= msecs < 2 ^ 32 ->
  exists k w' c' s', exec (dyco_coroutine_sleep msecs) w = (SSwitch (SwapSched a) k, w') /\
    w_coros w' !! a = Some c' /\ sleeping_flag c' = false /\
    w_sched w' = Some s' /\ (forall key, view s' !! key <> Some a) /\
    s_queues s' = s_queues s /\ s_fd_co_map s' = s_fd_co_map s.
Proof.
  intros Hrun Ht Hst Hfl Hkey Hm. destruct (Hrun) as (Hs & Hcur & Hn & Hc & Hsc & Has & Hex).
  unfold dyco_coroutine_sleep.
  rewrite (exec_atomic_bind _ _ _ _ _ (must_curr_run w s a c Hrun)).
  rewrite (exec_atomic_bind _ _ _ _ _ (test_co_run a _ c w Hc)), Has.
  rewrite (exec_atomic_bind (DYCO_MUSTNOT false) _ w tt w eq_refl).
  destruct (Z.eqb_spec msecs 0); [lia|].
  assert (Hneg : i32 msecs <= 0).
  { unfold i32, swrap, uwrap. rewrite Z.mod_small by lia.
    destruct (Z.ltb_spec msecs (2 ^ (32 - 1))); lia. }
  rewrite (exec_atomic_bind _ _ w tt w).
  2: { unfold schedule_sched_sleep. mrun. mrun.
       rewrite rb_find_law by apply Ht. unfold view in Hkey. rewrite Hkey. mrun.
       by destruct (Z.leb_spec (i32 msecs) 0); [|lia]. }
  destruct (yield_run w s a c Hc Hsc Hs Hst Hex) as (c' & k & Hy & Hstab & _). rewrite Hy.
  eexists _, _, c', s. split_and!; [done|apply lookup_insert_eq| |done| |done|done].
  - destruct Hstab as [-> _]. done.
  - intros key Hk. destruct (tm_entry _ _ Ht _ _ Hk) as (c0 & Hc0 & _ & Hf0). congruence.
Qed.

(** What the blocking operations do after the scheduler resumed them. *)
Definition resumed (a : addr) (fd : Z) : prog world unit :=
  (do! atomic (set_flag a COROUTINE_STATUS_RUNNING);
   do! atomic (schedule_cancel_sleep a);
   let! _ := atomic (schedule_cancel_wait a fd) in PRet tt)%dyco.

Lemma resumed_run w s q a c fd :
  sched_ok w s q -> w_sched w = Some s -> one_wait s -> w_coros w !! a = Some c ->
  (waiting_flag c = true -> fds s !! fd = Some a) ->
  exists w' s' c', exec (resumed a fd) w = (SDone tt, w') /\ w_sched w' = Some s' /\
    sched_ok w' s' q /\ w_coros w' !! a = Some c' /\
    sleeping_flag c' = false /\ waiting_flag c' = false /\
    fds s' = (if waiting_flag c then delete fd (fds s) else fds s) /\
    (forall fd', os_counter (w_kern w') fd' = os_counter (w_kern w) fd') /\
    same_outside w w' /\ s_curr_thread s' = s_curr_thread s.
Proof.
  intros Hok Hs Hone Hc Hfd. unfold resumed.
  set (c0 := set_co_status (SETBIT (co_status c) COROUTINE_STATUS_RUNNING) c).
  assert (Hst : co_stable c c0 /\ ready_flag c0 = ready_flag c).
  { unfold co_stable, sleeping_flag, waiting_flag, ready_flag. simpl. by rewrite !TESTBIT_SETBIT. }
  destruct Hst as [Hst Hrd].
  assert (Hok0 : sched_ok (with_co a c0 w) s q).
  { apply (sched_ok_co w s q a c); try done. intros Hq. rewrite Hrd.
    destruct (ok_queued _ _ _ Hok a Hq) as (c1 & Hc1 & <-). congruence. }
  rewrite (exec_atomic_bind _ _ _ _ _ (set_flag_run a _ c w Hc)).
  destruct (cancel_sleep_ok (with_co a c0 w) s q a c0 Hok0 Hs (lookup_insert_eq _ _ _))
    as (w1 & s1 & c1 & Hr1 & Hs1 & Hok1 & Hc1 & Hsl1 & Hw1 & Hsc1 & Hf1 & Hk1 & Hout1 & Hcur1).
  rewrite (exec_atomic_bind _ _ _ _ _ Hr1).
  assert (Hw01 : waiting_flag c1 = waiting_flag c) by (rewrite Hw1; apply Hst).
  destruct (cancel_any_wait_ok w1 s1 q a c1 fd Hok1 Hs1) as
    (r & w2 & s2 & c2 & Hr2 & Hs2 & Hok2 & Hc2 & Hw2 & Hsl2 & Hf2 & Hcnt2 & Hout2 & Hcur2); try done.
  { intros fd1 fd2 b. rewrite Hf1. apply Hone. }
  { by rewrite Hw01, Hf1. }
  rewrite (exec_atomic_bind _ _ _ _ _ Hr2).
  exists w2, s2, c2. split_and!; try done; [congruence| | | |congruence].
  - by rewrite Hf2, Hw01, Hf1.
  - intros fd'. by rewrite Hcnt2, Hk1.
  - eapply same_outside_trans; [|exact Hout2]. by eapply same_outside_trans; [|exact Hout1].
Qed.

(** Up to the switch: registered, asleep, and nothing outside touched. *)
Lemma suspend_run w s q a c fd events timeout now k :
  running w s a c -> sched_ok w s q -> (forall k, stack_ok (set_w_kern k w) s c) ->
  os_registered (w_kern w) (s_epollfd s) fd = false -> is_Some (os_counter (w_kern w) fd) -> fd <> 0 ->
  memory_ok (os_epoll_add (s_epollfd s) fd events (w_kern w)).2 ->
  os_clock_gettime (after_wait s fd events (w_kern w)) = (now, k) -> 0 < timeout ->
  deadline s now timeout + Z.of_nat (size (view s)) < 2 ^ 64 ->
  exists w1 s1 key, exec (suspend a fd events timeout) w = (SSwitch (SwapSched a) (resumed a fd), w1) /\
    w_sched w1 = Some s1 /\ fds s1 = <[fd := a]> (fds s) /\
    os_registered (w_kern w1) (s_epollfd s1) fd = true /\
    view s1 !! key = Some a /\ deadline s now timeout <= key /\ same_outside w w1.
Proof.
  intros Hrun Hok Hst Hreg Hcnt H0 Hmem Hk Ht Hlt.
  destruct Hrun as (Hs & _ & Ha & Hc & Hsc & _ & Hex). unfold suspend.
  destruct (schedule_sched_wait_run a fd events c s w) as (h & Hw & Hwh & Hah & Hr & _);
    try done; [apply Hok|].
  rewrite (exec_atomic_bind _ _ _ _ _ Hw).
  set (k0 := after_wait s fd events (w_kern w)) in *.
  destruct (schedule_sched_sleep_run (with_co a (mark_waiting c) (with_fds h s (set_w_kern k0 w)))
    (set_s_fd_co_map h s) a (mark_waiting c) timeout now k) as (t & j & Hj & Hff & Hsl & Hwt & Hvt); try done.
  { apply lookup_insert_eq. }
  { destruct (timers_ok_co w s a c (mark_waiting c) (ok_timers _ _ _ Hok) Hc); [|done|by split].
    unfold sleeping_flag. simpl. by rewrite TESTBIT_SETBIT. }
  rewrite (exec_atomic_bind _ _ _ _ _ Hsl), exec_bind.
  set (key := deadline (set_s_fd_co_map h s) now timeout + Z.of_nat j) in *.
  set (c1 := mark_asleep key (mark_waiting c)) in *.
  set (s1 := set_s_sleeping t (set_s_fd_co_map h s)).
  match goal with |- context [exec (yield a) ?x] => set (w1 := x) end.
  assert (Hflags : ownstack c1 = ownstack c /\
    TESTBIT (co_status c1) COROUTINE_STATUS_EXITED = TESTBIT (co_status c) COROUTINE_STATUS_EXITED).
  { unfold ownstack, c1. simpl. by rewrite !TESTBIT_CLRBIT, !TESTBIT_SETBIT. }
  destruct Hflags as [Hown Hexit].
  destruct (yield_run w1 s1 a c1) as (c2 & k2 & Hy & _ & Hreg2); try done.
  { apply lookup_insert_eq. }
  { destruct (Hst (w_kern w1)) as [Hs1 Hs2]. split; rewrite Hown; [exact Hs1|exact Hs2]. }
  { by rewrite Hexit. }
  rewrite Hy. eexists _, s1, key. split_and!; try done.
  - simpl. rewrite Hreg2. simpl. pose proof (clock_registered k0 (s_epollfd s) fd) as Hcl.
    rewrite Hk in Hcl. simpl in Hcl. rewrite Hcl, Hr. by rewrite bool_decide_eq_true_2.
  - unfold view. simpl. rewrite Hvt. apply lookup_insert_eq.
  - unfold key. change (deadline (set_s_fd_co_map h s) now timeout) with (deadline s now timeout). lia.
Qed.

(** C14. A coroutine that blocks on a descriptor: it is registered in the wait map
    and in the epoll set and, with a positive timeout, asleep with a wake-up
    time not before its deadline, when it gives way to the scheduler; and in
    whatever consistent state it is resumed, by its event or by its timer, it
    continues with neither a timer nor a wait left behind. *)
Theorem suspend_and_resume w s q a c fd events timeout now k :
  running w s a c -> sched_ok w s q -> (forall k, stack_ok (set_w_kern k w) s c) ->
  os_registered (w_kern w) (s_epollfd s) fd = false -> is_Some (os_counter (w_kern w) fd) -> fd <> 0 ->
  memory_ok (os_epoll_add (s_epollfd s) fd events (w_kern w)).2 ->
  os_clock_gettime (after_wait s fd events (w_kern w)) = (now, k) -> 0 < timeout ->
  deadline s now timeout + Z.of_nat (size (view s)) < 2 ^ 64 ->
  (exists w1 s1 key, exec (suspend a fd events timeout) w = (SSwitch (SwapSched a) (resumed a fd), w1) /\
    w_sched w1 = Some s1 /\ fds s1 = <[fd := a]> (fds s) /\
    os_registered (w_kern w1) (s_epollfd s1) fd = true /\
    view s1 !! key = Some a /\ deadline s now timeout <= key) /\
  (forall w2 s2 q2 c2, sched_ok w2 s2 q2 -> w_sched w2 = Some s2 -> one_wait s2 ->
    w_coros w2 !! a = Some c2 -> (waiting_flag c2 = true -> fds s2 !! fd = Some a) ->
    exists w3 s3 c3, exec (resumed a fd) w2 = (SDone tt, w3) /\ w_sched w3 = Some s3 /\
      sched_ok w3 s3 q2 /\ w_coros w3 !! a = Some c3 /\
      sleeping_flag c3 = false /\ waiting_flag c3 = false).
Proof.
  intros Hrun Hok Hst Hreg Hcnt H0 Hmem Hk Ht Hlt. split.
  - destruct (suspend_run w s q a c fd events timeout now k) as
      (w1 & s1 & key & He & Hs1 & Hf1 & Hr1 & Hv1 & Hd1 & _); try done. by exists w1, s1, key.
  - intros w2 s2 q2 c2 Hok2 Hs2 Hone Hc2 Hfd2.
    destruct (resumed_run w2 s2 q2 a c2 fd Hok2 Hs2 Hone Hc2 Hfd2)
      as (w3 & s3 & c3 & He & Hs3 & Hok3 & Hc3 & Hsl & Hw & _). by exists w3, s3, c3.
Qed.

End coroutine_proofs.

(** ** Concrete states *)

Lemma cid_injective_witness : make_cid 1 5 = make_cid 257 5 <-> Z.land 1 255 = Z.land 257 255 /\ 5 = 5.
Proof. apply (cid_injective 1 257 5 5); lia. Defined.

(** Coroutine 16 runs on the shared stack, of which 64 bytes are in use. *)
Definition ex_stk_sched : @dyco_schedule (gmap Z addr) :=
  set_s_curr_thread 64 (set_s_stack_size 65536 (set_s_stack (replicate 96 7) (ex_sched ∅))).
Definition ex_stk : @world sim (gmap Z addr) :=
  set_w_sched (Some ex_stk_sched) (ex_world ∅ {[64 := ex_co 0 5]}).

Lemma stack_save_restore_witness :
  exists w1, savestk 64 ex_stk = Ok (tt, w1) /\
    forall (w2 : @world sim (gmap Z addr)) s2, w_coros w2 !! 64 = w_coros w1 !! 64 -> w_sched w2 = Some s2 ->
      length (s_stack s2) = 96%nat ->
      exists w3 s3, loadstk 64 w2 = Ok (tt, w3) /\ w_sched w3 = Some s3 /\
        live_part 64 (s_stack s3) = live_part 64 (replicate 96 7) /\
        take 32 (s_stack s3) = take 32 (s_stack s2) /\ length (s_stack s3) = 96%nat.
Proof.
  refine (stack_save_restore 64 (ex_co 0 5) ex_stk_sched ex_stk _ _ _ _ _ _ _ _); try done.
  - simpl. lia.
  - intros used. apply sim_malloc_not_null.
Defined.


(** Coroutine 80, with identifier 9, has exited. *)
Definition ex_exited (status : Z) : dyco_coroutine :=
  set_co_epollfd 5 (set_co_cid 9 (ex_co status 0)).
Definition ex_with_exited (status : Z) : @world sim (gmap Z addr) :=
  let s := set_s_queues (link_alloc (s_queues ex_full_sched) 80) ex_full_sched in
  set_w_sched (Some s) (set_w_coros (<[80 := ex_exited status]> ex_full_coros) ex_full).

Lemma ex_with_exited_ok status :
  TESTBIT status COROUTINE_STATUS_SLEEPING = false ->
  sched_ok (ex_with_exited status) (set_s_queues (link_alloc (s_queues ex_full_sched) 80) ex_full_sched)
    ([], [16]).
Proof.
  intros Hsl. apply (sched_ok_sched (with_co 80 (ex_exited status) ex_full)).
  by apply (sched_ok_alloc ex_full ex_full_sched); [apply ex_full_ok|..].
Qed.


Lemma free_with_epoll_exits_witness :
  freecoro 80 (ex_with_exited (BIT COROUTINE_FLAGS_IOMULTIPLEXING)) = Err FExit.
Proof.
  by apply (free_with_epoll_exits _ _ _ 80 (ex_exited (BIT COROUTINE_FLAGS_IOMULTIPLEXING))
    (ex_with_exited_ok (BIT COROUTINE_FLAGS_IOMULTIPLEXING) eq_refl)).
Defined.

Lemma ex_stk_running : running ex_stk ex_stk_sched 64 (ex_co 0 5).
Proof. done. Qed.

Lemma ex_stk_stack_ok k : stack_ok (set_w_kern k ex_stk) ex_stk_sched (ex_co 0 5).
Proof.
  split; [done|]. intros _. split_and!; [simpl; lia|done|]. intros used. apply sim_malloc_not_null.
Qed.

Lemma long_sleep_is_never_woken_witness :
  exists k w' c' s', exec (dyco_coroutine_sleep (2 ^ 31)) ex_stk = (SSwitch (SwapSched 64) k, w') /\
    w_coros w' !! 64 = Some c' /\ sleeping_flag c' = false /\
    w_sched w' = Some s' /\ (forall key, view s' !! key <> Some 64) /\
    s_queues s' = s_queues ex_stk_sched /\ s_fd_co_map s' = s_fd_co_map ex_stk_sched.
Proof.
  apply (long_sleep_is_never_woken ex_stk ex_stk_sched 64 (ex_co 0 5) (2 ^ 31)); try done.
  - apply timers_ok_intro; [done|refine (bool_decide_unpack _ _); by vm_compute..].
  - apply (ex_stk_stack_ok (w_kern ex_stk)).
Defined.

(** The same coroutine, with an eventfd 7 to wait for and nothing else. *)
Definition ex_blk_sched : @dyco_schedule (gmap Z addr) :=
  set_s_queues (link_alloc (s_queues ex_stk_sched) 64) ex_stk_sched.
Definition ex_blk : @world sim (gmap Z addr) :=
  set_w_kern (mk_sim 1000000000 10 {[7 := 0]} ∅ : @kernel sim) (set_w_sched (Some ex_blk_sched) ex_stk).

Lemma ex_blk_ok : sched_ok ex_blk ex_blk_sched ([], []).
Proof.
  apply (sched_ok_kern (set_w_sched (Some ex_blk_sched) ex_stk)); [|done].
  apply (sched_ok_sched ex_stk).
  apply (sched_ok_alloc (set_w_coros ∅ ex_stk) ex_stk_sched); try done.
  split; try done.
  - split; [split; [done|constructor]..|constructor].
  - intros a. simpl. by rewrite !lookup_empty.
  - intros a []%elem_of_nil.
  - exact (proj1 (ex_sched_fds ∅)).
  - exact (proj1 (ex_sched_cids ∅)).
Qed.

Lemma suspend_and_resume_witness :
  (exists w1 s1 key, exec (suspend 64 7 EVENTS_R 300) ex_blk = (SSwitch (SwapSched 64) (resumed 64 7), w1) /\
    w_sched w1 = Some s1 /\ fds s1 = <[7 := 64]> (fds ex_blk_sched) /\
    os_registered (w_kern w1) (s_epollfd s1) 7 = true /\
    view s1 !! key = Some 64 /\ deadline ex_blk_sched (1, 0) 300 <= key) /\
  (forall w2 s2 q2 c2, sched_ok (os := sim) w2 s2 q2 -> w_sched w2 = Some s2 -> one_wait s2 ->
    w_coros w2 !! 64 = Some c2 -> (waiting_flag c2 = true -> fds s2 !! 7 = Some 64) ->
    exists w3 s3 c3, exec (resumed 64 7) w2 = (SDone tt, w3) /\ w_sched w3 = Some s3 /\
      sched_ok w3 s3 q2 /\ w_coros w3 !! 64 = Some c3 /\
      sleeping_flag c3 = false /\ waiting_flag c3 = false).
Proof.
  refine (suspend_and_resume ex_blk ex_blk_sched ([], []) 64 (ex_co 0 5) 7 EVENTS_R 300 (1, 0)
    (mk_sim 1000001000 10 {[7 := 0]} {[(3, 7)]}) _ ex_blk_ok _ _ _ _ _ _ _ _); try done.
  intros k. split; [done|]. intros _. split_and!; [simpl; lia|done|]. intros used. apply sim_malloc_not_null.
Defined.
