(* ===== verification/Rely.v ===== *)
(** * Blocking operations under interference

    A blocking operation gives way to the scheduler in its middle, and what
    the other coroutines and the scheduler do until it is resumed is not known
    to it.  [wp R F p Q w] says that the program [p] started in [w] ends in a
    state and with a result satisfying [Q], or with a fault of [F], whatever
    transitions of [R] happen while it is suspended.  The second part proves
    that waiting for a descriptor leaves alone what the system calls of the
    wait leave alone; the third that nothing fails in it when the coroutine
    waits without a time limit and is resumed in consistent states. *)
From S2P Require Import Prelude Htable Queue SleepTree World SimOS Schedule SchedInv Prog Coroutine.

Local Open Scope Z_scope.
Local Open Scope dyco_scope.

Section wp.
Context {W : Type} (R : W -> W -> Prop) (F : fault -> Prop).

Fixpoint wp {A} (p : prog W A) (Q : A -> W -> Prop) (w : W) : Prop :=
  match p with
  | PRet a => Q a w
  | PFault e => F e
  | PGet k => wp (k w) Q w
  | PPut w' k => wp k Q w'
  | PSwitch _ k => forall w', R w w' -> wp k Q w'
  end.

(** What [wp] says of the runs of the program: the run up to its end, or up
    to its next switch and from any state in which it may be resumed. *)
Lemma wp_exec {A} (p : prog W A) Q w :
  wp p Q w <->
  match exec p w with
  | (SDone a, w') => Q a w'
  | (SFault e, _) => F e
  | (SSwitch _ k, w') => forall w1, R w' w1 -> wp k Q w1
  end.
Proof. revert w. induction p as [a|e|k IH|w' k IH|s k IH]; intros w; simpl; auto; done. Qed.

Lemma wp_mono {A} (p : prog W A) (Q Q' : A -> W -> Prop) w :
  (forall a w', Q a w' -> Q' a w') -> wp p Q w -> wp p Q' w.
Proof. intros HQ. revert w. induction p; intros w0; simpl; auto. Qed.

Lemma wp_bind {A B} (p : prog W A) (f : A -> prog W B) Q w :
  wp p (fun a w' => wp (f a) Q w') w -> wp (pbind p f) Q w.
Proof. revert w. induction p; intros w0; simpl; auto. Qed.

Lemma wp_atomic {A} (m : M W A) (Q : A -> W -> Prop) w :
  match m w with Ok (a, w') => Q a w' | Err e => F e end -> wp (atomic m) Q w.
Proof. simpl. by destruct (m w) as [[a w']|e]. Qed.

(** ** Invariants of programs *)
Context (I : W -> Prop) (HI : forall w w', R w w' -> I w -> I w').

Definition pkeeps {A} (p : prog W A) : Prop := forall w, I w -> wp p (fun _ w' => I w') w.

Lemma pkeeps_bind {A B} (p : prog W A) (f : A -> prog W B) :
  pkeeps p -> (forall a, pkeeps (f a)) -> pkeeps (pbind p f).
Proof.
  intros Hp Hf w Hw. apply wp_bind. eapply wp_mono; [|by apply Hp]. intros a w' Hw'. by apply Hf.
Qed.

Lemma pkeeps_ret {A} (a : A) : pkeeps (PRet a).
Proof. by intros w Hw. Qed.

Lemma pkeeps_atomic {A} (m : M W A) : keeps I F m -> pkeeps (atomic m).
Proof. intros Hm w Hw. apply wp_atomic, Hm, Hw. Qed.

Lemma pkeeps_switch s : pkeeps (pswitch s).
Proof. intros w Hw w' Hr. simpl. by eapply HI. Qed.

Lemma pkeeps_when b p : pkeeps p -> pkeeps (pwhen b p).
Proof. destruct b; [done|]. intros _. apply pkeeps_ret. Qed.

End wp.

(** The results are as the one says and as the other says, the faults those
    that both allow. *)
Lemma wp_and {W A} (R : W -> W -> Prop) (F1 F2 : fault -> Prop) (p : prog W A) (Q1 Q2 : A -> W -> Prop) w :
  wp R F1 p Q1 w -> wp R F2 p Q2 w -> wp R (fun e => F1 e /\ F2 e) p (fun a w' => Q1 a w' /\ Q2 a w') w.
Proof. revert w. induction p; intros w0; simpl; auto. Qed.

Lemma wp_faults {W A} (R : W -> W -> Prop) (F F' : fault -> Prop) (p : prog W A) (Q : A -> W -> Prop) w :
  (forall e, F e -> F' e) -> wp R F p Q w -> wp R F' p Q w.
Proof. intros HF. revert w. induction p; intros w0; simpl; auto. Qed.

(** Goals [pkeeps _ _ _ p]: descend through [p]; [sub] proves the goals on the
    programs it calls and [tac] what its atomic steps keep. *)
Ltac pkeeps_with sub tac :=
  repeat first
    [ progress intros
    | assumption
    | solve [sub]
    | apply pkeeps_ret
    | apply pkeeps_atomic; solve [tac]
    | apply pkeeps_switch; assumption
    | apply pkeeps_bind
    | apply pkeeps_when
    | match goal with |- pkeeps _ _ _ (match ?x with _ => _ end) => destruct x end ].

(** ** What the waits leave alone *)

(** A property of the kernel that the system calls of a wait keep. *)
Class Quiet {os : OS} (K : kernel -> Prop) : Prop := {
  quiet_clock k : K k -> K (os_clock_gettime k).2;
  quiet_malloc used k : K k -> K (os_malloc used k).2;
  quiet_alloc k : K k -> K (os_alloc_ok k).2;
  quiet_poll fd ev k : K k -> K (os_poll fd ev k).2;
  quiet_epoll_add ep fd ev k : K k -> K (os_epoll_add ep fd ev k).2;
  quiet_epoll_del ep fd k : K k -> K (os_epoll_del ep fd k).2
}.

#[export] Instance quiet_and {os : OS} (K1 K2 : kernel -> Prop) :
  Quiet K1 -> Quiet K2 -> Quiet (fun k => K1 k /\ K2 k).
Proof. intros H1 H2. split; intros; destruct_and!; split; apply H1 || apply H2; done. Qed.

Section quiet.
Context {os : OS} {T : Type} {st : SleepTree T}.
Local Abbreviation world := (@world os T).
Local Abbreviation dyco_schedule := (@dyco_schedule T).
Context (K : kernel -> Prop) `{!Quiet K}.
Context (P : dyco_schedule -> Prop) (F : fault -> Prop) (HF : forall e, e <> FFuel -> F e).

(** [K] holds of the kernel and [P] of the scheduler. *)
Definition wait_inv (w : world) : Prop :=
  K (w_kern w) /\ forall s, w_sched w = Some s -> P s.

Lemma keeps_sys {A} (g : kernel -> A * kernel) :
  (forall k, K k -> K (g k).2) -> keeps wait_inv F (sys g).
Proof.
  intros Hg w [Hw Hs]. unfold sys. specialize (Hg (w_kern w) Hw). by destruct (g (w_kern w)) as [a k].
Qed.

Lemma keeps_the_sched : keeps wait_inv F the_sched.
Proof. intros w Hw. unfold the_sched, bind, get_sched, gets. destruct (w_sched w); [done|by apply HF]. Qed.

Lemma keeps_upd_sched g : (forall s, P s -> P (g s)) -> keeps wait_inv F (upd_sched g).
Proof.
  intros Hg w [Hw Hs]. unfold upd_sched, the_sched, bind, get_sched, gets.
  destruct (w_sched w) as [s|] eqn:E; [|by apply HF]. split; [done|].
  intros s' [= <-]. by apply Hg, Hs.
Qed.

Lemma keeps_getco a : keeps wait_inv F (getco a).
Proof. intros w Hw. unfold getco, bind, get_st. destruct (w_coros w !! a); [done|by apply HF]. Qed.

Lemma keeps_upd_co a g : keeps wait_inv F (upd_co a g).
Proof.
  apply keeps_bind; [apply keeps_getco|]. intros c. apply keeps_modify. by intros w [Hw Hs].
Qed.

Lemma keeps_test_co a flag : keeps wait_inv F (test_co a flag).
Proof. apply keeps_bind; [apply keeps_getco|intros c; apply keeps_ret]. Qed.

Lemma keeps_co_sched_of a : keeps wait_inv F (co_sched_of a).
Proof.
  apply keeps_bind; [apply keeps_getco|]. intros c.
  destruct (_ =? NULL); [by apply keeps_throw, HF|apply keeps_the_sched].
Qed.

Lemma keeps_lift {A} (r : res A) : (forall e, r = Err e -> F e) -> keeps wait_inv F (lift r).
Proof. intros Hr w Hw. unfold lift. destruct r as [a|e]; [done|by apply Hr]. Qed.

End quiet.

Section waits.
Context {os : OS} {T : Type} {st : SleepTree T}.
Local Abbreviation world := (@world os T).
Local Abbreviation dyco_schedule := (@dyco_schedule T).
Context (K : kernel -> Prop) `{!Quiet K}.
Context (P : dyco_schedule -> Prop) (F : fault -> Prop) (HF : forall e, e <> FFuel -> F e).
Local Abbreviation inv := (wait_inv K P).

Ltac kleaf :=
  idtac;
  match goal with
  | |- F _ => apply HF; discriminate
  | |- keeps _ _ (sys _) => apply keeps_sys; apply Quiet0
  | |- keeps _ _ the_sched => apply keeps_the_sched; assumption
  | |- keeps _ _ (getco _) => apply keeps_getco; assumption
  | |- keeps _ _ (upd_co _ _) => apply keeps_upd_co; assumption
  | |- keeps _ _ (set_flag _ _) => apply keeps_upd_co; assumption
  | |- keeps _ _ (clr_flag _ _) => apply keeps_upd_co; assumption
  | |- keeps _ _ (test_co _ _) => apply keeps_test_co; assumption
  | |- keeps _ _ (co_sched_of _) => apply keeps_co_sched_of; assumption
  | |- keeps _ _ (throw _) => apply keeps_throw, HF; discriminate
  | |- keeps _ _ (DYCO_MUST _) => apply keeps_must, HF; discriminate
  | |- keeps _ _ (DYCO_MUSTNOT _) => apply keeps_mustnot, HF; discriminate
  end.

Lemma keeps_malloc : keeps inv F malloc.
Proof. unfold malloc. keeps_with kleaf. Qed.

Lemma keeps_savestk co : keeps inv F (savestk co).
Proof. unfold savestk. keeps_with ltac:(first [kleaf | apply keeps_malloc]). Qed.

Lemma keeps_must_curr : keeps inv F must_curr.
Proof. unfold must_curr, get_sched. keeps_with kleaf. Qed.

(** The tables fault only with a fault of their own. *)
Lemma htable_insert_faults {D} (null : D) ok h id d e :
  htable_insert null ok h id d = Err e -> e <> FFuel.
Proof.
  assert (Hg : forall n h', grow null ok n h' = Err e -> e <> FFuel).
  { intros n h'. unfold grow, htable_resize. repeat case_match; intros; simplify_eq/=; done. }
  unfold htable_insert. repeat case_match; intros; simplify_eq/=; eauto.
Qed.

Lemma htable_delete_faults {D} (null : D) h id e : htable_delete null h id = Err e -> e <> FFuel.
Proof. unfold htable_delete. repeat case_match; intros; simplify_eq/=; done. Qed.

Context (Hfds : forall h s, P s -> P (set_s_fd_co_map h s)).

Lemma keeps_sched_wait co fd ev : keeps inv F (schedule_sched_wait co fd ev).
Proof.
  unfold schedule_sched_wait, fd_map_insert. keeps_with ltac:(first [kleaf
    | apply keeps_lift; intros ? ?%htable_insert_faults; by apply HF | apply keeps_upd_sched; auto]).
Qed.

Lemma keeps_cancel_wait co fd : keeps inv F (schedule_cancel_wait co fd).
Proof.
  unfold schedule_cancel_wait, fd_map_delete. keeps_with ltac:(first [kleaf
    | apply keeps_lift; intros ? ?%htable_delete_faults; by apply HF | apply keeps_upd_sched; auto]).
Qed.

(** What the timer of the wait does is left open. *)
Context (timeout : Z) (Hremove : forall co, keeps inv F (remove_timer co))
  (Hsleep : forall co, keeps inv F (schedule_sched_sleep co timeout)).

Lemma keeps_cancel_sleep co : keeps inv F (schedule_cancel_sleep co).
Proof. unfold schedule_cancel_sleep. keeps_with ltac:(first [kleaf | apply Hremove]). Qed.

Context (R : world -> world -> Prop) (HR : forall w w', R w w' -> inv w -> inv w').

Lemma yield_pkeeps co : pkeeps R F inv (yield co).
Proof.
  unfold yield, checkstk. pkeeps_with fail ltac:(keeps_with ltac:(first [kleaf | apply keeps_savestk])).
Qed.

Lemma suspend_pkeeps co fd ev : pkeeps R F inv (suspend co fd ev timeout).
Proof.
  unfold suspend. pkeeps_with ltac:(apply yield_pkeeps) ltac:(keeps_with ltac:(first
    [apply keeps_sched_wait | apply Hsleep | apply keeps_cancel_sleep | apply keeps_cancel_wait])).
Qed.

Lemma waitev_pkeeps fd ev : pkeeps R F inv (waitev fd ev timeout).
Proof.
  unfold waitev. pkeeps_with ltac:(apply suspend_pkeeps)
    ltac:(keeps_with ltac:(first [kleaf | apply keeps_must_curr])).
Qed.

End waits.

(** ** The two uses *)
Section wait_uses.
Context {os : OS} {T : Type} {st : SleepTree T}.
Local Abbreviation world := (@world os T).
Local Abbreviation dyco_schedule := (@dyco_schedule T).
Context (K : kernel -> Prop) `{!Quiet K}.
Implicit Types (w : world).

Definition kept w : Prop := K (w_kern w).
Definition no_cond (s : dyco_schedule) : Prop := True.

Lemma keeps_no_cond_sched g : keeps (wait_inv K no_cond) any_fault (upd_sched g).
Proof. by apply keeps_upd_sched. Qed.

Lemma keeps_insert_sleeping fuel co : keeps (wait_inv K no_cond) any_fault (insert_sleeping fuel co).
Proof.
  induction fuel as [|fuel IH]; simpl; [by apply keeps_throw|].
  keeps_with ltac:(first [by apply keeps_getco | by apply keeps_the_sched | by apply keeps_lift
    | apply keeps_no_cond_sched | by apply keeps_upd_co | apply IH]).
Qed.

Lemma keeps_remove_timer co : keeps (wait_inv K no_cond) any_fault (remove_timer co).
Proof.
  unfold remove_timer. keeps_with ltac:(first [by apply keeps_getco | by apply keeps_the_sched
    | by apply keeps_lift | apply keeps_no_cond_sched]).
Qed.

Lemma keeps_sched_sleep co timeout :
  keeps (wait_inv K no_cond) any_fault (schedule_sched_sleep co timeout).
Proof.
  unfold schedule_sched_sleep, usec_now. keeps_with ltac:(first [by apply keeps_getco
    | by apply keeps_co_sched_of | apply keeps_remove_timer | apply keeps_sys, Quiet0
    | by apply keeps_upd_co | by apply keeps_the_sched | apply keeps_insert_sleeping]).
Qed.

(** Waiting changes nothing but the scheduler, the coroutine and what the
    others change meanwhile. *)
Lemma suspend_quiet (R : world -> world -> Prop) co fd ev timeout w :
  (forall w w', R w w' -> kept w -> kept w') -> kept w ->
  wp R any_fault (suspend co fd ev timeout) (fun _ w' => kept w') w.
Proof.
  intros HR Hw. eapply wp_mono; [|apply (suspend_pkeeps K no_cond any_fault)]; try done.
  - by intros _ w' [? _].
  - intros a. apply keeps_remove_timer.
  - intros a. apply keeps_sched_sleep.
  - intros w1 w2 Hr [Hk Hs]. split; [by eapply HR|done].
Qed.

Lemma waitev_quiet (R : world -> world -> Prop) fd ev timeout w :
  (forall w w', R w w' -> kept w -> kept w') -> kept w ->
  wp R any_fault (waitev fd ev timeout) (fun _ w' => kept w') w.
Proof.
  intros HR Hw. eapply wp_mono; [|apply (waitev_pkeeps K no_cond any_fault)]; try done.
  - by intros _ w' [? _].
  - intros co. apply keeps_remove_timer.
  - intros co. apply keeps_sched_sleep.
  - intros w1 w2 Hr [Hk Hs]. split; [by eapply HR|done].
Qed.

End wait_uses.

(** ** Waits that cannot fail

    A coroutine that waits without a time limit for a descriptor that the
    kernel accepts, in a consistent state, and is resumed in a consistent state. *)
Definition no_fault (e : fault) : Prop := False.

(** The coroutine [a] runs, and with [fd] everything is in order: it waits for
    it, or [fd] is not watched; no other sleeper owns the wake-up time that the
    coroutine carries; and while the kernel keeps [K] its stack fits. *)
Record at_ease {os : OS} {osl : OSLaws os} {T : Type} {st : SleepTree T} (K : kernel -> Prop) (a : addr) (fd : Z)
    (w : @world os T) (s : @dyco_schedule T) (q : list Z * list Z) (c : dyco_coroutine) : Prop := {
  ea_running : running w s a c;
  ea_sched : sched_ok w s q;
  ea_one : one_wait s;
  ea_wait : if waiting_flag c then fds s !! fd = Some a else os_registered (w_kern w) (s_epollfd s) fd = false;
  ea_key b : view s !! co_sleep_usecs c = Some b -> b = a;
  ea_stack k : K k -> stack_ok (set_w_kern k w) s c
}.

(** The coroutine may have been resumed, with its wait and a timer still set. *)
Definition resumable {os : OS} {osl : OSLaws os} {T : Type} {st : SleepTree T} K a fd (w : @world os T) : Prop :=
  exists s q c, at_ease K a fd w s q c.
(** It is neither asleep nor waiting. *)
Definition can_wait {os : OS} {osl : OSLaws os} {T : Type} {st : SleepTree T} K a fd (w : @world os T) : Prop :=
  exists s q c, at_ease K a fd w s q c /\ waiting_flag c = false /\ sleeping_flag c = false.

(** There is memory, and the kernel watches [fd] when asked to. *)
Record watchable {os : OS} {osl : OSLaws os} (K : kernel -> Prop) (fd : Z) : Prop := {
  wt_fd : 0 < fd;
  wt_memory k : K k -> memory_ok k;
  wt_add ep ev k : K k -> os_registered k ep fd = false -> (os_epoll_add ep fd ev k).1 = 0
}.

Section sure_waits.
Context {os : OS} {osl : OSLaws os} {T : Type} {st : SleepTree T} {stl : SleepTreeLaws T}.
Local Abbreviation world := (@world os T).
Local Abbreviation dyco_schedule := (@dyco_schedule T).
Context (K : kernel -> Prop) `{!Quiet K} (a : addr) (fd : Z) (Hwt : watchable K fd).
Implicit Types (w : world) (s : dyco_schedule) (c : dyco_coroutine) (q : list Z * list Z).

(** A change of the kernel that leaves the watched descriptors alone. *)
Lemma can_wait_kern w k :
  (forall ep fd', os_registered k ep fd' = os_registered (w_kern w) ep fd') -> can_wait K a fd w ->
  can_wait K a fd (set_w_kern k w).
Proof.
  intros Hk (s & q & c & [] & Hw & Hsl). exists s, q, c. split; [|done]. split; try done.
  - by apply sched_ok_kern.
  - simpl. by rewrite Hk.
Qed.

(** What the flags of a wait and of a timer, and RUNNING, leave alone. *)
Definition same_body c c' : Prop :=
  co_sched c' = co_sched c /\ co_sleep_usecs c' = co_sleep_usecs c /\
  TESTBIT (co_status c') COROUTINE_FLAGS_ASYMMETRIC = TESTBIT (co_status c) COROUTINE_FLAGS_ASYMMETRIC /\
  TESTBIT (co_status c') COROUTINE_STATUS_EXITED = TESTBIT (co_status c) COROUTINE_STATUS_EXITED /\
  ownstack c' = ownstack c /\ co_stack_size c' = co_stack_size c /\ co_stack c' = co_stack c.

Lemma at_ease_after w s q c w' s' c' :
  at_ease K a fd w s q c -> same_body c c' -> sched_ok w' s' q -> w_sched w' = Some s' -> w_coros w' !! a = Some c' ->
  one_wait s' -> os_registered (w_kern w') (s_epollfd s') fd = false ->
  waiting_flag c' = false -> (forall b, view s' !! co_sleep_usecs c' = Some b -> b = a) ->
  s_curr_thread s' = s_curr_thread s -> s_stack_size s' = s_stack_size s -> s_stack s' = s_stack s ->
  at_ease K a fd w' s' q c'.
Proof.
  intros [(Hs & Hcur & Ha & Hc & Hsc & Has & Hex) _ _ _ _ Hstack] (B1 & B2 & B3 & B4 & B5 & B6 & B7) Hok' Hs' Hc' Hone' Hreg Hw Hkey Hcur'
    Hsz Hst. split; try done.
  - unfold running. rewrite B1, B3, B4. by split_and!; [|congruence|..].
  - by rewrite Hw.
  - intros k Hk. destruct (Hstack k Hk) as [H1 H2]. split; rewrite B5, ?B6, ?B7, ?Hsz, ?Hst; [exact H1|exact H2].
Qed.

Ltac body := unfold same_body, ownstack, mark_awake, mark_unwaiting; simpl;
  rewrite ?TESTBIT_CLRBIT, ?TESTBIT_SETBIT, ?TESTBIT_CLRBIT, ?TESTBIT_SETBIT by done; by split_and!.

(** The coroutine without its timer and its wait. *)
Lemma resumed_can_wait w : resumable K a fd w -> exists w', exec (resumed a fd) w = (SDone tt, w') /\ can_wait K a fd w'.
Proof.
  intros (s & q & c & He). pose proof He as [(Hs & Hcur & Ha & Hc & Hsc & _) Hok Hone Hwait Hkey _].
  unfold resumed. set (c0 := set_co_status (SETBIT (co_status c) COROUTINE_STATUS_RUNNING) c).
  rewrite (exec_atomic_bind _ _ _ _ _ (set_flag_run a _ c w Hc)).
  assert (Hst0 : co_stable c c0 /\ ready_flag c0 = ready_flag c).
  { unfold co_stable, sleeping_flag, waiting_flag, ready_flag. simpl. by rewrite !TESTBIT_SETBIT. }
  destruct Hst0 as [Hst0 Hrd0].
  assert (Hok0 : sched_ok (with_co a c0 w) s q).
  { apply (sched_ok_co w s q a c); try done. intros Hq. rewrite Hrd0.
    destruct (ok_queued _ _ _ Hok a Hq) as (cq & Hcq & <-). congruence. }
  destruct (schedule_cancel_sleep_run a c0 s (with_co a c0 w) (lookup_insert_eq _ _ _) Hs (ok_timers _ _ _ Hok0))
    as (t & c1 & Hr1 & Ht1 & Hvt & Hc1).
  rewrite (exec_atomic_bind _ _ _ _ _ Hr1).
  set (s1 := set_s_sleeping t s) in *. set (w1 := with_co a c1 (with_tree t s (with_co a c0 w))) in *.
  assert (Hfl1 : sleeping_flag c1 = false /\ waiting_flag c1 = waiting_flag c /\ ready_flag c1 = ready_flag c0 /\
    co_sched c1 = co_sched c0 /\ co_cid c1 = co_cid c0 /\ co_sleep_usecs c1 = co_sleep_usecs c /\
    (same_body c c1 /\ same_body c (mark_unwaiting c1))).
  { destruct Hst0 as (E1 & _ & E3 & _). destruct (mark_awake_flags c0) as [Er Ew]. rewrite Hc1. destruct (sleeping_flag c0) eqn:Hsl.
    - rewrite mark_awake_flag, Ew, E3, Er. split_and!; try done; subst c0; body.
    - split_and!; try done; subst c0; body. }
  destruct Hfl1 as (Hsl1 & Hw1 & Hrd1 & Hsc1 & Hcid1 & Hus1 & [Hb1 Hb2]).
  assert (Hok1 : sched_ok w1 s1 q).
  { apply (sched_ok_timer (with_co a c0 w) s q a c0 c1 t); try done; [apply lookup_insert_eq|]. rewrite Hw1. symmetry. apply Hst0. }
  assert (Hkey1 : forall b, view s1 !! co_sleep_usecs c1 = Some b -> b = a).
  { intros b. change (view s1) with (st_view t). rewrite Hvt, Hus1. destruct (sleeping_flag c0); [|apply Hkey].
    intros [_ Hb]%lookup_delete_Some. by apply Hkey. }
  assert (Hc1' : w_coros w1 !! a = Some c1) by apply lookup_insert_eq.
  destruct (waiting_flag c) eqn:Hwf.
  - destruct (cancel_wait_ok w1 s1 q a c1 fd Hok1 eq_refl Hone Hwait Hc1')
      as (w2 & s2 & Hr2 & Hs2 & Hok2 & Hf2 & _ & Hcos2 & Hreg2 & _).
    destruct (ok_fds _ _ _ Hok1 fd a Hwait) as (Hrg & Hn0 & Hn1 & _).
    destruct (schedule_cancel_wait_run a fd c1 s1 w1 Hc1') as (h & k & Hr3 & _); try done; [by rewrite Hsc1|apply Hok1|].
    rewrite Hr2 in Hr3. injection Hr3 as ->. injection Hs2 as <-.
    rewrite (exec_atomic_bind _ _ _ _ _ Hr2). eexists. split; [reflexivity|].
    destruct (mark_unwaiting_flags c1) as (_ & Hsl2 & _ & Hw2).
    eexists _, q, (mark_unwaiting c1). split; [|by rewrite Hsl2].
    eapply at_ease_after; [exact He|exact Hb2|exact Hok2|done|apply lookup_insert_eq| | |done|exact Hkey1|done..].
    + intros fd1 fd2 b. rewrite Hf2. intros [_ Hb3]%lookup_delete_Some [_ Hb4]%lookup_delete_Some. by apply (Hone _ _ b).
    + rewrite Hreg2. by rewrite bool_decide_eq_true_2.
  - rewrite (exec_atomic_bind (schedule_cancel_wait a fd) _ w1 1 w1).
    2: { unfold schedule_cancel_wait. mrun. unfold waiting_flag in Hw1. by rewrite Hw1. }
    eexists. split; [reflexivity|]. exists s1, q, c1. split; [|done].
    by eapply at_ease_after; [exact He|exact Hb1|..].
Qed.

(** Up to the switch. *)
Lemma suspend_switches w ev timeout :
  can_wait K a fd w -> K (w_kern w) -> timeout <= 0 ->
  exists w', exec (suspend a fd ev timeout) w = (SSwitch (SwapSched a) (resumed a fd), w').
Proof.
  intros (s & q & c & [(Hs & _ & Ha & Hc & Hsc & _ & Hex) Hok _ Hwait Hkey Hstack] & Hw & Hsl) HK Ht.
  rewrite Hw in Hwait. unfold suspend. pose proof (wt_fd _ _ Hwt) as Hfd.
  pose proof (quiet_epoll_add (s_epollfd s) fd ev _ HK) as HK1. pose proof (quiet_alloc _ HK1) as HK2.
  destruct (schedule_sched_wait_added a fd ev c s w) as (h & Hr1 & _); try done.
  { apply Hok. } { by apply (wt_add _ _ Hwt). } { by apply (wt_memory _ _ Hwt). } { lia. } { lia. }
  rewrite (exec_atomic_bind _ _ _ _ _ Hr1). set (w1 := with_co a _ _).
  assert (Hc1 : w_coros w1 !! a = Some (mark_waiting c)) by apply lookup_insert_eq.
  assert (Hnone : view s !! co_sleep_usecs c = None).
  { destruct (view s !! co_sleep_usecs c) as [b|] eqn:Hv; [|done]. rewrite (Hkey b eq_refl) in Hv.
    destruct (tm_entry _ _ (ok_timers _ _ _ Hok) _ _ Hv) as (c2 & Hc2 & _ & Hsl2). congruence. }
  rewrite (exec_atomic_bind _ _ w1 tt w1).
  2: { unfold schedule_sched_sleep. rewrite (bind_ok _ _ _ _ _ (getco_run a _ w1 Hc1)).
    rewrite (bind_ok _ _ _ (set_s_fd_co_map h s) w1) by (by apply (co_sched_of_run a (mark_waiting c))).
    rewrite rb_find_law by apply Hok. change (st_view (s_sleeping (set_s_fd_co_map h s))) with (view s). change (co_sleep_usecs (mark_waiting c)) with (co_sleep_usecs c).
    rewrite Hnone. erewrite bind_ok by reflexivity. by destruct (Z.leb_spec timeout 0); [|lia]. }
  destruct (yield_run w1 (set_s_fd_co_map h s) a (mark_waiting c)) as (c2 & k2 & Hy & _); try done.
  - destruct (Hstack _ HK2) as [H1 H2]. assert (Hown : ownstack (mark_waiting c) = ownstack c) by (unfold mark_waiting, ownstack; simpl; by rewrite TESTBIT_SETBIT).
    split; rewrite Hown; [exact H1|exact H2].
  - simpl. by rewrite TESTBIT_SETBIT, Hex.
  - rewrite exec_bind, Hy. by eexists.
Qed.

(** A whole wait, whatever happens until the coroutine is resumed. *)
Lemma waitev_sure (R : world -> world -> Prop) ev timeout w :
  (forall w1 w2, R w1 w2 -> resumable K a fd w2) -> can_wait K a fd w -> K (w_kern w) -> timeout <= 0 ->
  wp R no_fault (waitev fd ev timeout) (fun _ w' => can_wait K a fd w') w.
Proof.
  intros HR Hcw HK Ht. unfold waitev. apply wp_bind, wp_atomic. unfold sys at 1.
  set (pev := swrap 16 (Z.land ev 0xffff)). pose proof (quiet_poll fd pev _ HK) as HK1.
  pose proof (poll_registered fd pev (w_kern w)) as Hreg. destruct (os_poll fd pev (w_kern w)) as [r k]. simpl in HK1, Hreg.
  pose proof (can_wait_kern w k Hreg Hcw) as Hcw1. set (w1 := set_w_kern k w) in *.
  destruct ((0 <? r) || (timeout =? 0)); [done|].
  pose proof Hcw1 as (s & q & c & [Hrun _ _ _ _ _] & _). pose proof Hrun as (_ & _ & _ & Hc & _ & Has & _).
  apply wp_bind, wp_atomic. rewrite (must_curr_run w1 s a c Hrun). apply wp_bind, wp_atomic. rewrite (test_co_run a _ c w1 Hc), Has.
  apply wp_bind, wp_atomic. change (DYCO_MUSTNOT false w1) with (Ok (tt, w1) : res (unit * world)). cbv iota beta.
  apply wp_bind. destruct (suspend_switches w1 ev timeout Hcw1 HK1 Ht) as [w2 Hsus].
  apply wp_exec. rewrite Hsus. intros w3 H23. destruct (resumed_can_wait w3 (HR _ _ H23)) as (w4 & Hres & Hcw4).
  apply wp_exec. rewrite Hres. apply wp_atomic. unfold sys. pose proof (poll_registered fd pev (w_kern w4)) as Hreg4.
  destruct (os_poll fd pev (w_kern w4)) as [r4 k4]. by apply can_wait_kern.
Qed.

End sure_waits.
