(* ===== verification/NetOS.v ===== *)
(** * System calls of the input and output wrappers

    [IO] lists the calls that the socket, epoll and signal wrappers make
    beside those of [OS]; [IOLaws] states what their manual pages say and the
    proofs use: which descriptors are open, which bytes a socket has taken
    over, the signal mask.  [sim_io] implements them on the simulated
    kernel. *)
From S2P Require Import Prelude Htable Queue SleepTree World SimOS Schedule Prog Coroutine Rely.

Local Open Scope Z_scope.

Definition EAGAIN : Z := 11.
Definition EWOULDBLOCK : Z := EAGAIN.
Definition EINVAL : Z := 22.
Definition ECONNRESET : Z := 104.
Definition EINPROGRESS : Z := 115.

(** Out parameters are results: the peer of [accept] and [recvfrom], the bytes
    received, the events of [epoll_wait], the [revents] of [poll], the status
    of [waitpid], the signal read.  [io_fcntl_nonblock] is
    [fcntl(fd, F_SETFL, O_NONBLOCK)], [io_set_reuseaddr] the [setsockopt] of
    [SO_REUSEADDR], [io_waitpid] has the options [WNOHANG | WUNTRACED] and
    [io_signalfd] is [signalfd(-1, mask, SFD_NONBLOCK)]. *)
Class IO (os : OS) := {
  io_errno : kernel -> Z;
  io_socket : Z -> Z -> Z -> kernel -> Z * kernel;
  io_fcntl_nonblock : Z -> kernel -> Z * kernel;
  io_set_reuseaddr : Z -> kernel -> Z * kernel;
  io_accept : Z -> kernel -> (Z * Z) * kernel;
  io_connect : Z -> Z -> kernel -> Z * kernel;
  io_recv : Z -> Z -> Z -> kernel -> (Z * list Z) * kernel;
  io_recvfrom : Z -> Z -> Z -> kernel -> (Z * list Z * Z) * kernel;
  io_send : Z -> list Z -> Z -> kernel -> Z * kernel;
  io_sendto : Z -> list Z -> Z -> Z -> kernel -> Z * kernel;
  io_epoll_create : Z -> kernel -> Z * kernel;
  io_epoll_wait : Z -> Z -> Z -> kernel -> (Z * list (Z * Z)) * kernel;
  io_poll : list (Z * Z) -> Z -> kernel -> (Z * list Z) * kernel;
  io_waitpid : Z -> kernel -> (Z * Z) * kernel;
  io_signalfd : Z -> kernel -> Z * kernel;
  io_read_siginfo : Z -> kernel -> (Z * option Z) * kernel
}.

(** What a call that may open a descriptor does to the set of open ones. *)
Definition opens (open open' : Z -> bool) (r : Z) : Prop :=
  (r < 0 /\ forall fd, open' fd = open fd) \/
  (0 <= r /\ open r = false /\ forall fd, open' fd = bool_decide (fd = r) || open fd).

Class IOLaws (os : OS) {io : IO os} := {
  io_open : kernel -> Z -> bool;
  io_nonblock : kernel -> Z -> bool;
  io_sent : kernel -> Z -> list Z;
  io_mask : kernel -> Z;
  socket_opens d t p k :
    opens (io_open k) (io_open (io_socket d t p k).2) (io_socket d t p k).1 /\
    -1 <= (io_socket d t p k).1;
  accept_opens fd k :
    opens (io_open k) (io_open (io_accept fd k).2) (io_accept fd k).1.1;
  epoll_create_opens n k : opens (io_open k) (io_open (io_epoll_create n k).2) (io_epoll_create n k).1 /\
    -1 <= (io_epoll_create n k).1;
  epoll_create_size n k : n <= 0 -> (io_epoll_create n k).1 = -1;
  open_fd k fd : io_open k fd = true -> 0 <= fd;
  close_closes fd k fd' :
    io_open (os_close fd k).2 fd' = negb (bool_decide (fd' = fd)) && io_open k fd';
  close_mask fd k : io_mask (os_close fd k).2 = io_mask k;
  fcntl_open fd k fd' : io_open (io_fcntl_nonblock fd k).2 fd' = io_open k fd';
  fcntl_sets fd k : io_open k fd = true -> (io_fcntl_nonblock fd k).1 <> -1 ->
    io_nonblock (io_fcntl_nonblock fd k).2 fd = true;
  reuseaddr_keeps fd k fd' : io_open (io_set_reuseaddr fd k).2 fd' = io_open k fd' /\
    io_nonblock (io_set_reuseaddr fd k).2 fd' = io_nonblock k fd';
  send_takes fd buf flags k : let r := (io_send fd buf flags k).1 in
    -1 <= r <= Z.of_nat (length buf) /\ (buf <> [] -> r <> 0) /\
    io_sent (io_send fd buf flags k).2 fd = io_sent k fd ++ take (Z.to_nat r) buf;
  sent_quiet fd l :: Quiet (fun k => io_sent k fd = l);
  open_quiet o :: Quiet (fun k => forall fd, io_open k fd = o fd);
  mask_quiet m :: Quiet (fun k => io_mask k = m);
  epoll_wait_maxevents ep n timeout k : n <= 0 -> exists k', io_epoll_wait ep n timeout k = ((-1, []), k');
  poll_open fds timeout k fd : io_open (io_poll fds timeout k).2 fd = io_open k fd;
  waitpid_mask pid k : io_mask (io_waitpid pid k).2 = io_mask k;
  signalfd_mask m k : io_mask (io_signalfd m k).2 = io_mask k;
  sigprocmask_sets how set k : 0 <= how <= 2 -> exists k',
    os_sigprocmask how set k = ((0, io_mask k), k') /\ io_mask k' = new_mask how (io_mask k) set
}.

(** ** The simulated calls *)

Definition set_nonblock (s : gset Z) (n : sim_net) : sim_net :=
  mk_net (n_open n) s (n_sent n) (n_inbox n) (n_room n) (n_errno n) (n_mask n).
Definition set_sent (s : gmap Z (list Z)) (n : sim_net) : sim_net :=
  mk_net (n_open n) (n_nonblock n) s (n_inbox n) (n_room n) (n_errno n) (n_mask n).
Definition set_inbox (s : gmap Z (list Z)) (n : sim_net) : sim_net :=
  mk_net (n_open n) (n_nonblock n) (n_sent n) s (n_room n) (n_errno n) (n_mask n).
Definition set_errno (e : Z) (n : sim_net) : sim_net :=
  mk_net (n_open n) (n_nonblock n) (n_sent n) (n_inbox n) (n_room n) e (n_mask n).

Definition sim_fail (e : Z) (k : sim_kernel) : sim_kernel := set_net (set_errno e (k_net k)) k.

(** The descriptors of the simulation that cannot be made non-blocking are
    the multiples of 100. *)
Definition sim_fcntl (fd : Z) (k : sim_kernel) : Z * sim_kernel :=
  if decide (fd mod 100 = 0) then (-1, k)
  else (0, set_net (set_nonblock ({[fd]} ∪ n_nonblock (k_net k)) (k_net k)) k).

Definition sim_sent (k : sim_kernel) (fd : Z) : list Z := default [] (n_sent (k_net k) !! fd).

(** A call takes as much of the buffer as there is room for. *)
Definition sim_send (fd : Z) (buf : list Z) (k : sim_kernel) : Z * sim_kernel :=
  let r := Z.min (n_room (k_net k)) (Z.of_nat (length buf)) in
  if n_room (k_net k) <=? 0 then (-1, sim_fail EAGAIN k)
  else (r, set_net (set_sent (<[fd := sim_sent k fd ++ take (Z.to_nat r) buf]> (n_sent (k_net k))) (k_net k)) k).

(** What has been received on [fd] is kept with the bytes sent on [-1 - fd]. *)
Definition sim_recv (fd len : Z) (k : sim_kernel) : (Z * list Z) * sim_kernel :=
  match n_inbox (k_net k) !! fd with
  | Some l =>
      let got := take (Z.to_nat len) l in
      ((Z.of_nat (length got), got),
       set_net (set_inbox (<[fd := drop (Z.to_nat len) l]> (n_inbox (k_net k)))
         (set_sent (<[-1 - fd := sim_sent k (-1 - fd) ++ got]> (n_sent (k_net k))) (k_net k))) k)
  | None => ((-1, []), sim_fail EAGAIN k)
  end.

#[export] Instance sim_io : IO sim := {
  io_errno (k : @kernel sim) := n_errno (k_net k);
  io_socket _ _ _ := sim_open;
  io_fcntl_nonblock := sim_fcntl;
  io_set_reuseaddr _ k := (0, k);
  io_accept _ k := let '(fd, k') := sim_open k in ((fd, 0), k');
  io_connect _ _ k := (0, k);
  io_recv fd len _ := sim_recv fd len;
  io_recvfrom fd len _ k := let '(r, k') := sim_recv fd len k in ((r, 0), k');
  io_send fd buf _ := sim_send fd buf;
  io_sendto fd buf _ _ := sim_send fd buf;
  io_epoll_create n k := if n <=? 0 then (-1, sim_fail EINVAL k) else sim_open k;
  io_epoll_wait ep n timeout k :=
    if n <=? 0 then ((-1, []), sim_fail EINVAL k)
    else let '((r, l), k') := sim_epoll_wait ep timeout k in
         let l' := take (Z.to_nat n) l in ((Z.of_nat (length l'), map (fun fd => (fd, EPOLLIN)) l'), k');
  io_poll fds timeout k :=
    ((0, map (fun _ => 0) fds), set_clock (k_clock k + Z.max 0 timeout * 1000000) k);
  io_waitpid _ k := ((0, 0), k);
  io_signalfd _ := sim_open;
  io_read_siginfo fd k := ((-1, None), sim_fail EAGAIN k)
}.

Lemma sim_open_opens k :
  opens (fun fd => bool_decide (fd ∈ n_open (k_net k)) && (0 <=? fd))
    (fun fd => bool_decide (fd ∈ n_open (k_net (sim_open k).2)) && (0 <=? fd)) (sim_open k).1 /\
  -1 <= (sim_open k).1.
Proof.
  unfold sim_open. case_decide as Hd; simpl; [|split; [by left|lia]].
  destruct Hd as [Hfd Hn]. split; [right|lia]. split; [done|]. split; [by rewrite bool_decide_eq_false_2|].
  intros fd. rewrite (bool_decide_ext (fd ∈ {[k_next_fd k]} ∪ n_open (k_net k))
    (fd = k_next_fd k \/ fd ∈ n_open (k_net k))) by set_solver.
  rewrite bool_decide_or. destruct (bool_decide_reflect (fd = k_next_fd k)) as [->|]; simpl; [|done].
  apply Z.leb_le. lia.
Qed.

#[export] Instance sim_io_laws : IOLaws sim.
Proof.
  refine {| io_open (k : @kernel sim) fd := bool_decide (fd ∈ n_open (k_net k)) && (0 <=? fd);
            io_nonblock (k : @kernel sim) fd := bool_decide (fd ∈ n_nonblock (k_net k));
            io_sent := (sim_sent : @kernel sim -> Z -> list Z);
            io_mask (k : @kernel sim) := n_mask (k_net k) |}; simpl.
  - intros _ _ _. apply sim_open_opens.
  - intros _ k. pose proof (proj1 (sim_open_opens k)) as H. by destruct (sim_open k).
  - intros n k. destruct (n <=? 0); [|apply sim_open_opens]. split; [by left|simpl; lia].
  - intros n k Hn. by destruct (Z.leb_spec n 0); [|lia].
  - intros k fd [_ H]%andb_true_iff. by apply Z.leb_le.
  - intros fd k fd'. rewrite (bool_decide_ext (fd' ∈ n_open (k_net k) ∖ {[fd]})
      (~ fd' = fd /\ fd' ∈ n_open (k_net k))) by set_solver.
    by rewrite bool_decide_and, bool_decide_not, andb_assoc.
  - done.
  - intros fd k fd'. unfold sim_fcntl. by case_decide.
  - intros fd k _. unfold sim_fcntl. case_decide; [done|]. intros _. simpl.
    apply bool_decide_eq_true. set_solver.
  - done.
  - intros fd buf _ k. unfold sim_send. destruct (Z.leb_spec (n_room (k_net k)) 0); simpl.
    { split_and!; [lia..|done|by rewrite app_nil_r]. }
    split_and!; [lia..| |unfold sim_sent at 1; simpl; by rewrite lookup_insert_eq].
    destruct buf; [done|]. simpl. lia.
  - intros fd l. split; try done; intros; simpl; by repeat case_match.
  - intros o. split; try done; intros; simpl; by repeat case_match.
  - intros m. split; try done; intros; simpl; by repeat case_match.
  - intros ep n timeout k Hn. destruct (Z.leb_spec n 0); [|lia]. by eexists.
  - done.
  - done.
  - intros m k. unfold sim_open. by case_decide.
  - intros how set k _. eexists. by split.
Defined.
