(* ===== verification/Socket.v ===== *)
(** * Sockets

    [src/dyco_socket.c]: the wrappers [dyco_*] that turn blocking socket calls
    into waits of the calling coroutine, and the functions of the same bodies
    that replace the C library's under [COROUTINE_HOOK] (module [Hook]).  The
    pointers [socket_f], [send_f], ... that [src/dyco_hook.c] looks up are the
    calls of the C library, i.e. of [IO].  The loops that repeat a call until
    it no longer fails with [EAGAIN] may run forever; they carry a fuel. *)
From S2P Require Import Prelude Htable Queue SleepTree World SimOS Schedule SchedInv Prog Coroutine Rely NetOS.

Local Open Scope Z_scope.
Local Open Scope dyco_scope.

Definition TIMEOUT_DEFAULT : Z := 3000.
Definition TIMEOUT_INFINIT : Z := -1.

(** The event sets of the waits. *)
Definition EV_IN : Z := Z.lor (Z.lor EPOLLIN EPOLLERR) EPOLLHUP.
Definition EV_OUT : Z := Z.lor (Z.lor EPOLLOUT EPOLLERR) EPOLLHUP.

Section socket.
Context {os : OS} {io : IO os} {T : Type} {st : SleepTree T}.
Local Abbreviation world := (@world os T).

Definition errno : M world Z := gets (fun w => io_errno (w_kern w)).

(** When the descriptor cannot be made non-blocking, the code closes [ret],
    which is -1, and not the descriptor. *)
Definition dyco_socket (domain type protocol : Z) : M world Z :=
  let* fd := sys (io_socket domain type protocol) in
  if fd =? -1 then ret (-1)
  else
    let* r := sys (io_fcntl_nonblock fd) in
    if r =? -1 then let* _ := sys (os_close r) in ret (-1)
    else
      let* r := sys (io_set_reuseaddr fd) in
      DYCO_MUST (r =? 0) ;;;
      ret fd.

(** The loop of [dyco_accept]: the connection and its peer, or [None] for the
    early return of -1. *)
Fixpoint accept_loop (fuel : nat) (fd : Z) : prog world (option (Z * Z)) :=
  match fuel with
  | O => PFault FFuel
  | S fuel' =>
      do! waitev fd EV_IN TIMEOUT_INFINIT;
      let! (sockfd, peer) := atomic (sys (io_accept fd)) in
      if sockfd <? 0 then
        let! e := atomic errno in
        if e =? EAGAIN then accept_loop fuel' fd else PRet None
      else PRet (Some (sockfd, peer))
  end.

Definition dyco_accept (fuel : nat) (fd : Z) : prog world (Z * option Z) :=
  let! conn := accept_loop fuel fd in
  match conn with
  | None => PRet (-1, None)
  | Some (sockfd, peer) =>
      let! r := atomic (sys (io_fcntl_nonblock sockfd)) in
      if r =? -1 then
        let! _ := atomic (sys (os_close sockfd)) in PRet (-1, Some peer)
      else
        let! r := atomic (sys (io_set_reuseaddr fd)) in
        do! atomic (DYCO_MUST (r =? 0));
        PRet (sockfd, Some peer)
  end.

Fixpoint dyco_connect (fuel : nat) (fd name : Z) : prog world Z :=
  match fuel with
  | O => PFault FFuel
  | S fuel' =>
      do! waitev fd EV_OUT TIMEOUT_DEFAULT;
      let! r := atomic (sys (io_connect fd name)) in
      if r =? 0 then PRet r
      else
        let! e := atomic errno in
        if (r =? -1) && ((e =? EAGAIN) || (e =? EWOULDBLOCK) || (e =? EINPROGRESS))
        then dyco_connect fuel' fd name
        else PRet r
  end.

(** The result is converted to [int]. *)
Definition dyco_recv (fd len flags : Z) : prog world (Z * list Z) :=
  do! waitev fd EV_IN TIMEOUT_DEFAULT;
  let! (r, buf) := atomic (sys (io_recv fd len flags)) in
  PRet (i32 r, buf).

Definition dyco_recvfrom (fd len flags : Z) : prog world (Z * list Z * Z) :=
  do! waitev fd EV_IN TIMEOUT_DEFAULT;
  let! (r, buf, src) := atomic (sys (io_recvfrom fd len flags)) in
  PRet (i32 r, buf, src).

(** ** Sending

    The body that [dyco_send] and [dyco_sendto] share; [snd] is the call
    [send_f] or [sendto_f] with its last arguments.  [sent] and [ret] are of
    type [int]; the overflow of [sent] is undefined behaviour. *)
Section send_all.
Context (snd : list Z -> kernel -> Z * kernel) (fd : Z) (buf : list Z).

Definition send_end (sent ret : Z) : Z := if (ret <=? 0) && (sent =? 0) then ret else sent.

Fixpoint send_loop (fuel : nat) (sent ret : Z) : prog world Z :=
  match fuel with
  | O => PFault FFuel
  | S fuel' =>
      if u64 sent <? Z.of_nat (length buf) then
        do! waitev fd EV_OUT TIMEOUT_INFINIT;
        let! r := atomic (sys (snd (drop (Z.to_nat sent) buf))) in
        let ret := i32 r in
        if ret <=? 0 then
          let! e := atomic errno in
          if e =? EAGAIN then send_loop fuel' sent ret
          else if e =? ECONNRESET then PRet ret
          else PRet (send_end sent ret)
        else if sent + ret <? 2 ^ 31 then send_loop fuel' (sent + ret) ret
        else PFault FSegv
      else PRet (send_end sent ret)
  end.

Definition send_all (fuel : nat) : prog world Z :=
  let! r := atomic (sys (snd buf)) in
  let ret := i32 r in
  if ret =? 0 then PRet ret
  else send_loop fuel (if 0 <? ret then ret else 0) ret.

End send_all.

Definition dyco_send (fuel : nat) (fd : Z) (buf : list Z) (flags : Z) : prog world Z :=
  send_all (fun b => io_send fd b flags) fd buf fuel.

Definition dyco_sendto (fuel : nat) (fd : Z) (buf : list Z) (flags dest_addr : Z) : prog world Z :=
  send_all (fun b => io_sendto fd b flags dest_addr) fd buf fuel.

Definition dyco_close (fd : Z) : M world Z := sys (os_close fd).

End socket.

(** ** The functions that replace those of the C library *)
Module Hook.
Section hook.
Context {os : OS} {io : IO os} {T : Type} {st : SleepTree T}.
Local Abbreviation world := (@world os T).

(** Their bodies repeat those of the wrappers above. *)
Definition socket (domain type protocol : Z) : M world Z := dyco_socket domain type protocol.
Definition accept (fuel : nat) (fd : Z) : prog world (Z * option Z) := dyco_accept fuel fd.
Definition connect (fuel : nat) (fd name : Z) : prog world Z := dyco_connect fuel fd name.
Definition recv (fd len flags : Z) : prog world (Z * list Z) := dyco_recv fd len flags.
Definition recvfrom (fd len flags : Z) : prog world (Z * list Z * Z) := dyco_recvfrom fd len flags.
Definition send (fuel : nat) (fd : Z) (buf : list Z) (flags : Z) : prog world Z :=
  dyco_send fuel fd buf flags.
Definition sendto (fuel : nat) (fd : Z) (buf : list Z) (flags dest_addr : Z) : prog world Z :=
  dyco_sendto fuel fd buf flags dest_addr.
Definition close (fd : Z) : M world Z := sys (os_close fd).

End hook.
End Hook.

(** * Properties *)

Section socket_proofs.
Context {os : OS} {io : IO os} {iol : IOLaws os} {T : Type} {st : SleepTree T} {stl : SleepTreeLaws T}.
Local Abbreviation world := (@world os T).
Local Abbreviation dyco_schedule := (@dyco_schedule T).
Implicit Types (w : world).

(** ** Sending *)

Definition sent_on (fd : Z) w : list Z := io_sent (w_kern w) fd.

(** What a socket has taken over when [dyco_send] returns [r]. *)
Definition send_result (fd : Z) (old buf : list Z) (r : Z) w' : Prop :=
  (0 <= r -> r <= Z.of_nat (length buf) /\ sent_on fd w' = old ++ take (Z.to_nat r) buf) /\
  (r < 0 -> exists n, (n <= length buf)%nat /\ sent_on fd w' = old ++ take n buf).

(** One call of [send_f] on the rest of the buffer. *)
Lemma send_rest fd buf flags old n w :
  Z.of_nat (length buf) < 2 ^ 31 -> (n <= length buf)%nat -> sent_on fd w = old ++ take n buf ->
  exists r k, sys (io_send fd (drop n buf) flags) w = Ok (r, set_w_kern k w) /\ i32 r = r /\
    -1 <= r <= Z.of_nat (length buf) - Z.of_nat n /\ ((n < length buf)%nat -> r <> 0) /\
    sent_on fd (set_w_kern k w) = old ++ take (n + Z.to_nat r) buf /\
    r = (io_send fd (drop n buf) flags (w_kern w)).1 /\ k = (io_send fd (drop n buf) flags (w_kern w)).2.
Proof.
  intros Hlen Hn Hs. destruct (send_takes fd (drop n buf) flags (w_kern w)) as (Hr & Hz & Ht).
  unfold sys. destruct (io_send fd (drop n buf) flags (w_kern w)) as [r k]. simpl in *.
  rewrite length_drop in Hr. exists r, k. split_and!; try done; try lia.
  - apply i32_small. unfold is_i32. lia.
  - intros Hlt. apply Hz. intros H0. apply (f_equal length) in H0. rewrite length_drop in H0. simpl in H0. lia.
  - unfold sent_on in *. simpl. rewrite Ht, Hs, <- app_assoc. f_equal. by rewrite take_take_drop.
Qed.

(** What holds of the connection in the loop: [K], that [l] has been sent, and
    [J] of the world. *)
Definition linked (K : kernel -> Prop) (fd : Z) (l : list Z) (J : world -> Prop) w : Prop :=
  (K (w_kern w) /\ sent_on fd w = l) /\ J w.

(** The loop, from a state in which [n] bytes are sent; [F] says which faults
    may happen, [J] what else the waits and the calls of [send] keep. *)
Section send_loop.
Context (fd : Z) (buf : list Z) (flags : Z) (old : list Z) (R : world -> world -> Prop) (F : fault -> Prop).
Context (K : kernel -> Prop) (J : world -> Prop).
Context (HJ : forall b w, K (w_kern w) -> J w -> J (set_w_kern (io_send fd b flags (w_kern w)).2 w)).
Context (Hlen : Z.of_nat (length buf) < 2 ^ 31).
Local Abbreviation inv n := (linked K fd (old ++ take n buf) J).
Context (Hwait : forall n w, inv n w ->
  wp R F (waitev fd EV_OUT TIMEOUT_INFINIT) (fun _ w' => inv n w') w).

Lemma send_end_result n ret w :
  (n <= length buf)%nat -> (n = O -> -1 <= ret <= 0) -> (n = O -> (n < length buf)%nat -> ret <> 0) ->
  inv n w -> send_result fd old buf (send_end (Z.of_nat n) ret) w.
Proof.
  intros Hn Hret Hz [[_ Hw] _]. unfold send_end. destruct (decide (n = O)) as [->|Hne].
  - specialize (Hret eq_refl). destruct (Z.leb_spec ret 0); [simpl|lia].
    split; [intros Hr; split; [lia|]; by replace ret with 0 by lia|]. intros _. exists O. by split.
  - destruct (Z.eqb_spec (Z.of_nat n) 0); [lia|]. rewrite andb_false_r. split; [|lia].
    intros _. rewrite Nat2Z.id. split; [lia|done].
Qed.

Lemma send_loop_partial (HF : F FFuel) (HK : forall k, K k) fuel n ret w :
  (n <= length buf)%nat -> (n = O -> -1 <= ret <= 0) -> (n = O -> (n < length buf)%nat -> ret <> 0) ->
  inv n w ->
  wp R F (send_loop (fun b => io_send fd b flags) fd buf fuel (Z.of_nat n) ret)
    (fun r w' => send_result fd old buf r w') w.
Proof.
  revert n ret w. induction fuel as [|fuel IH]; intros n ret w Hn Hret Hz Hw; [done|]. cbn [send_loop].
  rewrite u64_small by (unfold is_u64; lia).
  destruct (Z.ltb_spec (Z.of_nat n) (Z.of_nat (length buf))) as [Hlt|Hge]; [|by apply send_end_result].
  apply wp_bind. eapply wp_mono; [|by apply Hwait]. intros _ w1 [[_ Hk1] Hs1]. cbv beta.
  rewrite Nat2Z.id. destruct (send_rest fd buf flags old n w1) as (r & k & Hrun & Hi & Hr & Hnz & Hs & _ & Hk); try done.
  pose proof (HJ (drop n buf) w1 (HK _) Hs1) as Hs2. rewrite <- Hk in Hs2.
  apply wp_bind, wp_atomic. rewrite Hrun, Hi. specialize (Hnz ltac:(lia)).
  destruct (Z.leb_spec r 0) as [Hle|Hpos].
  - assert (Hkeep : inv n (set_w_kern k w1)).
    { split; [split; [apply HK|]|done]. replace (Z.to_nat r) with O in Hs by lia. by rewrite Nat.add_0_r in Hs. }
    simpl. destruct (_ =? EAGAIN); [apply IH; [lia..|done]|]. destruct (_ =? ECONNRESET).
    + simpl. split; [lia|]. intros _. exists n. split; [lia|apply Hkeep].
    + simpl. apply send_end_result; [lia..|done].
  - destruct (Z.ltb_spec (Z.of_nat n + r) (2 ^ 31)); [|lia].
    replace (Z.of_nat n + r) with (Z.of_nat (n + Z.to_nat r)) by lia.
    apply IH; [lia|lia|lia|]. split; [by split; [apply HK|]|done].
Qed.

(** When the socket takes something at every call, the loop sends all. *)
Hypothesis Hprog : forall b k, K k -> b <> [] -> 0 < (io_send fd b flags k).1 /\ K (io_send fd b flags k).2.

Definition all_sent (r : Z) w : Prop :=
  r = Z.of_nat (length buf) /\ linked K fd (old ++ buf) J w.

Lemma send_loop_total fuel n ret w :
  (length buf < n + fuel)%nat -> (0 < n <= length buf)%nat -> inv n w ->
  wp R F (send_loop (fun b => io_send fd b flags) fd buf fuel (Z.of_nat n) ret) all_sent w.
Proof.
  revert n ret w. induction fuel as [|fuel IH]; intros n ret w Hfuel Hn Hw; [lia|].
  cbn [send_loop]. rewrite u64_small by (unfold is_u64; lia).
  destruct (Z.ltb_spec (Z.of_nat n) (Z.of_nat (length buf))) as [Hlt|Hge].
  - apply wp_bind. eapply wp_mono; [|by apply Hwait]. intros _ w1 [[HK Hk1] Hs1]. cbv beta.
    rewrite Nat2Z.id. destruct (send_rest fd buf flags old n w1) as (r & k & Hrun & Hi & Hr & _ & Hs & Hr1 & Hk); try done; [lia|].
    destruct (Hprog (drop n buf) (w_kern w1)) as [Hpos HK1]; [done| |].
    { intros H0. apply (f_equal length) in H0. rewrite length_drop in H0. simpl in H0. lia. }
    pose proof (HJ (drop n buf) w1 HK Hs1) as Hs2. rewrite <- Hr1 in Hpos. rewrite <- Hk in HK1, Hs2.
    apply wp_bind, wp_atomic. rewrite Hrun, Hi. destruct (Z.leb_spec r 0); [lia|].
    destruct (Z.ltb_spec (Z.of_nat n + r) (2 ^ 31)); [|lia].
    replace (Z.of_nat n + r) with (Z.of_nat (n + Z.to_nat r)) by lia.
    apply IH; [lia|lia|by split].
  - unfold send_end. destruct (Z.eqb_spec (Z.of_nat n) 0); [lia|]. rewrite andb_false_r. destruct Hw as [[HK Hw] HP].
    split; [lia|]. rewrite firstn_all2 in Hw by lia. by split.
Qed.

Lemma send_whole fuel w :
  buf <> [] -> (length buf < fuel)%nat -> linked K fd old J w ->
  wp R F (dyco_send fuel fd buf flags) all_sent w.
Proof.
  intros Hne Hfuel [[HK Hs0] HP]. unfold dyco_send, send_all.
  destruct (send_rest fd buf flags old O w) as (r & k & Hrun & Hi & Hr & Hnz & Hs & Hr1 & Hk);
    [done|lia|by rewrite app_nil_r|].
  rewrite drop_0 in *. apply wp_bind, wp_atomic. rewrite Hrun, Hi.
  destruct (Hprog buf (w_kern w) HK Hne) as [Hpos HK1]. pose proof (HJ buf w HK HP) as HP1.
  rewrite <- Hr1 in Hpos. rewrite <- Hk in HK1, HP1.
  destruct (Z.eqb_spec r 0); [lia|]. destruct (Z.ltb_spec 0 r); [|lia].
  rewrite <- (Z2Nat.id r) at 1 by lia. apply send_loop_total; [lia|lia|by split].
Qed.

End send_loop.

(** Waits that others pass with the connection left alone. *)
Lemma linked_wait fd l (R : world -> world -> Prop) ev timeout w :
  (forall w1 w2, R w1 w2 -> sent_on fd w2 = sent_on fd w1) -> linked (fun _ => True) fd l (fun _ => True) w ->
  wp R any_fault (waitev fd ev timeout) (fun _ w' => linked (fun _ => True) fd l (fun _ => True) w') w.
Proof.
  intros HR [[_ Hl] _]. eapply wp_mono; [|apply (waitev_quiet (fun k => io_sent k fd = l)); [|exact Hl]].
  - by intros ? w2 Hk2.
  - intros w2 w3 H23 H2. unfold kept in *. rewrite <- H2. by apply HR.
Qed.

(** C32. [dyco_send], as long as nobody else sends on the same socket while it
    waits for room, and otherwise whatever the other coroutines do: it transmits
    a prefix of the buffer, of less than 2^31 bytes, in order and without
    repeating or skipping a byte; a result that is not negative is the length
    of the prefix. *)
Theorem send_transmits_prefix fuel fd buf flags (R : world -> world -> Prop) w :
  Z.of_nat (length buf) < 2 ^ 31 -> (forall w1 w2, R w1 w2 -> sent_on fd w2 = sent_on fd w1) ->
  wp R any_fault (dyco_send fuel fd buf flags)
    (fun r w' => send_result fd (sent_on fd w) buf r w') w.
Proof.
  intros Hlen HR. unfold dyco_send, send_all.
  destruct (send_rest fd buf flags (sent_on fd w) O w) as (r & k & Hrun & Hi & Hr & Hnz & Hs & _);
    [done|lia|by rewrite app_nil_r|].
  rewrite drop_0 in Hrun. apply wp_bind, wp_atomic. rewrite Hrun, Hi.
  pose proof (fun n => linked_wait fd (sent_on fd w ++ take n buf) R EV_OUT TIMEOUT_INFINIT) as Hwait.
  destruct (Z.eqb_spec r 0) as [->|Hne].
  { split; [|lia]. intros _. split; [lia|]. exact Hs. }
  assert (Hloop : forall n, (n <= length buf)%nat -> (n = O -> -1 <= r <= 0) ->
    sent_on fd (set_w_kern k w) = sent_on fd w ++ take n buf ->
    wp R any_fault (send_loop (fun b => io_send fd b flags) fd buf fuel (Z.of_nat n) r)
      (fun r w' => send_result fd (sent_on fd w) buf r w') (set_w_kern k w)).
  { intros n Hn Hr0 Hsn.
    by apply (send_loop_partial fd buf flags _ R any_fault (fun _ => True) (fun _ => True)); auto. }
  destruct (Z.ltb_spec 0 r).
  - rewrite <- (Z2Nat.id r) at 1 by lia. apply Hloop; [lia|lia|done].
  - apply (Hloop O); [lia|lia|]. by replace (Z.to_nat r) with O in Hs by lia.
Qed.

(** C33. A coroutine that sends in a consistent state, is resumed in consistent
    states, and has the connection for itself, which is in a state [K] in which
    a call takes at least one byte and the descriptor can be watched: nothing
    fails, the loop makes at most one turn per byte, the whole buffer is sent,
    in order, and the result is its length. *)
Theorem send_completes {osl : OSLaws os} fuel fd buf flags a (K : kernel -> Prop) `{!Quiet K} (R : world -> world -> Prop) w :
  Z.of_nat (length buf) < 2 ^ 31 -> buf <> [] -> (length buf < fuel)%nat -> watchable K fd ->
  (forall b k, K k -> b <> [] -> 0 < (io_send fd b flags k).1 /\ K (io_send fd b flags k).2) ->
  (forall b k ep fd', os_registered (io_send fd b flags k).2 ep fd' = os_registered k ep fd') ->
  (forall w1 w2, R w1 w2 -> resumable K a fd w2 /\
    sent_on fd w2 = sent_on fd w1 /\ (K (w_kern w1) -> K (w_kern w2))) ->
  can_wait K a fd w -> K (w_kern w) ->
  wp R no_fault (dyco_send fuel fd buf flags)
    (fun r w' => r = Z.of_nat (length buf) /\ sent_on fd w' = sent_on fd w ++ buf) w.
Proof.
  intros Hlen Hne Hfuel Hwt Hprog Hreg HR Hcw HK.
  eapply wp_mono; [|apply (send_whole fd buf flags (sent_on fd w) R no_fault K (can_wait K a fd)); try done].
  { by intros r w' [-> [[_ Hs] _]]. }
  { intros b w1 _ Hw1. by apply can_wait_kern. }
  intros m w1 [[HK1 Hs1] Hw1]. eapply (wp_faults _ (fun e => any_fault e /\ no_fault e)); [by intros e [_ ?]|].
  apply wp_and; [|apply waitev_sure; try done; by intros w2 w3 [H _]%HR].
  apply (waitev_quiet (fun k => K k /\ io_sent k fd = sent_on fd w ++ take m buf)); [|by split].
  intros w2 w3 H23 [HK2 Hs2]. destruct (HR _ _ H23) as (_ & Hs3 & HK3).
  split; [auto|]. unfold sent_on in Hs3. congruence.
Qed.

(** ** Descriptors *)

Definition fd_open (fd : Z) w : bool := io_open (w_kern w) fd.

(** [dyco_socket]: without a descriptor it returns -1 and opens none; a
    descriptor that cannot be made non-blocking stays open although the result
    is -1, since the code closes the result of [fcntl] instead of it; otherwise
    exactly the returned descriptor is newly open, and it is non-blocking. *)
Theorem socket_outcome domain type protocol w r w' :
  dyco_socket domain type protocol w = Ok (r, w') ->
  let '(fd, k) := io_socket domain type protocol (w_kern w) in
  if fd <? 0 then r = -1 /\ forall x, fd_open x w' = fd_open x w
  else
    (forall x, fd_open x w' = bool_decide (x = fd) || fd_open x w) /\ fd_open fd w = false /\
    (if (io_fcntl_nonblock fd k).1 =? -1 then r = -1
     else r = fd /\ io_nonblock (w_kern w') fd = true).
Proof.
  intros Hrun. unfold dyco_socket in Hrun. pose proof (socket_opens domain type protocol (w_kern w)) as [Ho Hge].
  destruct (io_socket domain type protocol (w_kern w)) as [fd k] eqn:Hsk. simpl in Ho, Hge.
  rewrite (bind_ok _ _ _ _ _ (sys_run _ w _ _ Hsk)) in Hrun. unfold fd_open.
  destruct Ho as [[Hlt Ho]|(H0 & Hfresh & Ho)].
  { destruct (Z.ltb_spec fd 0); [|lia]. destruct (Z.eqb_spec fd (-1)); [|lia].
    injection Hrun as <- <-. by split. }
  destruct (Z.ltb_spec fd 0); [lia|]. destruct (Z.eqb_spec fd (-1)); [lia|].
  pose proof (fcntl_open fd k) as Hfo. pose proof (fcntl_sets fd k) as Hfs.
  destruct (io_fcntl_nonblock fd k) as [r1 k1] eqn:Hfc. simpl in *.
  rewrite (bind_ok _ _ _ _ _ (sys_run _ (set_w_kern k w) _ _ Hfc)) in Hrun.
  destruct (Z.eqb_spec r1 (-1)) as [->|Hr1].
  - pose proof (close_closes (-1) k1) as Hcl. destruct (os_close (-1) k1) as [r2 k2] eqn:Hc. simpl in Hcl.
    rewrite (bind_ok _ _ _ _ _ (sys_run _ (set_w_kern k1 (set_w_kern k w)) _ _ Hc)) in Hrun.
    injection Hrun as <- <-. simpl. split_and!; try done.
    intros x. rewrite Hcl, Hfo, Ho. destruct (bool_decide_reflect (x = -1)) as [->|]; [|done]. simpl.
    rewrite bool_decide_eq_false_2 by lia. simpl. destruct (io_open (w_kern w) (-1)) eqn:Hm; [|done].
    apply open_fd in Hm. lia.
  - pose proof (reuseaddr_keeps fd k1) as Hru. destruct (io_set_reuseaddr fd k1) as [r2 k2] eqn:Hc. simpl in Hru.
    rewrite (bind_ok _ _ _ _ _ (sys_run _ (set_w_kern k1 (set_w_kern k w)) _ _ Hc)) in Hrun.
    minv. simpl. split_and!; try done.
    + intros x. destruct (Hru x) as [-> _]. by rewrite Hfo, Ho.
    + destruct (Hru r) as [_ ->]. apply Hfs; [|done]. by rewrite Ho, bool_decide_eq_true_2.
Qed.

(** The descriptors [o] are open, and [r], if it is one, besides. *)
Definition opened (o : Z -> bool) (r : Z) w : Prop :=
  if r <? 0 then forall x, fd_open x w = o x
  else o r = false /\ forall x, fd_open x w = bool_decide (x = r) || o x.

Lemma accept_loop_opens fuel fd o (R : world -> world -> Prop) w :
  (forall w1 w2, R w1 w2 -> forall x, fd_open x w2 = fd_open x w1) -> (forall x, fd_open x w = o x) ->
  wp R any_fault (accept_loop fuel fd) (fun conn w' =>
    match conn with
    | None => forall x, fd_open x w' = o x
    | Some (r, _) => 0 <= r /\ opened o r w'
    end) w.
Proof.
  intros HR. revert w. induction fuel as [|fuel IH]; intros w Hw; [done|]. cbn [accept_loop].
  apply wp_bind. eapply wp_mono; [|apply (waitev_quiet (fun k => forall x, io_open k x = o x)); [|exact Hw]].
  2: { intros w1 w2 H12 H1 x. unfold kept in *. rewrite <- H1. by apply HR. }
  intros ? w1 Hw1. apply wp_bind, wp_atomic. pose proof (accept_opens fd (w_kern w1)) as Ho. unfold sys.
  destruct (io_accept fd (w_kern w1)) as [[r peer] k]. simpl in Ho. cbv beta.
  destruct Ho as [[Hr Ho]|(Hr & Hn & Ho)].
  - destruct (Z.ltb_spec r 0); [|lia]. assert (Hk : forall x, fd_open x (set_w_kern k w1) = o x).
    { intros x. unfold fd_open. simpl. by rewrite Ho. }
    apply wp_bind, wp_atomic. simpl. by destruct (_ =? EAGAIN); [apply IH|].
  - destruct (Z.ltb_spec r 0); [lia|]. simpl. unfold opened. destruct (Z.ltb_spec r 0); [lia|].
    split_and!; [done|by rewrite <- Hw1|]. intros x. unfold fd_open. simpl. by rewrite Ho, Hw1.
Qed.

(** C34. [dyco_accept], if no other coroutine opens or closes any descriptor while
    it waits: it returns a new descriptor, open and non-blocking, or -1, and then
    leaves no descriptor behind, even if the connection was accepted and could
    not be made non-blocking. *)
Theorem accept_outcome fuel fd (R : world -> world -> Prop) w :
  (forall w1 w2, R w1 w2 -> forall x, fd_open x w2 = fd_open x w1) ->
  wp R any_fault (dyco_accept fuel fd) (fun res w' =>
    (-1 <= res.1) /\ opened (fun x => fd_open x w) res.1 w' /\
    (0 <= res.1 -> io_nonblock (w_kern w') res.1 = true)) w.
Proof.
  intros HR. unfold dyco_accept. apply wp_bind.
  eapply wp_mono; [|by apply (accept_loop_opens fuel fd (fun x => fd_open x w))].
  intros [[r peer]|] w1 Hw1; [destruct Hw1 as [Hr Ho]|done].
  unfold opened in Ho. destruct (Z.ltb_spec r 0); [lia|]. destruct Ho as [Hn Ho].
  apply wp_bind, wp_atomic. unfold sys. pose proof (fcntl_open r (w_kern w1)) as Hfo.
  pose proof (fcntl_sets r (w_kern w1)) as Hfs. destruct (io_fcntl_nonblock r (w_kern w1)) as [r1 k1].
  simpl in Hfo, Hfs. destruct (Z.eqb_spec r1 (-1)) as [->|Hr1]; apply wp_bind, wp_atomic.
  - pose proof (close_closes r k1) as Hcl. simpl. destruct (os_close r k1) as [r2 k2]. simpl in *.
    split_and!; [lia| |lia]. unfold opened, fd_open in *. simpl in *. intros x. rewrite Hcl, Hfo, Ho.
    destruct (bool_decide_reflect (x = r)) as [->|]; [by rewrite Hn|done].
  - pose proof (reuseaddr_keeps fd k1) as Hru. simpl. destruct (io_set_reuseaddr fd k1) as [r2 k2]. simpl in Hru.
    apply wp_bind, wp_atomic. destruct (r2 =? 0); [|done]. simpl. split_and!; [lia| |].
    + unfold opened. destruct (Z.ltb_spec r 0); [lia|]. split; [done|]. intros x. unfold fd_open in *. simpl.
      destruct (Hru x) as [-> _]. by rewrite Hfo, Ho.
    + intros _. destruct (Hru r) as [_ ->]. apply Hfs; [|done]. unfold fd_open in Ho.
      by rewrite Ho, bool_decide_eq_true_2.
Qed.

End socket_proofs.

(** ** Concrete states *)

(** Coroutine 64 sends on socket 7, of which a call takes 4 bytes. *)
Definition ex_net (next : Z) : sim_kernel :=
  mk_kernel 1000000000 next ∅ ∅ (mk_net {[7]} {[7]} {[7 := [9]]} ∅ 4 0 0).
Definition ex_sock (next : Z) : @world sim (gmap Z addr) := set_w_kern (ex_net next : @kernel sim) ex_blk.

(** While the coroutine waits, time passes. *)
Definition time_passes (w w' : @world sim (gmap Z addr)) : Prop :=
  exists c, w' = set_w_kern (set_clock c (w_kern w) : @kernel sim) w.

Lemma send_transmits_prefix_witness :
  sent_on 7 (ex_sock 10) = [9] /\
  wp time_passes any_fault (dyco_send 3 7 [1; 2; 3; 4; 5; 6] 0)
    (fun r w' => send_result 7 (sent_on 7 (ex_sock 10)) [1; 2; 3; 4; 5; 6] r w') (ex_sock 10).
Proof.
  split; [by vm_compute|].
  apply (send_transmits_prefix 3 7 [1; 2; 3; 4; 5; 6] 0 time_passes (ex_sock 10)); [by vm_compute|].
  by intros w1 w2 [c ->].
Defined.

(** There is room for four bytes. *)
Definition has_room (k : @kernel sim) : Prop := n_room (k_net k) = 4.

#[export] Instance has_room_quiet : Quiet has_room.
Proof. split; unfold has_room; simpl; try done; intros; by repeat case_match. Qed.

(** With nothing watched, coroutine 64 can wait for the socket. *)
Lemma ex_can_wait (k : @kernel sim) : k_regs k = ∅ -> can_wait has_room 64 7 (set_w_kern k ex_blk).
Proof.
  intros Hk. exists ex_blk_sched, ([], []), (ex_co 0 5). split; [|done]. split; try done.
  - apply sched_ok_kern; [apply ex_blk_ok|]. intros fd. simpl. by rewrite Hk.
  - simpl. by rewrite Hk.
  - intros k1 _. split; [done|]. intros _. split_and!; [simpl; lia|done|]. intros used. apply sim_malloc_not_null.
Qed.

(** The coroutine is resumed, the network being as before. *)
Definition resumed_alike (w1 w2 : @world sim (gmap Z addr)) : Prop :=
  resumable has_room 64 7 w2 /\ k_net (w_kern w2) = k_net (w_kern w1).

Definition gives_way {W A} (x : @stop W A * W) : bool := match x with (SSwitch _ _, _) => true | _ => false end.

(** The first call of [send] takes four of the six bytes; then the coroutine
    waits, and may be resumed. *)
Lemma send_completes_witness :
  wp resumed_alike no_fault (dyco_send 7 7 [1; 2; 3; 4; 5; 6] 0)
    (fun r w' => r = 6 /\ sent_on 7 w' = sent_on 7 (ex_sock 10) ++ [1; 2; 3; 4; 5; 6]) (ex_sock 10) /\
  gives_way (exec (dyco_send 7 7 [1; 2; 3; 4; 5; 6] 0) (ex_sock 10)) = true /\
  forall w1, exists w2, resumed_alike w1 w2.
Proof.
  split; [|split; [by vm_compute|]].
  - apply (send_completes 7 7 [1; 2; 3; 4; 5; 6] 0 64 has_room resumed_alike (ex_sock 10)); try done.
    + simpl. lia.
    + split; [done|done|]. intros ep ev k _ Hr%bool_decide_eq_false. simpl. by case_decide.
    + intros b k Hk Hb. unfold has_room in *. simpl. unfold sim_send. rewrite Hk. simpl.
      split; [|done]. destruct b; [done|]. simpl. lia.
    + intros b k ep fd'. simpl. unfold sim_send. by destruct (n_room (k_net k) <=? 0).
    + intros w1 w2 [Hr Hn]. split; [done|]. unfold sent_on, has_room. simpl. unfold sim_sent. by rewrite Hn.
    + by apply ex_can_wait.
  - intros w1. exists (set_w_kern (mk_kernel 1000000000 10 ∅ ∅ (k_net (w_kern w1)) : @kernel sim) ex_blk). split; [|done].
    destruct (ex_can_wait (mk_kernel 1000000000 10 ∅ ∅ (k_net (w_kern w1)))) as (s & q & c & H & _); [done|]. by exists s, q, c.
Defined.

(** Descriptor 100 cannot be made non-blocking. *)
Lemma socket_outcome_witness :
  exists w', dyco_socket 2 1 0 (ex_sock 100) = Ok (-1, w') /\
    (forall x, fd_open x w' = bool_decide (x = 100) || fd_open x (ex_sock 100)) /\
    fd_open 100 (ex_sock 100) = false /\ -1 = -1.
Proof.
  eexists. split; [reflexivity|]. exact (socket_outcome 2 1 0 (ex_sock 100) (-1) _ eq_refl).
Defined.

Lemma accept_outcome_witness :
  wp time_passes any_fault (dyco_accept 2 7) (fun res w' =>
    (-1 <= res.1) /\ opened (fun x => fd_open x (ex_sock 10)) res.1 w' /\
    (0 <= res.1 -> io_nonblock (w_kern w') res.1 = true)) (ex_sock 10).
Proof.
  apply (accept_outcome 2 7 time_passes (ex_sock 10)). by intros w1 w2 [c ->].
Defined.
