(* ===== verification/Epoll.v ===== *)
(** * Epoll within a coroutine

    [src/dyco_epoll.c]: the epoll descriptor a coroutine may own, and the
    functions that replace [epoll_wait] and [poll] of the C library under
    [COROUTINE_HOOK] (module [EpollHook]).  The event array of a wait is a list
    of descriptors with their events. *)
From S2P Require Import Prelude Htable Queue SleepTree World SimOS Schedule SchedInv Prog Coroutine Rely NetOS Socket.

Local Open Scope Z_scope.
Local Open Scope dyco_scope.

Section epoll.
Context {os : OS} {io : IO os} {T : Type} {st : SleepTree T}.
Local Abbreviation world := (@world os T).

Definition dyco_epoll_init : M world Z :=
  let* oco := opt_curr in
  match oco with
  | None => ret (-1)
  | Some co =>
      let* b := test_co co COROUTINE_FLAGS_IOMULTIPLEXING in
      if b : bool then ret (-1)
      else
        let* fd := sys (io_epoll_create 1024) in
        upd_co co (set_co_epollfd fd) ;;;
        DYCO_MUSTNOT (fd =? -1) ;;;
        set_flag co COROUTINE_FLAGS_IOMULTIPLEXING ;;;
        ret 0
  end.

(** A coroutine without an epoll descriptor is a [DYCO_ABORT]. *)
Definition dyco_epoll_wait (maxevents timeout : Z) : prog world (Z * list (Z * Z)) :=
  let! oco := atomic opt_curr in
  match oco with
  | None => PRet (-1, [])
  | Some co =>
      let! b := atomic (test_co co COROUTINE_FLAGS_IOMULTIPLEXING) in
      if negb b then atomic (throw FExit)
      else
        let! c := atomic (getco co) in
        if timeout =? 0 then atomic (sys (io_epoll_wait (co_epollfd c) maxevents 0))
        else
          do! atomic (schedule_sched_waitR co (co_epollfd c));
          do! atomic (schedule_sched_sleep co timeout);
          do! yield co;
          do! atomic (schedule_cancel_sleep co);
          let! c := atomic (getco co) in
          let! _ := atomic (schedule_cancel_wait co (co_epollfd c)) in
          let! c := atomic (getco co) in
          atomic (sys (io_epoll_wait (co_epollfd c) maxevents 0))
  end.

(** [dyco_epoll_add] and [dyco_epoll_del] differ in their [epoll_ctl] call. *)
Definition own_epoll_ctl (ctl : Z -> kernel -> Z * kernel) : M world Z :=
  let* oco := opt_curr in
  match oco with
  | None => ret (-1)
  | Some co =>
      let* b := test_co co COROUTINE_FLAGS_IOMULTIPLEXING in
      if negb b then ret (-1)
      else
        let* c := getco co in
        let* r := sys (ctl (co_epollfd c)) in
        DYCO_MUST (r =? 0) ;;;
        ret 0
  end.

Definition dyco_epoll_add (fd ev : Z) : M world Z := own_epoll_ctl (fun epfd => os_epoll_add epfd fd ev).
Definition dyco_epoll_del (fd : Z) : M world Z := own_epoll_ctl (fun epfd => os_epoll_del epfd fd).

Definition dyco_epoll_destroy : M world unit :=
  let* oco := opt_curr in
  match oco with
  | None => ret tt
  | Some co =>
      let* b := test_co co COROUTINE_FLAGS_IOMULTIPLEXING in
      if negb b then ret tt
      else
        clr_flag co COROUTINE_FLAGS_IOMULTIPLEXING ;;;
        let* c := getco co in
        let* _ := sys (os_close (co_epollfd c)) in
        ret tt
  end.

End epoll.

Module EpollHook.
Section hook.
Context {os : OS} {io : IO os} {T : Type} {st : SleepTree T}.
Local Abbreviation world := (@world os T).

(** The fast path passes [timeout], which is 0 there, as the number of
    events. *)
Definition epoll_wait (epfd maxevents timeout : Z) : prog world (Z * list (Z * Z)) :=
  if timeout =? 0 then atomic (sys (io_epoll_wait epfd timeout 0))
  else
    let! oco := atomic opt_curr in
    match oco with
    | None => PRet (-1, [])
    | Some co =>
        do! suspend co epfd EVENTS_R timeout;
        atomic (sys (io_epoll_wait epfd maxevents 0))
    end.

(** The two loops over the descriptors; an element of [fds] is a descriptor
    with its events, of type [short]. *)
Fixpoint poll_add (epfd : Z) (fds : list (Z * Z)) : M world unit :=
  match fds with
  | [] => ret tt
  | (fd, ev) :: fds' =>
      let* r := sys (os_epoll_add epfd fd (u32 (swrap 16 ev))) in
      DYCO_MUST (r =? 0) ;;;
      poll_add epfd fds'
  end.

Fixpoint poll_del (epfd : Z) (fds : list (Z * Z)) : M world unit :=
  match fds with
  | [] => ret tt
  | (fd, _) :: fds' =>
      let* r := sys (os_epoll_del epfd fd) in
      DYCO_MUST (r =? 0) ;;;
      poll_del epfd fds'
  end.

(** The result with the [revents] of the descriptors. *)
Definition poll (fds : list (Z * Z)) (timeout : Z) : prog world (Z * list Z) :=
  if timeout =? 0 then atomic (sys (io_poll fds 0))
  else
    let! oco := atomic opt_curr in
    match oco with
    | None => PRet (-1, [])
    | Some co =>
        let! epfd := atomic (sys (io_epoll_create (i32 (Z.of_nat (length fds))))) in
        do! atomic (DYCO_MUSTNOT (epfd =? -1));
        do! atomic (poll_add epfd fds);
        do! suspend co epfd EVENTS_R timeout;
        do! atomic (poll_del epfd fds);
        atomic (sys (io_poll fds timeout))
    end.

End hook.
End EpollHook.

(** * Properties *)

Section epoll_proofs.
Context {os : OS} {io : IO os} {iol : IOLaws os} {T : Type} {st : SleepTree T}.
Local Abbreviation world := (@world os T).
Local Abbreviation dyco_schedule := (@dyco_schedule T).
Implicit Types (w : world) (s : dyco_schedule) (c : dyco_coroutine) (a : addr).

Definition owns_epoll c : bool := TESTBIT (co_status c) COROUTINE_FLAGS_IOMULTIPLEXING.

(** The epoll descriptor of a coroutine: [dyco_epoll_init] opens one and only
    one, a second call is refused and changes nothing, and
    [dyco_epoll_destroy] closes it and gives back the status word and the set
    of open descriptors. *)
Theorem epoll_lifecycle w s a c :
  w_sched w = Some s -> s_curr_thread s = a -> a <> NULL -> w_coros w !! a = Some c ->
  owns_epoll c = false -> (io_epoll_create 1024 (w_kern w)).1 <> -1 ->
  exists w1 c1 w2 c2, dyco_epoll_init w = Ok (0, w1) /\ w_coros w1 !! a = Some c1 /\
    owns_epoll c1 = true /\ opened (fun x => fd_open x w) (co_epollfd c1) w1 /\ 0 <= co_epollfd c1 /\
    dyco_epoll_init w1 = Ok (-1, w1) /\
    dyco_epoll_destroy w1 = Ok (tt, w2) /\ w_coros w2 !! a = Some c2 /\
    co_status c2 = co_status c /\ (forall x, fd_open x w2 = fd_open x w) /\ w_sched w2 = w_sched w.
Proof.
  intros Hs Hcur Ha Hc Hb Hok. unfold owns_epoll in Hb.
  destruct (epoll_create_opens 1024 (w_kern w)) as [Ho Hge].
  destruct (io_epoll_create 1024 (w_kern w)) as [fd k] eqn:Hk. simpl in Ho, Hge, Hok.
  destruct Ho as [[Hlt _]|(H0 & Hfresh & Ho)]; [lia|].
  set (c1 := set_co_status (SETBIT (co_status c) COROUTINE_FLAGS_IOMULTIPLEXING) (set_co_epollfd fd c)).
  set (w1 := set_w_coros (<[a := c1]> (w_coros w)) (set_w_kern k w)).
  assert (Hc1 : w_coros w1 !! a = Some c1) by apply lookup_insert_eq.
  assert (Hown : TESTBIT (co_status c1) COROUTINE_FLAGS_IOMULTIPLEXING = true)
    by (simpl; by rewrite TESTBIT_SETBIT).
  assert (Hs1 : opt_curr w1 = Ok (Some a, w1)) by (by apply (opt_curr_of w1 s)).
  pose proof (close_closes fd k) as Hcl. destruct (os_close fd k) as [r2 k2] eqn:Hclose. simpl in Hcl.
  set (c2 := set_co_status (CLRBIT (co_status c1) COROUTINE_FLAGS_IOMULTIPLEXING) c1).
  exists w1, c1, (set_w_kern k2 (set_w_coros (<[a := c2]> (w_coros w1)) w1)), c2. split_and!; try done.
  - unfold dyco_epoll_init. rewrite (bind_ok _ _ _ _ _ (opt_curr_of w s a Hs Hcur Ha)).
    mrun. rewrite Hb. mrun. mrun. destruct (Z.eqb_spec fd (-1)); [lia|]. mrun. mrun.
    unfold w1. simpl. by rewrite insert_insert_eq.
  - unfold opened. simpl. destruct (Z.ltb_spec fd 0); [lia|]. by split.
  - unfold dyco_epoll_init. rewrite (bind_ok _ _ _ _ _ Hs1). mrun. by rewrite Hown.
  - unfold dyco_epoll_destroy. rewrite (bind_ok _ _ _ _ _ Hs1). mrun. rewrite Hown. cbn [negb].
    mrun. mrun. mrun. reflexivity.
  - apply lookup_insert_eq.
  - simpl. by apply CLRBIT_SETBIT.
  - intros x. unfold fd_open. simpl. rewrite Hcl, Ho.
    destruct (bool_decide_reflect (x = fd)) as [->|]; [by rewrite Hfresh|done].
Qed.

(** The replacement of [epoll_wait] fails for every call with timeout 0, since
    it asks for 0 events. *)
Theorem hooked_epoll_wait_nonblocking_fails epfd maxevents w :
  exists w', exec (EpollHook.epoll_wait epfd maxevents 0) w = (SDone (-1, []), w').
Proof.
  unfold EpollHook.epoll_wait. destruct (epoll_wait_maxevents epfd 0 0 (w_kern w)) as [k Hk]; [lia|].
  eexists. simpl. unfold sys. by rewrite Hk.
Qed.

(** The replacement of [poll] ends the process when it is called by a
    coroutine without descriptors, the usual way to sleep with [poll]. *)
Theorem hooked_poll_without_fds_exits w s a timeout :
  w_sched w = Some s -> s_curr_thread s = a -> a <> NULL -> timeout <> 0 ->
  exists w', exec (EpollHook.poll [] timeout) w = (SFault FExit, w').
Proof.
  intros Hs Hcur Ha Ht. unfold EpollHook.poll. destruct (Z.eqb_spec timeout 0); [done|].
  rewrite (exec_atomic_bind _ _ _ _ _ (opt_curr_of w s a Hs Hcur Ha)).
  pose proof (epoll_create_size 0 (w_kern w) ltac:(lia)) as Hr.
  destruct (io_epoll_create 0 (w_kern w)) as [fd k] eqn:Hk. simpl in Hr. subst fd.
  rewrite (exec_atomic_bind _ _ w (-1) (set_w_kern k w)) by (by apply sys_run). by eexists.
Qed.

(** ** The descriptors of [poll] *)

Section poll_loops.
Context (o : Z -> bool).
Definition open_are w : Prop := forall x, fd_open x w = o x.

Lemma keeps_open_sys {A} (g : kernel -> A * kernel) :
  (forall k, (forall x, io_open k x = o x) -> forall x, io_open (g k).2 x = o x) ->
  keeps open_are any_fault (sys g).
Proof.
  intros Hg w Hw. unfold sys. specialize (Hg (w_kern w) Hw). by destruct (g (w_kern w)).
Qed.

Lemma poll_add_keeps epfd fds : keeps open_are any_fault (EpollHook.poll_add epfd fds).
Proof.
  induction fds as [|[fd ev] fds IH]; simpl; [apply keeps_ret|].
  keeps_with ltac:(first [apply keeps_open_sys, (quiet_epoll_add (K := fun k => forall x, io_open k x = o x)) | done]).
Qed.

Lemma poll_del_keeps epfd fds : keeps open_are any_fault (EpollHook.poll_del epfd fds).
Proof.
  induction fds as [|[fd ev] fds IH]; simpl; [apply keeps_ret|].
  keeps_with ltac:(first [apply keeps_open_sys, (quiet_epoll_del (K := fun k => forall x, io_open k x = o x)) | done]).
Qed.

End poll_loops.

(** The replacement of [poll] in a coroutine, if no other coroutine opens or
    closes a descriptor meanwhile: the epoll descriptor it waits with is still
    open when it returns, and the call it ends with is the C library's [poll]
    with the whole timeout again, which blocks the thread and all of its
    coroutines. *)
Theorem hooked_poll_leaks_and_blocks w s a fds timeout (R : world -> world -> Prop) :
  w_sched w = Some s -> s_curr_thread s = a -> a <> NULL -> timeout <> 0 ->
  (forall w1 w2, R w1 w2 -> forall x, fd_open x w2 = fd_open x w1) ->
  wp R any_fault (EpollHook.poll fds timeout) (fun res w' =>
    (exists epfd, 0 <= epfd /\ opened (fun x => fd_open x w) epfd w') /\
    exists k, io_poll fds timeout k = (res, w_kern w')) w.
Proof.
  intros Hs Hcur Ha Ht HR. unfold EpollHook.poll. destruct (Z.eqb_spec timeout 0); [done|].
  apply wp_bind, wp_atomic. rewrite (opt_curr_of w s a Hs Hcur Ha).
  apply wp_bind, wp_atomic. unfold sys at 1.
  destruct (epoll_create_opens (i32 (Z.of_nat (length fds))) (w_kern w)) as [Ho Hge].
  destruct (io_epoll_create _ (w_kern w)) as [fd k]. simpl in Ho, Hge.
  apply wp_bind, wp_atomic. destruct (Z.eqb_spec fd (-1)); [done|]. simpl.
  destruct Ho as [[? _]|(H0 & Hfresh & Ho)]; [lia|].
  set (o := fun x => bool_decide (x = fd) || fd_open x w).
  assert (Hw1 : open_are o (set_w_kern k w)) by exact Ho.
  assert (HR' : forall w1 w2, R w1 w2 -> open_are o w1 -> open_are o w2).
  { intros w1 w2 H12 H1 x. rewrite <- (H1 x). by apply HR. }
  apply wp_bind. eapply wp_mono; [|by apply (pkeeps_atomic _ _ (open_are o)), Hw1; apply poll_add_keeps].
  intros ? w2 Hw2. apply wp_bind.
  eapply wp_mono; [|apply (suspend_quiet (fun k => forall x, io_open k x = o x)); [exact HR'|exact Hw2]].
  intros ? w3 Hw3. apply wp_bind.
  eapply wp_mono; [|by apply (pkeeps_atomic _ _ (open_are o)), Hw3; apply poll_del_keeps].
  intros ? w4 Hw4. apply wp_atomic. unfold sys. pose proof (poll_open fds timeout (w_kern w4)) as Hp.
  destruct (io_poll fds timeout (w_kern w4)) as [res k'] eqn:Hpoll. simpl in Hp.
  split; [|by eexists]. exists fd. split; [done|]. unfold opened. destruct (Z.ltb_spec fd 0); [lia|].
  split; [exact Hfresh|]. intros x. unfold fd_open. simpl. rewrite Hp. apply Hw4.
Qed.

End epoll_proofs.

(** ** Concrete states *)

Lemma epoll_lifecycle_witness :
  exists w1 c1 w2 c2, dyco_epoll_init (ex_sock 10) = Ok (0, w1) /\ w_coros w1 !! 64 = Some c1 /\
    owns_epoll c1 = true /\ opened (fun x => fd_open x (ex_sock 10)) (co_epollfd c1) w1 /\
    0 <= co_epollfd c1 /\ dyco_epoll_init w1 = Ok (-1, w1) /\
    dyco_epoll_destroy w1 = Ok (tt, w2) /\ w_coros w2 !! 64 = Some c2 /\
    co_status c2 = 0 /\ (forall x, fd_open x w2 = fd_open x (ex_sock 10)) /\
    w_sched w2 = Some ex_blk_sched.
Proof. by apply (epoll_lifecycle (ex_sock 10) ex_blk_sched 64 (ex_co 0 5)). Defined.

Lemma hooked_poll_without_fds_exits_witness :
  exists w', exec (EpollHook.poll [] 500) (ex_sock 10) = (SFault FExit, w').
Proof. by apply (hooked_poll_without_fds_exits (ex_sock 10) ex_blk_sched 64). Defined.

Lemma hooked_poll_leaks_and_blocks_witness :
  wp time_passes any_fault (EpollHook.poll [(7, EPOLLIN)] 500) (fun res w' =>
    (exists epfd, 0 <= epfd /\ opened (fun x => fd_open x (ex_sock 10)) epfd w') /\
    exists k, io_poll [(7, EPOLLIN)] 500 k = (res, w_kern w')) (ex_sock 10).
Proof.
  apply (hooked_poll_leaks_and_blocks (ex_sock 10) ex_blk_sched 64 [(7, EPOLLIN)] 500); try done.
  by intros w1 w2 [c ->].
Defined.
