(* ===== verification/Ssl.v ===== *)
(** * SSL connections

    [src/dyco_ssl.c]: the wrappers that repeat a call of the SSL library until
    it no longer wants to read or write.  The library is the parameter
    [SSLLib]; its state is part of the kernel state, like everything outside
    the program. *)
From S2P Require Import Prelude Htable Queue SleepTree World SimOS Schedule SchedInv Prog Coroutine Rely NetOS Socket.

Local Open Scope Z_scope.
Local Open Scope dyco_scope.

Definition SSL_TIMEOUT_DEFAULT : Z := 1000.
Definition SSL_ERROR_NONE : Z := 0.
Definition SSL_ERROR_WANT_READ : Z := 2.
Definition SSL_ERROR_WANT_WRITE : Z := 3.

(** The functions of the SSL library, on a connection given by its address;
    [ssl_read] returns the bytes it stored. *)
Class SSLLib (os : OS) := {
  SSL_get_fd : Z -> kernel -> Z;
  SSL_set_accept_state : Z -> kernel -> unit * kernel;
  SSL_set_connect_state : Z -> kernel -> unit * kernel;
  SSL_accept : Z -> kernel -> Z * kernel;
  SSL_connect : Z -> kernel -> Z * kernel;
  SSL_read : Z -> Z -> kernel -> (Z * list Z) * kernel;
  SSL_write : Z -> list Z -> kernel -> Z * kernel;
  SSL_get_error : Z -> Z -> kernel -> Z
}.

Section ssl.
Context {os : OS} {lib : SSLLib os} {T : Type} {st : SleepTree T}.
Local Abbreviation world := (@world os T).

Definition get_fd (ssl : Z) : M world Z := gets (fun w => SSL_get_fd ssl (w_kern w)).
Definition get_error (ssl r : Z) : M world Z := gets (fun w => SSL_get_error ssl r (w_kern w)).

(** The loops are the jumps to [label]. *)
Fixpoint ssl_accept_loop (fuel : nat) (ssl fd : Z) : prog world Z :=
  match fuel with
  | O => PFault FFuel
  | S fuel' =>
      let! r := dyco_coroutine_waitRW fd SSL_TIMEOUT_DEFAULT in
      if r <=? 0 then PRet (-1)
      else
        let! r := atomic (sys (SSL_accept ssl)) in
        if negb (r =? 1) then
          let! err := atomic (get_error ssl r) in
          if (err =? SSL_ERROR_WANT_WRITE) || (err =? SSL_ERROR_WANT_READ)
          then ssl_accept_loop fuel' ssl fd else PRet r
        else PRet 1
  end.

Definition dyco_SSL_accept (fuel : nat) (ssl : Z) : prog world Z :=
  let! fd := atomic (get_fd ssl) in
  do! atomic (sys (SSL_set_accept_state ssl));
  ssl_accept_loop fuel ssl fd.

Fixpoint ssl_connect_loop (fuel : nat) (ssl fd : Z) : prog world Z :=
  match fuel with
  | O => PFault FFuel
  | S fuel' =>
      let! r := dyco_coroutine_waitRW fd SSL_TIMEOUT_DEFAULT in
      if r <=? 0 then PRet (-1)
      else
        let! r := atomic (sys (SSL_connect ssl)) in
        if r =? -1 then
          let! err := atomic (get_error ssl r) in
          if (err =? SSL_ERROR_WANT_WRITE) || (err =? SSL_ERROR_WANT_READ)
          then ssl_connect_loop fuel' ssl fd else PRet (-1)
        else PRet 1
  end.

Definition dyco_SSL_connect (fuel : nat) (ssl : Z) : prog world Z :=
  let! fd := atomic (get_fd ssl) in
  do! atomic (sys (SSL_set_connect_state ssl));
  ssl_connect_loop fuel ssl fd.

(** The result and the bytes stored in the buffer by the last call. *)
Fixpoint ssl_read_loop (fuel : nat) (ssl fd num : Z) : prog world (Z * list Z) :=
  match fuel with
  | O => PFault FFuel
  | S fuel' =>
      let! r := dyco_coroutine_waitRead fd (-1) in
      if r <=? 0 then PRet (-1, [])
      else
        let! (r, buf) := atomic (sys (SSL_read ssl num)) in
        let! err := atomic (get_error ssl r) in
        if err =? SSL_ERROR_NONE then PRet (num, buf)
        else if err =? SSL_ERROR_WANT_READ then ssl_read_loop fuel' ssl fd num
        else PRet (r, buf)
  end.

Definition dyco_SSL_read (fuel : nat) (ssl num : Z) : prog world (Z * list Z) :=
  let! fd := atomic (get_fd ssl) in ssl_read_loop fuel ssl fd num.

Fixpoint ssl_write_loop (fuel : nat) (ssl fd : Z) (buf : list Z) : prog world Z :=
  match fuel with
  | O => PFault FFuel
  | S fuel' =>
      let! r := dyco_coroutine_waitWrite fd SSL_TIMEOUT_DEFAULT in
      if r <=? 0 then PRet (-1)
      else
        let! r := atomic (sys (SSL_write ssl buf)) in
        let! err := atomic (get_error ssl r) in
        if err =? SSL_ERROR_NONE then PRet (Z.of_nat (length buf))
        else if err =? SSL_ERROR_WANT_WRITE then ssl_write_loop fuel' ssl fd buf
        else PRet r
  end.

Definition dyco_SSL_write (fuel : nat) (ssl : Z) (buf : list Z) : prog world Z :=
  let! fd := atomic (get_fd ssl) in ssl_write_loop fuel ssl fd buf.

End ssl.

(** * Properties *)

Section ssl_proofs.
Context {os : OS} {lib : SSLLib os} {T : Type} {st : SleepTree T}.
Local Abbreviation world := (@world os T).
Implicit Types (w : world).

(** [SSL_get_error]: there is no error exactly if the call returned a positive
    number. *)
Hypothesis error_none : forall ssl r k, SSL_get_error ssl r k = SSL_ERROR_NONE <-> 0 < r.

(** A wait for a descriptor that is ready returns at once. *)
Lemma waitev_ready fd ev timeout w r k :
  os_poll fd (swrap 16 (Z.land ev 0xffff)) (w_kern w) = (r, k) -> 0 < r ->
  exec (waitev fd ev timeout) w = (SDone r, set_w_kern k w).
Proof.
  intros Hp Hr. unfold waitev. erewrite exec_atomic_bind by (by apply sys_run).
  by destruct (Z.ltb_spec 0 r); [|lia].
Qed.

Definition pev_in : Z := swrap 16 (Z.land EV_IN 0xffff).
Definition pev_rw : Z := swrap 16 (Z.land (Z.lor (Z.lor (Z.lor EPOLLOUT EPOLLIN) EPOLLERR) EPOLLHUP) 0xffff).

(** A read that returns fewer bytes than the buffer holds, as the SSL library
    does with every shorter record: [dyco_SSL_read] reports the size of the
    buffer instead of the number of bytes read. *)
Theorem ssl_read_overstates fuel ssl num w r k n buf k' :
  os_poll (SSL_get_fd ssl (w_kern w)) pev_in (w_kern w) = (r, k) -> 0 < r ->
  SSL_read ssl num k = ((n, buf), k') -> Z.of_nat (length buf) = n -> 0 < n < num ->
  exists w', exec (dyco_SSL_read (S fuel) ssl num) w = (SDone (num, buf), w') /\
    Z.of_nat (length buf) < num.
Proof.
  intros Hp Hr Hread Hlen Hn. exists (set_w_kern k' w). split; [|lia].
  unfold dyco_SSL_read. erewrite exec_atomic_bind by reflexivity. cbn [ssl_read_loop].
  unfold dyco_coroutine_waitRead.
  rewrite exec_bind, (waitev_ready _ EV_IN _ w r k Hp Hr). destruct (Z.leb_spec r 0); [lia|].
  rewrite (exec_atomic_bind _ _ _ (n, buf) (set_w_kern k' w)).
  2: { unfold sys. cbn [w_kern set_w_kern]. by rewrite Hread. }
  erewrite exec_atomic_bind by reflexivity.
  rewrite (proj2 (error_none ssl n _)) by lia. done.
Qed.

(** A handshake that fails with result 0, i.e. that the peer shut down:
    [dyco_SSL_connect] returns 1, which means success. *)
Theorem ssl_connect_hides_shutdown fuel ssl w r k k' :
  let k0 := (SSL_set_connect_state ssl (w_kern w)).2 in
  os_poll (SSL_get_fd ssl (w_kern w)) pev_rw k0 = (r, k) -> 0 < r ->
  SSL_connect ssl k = (0, k') ->
  exec (dyco_SSL_connect (S fuel) ssl) w = (SDone 1, set_w_kern k' w).
Proof.
  intros k0 Hp Hr Hcon. unfold dyco_SSL_connect. erewrite exec_atomic_bind by reflexivity.
  rewrite (exec_atomic_bind _ _ w tt (set_w_kern k0 w)).
  2: { unfold sys, k0. by destruct (SSL_set_connect_state ssl (w_kern w)) as [[] ?]. }
  cbn [ssl_connect_loop]. unfold dyco_coroutine_waitRW.
  rewrite exec_bind, (waitev_ready _ _ _ (set_w_kern k0 w) r k Hp Hr). destruct (Z.leb_spec r 0); [lia|].
  rewrite (exec_atomic_bind _ _ _ 0 (set_w_kern k' w)); [done|].
  unfold sys. cbn [w_kern set_w_kern]. by rewrite Hcon.
Qed.

End ssl_proofs.

(** ** Concrete states *)

(** A library whose reads return the three bytes of a record and whose
    handshakes are shut down by the peer, on an eventfd that is ready. *)
Instance sim_ssl : SSLLib sim := {
  SSL_get_fd _ _ := 7;
  SSL_set_accept_state _ k := (tt, k);
  SSL_set_connect_state _ k := (tt, k);
  SSL_accept _ k := (1, k);
  SSL_connect _ k := (0, k);
  SSL_read _ num k := ((Z.min 3 num, take (Z.to_nat num) [1; 2; 3]), k);
  SSL_write _ buf k := (Z.of_nat (length buf), k);
  SSL_get_error _ r _ := if 0 <? r then SSL_ERROR_NONE else 1
}.

Lemma sim_ssl_error_none ssl r (k : @kernel sim) : SSL_get_error ssl r k = SSL_ERROR_NONE <-> 0 < r.
Proof. simpl. destruct (Z.ltb_spec 0 r); [done|]. split; [done|lia]. Qed.

Definition ex_ready : @world sim (gmap Z addr) :=
  set_w_kern (mk_sim 1000000000 10 {[7 := 1]} ∅ : @kernel sim) ex_blk.

Lemma ssl_read_overstates_witness :
  exists w', exec (dyco_SSL_read 1 5 16) ex_ready = (SDone (16, [1; 2; 3]), w') /\
    Z.of_nat (length [1; 2; 3]) < 16.
Proof.
  by apply (ssl_read_overstates sim_ssl_error_none 0 5 16 ex_ready 1 (w_kern ex_ready) 3 [1; 2; 3]
    (w_kern ex_ready)).
Defined.

Lemma ssl_connect_hides_shutdown_witness :
  exec (dyco_SSL_connect 1 5) ex_ready = (SDone 1, set_w_kern (w_kern ex_ready) ex_ready).
Proof. by apply (ssl_connect_hides_shutdown 0 5 ex_ready 1 (w_kern ex_ready) (w_kern ex_ready)). Defined.
