(* ===== verification/Asymcoro.v ===== *)
(** * Asymmetric coroutines

    [src/dyco_asymcoro.c]: coroutines that are resumed by name and yield to
    whoever resumed them, outside of the scheduler's queues.  The start
    function of their contexts is in file Run. *)
From S2P Require Import Prelude Htable Queue SleepTree World Schedule Prog Coroutine.

Local Open Scope Z_scope.
Local Open Scope dyco_scope.

Section asymcoro.
Context {os : OS} {T : Type} {st : SleepTree T}.
Local Abbreviation world := (@world os T).

Definition dyco_coroutine_isasymmetric (cid : Z) : M world Z :=
  let* s := get_sched in
  match s with
  | None => ret (-2)
  | Some _ =>
      let* co := cid_map_find cid in
      if co =? NULL then ret (-1)
      else let* b := test_co co COROUTINE_FLAGS_ASYMMETRIC in ret (Z.b2z b)
  end.

Definition dyco_asymcoro_create (func arg : Z) : M world Z :=
  let* co := newcoro in
  if co =? NULL then ret (-2)
  else
    upd_co co (fun c => set_co_arg arg (set_co_func func c)) ;;;
    set_flag co COROUTINE_FLAGS_ASYMMETRIC ;;;
    upd_co co (set_co_sched SCHED_PTR) ;;;
    let* cid := next_cid co in
    let* _ := cid_map_insert cid co in
    incr_coro_count 1 ;;;
    ret cid.

Definition dyco_asymcoro_setStack (cid stackptr stacksize : Z) : M world Z :=
  dyco_coroutine_setStack cid stackptr stacksize.
Definition dyco_asymcoro_getStack (cid : Z) : M world (Z * option (Z * Z)) :=
  dyco_coroutine_getStack cid.
Definition dyco_asymcoro_setUdata (cid udata : Z) : M world Z := dyco_coroutine_setUdata cid udata.
Definition dyco_asymcoro_getUdata (cid : Z) : M world (Z * option Z) := dyco_coroutine_getUdata cid.
Definition dyco_asymcoro_coroID : M world Z := dyco_coroutine_coroID.

Definition dyco_asymcororesume (cid : Z) : prog world Z :=
  let! s := atomic get_sched in
  match s with
  | None => PRet (-1)
  | Some s =>
      let co_prev := s_curr_thread s in
      let! co_next := atomic (cid_map_find cid) in
      if co_next =? NULL then PRet (-1)
      else
        let! c := atomic (getco co_next) in
        if negb (TESTBIT (co_status c) COROUTINE_FLAGS_ASYMMETRIC) then PRet (-1)
        else if TESTBIT (co_status c) COROUTINE_STATUS_EXITED then PRet 0
        else
          do! pwhen (negb (co_prev =? NULL) && negb (TESTBIT (co_status c) COROUTINE_FLAGS_OWNSTACK))
                (let! _ := atomic (dyco_asymcoro_setStack cid NULL DYCO_MAX_STACKSIZE) in PRet tt);
          let! new := atomic (test_co co_next COROUTINE_STATUS_NEW) in
          do! (if new : bool
               then do! pswitch (MakeCtx co_next); atomic (clr_flag co_next COROUTINE_STATUS_NEW)
               else atomic (loadstk co_next));
          do! atomic (upd_co co_next (fun c => set_co_sched_count (u32 (co_sched_count c + 1)) c));
          do! atomic (upd_sched (set_s_curr_thread co_next));
          do! atomic (set_flag co_next COROUTINE_STATUS_RUNNING);
          do! pswitch (SwapTo co_next);
          do! atomic (upd_sched (set_s_curr_thread co_prev));
          let! exited := atomic (test_co co_next COROUTINE_STATUS_EXITED) in
          PRet (if exited : bool then 0 else cid)
  end.

Definition dyco_asymcoroyield : prog world unit :=
  let! s := atomic get_sched in
  match s with
  | None => PRet tt
  | Some s =>
      let co := s_curr_thread s in
      let! exited := atomic (test_co co COROUTINE_STATUS_EXITED) in
      do! pwhen (negb exited) (atomic (savestk co));
      do! atomic (clr_flag co COROUTINE_STATUS_RUNNING);
      do! pswitch (SwapRet co);
      atomic (set_flag co COROUTINE_STATUS_RUNNING)
  end.

(** The [assert(0)] of the error branch is disabled. *)
Definition dyco_asymcoro_free (cid : Z) : M world unit :=
  let* s := get_sched in
  match s with
  | None => ret tt
  | Some _ =>
      let* co := cid_map_find cid in
      if co =? NULL then ret tt
      else
        let* asym := test_co co COROUTINE_FLAGS_ASYMMETRIC in
        if negb asym then ret tt
        else
          let* _ := co_sched_of co in
          incr_coro_count (-1) ;;;
          let* c := getco co in
          cid_map_delete (co_cid c) ;;;
          let* m := test_co co COROUTINE_FLAGS_ALLOCSTACKMEM in
          when m (upd_co co (set_co_stack NULL)) ;;;
          free_co co
  end.

End asymcoro.
