(* ===== verification/Coropool.v ===== *)
(** * Coroutine pools

    [src/dyco_coropool.c]: pools of preallocated coroutines, symmetric and
    asymmetric.  [cp_freelist] is the free list with its first element first
    and [cp_sublist] the list of the notification descriptors of the
    coroutines waiting for a free one. *)
From S2P Require Import Prelude Htable Queue SleepTree World SimOS Schedule SchedInv Prog Coroutine Asymcoro.

Local Open Scope Z_scope.
Local Open Scope dyco_scope.

Section coropool.
Context {os : OS} {T : Type} {st : SleepTree T}.
Local Abbreviation world := (@world os T).

Definition getcp (cp : addr) : M world coroutinepool :=
  let* w := get_st in match w_pools w !! cp with Some p => ret p | None => throw FSegv end.
Definition upd_cp (cp : addr) (f : coroutinepool -> coroutinepool) : M world unit :=
  let* p := getcp cp in modify (fun w => set_w_pools (<[cp := f p]> (w_pools w)) w).

Definition available (p : coroutinepool) : Z := cp_totalsize p - cp_activenum p.

Definition dyco_coropool_available (cp : addr) : M world Z :=
  let* p := getcp cp in ret (available p).
Definition dyco_asymcpool_available (cp : addr) : M world Z := dyco_coropool_available cp.

Definition get_coro_by_cid (cid : Z) : M world addr := cid_map_find cid.

Definition cp_notify (fd : Z) : M world unit :=
  let* r := sys (os_eventfd_write fd 1) in DYCO_MUST (r =? 0).

(** Unlinking a node from a notification list. *)
Fixpoint unlink (fd : Z) (l : list Z) : list Z :=
  match l with
  | [] => []
  | x :: l' => if x =? fd then l' else x :: unlink fd l'
  end.

Definition cp_wait (cp : addr) (timeout : Z) : prog world Z :=
  let! p := atomic (getcp cp) in
  let remain := available p in
  if (0 <? remain) || (timeout =? 0) then PRet remain
  else
    let! co := atomic must_curr in
    let! asym := atomic (test_co co COROUTINE_FLAGS_ASYMMETRIC) in
    do! atomic (DYCO_MUSTNOT asym);
    let! notifyfd := atomic (sys os_eventfd) in
    do! atomic (DYCO_MUSTNOT (notifyfd =? -1));
    let! ok := atomic (sys os_alloc_ok) in
    if negb (ok O) then PRet 0
    else
      do! atomic (upd_cp cp (fun p => set_cp_sublist (cp_sublist p ++ [notifyfd]) p));
      do! suspend co notifyfd EVENTS_R timeout;
      let! r := atomic (sys (os_eventfd_read notifyfd)) in
      do! (match r with
           | Some _ => PRet tt
           | None =>
               let! p := atomic (getcp cp) in
               match cp_sublist p with
               | [] => PFault FSegv
               | _ => atomic (upd_cp cp (fun p => set_cp_sublist (unlink notifyfd (cp_sublist p)) p))
               end
           end);
      let! _ := atomic (sys (os_close notifyfd)) in
      let! p := atomic (getcp cp) in PRet (available p).

(** One coroutine for the free list: the loop body of [cp_create] and of the
    growing branch of [cp_resize]. *)
Definition cp_add (cp : addr) (stacksize : Z) (isasymmetric : bool) : M world unit :=
  let* cur := newcoro in
  when isasymmetric (set_flag cur COROUTINE_FLAGS_ASYMMETRIC) ;;;
  (if isasymmetric || (0 <? stacksize)
   then let* _ := coro_setstack cur NULL (u64 stacksize) in ret tt else ret tt) ;;;
  upd_cp cp (fun p => set_cp_freelist (cur :: cp_freelist p) p) ;;;
  set_flag cur COROUTINE_FLAGS_INCOROPOOL ;;;
  upd_co cur (set_co_cpool cp).

Fixpoint cp_add_n (n : nat) (cp : addr) (stacksize : Z) (isasymmetric : bool) : M world unit :=
  match n with
  | O => ret tt
  | S n' => cp_add cp stacksize isasymmetric ;;; cp_add_n n' cp stacksize isasymmetric
  end.

Definition cp_create (totalsize stacksize : Z) (isasymmetric : bool) : M world addr :=
  if totalsize <=? 0 then ret NULL
  else
    let* cp := malloc in
    if cp =? NULL then ret NULL
    else
      modify (fun w => set_w_pools (<[cp := mk_cp 0 0 0 [] []]> (w_pools w)) w) ;;;
      cp_add_n (Z.to_nat totalsize) cp stacksize isasymmetric ;;;
      upd_cp cp (fun p => mk_cp totalsize 0 (i32 stacksize) [] (cp_freelist p)) ;;;
      ret cp.

(** The head of the waiters' list is notified and removed. *)
Definition cp_notify_head (cp : addr) : M world unit :=
  let* p := getcp cp in
  match cp_sublist p with
  | [] => ret tt
  | fd :: l => cp_notify fd ;;; upd_cp cp (set_cp_sublist l)
  end.

Fixpoint cp_grow (n : nat) (cp : addr) (isasymmetric : bool) : M world unit :=
  match n with
  | O => ret tt
  | S n' =>
      let* p := getcp cp in
      cp_add cp (cp_stacksize p) isasymmetric ;;;
      cp_notify_head cp ;;;
      cp_grow n' cp isasymmetric
  end.

(** The first free coroutine is removed from the list and freed; note which
    of the two functions frees which kind. *)
Definition cp_drop (cp : addr) (isasymmetric : bool) : M world unit :=
  let* p := getcp cp in
  match cp_freelist p with
  | [] => throw FSegv
  | cur :: l =>
      upd_cp cp (set_cp_freelist l) ;;;
      if isasymmetric then freecoro cur
      else let* c := getco cur in dyco_asymcoro_free (co_cid c)
  end.

Fixpoint cp_drop_n (n : nat) (cp : addr) (isasymmetric : bool) : M world unit :=
  match n with
  | O => ret tt
  | S n' => cp_drop cp isasymmetric ;;; cp_drop_n n' cp isasymmetric
  end.

Definition cp_resize (cp : addr) (newsize : Z) (isasymmetric : bool) : M world addr :=
  if cp =? NULL then ret cp
  else
    let* p := getcp cp in
    if newsize =? cp_totalsize p then ret cp
    else if cp_totalsize p <? newsize then
      cp_grow (Z.to_nat (newsize - cp_totalsize p)) cp isasymmetric ;;;
      upd_cp cp (set_cp_totalsize newsize) ;;; ret cp
    else
      let n := if cp_activenum p <=? newsize then cp_totalsize p - newsize else available p in
      cp_drop_n (Z.to_nat n) cp isasymmetric ;;;
      upd_cp cp (set_cp_totalsize newsize) ;;; ret cp.

Definition cp_destroy (cp : addr) (isasymmetric : bool) : M world Z :=
  if cp =? NULL then ret 0
  else
    let* p := getcp cp in
    if negb (cp_activenum p =? 0) then ret (-1)
    else
      cp_drop_n (Z.to_nat (cp_totalsize p)) cp isasymmetric ;;;
      modify (fun w => set_w_pools (delete cp (w_pools w)) w) ;;;
      ret 0.

(** The status word a coroutine gets when it is taken from a pool. *)
Definition obtained_status (old : Z) (isasymmetric : bool) : Z :=
  let newstatus := Z.lor (Z.lor (BIT COROUTINE_STATUS_NEW) (BIT COROUTINE_STATUS_READY))
                     (BIT COROUTINE_FLAGS_INCOROPOOL) in
  let newstatus := if TESTBIT old COROUTINE_FLAGS_OWNSTACK
                   then SETBIT newstatus COROUTINE_FLAGS_OWNSTACK else newstatus in
  let newstatus := if TESTBIT old COROUTINE_FLAGS_ALLOCSTACKMEM
                   then SETBIT newstatus COROUTINE_FLAGS_ALLOCSTACKMEM else newstatus in
  if isasymmetric then SETBIT newstatus COROUTINE_FLAGS_ASYMMETRIC else newstatus.

(** [cp_obtain] after [cp_wait] has reported a free coroutine. *)
Definition cp_take (cp func arg : Z) (isasymmetric isurgent : bool) : M world Z :=
  let* p := getcp cp in
  match cp_freelist p with
  | [] => throw FSegv
  | co :: l =>
      upd_cp cp (fun p => set_cp_activenum (cp_activenum p + 1) (set_cp_freelist l p)) ;;;
      upd_co co (fun c =>
        mk_co func arg SCHED_PTR (co_stack c) (co_stack_buf c) (co_stack_size c)
          (obtained_status (co_status c) isasymmetric) 0 0 (co_old_sigmask c) (co_cid c)
          (co_cpool c) 0 (-1) (-1)) ;;;
      let* cid := next_cid co in
      let* _ := cid_map_insert cid co in
      incr_coro_count 1 ;;;
      when (negb isasymmetric) (
        (if isurgent then
           set_flag co COROUTINE_FLAGS_URGENT ;;;
           upd_sched (fun s => set_s_queues (TAILQ_INSERT_TAIL (s_queues s) urgent_ready co) s)
         else
           upd_sched (fun s => set_s_queues (TAILQ_INSERT_TAIL (s_queues s) ready co) s)) ;;;
        wake_done) ;;;
      ret cid
  end.

Definition cp_obtain (cp func arg timeout : Z) (isasymmetric isurgent : bool) : prog world Z :=
  do! atomic (DYCO_MUST (negb (func =? 0)));
  let! r := cp_wait cp timeout in
  if r <=? 0 then PRet r
  else atomic (cp_take cp func arg isasymmetric isurgent).

Definition cp_return (co : addr) : M world unit :=
  if co =? NULL then ret tt
  else
    let* c := getco co in
    let cp := co_cpool c in
    if cp =? NULL then ret tt
    else
      let* _ := co_sched_of co in
      incr_coro_count (-1) ;;;
      cid_map_delete (co_cid c) ;;;
      release_io co ;;;
      clr_flag co COROUTINE_FLAGS_URGENT ;;;
      upd_cp cp (fun p => set_cp_activenum (cp_activenum p - 1)
                           (set_cp_freelist (co :: cp_freelist p) p)) ;;;
      cp_notify_head cp.

(** ** The user interface *)

Definition dyco_coropool_create (totalsize stacksize : Z) := cp_create totalsize stacksize false.
Definition dyco_coropool_resize (cp newsize : Z) := cp_resize cp newsize false.
Definition dyco_coropool_destroy (cp : Z) := cp_destroy cp false.
Definition dyco_coropool_obtain (cp func arg timeout : Z) := cp_obtain cp func arg timeout false false.
Definition dyco_coropool_obtain_urgent (cp func arg timeout : Z) :=
  cp_obtain cp func arg timeout false true.
Definition dyco_coropool_return (co : addr) : M world unit := cp_return co.
Definition dyco_asymcpool_create (totalsize stacksize : Z) := cp_create totalsize stacksize true.
Definition dyco_asymcpool_resize (cp newsize : Z) := cp_resize cp newsize true.
Definition dyco_asymcpool_destroy (cp : Z) := cp_destroy cp true.
Definition dyco_asymcpool_obtain (cp func arg timeout : Z) := cp_obtain cp func arg timeout true false.
Definition dyco_asymcpool_return (cid : Z) : M world unit :=
  let* co := get_coro_by_cid cid in
  if co =? NULL then ret tt else cp_return co.

End coropool.

(** * Properties *)

Section coropool_proofs.
Context {os : OS} {osl : OSLaws os} {T : Type} {st : SleepTree T} {stl : SleepTreeLaws T}.
Local Abbreviation world := (@world os T).
Local Abbreviation dyco_schedule := (@dyco_schedule T).
Implicit Types (w : world) (s : dyco_schedule) (c : dyco_coroutine) (p : coroutinepool) (cp co : addr).

Lemma getcp_run cp p w : w_pools w !! cp = Some p -> getcp cp w = Ok (p, w).
Proof. unfold getcp, bind, get_st. by intros ->. Qed.

Definition with_pool cp p w : world := set_w_pools (<[cp := p]> (w_pools w)) w.

Lemma upd_cp_run cp f p w :
  w_pools w !! cp = Some p -> upd_cp cp f w = Ok (tt, with_pool cp (f p) w).
Proof. intros Hp. unfold upd_cp, bind. by rewrite (getcp_run cp p w Hp). Qed.

(** Every coroutine of the pool is either free or active. *)
Definition pool_ok p : Prop := Z.of_nat (length (cp_freelist p)) + cp_activenum p = cp_totalsize p.

(** Outside of a coroutine nobody can wait for a free one: the process ends. *)
Lemma obtain_outside_exits cp p func arg timeout isasymmetric isurgent s w :
  w_pools w !! cp = Some p -> available p <= 0 -> timeout <> 0 -> w_sched w = Some s -> s_curr_thread s = NULL -> func <> 0 ->
  exec (cp_obtain cp func arg timeout isasymmetric isurgent) w = (SFault FExit, w).
Proof.
  intros Hp Ha Ht Hs Hcur Hf. unfold cp_obtain.
  rewrite (exec_atomic_bind (DYCO_MUST (negb (func =? 0))) _ w tt w) by (by destruct (Z.eqb_spec func 0)).
  rewrite exec_bind. unfold cp_wait. rewrite (exec_atomic_bind _ _ _ _ _ (getcp_run cp p w Hp)).
  destruct (Z.ltb_spec 0 (available p)); [lia|]. destruct (Z.eqb_spec timeout 0); [done|]. cbn [orb].
  rewrite exec_bind, exec_atomic. unfold must_curr, get_sched, gets, bind. rewrite Hs, Hcur. done.
Qed.

(** ** Obtaining a coroutine *)

Definition taken p : coroutinepool :=
  set_cp_activenum (cp_activenum p + 1) (set_cp_freelist (tail (cp_freelist p)) p).

Definition obtained (func arg cid : Z) c : dyco_coroutine :=
  mk_co func arg SCHED_PTR (co_stack c) (co_stack_buf c) (co_stack_size c)
    (obtained_status (co_status c) false) 0 0 (co_old_sigmask c) cid (co_cpool c) 0 (-1) (-1).

(** A recycled coroutine starts like a new one. *)
Lemma obtained_flags func arg cid c :
  sleeping_flag (obtained func arg cid c) = false /\ ready_flag (obtained func arg cid c) = true /\
  TESTBIT (co_status (obtained func arg cid c)) COROUTINE_STATUS_NEW = true /\
  TESTBIT (co_status (obtained func arg cid c)) COROUTINE_STATUS_EXITED = false /\
  ownstack (obtained func arg cid c) = ownstack c.
Proof.
  unfold sleeping_flag, ready_flag, ownstack, obtained. cbn [co_status]. unfold obtained_status.
  destruct (TESTBIT (co_status c) COROUTINE_FLAGS_OWNSTACK),
    (TESTBIT (co_status c) COROUTINE_FLAGS_ALLOCSTACKMEM); done.
Qed.

(** The scheduler after [co] was adopted: [h] is the identifier map. *)
Definition adopt_pooled co (h : @dyco_htable addr) s : dyco_schedule :=
  let s := set_s_cid_co_map h (set_s_cid_gen (Z.land (s_cid_gen s + 1) 0xffffff) s) in
  let s := set_s_coro_count (u32 (s_coro_count s + 1)) s in
  let s := set_s_queues (TAILQ_INSERT_TAIL (s_queues s) ready co) s in
  if decide (s_status s = SCHEDULE_STATUS_DONE) then set_s_status SCHEDULE_STATUS_READY s else s.

Lemma cp_take_run w s cp p co l c func arg :
  w_sched w = Some s -> w_pools w !! cp = Some p -> cp_freelist p = co :: l ->
  w_coros w !! co = Some c -> htable_wf (s_cid_co_map s) -> memory_ok (w_kern w) ->
  fresh_cid s <> 0 -> fresh_cid s <> -1 ->
  exists h, cp_take cp func arg false false w = Ok (fresh_cid s,
      set_w_sched (Some (adopt_pooled co h s)) (set_w_kern (os_alloc_ok (w_kern w)).2
        (with_co co (obtained func arg (fresh_cid s) c) (with_pool cp (taken p) w)))) /\
    htable_wf h /\ habs h = <[fresh_cid s := co]> (cids s).
Proof.
  intros Hs Hp Hl Hc Hwf Hmem H0 H1. unfold cp_take. mrun with getcp_run. rewrite Hl.
  erewrite bind_ok by (by apply upd_cp_run). cbv beta. mrun.
  unfold next_cid at 1. erewrite bind_ok; [|do 3 mrun; reflexivity]. cbv beta.
  change (make_cid _ _) with (fresh_cid s).
  set (w1 := set_w_coros _ _). set (s1 := set_s_cid_gen _ _) in *.
  destruct (cid_map_insert_run (fresh_cid s) co s1 w1) as (h & Hins & Hwh & Hah); try done.
  exists h. split; [|done]. rewrite (bind_ok _ _ _ _ _ Hins). cbv beta.
  unfold incr_coro_count, wake_done. mrun. cbn [negb when].
  erewrite bind_ok; [|mrun; apply upd_sched_run; reflexivity].
  unfold ret, w1, with_co, with_pool, taken, adopt_pooled, obtained. simpl.
  rewrite Hl, !insert_insert_eq. by case_decide.
Qed.

(** C30. [dyco_coropool_obtain] on a pool with a free coroutine does not block: it
    returns the next identifier, under which the first free coroutine is now
    known; the coroutine starts like a new one with the given function and
    argument, keeps its stack, and stands last in the ready queue; the pool
    counts it as active, and both the pool's and the scheduler's invariants
    are kept. *)
Theorem pool_obtain w s q cp p co l c func arg timeout :
  sched_ok w s q -> w_sched w = Some s -> w_pools w !! cp = Some p -> pool_ok p ->
  cp_freelist p = co :: l -> func <> 0 ->
  w_coros w !! co = Some c -> sleeping_flag c = false -> waiting_flag c = false ->
  co ∉ queued q -> (forall cid, cids s !! cid <> Some co) ->
  memory_ok (w_kern w) -> fresh_cid s <> 0 -> fresh_cid s <> -1 ->
  exists w' s' c', exec (dyco_coropool_obtain cp func arg timeout) w = (SDone (fresh_cid s), w') /\
    w_sched w' = Some s' /\ sched_ok w' s' (q.1, q.2 ++ [co]) /\
    w_pools w' !! cp = Some (taken p) /\ pool_ok (taken p) /\
    cids s' = <[fresh_cid s := co]> (cids s) /\ s_coro_count s' = u32 (s_coro_count s + 1) /\
    w_coros w' = <[co := c']> (w_coros w) /\ co_func c' = func /\ co_arg c' = arg /\
    co_cpool c' = co_cpool c /\ ownstack c' = ownstack c /\ co_stack c' = co_stack c /\
    TESTBIT (co_status c') COROUTINE_STATUS_NEW = true /\
    TESTBIT (co_status c') COROUTINE_STATUS_EXITED = false.
Proof.
  intros Hok Hs Hp Hpok Hl Hf Hc Hsl Hw Hq Hnc Hmem H0 H1.
  destruct (cp_take_run w s cp p co l c func arg Hs Hp Hl Hc (ok_cids_wf _ _ _ Hok) Hmem H0 H1)
    as (h & Hrun & Hwh & Hah).
  set (c' := obtained func arg (fresh_cid s) c) in *.
  destruct (obtained_flags func arg (fresh_cid s) c) as (Hsl' & Hr' & Hnew & Hex & Hown).
  eexists _, (adopt_pooled co h s), c'. unfold pool_ok in *. rewrite Hl in Hpok. simpl in Hpok.
  split.
  { unfold dyco_coropool_obtain, cp_obtain.
    rewrite (exec_atomic_bind _ _ w tt w) by (by destruct (Z.eqb_spec func 0)).
    unfold cp_wait. rewrite exec_bind, (exec_atomic_bind _ _ _ _ _ (getcp_run cp p w Hp)).
    unfold available. destruct (Z.ltb_spec 0 (cp_totalsize p - cp_activenum p)); [|lia]. cbn [orb exec].
    destruct (Z.leb_spec (cp_totalsize p - cp_activenum p) 0); [lia|].
    rewrite exec_atomic, Hrun. reflexivity. }
  split_and!; try done.
  - apply (sched_ok_sched (set_w_kern _ _)).
    assert (Hok1 : sched_ok (set_w_kern (os_alloc_ok (w_kern w)).2
      (with_co co c' (with_pool cp (taken p) w))) s q).
    { apply (sched_ok_kern (with_co co c' (with_pool cp (taken p) w)));
        [|intros fd; simpl; by rewrite alloc_registered].
      apply (sched_ok_idle _ s q co c); try done. destruct Hok as [[] ]. by split. }
    unfold adopt_pooled. simpl. set (s1 := set_s_queues _ _).
    assert (Hok2 : sched_ok (set_w_kern (os_alloc_ok (w_kern w)).2
      (with_co co c' (with_pool cp (taken p) w))) s1 (q.1, q.2 ++ [co])).
    { eapply sched_ok_irrel; [eapply (sched_ok_enlist _ _ q h (fresh_cid s) co c' ready Hok1)|..]; try done.
      apply lookup_insert_eq. }
    case_decide; [|done]. by eapply sched_ok_irrel.
  - apply lookup_insert_eq.
  - simpl. rewrite Hl. simpl. lia.
  - unfold adopt_pooled, cids. simpl. by case_decide.
  - unfold adopt_pooled. simpl. by case_decide.
Qed.

(** ** Returning a coroutine *)

Definition returned co p : coroutinepool :=
  set_cp_activenum (cp_activenum p - 1) (set_cp_freelist (co :: cp_freelist p) p).

Lemma returned_taken co p : cp_freelist p = co :: tail (cp_freelist p) -> returned co (taken p) = p.
Proof.
  intros Hf. destruct p as [tt0 ac ss sl fl]. unfold returned, taken; simpl in *.
  rewrite <- Hf. unfold set_cp_activenum. simpl. f_equal. lia.
Qed.

Lemma cp_notify_head_run w cp p :
  w_pools w !! cp = Some p ->
  (forall fd l, cp_sublist p = fd :: l -> os_counter (w_kern w) fd = Some 0) ->
  exists k, cp_notify_head cp w =
      Ok (tt, with_pool cp (set_cp_sublist (tail (cp_sublist p)) p) (set_w_kern k w)) /\
    (forall fd, os_counter k fd = if decide (head (cp_sublist p) = Some fd) then Some 1
                                  else os_counter (w_kern w) fd).
Proof.
  intros Hp Hop. unfold cp_notify_head. mrun with getcp_run.
  destruct (cp_sublist p) as [|fd l] eqn:Hl.
  - exists (w_kern w). split; [|done]. unfold ret, with_pool. simpl. rewrite insert_id; [by destruct w|].
    rewrite Hp. destruct p. simpl in *. by rewrite Hl.
  - destruct (eventfd_write_open (w_kern w) fd 1 0) as (k & Hk & Hk1 & Hk2); [by eapply Hop|lia|lia|].
    exists k. split.
    + unfold cp_notify. erewrite bind_ok; [|mrun; reflexivity]. cbv beta. by erewrite upd_cp_run by done.
    + intros fd'. simpl. destruct (decide (Some fd = Some fd')) as [[= <-]|Hne]; [done|].
      apply Hk2. congruence.
Qed.

(** C31. Returning a coroutine that owns neither an epoll set nor a signal
    descriptor to its pool: it is again the first free one, its identifier is
    released, the counts of the pool and of the scheduler fall by one, and if
    coroutines wait for a free one, exactly the one that has waited longest,
    whose eventfd must be open and unwritten, is taken off the list and
    notified.  If the pool is as obtaining the coroutine from [p0] has left it
    ([taken p0], by [pool_obtain]), it is [p0] again but for that waiter. *)
Theorem pool_return w s cp p co c :
  w_sched w = Some s -> w_pools w !! cp = Some p -> pool_ok p -> cp <> NULL -> co <> NULL ->
  w_coros w !! co = Some c -> co_cpool c = cp -> co_sched c <> NULL ->
  co_cid c <> 0 -> co_cid c <> -1 -> htable_wf (s_cid_co_map s) ->
  io_flag c = false -> signal_flag c = false ->
  (forall fd l, cp_sublist p = fd :: l -> os_counter (w_kern w) fd = Some 0) ->
  exists w' s', dyco_coropool_return co w = Ok (tt, w') /\ w_sched w' = Some s' /\
    w_pools w' !! cp = Some (set_cp_sublist (tail (cp_sublist p)) (returned co p)) /\
    pool_ok (returned co p) /\
    cids s' = delete (co_cid c) (cids s) /\ s_coro_count s' = u32 (s_coro_count s - 1) /\
    (forall fd, os_counter (w_kern w') fd =
       if decide (head (cp_sublist p) = Some fd) then Some 1 else os_counter (w_kern w) fd) /\
    (forall p0, cp_freelist p0 = co :: tail (cp_freelist p0) -> p = taken p0 ->
       w_pools w' !! cp = Some (set_cp_sublist (tail (cp_sublist p0)) p0)).
Proof.
  intros Hs Hp Hpok Hcp Hco Hc Hpool Hsc H0 H1 Hwf Hio Hsg Hop. set (s1 := set_s_coro_count (u32 (s_coro_count s + -1)) s).
  destruct (cid_map_delete_run (co_cid c) s1 (set_w_sched (Some s1) w) eq_refl Hwf H0 H1) as (r & h & Hd & Hwh & Hah).
  set (w2 := set_w_sched (Some (set_s_cid_co_map h s1)) (set_w_sched (Some s1) w)) in *.
  set (w3 := set_w_coros (<[co := set_co_status (CLRBIT (co_status c) COROUTINE_FLAGS_URGENT) c]> (w_coros w)) w2).
  destruct (cp_notify_head_run (with_pool cp (returned co p) w3) cp (returned co p)) as (k & Hnh & Hk);
    [apply lookup_insert_eq|done|].
  exists (with_pool cp (set_cp_sublist (tail (cp_sublist (returned co p))) (returned co p))
            (set_w_kern k (with_pool cp (returned co p) w3))), (set_s_cid_co_map h s1). split.
  { unfold dyco_coropool_return, cp_return. destruct (Z.eqb_spec co NULL); [done|]. mrun.
    rewrite Hpool. destruct (Z.eqb_spec cp NULL); [done|]. mrun. unfold incr_coro_count. mrun.
    fold s1. rewrite (bind_ok _ _ _ _ _ Hd). cbv beta.
    rewrite (bind_ok _ _ _ _ _ (release_io_none w2 co c Hc Hio Hsg)). mrun.
    erewrite bind_ok by (by apply upd_cp_run). exact Hnh. }
  split_and!; try done.
  - apply lookup_insert_eq.
  - unfold pool_ok in *. simpl. lia.
  - intros p0 Hf0 ->. rewrite returned_taken by done. apply lookup_insert_eq.
Qed.

(** Destroying a pool of asymmetric coroutines of which one was never obtained
    is a crash: such a coroutine belongs to no scheduler, and [cp_destroy],
    which frees each kind of coroutine with the function for the other kind,
    reaches for its scheduler. *)
Theorem asym_pool_destroy_crashes w cp p co l c :
  cp <> NULL -> w_pools w !! cp = Some p -> cp_activenum p = 0 -> 0 < cp_totalsize p ->
  cp_freelist p = co :: l -> co <> NULL -> w_coros w !! co = Some c -> co_sched c = NULL ->
  dyco_asymcpool_destroy cp w = Err FSegv.
Proof.
  intros Hcp Hp Ha Ht Hl Hco Hc Hsc. unfold dyco_asymcpool_destroy, cp_destroy.
  destruct (Z.eqb_spec cp NULL); [done|]. mrun with getcp_run. rewrite Ha. cbn [negb Z.eqb].
  destruct (Z.to_nat (cp_totalsize p)) as [|n'] eqn:Hn; [lia|]. cbn [cp_drop_n].
  unfold bind at 1, bind at 1. unfold cp_drop. mrun with getcp_run. rewrite Hl.
  erewrite bind_ok by (by apply upd_cp_run). unfold freecoro. destruct (Z.eqb_spec co NULL); [done|].
  unfold bind at 1, co_sched_of. mrun. by rewrite Hsc.
Qed.

End coropool_proofs.

(** ** Witnesses

    Pool 200 holds coroutine 80, free in the first state and obtained under
    identifier 9 in the second, where the coroutine listening at descriptor 8
    waits for one. *)
Definition ex_pooled (status : Z) : dyco_coroutine := set_co_cpool 200 (ex_exited status).
Definition ex_pool_sched : @dyco_schedule (gmap Z addr) :=
  set_s_queues (link_alloc (s_queues ex_full_sched) 80) ex_full_sched.
Definition ex_with_pool (status : Z) (p : coroutinepool) : @world sim (gmap Z addr) :=
  set_w_pools {[200 := p]} (set_w_kern (mk_sim 1000000000 10 {[7 := 1; 8 := 0]} {[(3, 7)]} : @kernel sim)
    (set_w_sched (Some ex_pool_sched) (set_w_coros (<[80 := ex_pooled status]> ex_full_coros) ex_full))).
Definition ex_pool_free : coroutinepool := mk_cp 1 0 4096 [] [80].
Definition ex_pool_busy : coroutinepool := mk_cp 1 1 4096 [8] [].

Lemma ex_with_pool_ok status p :
  TESTBIT status COROUTINE_STATUS_SLEEPING = false ->
  sched_ok (ex_with_pool status p) ex_pool_sched ([], [16]).
Proof.
  intros Hsl. assert (Hok : sched_ok (with_co 80 (ex_pooled status) ex_full) ex_pool_sched ([], [16])).
  { by apply (sched_ok_alloc ex_full ex_full_sched); [apply ex_full_ok|..]. }
  destruct Hok as [[] ]. by split.
Qed.

Lemma pool_obtain_witness :
  exists w' s' c', exec (dyco_coropool_obtain 200 1 2 0) (ex_with_pool 0 ex_pool_free)
      = (SDone (fresh_cid ex_pool_sched), w') /\
    w_sched w' = Some s' /\ sched_ok w' s' ([], [16; 80]) /\
    w_pools w' !! 200 = Some (taken ex_pool_free) /\ pool_ok (taken ex_pool_free) /\
    cids s' = <[fresh_cid ex_pool_sched := 80]> (cids ex_pool_sched) /\
    s_coro_count s' = u32 (s_coro_count ex_pool_sched + 1) /\
    w_coros w' = <[80 := c']> (w_coros (ex_with_pool 0 ex_pool_free)) /\ co_func c' = 1 /\ co_arg c' = 2 /\
    co_cpool c' = 200 /\ ownstack c' = ownstack (ex_pooled 0) /\ co_stack c' = co_stack (ex_pooled 0) /\
    TESTBIT (co_status c') COROUTINE_STATUS_NEW = true /\
    TESTBIT (co_status c') COROUTINE_STATUS_EXITED = false.
Proof.
  refine (pool_obtain _ _ _ 200 ex_pool_free 80 [] (ex_pooled 0) 1 2 0
    (ex_with_pool_ok 0 ex_pool_free eq_refl) eq_refl _ _ _ _ _ _ _ _ _ _ _ _); try done.
  by intros ?%list_elem_of_singleton.
Defined.

Lemma pool_return_witness :
  exists w' s', dyco_coropool_return 80 (ex_with_pool 0 ex_pool_busy) = Ok (tt, w') /\
    w_sched w' = Some s' /\
    w_pools w' !! 200 = Some (set_cp_sublist [] (returned 80 ex_pool_busy)) /\
    pool_ok (returned 80 ex_pool_busy) /\
    cids s' = delete 9 (cids ex_pool_sched) /\ s_coro_count s' = u32 (s_coro_count ex_pool_sched - 1) /\
    (forall fd, os_counter (w_kern w') fd = if decide (Some 8 = Some fd) then Some 1
       else os_counter (w_kern (ex_with_pool 0 ex_pool_busy)) fd) /\
    (forall p0, cp_freelist p0 = 80 :: tail (cp_freelist p0) -> ex_pool_busy = taken p0 ->
       w_pools w' !! 200 = Some (set_cp_sublist (tail (cp_sublist p0)) p0)).
Proof.
  refine (pool_return (ex_with_pool 0 ex_pool_busy) ex_pool_sched 200 ex_pool_busy 80 (ex_pooled 0)
    eq_refl _ _ _ _ _ _ _ _ _ _ _ _ _);
    try done.
  - apply (ok_cids_wf _ _ _ (ex_with_pool_ok 0 ex_pool_busy eq_refl)).
  - by intros fd l [= <- <-].
Defined.

Lemma asym_pool_destroy_crashes_witness :
  dyco_asymcpool_destroy 200 (set_w_coros {[80 := set_co_sched NULL (ex_pooled (BIT COROUTINE_FLAGS_ASYMMETRIC))]}
    (ex_with_pool 0 ex_pool_free)) = Err FSegv.
Proof.
  by refine (asym_pool_destroy_crashes _ 200 ex_pool_free 80 []
    (set_co_sched NULL (ex_pooled (BIT COROUTINE_FLAGS_ASYMMETRIC))) _ _ _ _ _ _ _ _).
Defined.
