(* ===== verification/Schedcall.v ===== *)
(** * Calls to the scheduler

    [src/dyco_schedcall.c], by which a coroutine asks the scheduler's context
    to change the signal mask, to stop or to abort, and the abort itself
    ([coro_abort], [schedule_abort] of [src/dyco_schedule.c]). *)
From S2P Require Import Prelude Htable Queue SleepTree World Schedule Prog Coroutine Asymcoro Coropool.

Local Open Scope Z_scope.
Local Open Scope dyco_scope.

Definition SIG_BLOCK : Z := 0.

Section schedcall.
Context {os : OS} {T : Type} {st : SleepTree T}.
Local Abbreviation world := (@world os T).
Local Abbreviation dyco_schedule := (@dyco_schedule T).

Definition coro_abort (co : addr) : M world unit :=
  let* c := getco co in
  if TESTBIT (co_status c) COROUTINE_FLAGS_INCOROPOOL then
    if TESTBIT (co_status c) COROUTINE_FLAGS_ASYMMETRIC
    then dyco_asymcpool_return (co_cid c) else dyco_coropool_return co
  else
    if TESTBIT (co_status c) COROUTINE_FLAGS_ASYMMETRIC
    then dyco_asymcoro_free (co_cid c) else freecoro co.

(** The identifier table inside the state, for the table operations that call
    back. *)
Definition empty_table : @dyco_htable addr := mk_htable 0 0 0 TNull.
Definition get_cid_table (w : world) : @dyco_htable addr :=
  match w_sched w with Some s => s_cid_co_map s | None => empty_table end.
Definition set_cid_table (h : @dyco_htable addr) (w : world) : world :=
  match w_sched w with
  | Some s => set_w_sched (Some (set_s_cid_co_map h s)) w
  | None => w
  end.

Definition schedule_abort : M world unit :=
  htable_clear_with_freecb get_cid_table set_cid_table coro_abort ;;;
  upd_sched (set_s_curr_thread NULL) ;;;
  upd_sched (set_s_status SCHEDULE_STATUS_ABORTED).

Definition set_call (num : dyco_schedcall_num) (arg : Z * Z) (s : dyco_schedule) : dyco_schedule :=
  set_s_schedcall (mk_schedcall num (call_ret (s_schedcall s)) arg (call_oset (s_schedcall s))) s.
Definition set_call_ret (r : Z) (s : dyco_schedule) : dyco_schedule :=
  let c := s_schedcall s in
  set_s_schedcall (mk_schedcall (call_num c) r (call_arg c) (call_oset c)) s.

(** Whether the caller is to be resumed. *)
Definition schedule_callexec : M world bool :=
  let* s := the_sched in
  let call := s_schedcall s in
  match call_num call with
  | CALLNUM_SIGPROCMASK =>
      let* (r, oset) := sys (os_sigprocmask (call_arg call).1 (call_arg call).2) in
      upd_sched (set_s_schedcall (mk_schedcall (call_num call) r (call_arg call) oset)) ;;;
      ret true
  | CALLNUM_SCHED_STOP => schedule_stop ;;; upd_sched (set_call_ret 0) ;;; ret false
  | CALLNUM_SCHED_ABORT => schedule_abort ;;; upd_sched (set_call_ret 0) ;;; ret false
  end.

(** The result and the mask stored through [oset]. *)
Definition dyco_schedcall_sigprocmask (how set : Z) : prog world (Z * option Z) :=
  let! oco := atomic opt_curr in
  match oco with
  | None => PRet (-1, None)
  | Some co =>
      let! (r, _) := atomic (sys (os_sigprocmask SIG_BLOCK set)) in
      do! atomic (DYCO_MUST (r =? 0));
      do! atomic (upd_sched (set_call CALLNUM_SIGPROCMASK (how, set)));
      do! atomic (clr_flag co COROUTINE_STATUS_RUNNING);
      do! atomic (set_flag co COROUTINE_STATUS_SCHEDCALL);
      do! pswitch (SwapSched co);
      do! atomic (clr_flag co COROUTINE_STATUS_SCHEDCALL);
      do! atomic (set_flag co COROUTINE_STATUS_RUNNING);
      let! s := atomic the_sched in
      PRet (call_ret (s_schedcall s), Some (call_oset (s_schedcall s)))
  end.

Definition dyco_schedcall_stop : prog world unit :=
  let! oco := atomic opt_curr in
  match oco with
  | None => PRet tt
  | Some co =>
      do! atomic (upd_sched (fun s => set_call CALLNUM_SCHED_STOP (call_arg (s_schedcall s)) s));
      do! atomic (clr_flag co COROUTINE_STATUS_RUNNING);
      do! atomic (set_flag co COROUTINE_STATUS_SCHEDCALL);
      do! atomic (make_ready co);
      do! atomic (savestk co);
      do! pswitch (SwapSched co);
      do! atomic (set_flag co COROUTINE_STATUS_RUNNING);
      atomic (clr_flag co COROUTINE_STATUS_SCHEDCALL)
  end.

Definition dyco_schedcall_abort : prog world unit :=
  let! oco := atomic opt_curr in
  match oco with
  | None => PRet tt
  | Some co =>
      do! atomic (upd_sched (fun s => set_call CALLNUM_SCHED_ABORT (call_arg (s_schedcall s)) s));
      do! atomic (clr_flag co COROUTINE_STATUS_RUNNING);
      do! atomic (set_flag co COROUTINE_STATUS_SCHEDCALL);
      do! pswitch (SwapSched co);
      do! atomic (clr_flag co COROUTINE_STATUS_SCHEDCALL);
      atomic (set_flag co COROUTINE_STATUS_RUNNING)
  end.

End schedcall.
