(* ===== verification/Signal.v ===== *)
(** * Signals within a coroutine

    [src/dyco_signal.c]: waiting for signals and for child processes with a
    signal descriptor.  A signal set is a word whose bit [n - 1] stands for
    signal [n].  Signal masks belong to contexts: [swapcontext] installs the
    mask of the context it switches to, so the code changes the mask of the
    coroutine itself and, through [dyco_schedcall_sigprocmask], the one of the
    scheduler. *)
From S2P Require Import Prelude Htable Queue SleepTree World SimOS Schedule SchedInv Prog Coroutine Rely NetOS Socket Epoll.
From S2P Require Import Asymcoro Coropool Schedcall.

Local Open Scope Z_scope.
Local Open Scope dyco_scope.

Definition SIGCHLD : Z := 17.
Definition sigemptyset : Z := 0.
Definition sigaddset (set sig : Z) : Z := SETBIT set (sig - 1).
Definition sigismember (set sig : Z) : bool := TESTBIT set (sig - 1).

Section signal.
Context {os : OS} {io : IO os} {T : Type} {st : SleepTree T}.
Local Abbreviation world := (@world os T).

(** The store through [&co->old_sigmask], when the call made it. *)
Definition store_old_mask (co : addr) (oset : option Z) : M world unit :=
  match oset with Some m => upd_co co (set_co_old_sigmask m) | None => ret tt end.

(** The result of [waitpid] and the status it stores. *)
Definition dyco_signal_waitchild (child timeout : Z) : prog world (Z * Z) :=
  let! (r, status) := atomic (sys (io_waitpid child)) in
  if (timeout =? 0) || (0 <? r) then PRet (r, status)
  else
    let! oco := atomic opt_curr in
    match oco with
    | None => PRet (-1, status)
    | Some co =>
        let! asym := atomic (test_co co COROUTINE_FLAGS_ASYMMETRIC) in
        do! atomic (DYCO_MUSTNOT asym);
        let sigmask := sigaddset sigemptyset SIGCHLD in
        let! (_, oset) := dyco_schedcall_sigprocmask SIG_BLOCK sigmask in
        do! atomic (store_old_mask co oset);
        let! sigfd := atomic (sys (io_signalfd sigmask)) in
        do! atomic (DYCO_MUSTNOT (sigfd =? -1));
        do! suspend co sigfd EVENTS_R timeout;
        let! _ := atomic (sys (os_close sigfd)) in
        atomic (sys (io_waitpid child))
    end.

Definition dyco_signal_init (mask : Z) : prog world Z :=
  let! oco := atomic opt_curr in
  match oco with
  | None => PRet (-1)
  | Some co =>
      let! b := atomic (test_co co COROUTINE_FLAGS_WAITSIGNAL) in
      if b : bool then PRet (-1)
      else
        let! (_, oset) := dyco_schedcall_sigprocmask SIG_BLOCK mask in
        do! atomic (store_old_mask co oset);
        let! sigfd := atomic (sys (io_signalfd mask)) in
        do! atomic (DYCO_MUSTNOT (sigfd =? -1));
        do! atomic (upd_co co (set_co_sigfd sigfd));
        do! atomic (set_flag co COROUTINE_FLAGS_WAITSIGNAL);
        PRet 0
  end.

Definition dyco_signal_destroy : prog world unit :=
  let! oco := atomic opt_curr in
  match oco with
  | None => PRet tt
  | Some co =>
      let! b := atomic (test_co co COROUTINE_FLAGS_WAITSIGNAL) in
      if negb b then PRet tt
      else
        do! atomic (clr_flag co COROUTINE_FLAGS_WAITSIGNAL);
        let! c := atomic (getco co) in
        let! _ := atomic (sys (os_close (co_sigfd c))) in
        let! _ := dyco_schedcall_sigprocmask SIG_SETMASK (co_old_sigmask c) in
        PRet tt
  end.

(** The result of [read], of type [int], and the signal read. *)
Definition dyco_signal_wait (timeout : Z) : prog world (Z * option Z) :=
  let! oco := atomic opt_curr in
  match oco with
  | None => PRet (-1, None)
  | Some co =>
      let! b := atomic (test_co co COROUTINE_FLAGS_WAITSIGNAL) in
      if negb b then PRet (-1, None)
      else
        let! c := atomic (getco co) in
        let! (r, sinfo) := atomic (sys (io_read_siginfo (co_sigfd c))) in
        if (timeout =? 0) || (0 <? i32 r) then PRet (i32 r, sinfo)
        else
          do! atomic (schedule_sched_waitR co (co_sigfd c));
          do! atomic (schedule_sched_sleep co timeout);
          do! yield co;
          do! atomic (schedule_cancel_sleep co);
          let! c := atomic (getco co) in
          let! _ := atomic (schedule_cancel_wait co (co_sigfd c)) in
          let! c := atomic (getco co) in
          let! (r, sinfo) := atomic (sys (io_read_siginfo (co_sigfd c))) in
          PRet (i32 r, sinfo)
  end.

End signal.

(** * Properties *)

Section signal_proofs.
Context {os : OS} {io : IO os} {iol : IOLaws os} {T : Type} {st : SleepTree T}.
Local Abbreviation world := (@world os T).
Local Abbreviation dyco_schedule := (@dyco_schedule T).
Implicit Types (w : world) (s : dyco_schedule) (c : dyco_coroutine) (a : addr).

Definition mask_of w : Z := io_mask (w_kern w).

(** A coroutine that asks for a change of the mask: the state in which it
    switches to the scheduler. *)
Definition calling (a : addr) (how set : Z) c s (k : kernel) w : world :=
  set_w_coros (<[a := set_co_status (SETBIT (CLRBIT (co_status c) COROUTINE_STATUS_RUNNING)
      COROUTINE_STATUS_SCHEDCALL) c]> (w_coros w))
    (set_w_sched (Some (set_call CALLNUM_SIGPROCMASK (how, set) s)) (set_w_kern k w)).

(** The rest of the call once the scheduler has executed it. *)
Definition after_call (a : addr) : prog world (Z * option Z) :=
  (do! atomic (clr_flag a COROUTINE_STATUS_SCHEDCALL);
   do! atomic (set_flag a COROUTINE_STATUS_RUNNING);
   let! s := atomic the_sched in
   PRet (call_ret (s_schedcall s), Some (call_oset (s_schedcall s))))%dyco.

Lemma schedcall_sigprocmask_calls w s a c how set :
  w_sched w = Some s -> s_curr_thread s = a -> a <> NULL -> w_coros w !! a = Some c ->
  exists k, exec (dyco_schedcall_sigprocmask how set) w =
    (SSwitch (SwapSched a) (after_call a), calling a how set c s k w) /\
    io_mask k = Z.lor (mask_of w) set.
Proof.
  intros Hs Hcur Ha Hc. destruct (sigprocmask_sets SIG_BLOCK set (w_kern w)) as (k & Hk & Hm).
  { unfold SIG_BLOCK. lia. }
  exists k. split; [|exact Hm]. unfold dyco_schedcall_sigprocmask.
  rewrite (exec_atomic_bind _ _ _ _ _ (opt_curr_of w s a Hs Hcur Ha)).
  rewrite (exec_atomic_bind _ _ w (0, io_mask (w_kern w)) (set_w_kern k w)) by (by apply sys_run).
  rewrite (exec_atomic_bind (DYCO_MUST true) _ _ tt (set_w_kern k w)) by done.
  erewrite exec_atomic_bind by (by apply upd_sched_run).
  erewrite exec_atomic_bind by (by apply clr_flag_run).
  erewrite exec_atomic_bind by (apply set_flag_run, lookup_insert_eq).
  unfold calling. simpl. by rewrite insert_insert_eq.
Qed.

(** The scheduler executes the call on its own mask. *)
Lemma callexec_sigprocmask w s how set :
  w_sched w = Some s -> call_num (s_schedcall s) = CALLNUM_SIGPROCMASK ->
  call_arg (s_schedcall s) = (how, set) -> 0 <= how <= 2 ->
  exists k, io_mask k = new_mask how (mask_of w) set /\
    schedule_callexec w = Ok (true, set_w_sched (Some (set_s_schedcall
      (mk_schedcall CALLNUM_SIGPROCMASK 0 (how, set) (mask_of w)) s)) (set_w_kern k w)).
Proof.
  intros Hs Hn Harg Hhow. destruct (sigprocmask_sets how set (w_kern w) Hhow) as (k & Hk & Hm).
  exists k. split; [exact Hm|]. unfold schedule_callexec. mrun. rewrite Hn, Harg. simpl.
  rewrite (bind_ok _ _ _ _ _ (sys_run _ w _ _ Hk)). by mrun.
Qed.

(** The coroutine after the call. *)
Definition called c : dyco_coroutine :=
  set_co_status (SETBIT (CLRBIT (co_status c) COROUTINE_STATUS_SCHEDCALL) COROUTINE_STATUS_RUNNING) c.

Lemma after_call_run w s a c :
  w_sched w = Some s -> w_coros w !! a = Some c ->
  exec (after_call a) w = (SDone (call_ret (s_schedcall s), Some (call_oset (s_schedcall s))),
    with_co a (called c) w).
Proof.
  intros Hs Hc. unfold after_call.
  erewrite exec_atomic_bind by (by apply clr_flag_run).
  erewrite exec_atomic_bind by (apply set_flag_run, lookup_insert_eq).
  erewrite exec_atomic_bind by (apply the_sched_run; exact Hs).
  unfold with_co, called. simpl. by rewrite insert_insert_eq.
Qed.

Definition waits_signals c : bool := TESTBIT (co_status c) COROUTINE_FLAGS_WAITSIGNAL.

(** One whole call: up to the switch the coroutine blocks [set] in its own
    mask; the scheduler, resumed with the kernel state [kk], changes its mask;
    resumed with [kk2], the coroutine goes on with the scheduler's old mask. *)
Lemma sigprocmask_call w s a c how set :
  w_sched w = Some s -> s_curr_thread s = a -> a <> NULL -> w_coros w !! a = Some c -> 0 <= how <= 2 ->
  exists w1, exec (dyco_schedcall_sigprocmask how set) w = (SSwitch (SwapSched a) (after_call a), w1) /\
    mask_of w1 = Z.lor (mask_of w) set /\
    forall kk, exists w2, schedule_callexec (set_w_kern kk w1) = Ok (true, w2) /\
      mask_of w2 = new_mask how (io_mask kk) set /\
      forall kk2, exists w3 s3 c3, exec (after_call a) (set_w_kern kk2 w2) = (SDone (0, Some (io_mask kk)), w3) /\
        w_kern w3 = kk2 /\ w_sched w3 = Some s3 /\ s_curr_thread s3 = a /\ w_coros w3 !! a = Some c3 /\
        waits_signals c3 = waits_signals c.
Proof.
  intros Hs Hcur Ha Hc Hhow.
  destruct (schedcall_sigprocmask_calls w s a c how set Hs Hcur Ha Hc) as (k & He & Hm).
  eexists. split; [exact He|]. split; [exact Hm|]. intros kk.
  destruct (callexec_sigprocmask (set_w_kern kk (calling a how set c s k w))
    (set_call CALLNUM_SIGPROCMASK (how, set) s) how set) as (k2 & Hm2 & Hx); try done.
  eexists. split; [exact Hx|]. split; [exact Hm2|]. intros kk2.
  eexists _, _, (called (set_co_status (SETBIT (CLRBIT (co_status c) COROUTINE_STATUS_RUNNING)
    COROUTINE_STATUS_SCHEDCALL) c)).
  split; [erewrite after_call_run by (reflexivity || apply lookup_insert_eq); reflexivity|].
  split_and!; [done|reflexivity|done|apply lookup_insert_eq|].
  unfold waits_signals, called. simpl. by rewrite !TESTBIT_SETBIT, TESTBIT_CLRBIT, TESTBIT_SETBIT, TESTBIT_CLRBIT.
Qed.

(** The rest of [dyco_signal_init] after the call. *)
Definition init_rest (a : addr) (mask : Z) (oset : option Z) : prog world Z :=
  (do! atomic (store_old_mask a oset);
   let! sigfd := atomic (sys (io_signalfd mask)) in
   do! atomic (DYCO_MUSTNOT (sigfd =? -1));
   do! atomic (upd_co a (set_co_sigfd sigfd));
   do! atomic (set_flag a COROUTINE_FLAGS_WAITSIGNAL);
   PRet 0)%dyco.

Lemma init_rest_run w a c mask old :
  w_coros w !! a = Some c -> (io_signalfd mask (w_kern w)).1 <> -1 ->
  exists w' c', exec (init_rest a mask (Some old)) w = (SDone 0, w') /\ w_sched w' = w_sched w /\
    w_coros w' !! a = Some c' /\ waits_signals c' = true /\ co_old_sigmask c' = old /\ mask_of w' = mask_of w.
Proof.
  intros Hc Hfd. unfold init_rest. cbn [store_old_mask]. pose proof (signalfd_mask mask (w_kern w)) as Hm.
  destruct (io_signalfd mask (w_kern w)) as [fd k] eqn:Hk. simpl in Hfd, Hm.
  erewrite exec_atomic_bind by (by apply upd_co_run).
  erewrite exec_atomic_bind by (apply sys_run; exact Hk).
  destruct (Z.eqb_spec fd (-1)); [done|]. erewrite exec_atomic_bind by reflexivity.
  erewrite exec_atomic_bind by (apply upd_co_run, lookup_insert_eq).
  erewrite exec_atomic_bind by (apply set_flag_run, lookup_insert_eq).
  eexists _, _. split; [reflexivity|]. split; [done|]. split; [apply lookup_insert_eq|].
  split; [|by split]. unfold waits_signals. simpl. by rewrite TESTBIT_SETBIT.
Qed.

(** [dyco_signal_destroy]: the mask saved in the coroutine becomes that of the
    scheduler. *)
Lemma signal_destroy_run w s a c :
  w_sched w = Some s -> s_curr_thread s = a -> a <> NULL -> w_coros w !! a = Some c ->
  waits_signals c = true ->
  exists k2 w4, exec dyco_signal_destroy w = (SSwitch (SwapSched a) k2, w4) /\
    mask_of w4 = Z.lor (mask_of w) (co_old_sigmask c) /\
    forall kk3, exists w5, schedule_callexec (set_w_kern kk3 w4) = Ok (true, w5) /\
      mask_of w5 = co_old_sigmask c /\
      forall kk4, exists w6 c6, exec k2 (set_w_kern kk4 w5) = (SDone tt, w6) /\
        mask_of w6 = io_mask kk4 /\ w_coros w6 !! a = Some c6 /\ waits_signals c6 = false.
Proof.
  intros Hs Hcur Ha Hc Hb. unfold dyco_signal_destroy.
  rewrite (exec_atomic_bind _ _ _ _ _ (opt_curr_of w s a Hs Hcur Ha)).
  rewrite (exec_atomic_bind _ _ _ _ _ (test_co_run a _ c w Hc)). unfold waits_signals in Hb. rewrite Hb.
  cbn [negb]. erewrite exec_atomic_bind by (by apply clr_flag_run).
  erewrite exec_atomic_bind by (apply getco_run, lookup_insert_eq). cbn [co_sigfd co_old_sigmask set_co_status].
  pose proof (close_mask (co_sigfd c) (w_kern w)) as Hcm.
  destruct (os_close (co_sigfd c) (w_kern w)) as [r5 k5] eqn:Hcl. simpl in Hcm.
  erewrite exec_atomic_bind by (apply sys_run; exact Hcl).
  set (c5 := set_co_status _ c). set (w5 := set_w_kern k5 _).
  destruct (sigprocmask_call w5 s a c5 SIG_SETMASK (co_old_sigmask c)) as (w6 & He6 & Hm6 & Hcall6); try done.
  { apply lookup_insert_eq. }
  rewrite exec_bind, He6. eexists _, w6. split; [reflexivity|]. split.
  { rewrite Hm6. f_equal. exact Hcm. }
  intros kk3. destruct (Hcall6 kk3) as (w7 & Hx7 & Hm7 & Hres7). exists w7. split; [done|]. split; [done|].
  intros kk4. destruct (Hres7 kk4) as (w8 & s8 & c8 & He8 & Hk8 & _ & _ & Hc8 & Hw8).
  exists w8, c8. rewrite exec_bind, He8. split_and!; try done.
  - unfold mask_of. by rewrite Hk8.
  - rewrite Hw8. unfold waits_signals, c5. simpl. by rewrite TESTBIT_CLRBIT.
Qed.

(** The coroutine [a] runs, waits for signals, and has saved the mask [m]. *)
Definition mask_saved (a : addr) (m : Z) w : Prop :=
  exists s c, w_sched w = Some s /\ s_curr_thread s = a /\ w_coros w !! a = Some c /\
    waits_signals c = true /\ co_old_sigmask c = m.

(** C36. Waiting for signals.  [dyco_signal_init] blocks the signals in the
    coroutine's mask and, by the call it has the scheduler make, in that of
    the scheduler, and saves the mask [io_mask kk] which the scheduler had.
    Whatever has run since, if the coroutine still holds the mask it saved,
    [dyco_signal_destroy] gives the scheduler exactly this mask, and the
    coroutine waits for signals no more.  The kernel states [kk] to [kk4] are
    those in which scheduler and coroutine are resumed: their masks are the
    ones of these contexts.  The coroutine's own mask is never reduced.  The
    mask of the scheduler is set, not reduced, at the end: signals that another
    coroutine has had blocked meanwhile are unblocked. *)
Theorem signal_mask_roundtrip w s a c mask :
  w_sched w = Some s -> s_curr_thread s = a -> a <> NULL -> w_coros w !! a = Some c ->
  waits_signals c = false ->
  exists k1 w1, exec (dyco_signal_init mask) w = (SSwitch (SwapSched a) k1, w1) /\
    mask_of w1 = Z.lor (mask_of w) mask /\
    forall kk, exists w2, schedule_callexec (set_w_kern kk w1) = Ok (true, w2) /\
      mask_of w2 = Z.lor (io_mask kk) mask /\
      forall kk2, (io_signalfd mask kk2).1 <> -1 ->
        exists w3, exec k1 (set_w_kern kk2 w2) = (SDone 0, w3) /\ mask_of w3 = io_mask kk2 /\
          mask_saved a (io_mask kk) w3 /\
          forall v3, mask_saved a (io_mask kk) v3 ->
            exists k2 w4, exec dyco_signal_destroy v3 = (SSwitch (SwapSched a) k2, w4) /\
              mask_of w4 = Z.lor (mask_of v3) (io_mask kk) /\
              forall kk3, exists w5, schedule_callexec (set_w_kern kk3 w4) = Ok (true, w5) /\
                mask_of w5 = io_mask kk /\
                forall kk4, exists w6 c6, exec k2 (set_w_kern kk4 w5) = (SDone tt, w6) /\
                  mask_of w6 = io_mask kk4 /\ w_coros w6 !! a = Some c6 /\ waits_signals c6 = false.
Proof.
  intros Hs Hcur Ha Hc Hb. unfold dyco_signal_init.
  rewrite (exec_atomic_bind _ _ _ _ _ (opt_curr_of w s a Hs Hcur Ha)).
  rewrite (exec_atomic_bind _ _ _ _ _ (test_co_run a _ c w Hc)). unfold waits_signals in Hb. rewrite Hb.
  destruct (sigprocmask_call w s a c SIG_BLOCK mask) as (w1 & He & Hm1 & Hcall); try done.
  rewrite exec_bind, He. eexists _, w1. split; [reflexivity|]. split; [done|]. intros kk.
  destruct (Hcall kk) as (w2 & Hx & Hm2 & Hres). exists w2. split; [done|]. split; [done|].
  intros kk2 Hfd. destruct (Hres kk2) as (w3 & s3 & c3 & He3 & Hk3 & Hs3 & Hcur3 & Hc3 & _).
  destruct (init_rest_run w3 a c3 mask (io_mask kk) Hc3) as (w4 & c4 & He4 & Hs4 & Hc4 & Hb4 & Hold4 & Hm4).
  { by rewrite Hk3. }
  exists w4. split.
  { rewrite exec_bind, He3. exact He4. }
  split; [rewrite Hm4; unfold mask_of; by rewrite Hk3|]. split.
  - exists s3, c4. by split_and!; [congruence|..].
  - intros v3 (sv & cv & Hsv & Hcurv & Hcv & Hbv & <-). by apply (signal_destroy_run v3 sv a cv).
Qed.

(** Atomic steps that leave the mask alone. *)
Definition mask_is (m : Z) w : Prop := mask_of w = m.

Lemma keeps_mask_sys {A} (g : kernel -> A * kernel) m :
  (forall k, io_mask (g k).2 = io_mask k) -> keeps (mask_is m) any_fault (sys g).
Proof.
  intros Hg w Hw. unfold sys, mask_is, mask_of in *. specialize (Hg (w_kern w)).
  destruct (g (w_kern w)) as [x k]. simpl in *. congruence.
Qed.

Lemma keeps_mask_upd_co m a f : keeps (mask_is m) any_fault (upd_co a f).
Proof.
  intros w Hw. pose proof (keeps_upd_co (fun k => io_mask k = m) no_cond any_fault (fun _ _ => Logic.I) a f w) as H.
  destruct (upd_co a f w) as [[u w']|]; [|done]. by apply H.
Qed.

Lemma after_call_pkeeps (R : world -> world -> Prop) m a : pkeeps R any_fault (mask_is m) (after_call a).
Proof.
  unfold after_call. pkeeps_with fail ltac:(keeps_with ltac:(first [apply keeps_mask_upd_co
    | apply keeps_bind; [apply keeps_gets|intros []] ])).
Qed.

(** [dyco_signal_waitchild] never takes back the mask it sets: once it had to
    wait, SIGCHLD is blocked in the coroutine when it returns, if the coroutine
    is resumed with the mask with which it gave way. *)
Theorem waitchild_leaves_sigchld_blocked w s a c child timeout (R : world -> world -> Prop) :
  w_sched w = Some s -> s_curr_thread s = a -> a <> NULL -> w_coros w !! a = Some c ->
  timeout <> 0 -> (io_waitpid child (w_kern w)).1.1 <= 0 ->
  (forall w1 w2, R w1 w2 -> mask_of w2 = mask_of w1) ->
  wp R any_fault (dyco_signal_waitchild child timeout)
    (fun _ w' => sigismember (mask_of w') SIGCHLD = true) w.
Proof.
  intros Hs Hcur Ha Hc Ht Hp HR. unfold dyco_signal_waitchild. apply wp_bind, wp_atomic.
  pose proof (waitpid_mask child (w_kern w)) as Hpm. unfold sys at 1.
  destruct (io_waitpid child (w_kern w)) as [[r status] k]. simpl in Hp, Hpm. cbv beta iota.
  destruct (Z.eqb_spec timeout 0); [done|]. destruct (Z.ltb_spec 0 r); [lia|]. cbn [orb].
  set (w0 := set_w_kern k w). apply wp_bind, wp_atomic. rewrite (opt_curr_of w0 s a Hs Hcur Ha).
  apply wp_bind, wp_atomic. rewrite (test_co_run a _ c w0 Hc). apply wp_bind, wp_atomic.
  destruct (TESTBIT _ _); [done|]. cbn [DYCO_MUSTNOT ret]. apply wp_bind.
  set (sigmask := sigaddset sigemptyset SIGCHLD). set (m := Z.lor (mask_of w0) sigmask).
  destruct (schedcall_sigprocmask_calls w0 s a c SIG_BLOCK sigmask Hs Hcur Ha Hc) as (k1 & He & Hm).
  apply wp_exec. rewrite He. intros w1 Hr1. eapply wp_mono; [|apply (after_call_pkeeps R m)].
  2: { unfold mask_is. by rewrite (HR _ _ Hr1). }
  intros [r2 oset] w2 Hw2.
  assert (HR' : forall w3 w4, R w3 w4 -> mask_is m w3 -> mask_is m w4).
  { intros w3 w4 H34 H3. unfold mask_is. by rewrite (HR _ _ H34). }
  apply (wp_mono _ _ _ (fun _ w' => mask_is m w')).
  { intros _ w' ->. unfold sigismember, m, sigmask, sigaddset, SETBIT, sigemptyset.
    rewrite TESTBIT_testbit by done. rewrite Z.lor_spec, Z.lor_0_l, BIT_testbit by done. apply orb_true_r. }
  revert w2 Hw2. change (pkeeps R any_fault (mask_is m)
    (do! atomic (store_old_mask a oset);
     let! sigfd := atomic (sys (io_signalfd sigmask)) in
     do! atomic (DYCO_MUSTNOT (sigfd =? -1));
     do! suspend a sigfd EVENTS_R timeout;
     let! _ := atomic (sys (os_close sigfd)) in
     atomic (sys (io_waitpid child)))).
  unfold store_old_mask. pkeeps_with ltac:(intros w2 Hw2; by apply (suspend_quiet (fun k => io_mask k = m)))
    ltac:(keeps_with ltac:(first [apply keeps_mask_upd_co | apply keeps_mask_sys; intros; first
      [apply signalfd_mask | apply close_mask | apply waitpid_mask] ])).
Qed.

End signal_proofs.

(** ** Concrete states *)

Lemma signal_mask_roundtrip_witness :
  exists k1 w1, exec (dyco_signal_init 4) (ex_sock 10) = (SSwitch (SwapSched 64) k1, w1) /\
    mask_of w1 = Z.lor (mask_of (ex_sock 10)) 4 /\
    forall kk, exists w2, schedule_callexec (set_w_kern kk w1) = Ok (true, w2) /\
      mask_of w2 = Z.lor (io_mask kk) 4 /\
      forall kk2, (io_signalfd 4 kk2).1 <> -1 ->
        exists w3, exec k1 (set_w_kern kk2 w2) = (SDone 0, w3) /\ mask_of w3 = io_mask kk2 /\
          mask_saved 64 (io_mask kk) w3 /\
          forall v3 : @world sim (gmap Z addr), mask_saved 64 (io_mask kk) v3 ->
            exists k2 w4, exec dyco_signal_destroy v3 = (SSwitch (SwapSched 64) k2, w4) /\
              mask_of w4 = Z.lor (mask_of v3) (io_mask kk) /\
              forall kk3, exists w5, schedule_callexec (set_w_kern kk3 w4) = Ok (true, w5) /\
                mask_of w5 = io_mask kk /\
                forall kk4, exists w6 c6, exec k2 (set_w_kern kk4 w5) = (SDone tt, w6) /\
                  mask_of w6 = io_mask kk4 /\ w_coros w6 !! 64 = Some c6 /\ waits_signals c6 = false.
Proof. by apply (signal_mask_roundtrip (ex_sock 10) ex_blk_sched 64 (ex_co 0 5) 4). Defined.

Lemma waitchild_leaves_sigchld_blocked_witness :
  mask_of (ex_sock 10) = 0 /\
  wp time_passes any_fault (dyco_signal_waitchild 33 500)
    (fun _ w' => sigismember (mask_of w') SIGCHLD = true) (ex_sock 10).
Proof.
  split; [by vm_compute|].
  apply (waitchild_leaves_sigchld_blocked (ex_sock 10) ex_blk_sched 64 (ex_co 0 5)); try done.
  by intros w1 w2 [c ->].
Defined.
