(* ===== verification/Run.v ===== *)
(** * The scheduler's main loop

    [resume] of [src/dyco_coroutine.c] and [dyco_schedule_run] of
    [src/dyco_schedule.c], on a machine that adds the saved contexts of the
    coroutines to the state.  The code of a coroutine, reached through its
    function pointer, is the parameter [funcs]. *)
From S2P Require Import Prelude Htable Queue SleepTree World SimOS Schedule SchedInv Prog Coroutine.
From S2P Require Import Asymcoro Coropool Schedcall.

Local Open Scope Z_scope.
Local Open Scope dyco_scope.

Section run.
Context {os : OS} {T : Type} {st : SleepTree T}.
Local Abbreviation world := (@world os T).
Context (funcs : Z -> Z -> prog world unit).

(** [m_ctx] holds the contexts [co->ctx], [m_ret] the contexts [co->ret]. *)
Record machine := mk_machine {
  m_world : world;
  m_ctx : gmap Z (prog world unit);
  m_ret : gmap Z (prog world unit)
}.

Definition in_world {A} (m : M world A) : M machine A :=
  fun c => match m (m_world c) with
           | Ok (a, w) => Ok (a, mk_machine w (m_ctx c) (m_ret c))
           | Err e => Err e
           end.

Definition save_ctx (co : addr) (k : prog world unit) (c : machine) : machine :=
  mk_machine (m_world c) (<[co := k]> (m_ctx c)) (m_ret c).
Definition save_ret (co : addr) (k : prog world unit) (c : machine) : machine :=
  mk_machine (m_world c) (m_ctx c) (<[co := k]> (m_ret c)).

(** ** Start functions of contexts *)

Definition execute (co : addr) : prog world unit :=
  do! atomic (set_flag co COROUTINE_STATUS_RUNNING);
  let! c := atomic (getco co) in
  do! funcs (co_func c) (co_arg c);
  do! atomic (set_flag co COROUTINE_STATUS_EXITED);
  yield co.

Definition execute_asym (co : addr) : prog world unit :=
  do! atomic (set_flag co COROUTINE_STATUS_RUNNING);
  let! c := atomic (getco co) in
  do! funcs (co_func c) (co_arg c);
  do! atomic (set_flag co COROUTINE_STATUS_EXITED);
  dyco_asymcoroyield.

Definition init_coro (co : addr) : M machine unit :=
  modify (save_ctx co (execute co)) ;;;
  in_world (clr_flag co COROUTINE_STATUS_NEW).

(** ** Context switches

    [run_until_sched] runs a context until some coroutine switches to the
    scheduler's context; [fuel] bounds the number of switches between
    coroutines on the way.  A start function that returns ends the thread,
    since no successor context is set. *)
Fixpoint run_until_sched (fuel : nat) (p : prog world unit) : M machine unit :=
  fun c =>
    match fuel with
    | O => Err FFuel
    | S fuel' =>
        let '(stp, w) := exec p (m_world c) in
        let c := mk_machine w (m_ctx c) (m_ret c) in
        match stp with
        | SDone _ => Err FExit
        | SFault e => Err e
        | SSwitch (SwapSched co) k => Ok (tt, save_ctx co k c)
        | SSwitch (SwapTo co) k =>
            match m_ctx c !! co with
            | Some p' => run_until_sched fuel' p' (save_ret co k c)
            | None => Err FSegv
            end
        | SSwitch (SwapRet co) k =>
            match m_ret c !! co with
            | Some p' => run_until_sched fuel' p' (save_ctx co k c)
            | None => Err FSegv
            end
        | SSwitch (MakeCtx co) k => run_until_sched fuel' k (save_ctx co (execute_asym co) c)
        end
    end.

Definition swap_to (fuel : nat) (co : addr) : M machine unit :=
  let* c := get_st in
  match m_ctx c !! co with
  | Some p => run_until_sched fuel p
  | None => throw FSegv
  end.

(** The schedcall loop of [resume]: whether the coroutine came back. *)
Fixpoint schedcall_loop (fuel : nat) (co : addr) : M machine bool :=
  match fuel with
  | O => throw FFuel
  | S fuel' =>
      let* b := in_world (test_co co COROUTINE_STATUS_SCHEDCALL) in
      if b : bool then
        let* again := in_world schedule_callexec in
        if again : bool then swap_to fuel' co ;;; schedcall_loop fuel' co else ret false
      else ret true
  end.

Definition resume (fuel : nat) (co : addr) : M machine Z :=
  let* new := in_world (test_co co COROUTINE_STATUS_NEW) in
  (if new : bool then init_coro co else in_world (loadstk co)) ;;;
  in_world (
    let* _ := co_sched_of co in
    upd_co co (fun c => set_co_sched_count (u32 (co_sched_count c + 1)) c) ;;;
    upd_sched (set_s_curr_thread co)) ;;;
  swap_to fuel co ;;;
  let* back := schedcall_loop fuel co in
  if negb back then ret 1
  else
    in_world (
      upd_sched (set_s_curr_thread NULL) ;;;
      let* c := getco co in
      if TESTBIT (co_status c) COROUTINE_STATUS_KILLED then
        schedule_cancel_sleep co ;;;
        let* _ := htable_delete_with_freecb NULL get_cid_table set_cid_table
                    (fun a => a =? NULL) coro_abort (co_cid c) in
        ret (-1)
      else if TESTBIT (co_status c) COROUTINE_STATUS_EXITED then
        schedule_cancel_sleep co ;;;
        (if TESTBIT (co_status c) COROUTINE_FLAGS_INCOROPOOL
         then dyco_coropool_return co else freecoro co) ;;;
        ret (-1)
      else ret 0).

(** ** The phases of one turn of the main loop *)

(** A. Every expired sleeper becomes ready. *)
Fixpoint expire_loop (fuel : nat) : M world unit :=
  match fuel with
  | O => throw FFuel
  | S fuel' =>
      let* expired := schedule_get_expired in
      if expired =? NULL then ret tt
      else make_ready expired ;;; expire_loop fuel'
  end.

Definition probe_timers : M world unit :=
  let* s := the_sched in expire_loop (S (size (st_view (s_sleeping s)))).

(** B, C. At most [n] coroutines of a queue run, and none that was queued
    after the phase started; [Some r] is a return from the main loop. *)
Fixpoint run_queue (fuel n : nat) (h : tqh) (last_co_ready : addr) : M machine (option Z) :=
  match n with
  | O => ret None
  | S n' =>
      let* s := in_world the_sched in
      if TAILQ_EMPTY (s_queues s) h then ret None
      else
        let co := TAILQ_FIRST (s_queues s) h in
        in_world (upd_sched (fun s => set_s_queues (TAILQ_REMOVE (s_queues s) h co) s)) ;;;
        in_world (clr_flag co COROUTINE_STATUS_READY) ;;;
        let* _ := resume fuel co in
        let* s := in_world the_sched in
        match s_status s with
        | SCHEDULE_STATUS_STOPPED => ret (Some 1)
        | SCHEDULE_STATUS_ABORTED => ret (Some (-1))
        | _ =>
            if co =? last_co_ready then ret None
            else run_queue fuel n' h last_co_ready
        end
  end.

Definition process_queue (fuel : nat) (h : tqh) (maxexec : Z) : M machine (option Z) :=
  let* s := in_world the_sched in
  run_queue fuel (Z.to_nat maxexec) h (TAILQ_LAST (s_queues s) h).

(** D. The coroutines waiting for the reported descriptors become ready. *)
Fixpoint dispatch_events (fds : list Z) : M world unit :=
  match fds with
  | [] => ret tt
  | fd :: fds' =>
      let* co := schedule_get_waitco fd in
      (if co =? NULL then ret tt
       else make_ready co ;;; let* _ := schedule_cancel_wait co fd in ret tt) ;;;
      dispatch_events fds'
  end.

Definition probe_events (fuel : nat) : M world unit :=
  let* (nready, fds) := schedule_epoll_wait fuel in
  if nready =? 0 then ret tt else dispatch_events (take (Z.to_nat nready) fds).

(** One turn: [Some r] when the main loop returns from within it. *)
Definition sched_turn (fuel : nat) : M machine (option Z) :=
  in_world probe_timers ;;;
  let* r := process_queue fuel urgent_ready DYCO_URGENT_MAXEXEC in
  match r with
  | Some v => ret (Some v)
  | None =>
      let* r := process_queue fuel ready DYCO_URGENT_MAXWAIT in
      match r with
      | Some v => ret (Some v)
      | None => in_world (probe_events fuel) ;;; ret None
      end
  end.

Fixpoint main_loop (fuel : nat) : M machine Z :=
  match fuel with
  | O => throw FFuel
  | S fuel' =>
      let* s := in_world the_sched in
      if SCHEDULE_ISDONE s then
        in_world (upd_sched (set_s_status SCHEDULE_STATUS_DONE)) ;;; ret 0
      else
        let* r := sched_turn fuel' in
        match r with Some v => ret v | None => main_loop fuel' end
  end.

Definition dyco_schedule_run (fuel : nat) : M machine Z :=
  let* os := in_world get_sched in
  match os with
  | None => ret (-2)
  | Some s =>
      match s_status s with
      | SCHEDULE_STATUS_RUNNING => throw FExit
      | SCHEDULE_STATUS_ABORTED => ret (-2)
      | SCHEDULE_STATUS_DONE => ret 0
      | _ =>
          in_world (upd_sched (set_s_status SCHEDULE_STATUS_RUNNING)) ;;;
          main_loop fuel
      end
  end.

End run.

(** * Properties *)

Section run_proofs.
Context {os : OS} {osl : OSLaws os} {T : Type} {st : SleepTree T} {stl : SleepTreeLaws T}.
Local Abbreviation world := (@world os T).
Local Abbreviation dyco_schedule := (@dyco_schedule T).
Implicit Types (w : world) (s : dyco_schedule) (c : dyco_coroutine) (a : addr)
  (q : list Z * list Z).

(** ** Phase A *)

(** The ready lists after a coroutine was appended to the one its URGENT flag
    selects. *)
Definition append_at w q a : list Z * list Z :=
  match w_coros w !! a with Some c => append c a q | None => q end.

(** Two states in which every coroutine has the same urgency. *)
Definition same_urgency w w' : Prop :=
  forall a, urgent_flag <$> w_coros w' !! a = urgent_flag <$> w_coros w !! a.

Lemma append_at_same w w' q a : same_urgency w w' -> append_at w' q a = append_at w q a.
Proof.
  intros H. specialize (H a). unfold append_at.
  destruct (w_coros w' !! a) as [c'|], (w_coros w !! a) as [c|]; simplify_eq/=; [|done].
  unfold append, queue_of. by rewrite H.
Qed.

Lemma foldl_append_same w w' q l :
  same_urgency w w' -> foldl (append_at w') q l = foldl (append_at w) q l.
Proof.
  intros H. revert q. induction l as [|a l IH]; intros q; simpl; [done|].
  by rewrite (append_at_same w w' q a H).
Qed.

Lemma queued_append q c a b : b ∈ queued (append c a q) <-> b ∈ queued q \/ b = a.
Proof.
  unfold append. rewrite queued_qset, (queued_split (queue_of c) q), elem_of_app,
    list_elem_of_singleton. tauto.
Qed.

Definition sleepers_not_queued w q : Prop :=
  forall a c, w_coros w !! a = Some c -> sleeping_flag c = true -> a ∉ queued q.

(** The [n]-th reading of the clock from the kernel state [k] on, when nothing
    else is asked of the kernel, and the state before it. *)
Definition clock_after (n : nat) (k : kernel) : kernel := Nat.iter n (fun k => (os_clock_gettime k).2) k.
Definition reading (n : nat) (k : kernel) : Z * Z := (os_clock_gettime (clock_after n k)).1.

Lemma clock_after_next n k : clock_after n (os_clock_gettime k).2 = clock_after (S n) k.
Proof. unfold clock_after. by rewrite Nat.iter_succ_r. Qed.

(** What a run of the expiry loop does from [w, s, q]: [es] are the entries it
    takes out of the tree, each expired at the reading of the clock that was
    made for it; what is left had not expired at the last reading. *)
Record expiry w s q (es : list (Z * addr)) w' s' : Prop := {
  ex_sched' : w_sched w' = Some s';
  ex_ok : sched_ok w' s' (foldl (append_at w) q es.*2);
  ex_sorted : StronglySorted Z.lt es.*1;
  ex_entries key a : (key, a) ∈ es -> view s !! key = Some a;
  ex_rest key : view s' !! key = if decide (key ∈ es.*1) then None else view s !! key;
  ex_due i key a : es !! i = Some (key, a) -> key <= elapsed s (reading i (w_kern w));
  ex_left key : is_Some (view s' !! key) -> elapsed s (reading (length es) (w_kern w)) < key;
  ex_final : w_kern w' = clock_after (S (length es)) (w_kern w);
  ex_order key key' : key ∈ es.*1 -> is_Some (view s' !! key') -> key < key'
}.

(** The entries of a run are those of its first step and of the rest. *)
Lemma expiry_cons w s q key a w2 s2 es w' s' :
  view s !! key = Some a -> (forall key', is_Some (view s !! key') -> key <= key') ->
  view s2 = delete key (view s) -> s_birth s2 = s_birth s -> same_urgency w w2 ->
  key <= elapsed s (reading 0 (w_kern w)) -> w_kern w2 = (os_clock_gettime (w_kern w)).2 ->
  expiry w2 s2 (append_at w q a) es w' s' -> expiry w s q ((key, a) :: es) w' s'.
Proof.
  intros Hv Hmin Hvs2 Hb2 Hurg Hdue Hk2 [].
  assert (Hin : forall key', key' ∈ es.*1 -> is_Some (view s2 !! key')).
  { intros key' ([k' b] & -> & Hkb)%list_elem_of_fmap. eexists. by apply ex_entries0. }
  assert (Hlt : forall key', is_Some (view s2 !! key') -> key < key').
  { intros key' [b Hb]. rewrite Hvs2 in Hb. apply lookup_delete_Some in Hb as [Hne Hb].
    specialize (Hmin key' ltac:(by eexists)). lia. }
  split; csimpl.
  - done.
  - by rewrite <- (foldl_append_same w w2).
  - constructor; [done|]. apply Forall_forall. intros key' Hk'. by apply Hlt, Hin.
  - intros k' b [[= -> ->]|Hb]%elem_of_cons; [done|]. apply ex_entries0 in Hb.
    rewrite Hvs2 in Hb. by apply lookup_delete_Some in Hb as [_ Hb].
  - intros k'. rewrite ex_rest0, Hvs2. destruct (decide (k' = key)) as [->|Hne].
    + rewrite lookup_delete_eq. destruct (decide (key ∈ key :: es.*1)) as [_|Hn]; [by case_decide|].
      exfalso. apply Hn. left.
    + rewrite lookup_delete_ne by done. apply decide_ext. rewrite elem_of_cons. tauto.
  - intros [|i] k' b Hi; simpl in Hi; [by injection Hi as <- <-|]. specialize (ex_due0 i k' b Hi).
    unfold reading, elapsed in *. by rewrite Hb2, Hk2, clock_after_next in ex_due0.
  - intros k' Hk'. specialize (ex_left0 k' Hk'). unfold reading, elapsed in *. by rewrite Hb2, Hk2, clock_after_next in ex_left0.
  - by rewrite ex_final0, Hk2, clock_after_next.
  - intros k1 k2 [->|Hk1]%elem_of_cons Hkk2; [|by apply ex_order0].
    apply Hlt. rewrite ex_rest0 in Hkk2. case_decide; [by destruct Hkk2|done].
Qed.

Lemma expire_loop_ok fuel w s q :
  (size (view s) < fuel)%nat -> sched_ok w s q -> w_sched w = Some s -> sleepers_not_queued w q ->
  exists es w' s', expire_loop fuel w = Ok (tt, w') /\ expiry w s q es w' s'.
Proof.
  revert w s q. induction fuel as [|fuel IH]; intros w s q Hsz Hok Hs Hnq; [lia|]. simpl.
  destruct (os_clock_gettime (w_kern w)) as [now k] eqn:Hk.
  destruct (get_expired_ok w s q now k Hok Hs Hk) as
    [(Hnone & Hrun & Hok')|(key & a & c & t & Hv & Hmin & Hc & Hfl & Hrun & Hvt & Hok' & Hdue)].
  { rewrite (bind_ok _ _ _ _ _ Hrun). exists [], (set_w_kern k w), s. split; [done|].
    assert (H0 : reading 0 (w_kern w) = now) by (unfold reading; simpl; by rewrite Hk).
    split; try done.
    - simpl. constructor.
    - by intros ? ? []%elem_of_nil.
    - intros key Hkey. simpl. rewrite H0. auto.
    - simpl. by rewrite Hk.
    - by intros ? ? []%elem_of_nil. }
  rewrite (bind_ok _ _ _ _ _ Hrun).
  destruct (Z.eqb_spec a NULL) as [->|Ha]; [by rewrite (ok_null _ _ _ Hok) in Hc|].
  set (w1 := with_co a (mark_expired c) _) in *.
  assert (Hc1 : w_coros w1 !! a = Some (mark_expired c)) by apply lookup_insert_eq.
  destruct (make_ready_ok w1 (set_s_sleeping t s) q a _ Hok' eq_refl Hc1 (Hnq a c Hc Hfl))
    as (w2 & s2 & Hmr & Hs2 & Hok2 & Hk2 & Hcos2 & Ht2 & Hb2 & _).
  rewrite (bind_ok _ _ _ _ _ Hmr).
  assert (Happ : append (mark_expired c) a q = append_at w q a).
  { unfold append_at, append, queue_of. rewrite Hc.
    by destruct (mark_expired_flags c) as (_ & _ & ->). }
  rewrite Happ in Hok2.
  assert (Hurg : same_urgency w w2).
  { intros b. rewrite Hcos2. simpl. destruct (decide (a = b)) as [<-|Hne].
    - rewrite lookup_insert_eq, Hc. simpl. f_equal.
      destruct (mark_expired_flags c) as (_ & _ & <-).
      by destruct (mark_ready_flags (mark_expired c)) as (_ & _ & ->).
    - by rewrite !lookup_insert_ne. }
  assert (Hvs2 : view s2 = delete key (view s)) by (unfold view; by rewrite Ht2).
  destruct (IH w2 s2 (append_at w q a)) as (es & w' & s' & Hrun' & Hex); try done.
  { assert (size (view s) <> O) by (intros H0%map_size_empty_inv; by rewrite H0 in Hv).
    rewrite Hvs2, map_size_delete_Some by (by eexists). lia. }
  { intros b cb. rewrite Hcos2, <- Happ, queued_append. simpl. intros Hb Hfb [Hbq|<-].
    - destruct (decide (a = b)) as [<-|Hne]; [by apply (Hnq a c)|].
      rewrite !lookup_insert_ne in Hb by done. by apply (Hnq b cb).
    - rewrite lookup_insert_eq in Hb. simplify_eq.
      destruct (mark_ready_flags (mark_expired c)) as ((Hsl & _) & _).
      by rewrite Hsl, mark_expired_flag in Hfb. }
  exists ((key, a) :: es), w', s'. split; [done|]. eapply expiry_cons; try done.
  - unfold reading. simpl. by rewrite Hk.
  - rewrite Hk2. simpl. by rewrite Hk.
Qed.

(** C12. Phase A of the main loop, when no sleeper is in a ready queue: the loop
    ends; the sleepers it takes out of the tree are appended to the ready queue
    their urgency selects, in the order of their wake-up times; the wake-up time
    of each had passed at the reading of the clock made for it, and no remaining
    one has passed at the last reading; and the invariant of the scheduler
    holds afterwards. *)
Theorem probe_timers_wakes_expired w s q :
  sched_ok w s q -> w_sched w = Some s -> sleepers_not_queued w q ->
  exists es w' s', probe_timers w = Ok (tt, w') /\ expiry w s q es w' s'.
Proof.
  intros Hok Hs Hnq. unfold probe_timers. mrun. fold (view s).
  apply expire_loop_ok; [lia|done..].
Qed.

(** With no timer set, phase A stops at once. *)
Lemma get_expired_no_timer w s :
  w_sched w = Some s -> st_wf (s_sleeping s) -> view s = ∅ ->
  schedule_get_expired w = Ok (NULL, set_w_kern (os_clock_gettime (w_kern w)).2 w).
Proof.
  intros Hs Hwf Hv. destruct (os_clock_gettime (w_kern w)) as [now k] eqn:Hk.
  unfold schedule_get_expired. mrun. rewrite (bind_ok _ _ _ _ _ (usec_now_run w now k Hk)).
  pose proof (rb_min_law _ Hwf) as Hm. destruct (rb_min (s_sleeping s)) as [[key a]|]; [|done].
  destruct Hm as [Hm _]. unfold view in Hv. by rewrite Hv, lookup_empty in Hm.
Qed.

(** C40. The precondition of phase A matters.  An event makes a coroutine ready
    without cancelling its timer, which only happens once the coroutine runs;
    if the timer expires while the coroutine is still on the ready queue, phase
    A appends it a second time, and from then on the queue never drains: every
    dequeue yields the same coroutine. *)
Theorem timeout_of_queued_coroutine_corrupts_queue w s now k key a c :
  w_sched w = Some s -> timers_ok w s -> os_clock_gettime (w_kern w) = (now, k) ->
  view s = {[key := a]} -> key <= elapsed s now -> a <> NULL ->
  w_coros w !! a = Some c -> urgent_flag c = false -> tq_rep (s_queues s) ready [a] ->
  exists w' s', probe_timers w = Ok (tt, w') /\ w_sched w' = Some s' /\
    forall n, TAILQ_EMPTY (dequeue_all n (s_queues s') ready) ready = false /\
      TAILQ_FIRST (dequeue_all n (s_queues s') ready) ready = a.
Proof.
  intros Hs Ht Hk Hv Hle Ha Hc Hu Hq.
  assert (Hva : view s !! key = Some a) by (rewrite Hv; apply lookup_insert_eq).
  destruct (schedule_get_expired_some s w now k key a c Hs Ht Hk Hva) as (t & Hr & Hwt & Hvt); [|done..|].
  { intros key' [b Hb]. rewrite Hv in Hb. apply lookup_singleton_Some in Hb as [-> _]. done. }
  unfold probe_timers. mrun. fold (view s). rewrite Hv, map_size_singleton. cbn [expire_loop].
  eexists _, _. split.
  { rewrite (bind_ok _ _ _ _ _ Hr). cbv beta. rewrite (proj2 (Z.eqb_neq a NULL) Ha).
    erewrite bind_ok by (by apply make_ready_run; [|apply lookup_insert_eq]). cbv beta.
    erewrite bind_ok; [|eapply get_expired_no_timer; simpl; [reflexivity|exact Hwt|]]; [done|].
    unfold view. simpl. by rewrite Hvt, Hv, delete_singleton_eq. }
  split; [done|]. intros n. simpl.
  unfold queue_of. destruct (mark_expired_flags c) as (_ & _ & ->). rewrite Hu.
  destruct (self_linked_dequeue (s_queues s) ready a n Hq). done.
Qed.

(** ** Phase D *)

(** The coroutines that wait for the descriptors of a list, in its order. *)
Definition waiters s (l : list Z) : list addr := omap (fun fd => fds s !! fd) l.

Definition waiters_not_queued s q : Prop :=
  forall fd a, fds s !! fd = Some a -> a ∉ queued q.

Lemma waiters_delete s s' fd l :
  fds s' = delete fd (fds s) -> fd ∉ l -> waiters s' l = waiters s l.
Proof.
  intros Hd Hn. unfold waiters. rewrite Hd. induction l as [|x l IH]; [done|]. csimpl.
  apply not_elem_of_cons in Hn as [Hne Hn]. rewrite lookup_delete_ne by done.
  by rewrite (IH Hn).
Qed.

(** One reported descriptor. *)
Lemma dispatch_one w s q fd a c :
  sched_ok w s q -> w_sched w = Some s -> one_wait s -> fds s !! fd = Some a ->
  w_coros w !! a = Some c -> a ∉ queued q ->
  exists w' s', (make_ready a ;;; let* _ := schedule_cancel_wait a fd in ret tt)%dyco w = Ok (tt, w') /\
    w_sched w' = Some s' /\ sched_ok w' s' (append c a q) /\ fds s' = delete fd (fds s) /\
    s_epollfd s' = s_epollfd s /\ same_urgency w w' /\
    (forall ep fd', os_registered (w_kern w') ep fd' =
       negb (bool_decide ((ep, fd') = (s_epollfd s, fd))) && os_registered (w_kern w) ep fd').
Proof.
  intros Hok Hs Hone Hfd Hc Ha.
  destruct (make_ready_ok w s q a c Hok Hs Hc Ha) as
    (w1 & s1 & Hmr & Hs1 & Hok1 & Hk1 & Hcos1 & _ & _ & Hfd1 & Hep1).
  assert (Hfds1 : fds s1 = fds s) by (unfold fds; by rewrite Hfd1).
  assert (Hc1 : w_coros w1 !! a = Some (mark_ready c)) by (rewrite Hcos1; apply lookup_insert_eq).
  destruct (cancel_wait_ok w1 s1 _ a (mark_ready c) fd Hok1 Hs1) as
    (w2 & s2 & Hcw & Hs2 & Hok2 & Hfds2 & Hep2 & Hcos2 & Hr2 & _); [|by rewrite Hfds1|done|].
  { intros fd1 fd2 b. rewrite Hfds1. apply Hone. }
  rewrite (bind_ok _ _ _ _ _ Hmr), (bind_ok _ _ _ _ _ Hcw).
  exists w2, s2. split_and!; [done|done|done|by rewrite Hfds2, Hfds1|congruence| |].
  - intros b. rewrite Hcos2, Hcos1, insert_insert_eq. destruct (decide (a = b)) as [<-|Hne].
    + rewrite lookup_insert_eq, Hc. simpl. f_equal.
      destruct (mark_unwaiting_flags (mark_ready c)) as (_ & _ & -> & _). apply mark_ready_flags.
    + by rewrite lookup_insert_ne.
  - intros ep fd'. by rewrite Hr2, Hep1, Hk1.
Qed.

(** What a run over the descriptors [l] does from [w, s, q]. *)
Record dispatched w s q (l : list Z) w' s' : Prop := {
  di_sched : w_sched w' = Some s';
  di_ok : sched_ok w' s' (foldl (append_at w) q (waiters s l));
  di_fds fd : fds s' !! fd = if decide (fd ∈ l) then None else fds s !! fd;
  di_reg fd : os_registered (w_kern w') (s_epollfd s) fd =
    negb (bool_decide (fd ∈ l /\ is_Some (fds s !! fd))) &&
    os_registered (w_kern w) (s_epollfd s) fd
}.

Lemma dispatched_skip w s q fd l w' s' :
  fds s !! fd = None -> dispatched w s q l w' s' -> dispatched w s q (fd :: l) w' s'.
Proof.
  intros Hfd []. split; csimpl; [done|by rewrite Hfd|..]; intros fd'.
  - rewrite di_fds0. destruct (decide (fd' = fd)) as [->|Hne].
    + rewrite Hfd. by do 2 case_decide.
    + apply decide_ext. rewrite elem_of_cons. tauto.
  - rewrite di_reg0. do 2 f_equal. apply bool_decide_ext. rewrite elem_of_cons.
    split; [tauto|]. intros [[->|?] Hsome]; [|done]. rewrite Hfd in Hsome. by destruct Hsome.
Qed.

Lemma dispatched_wake w s q fd l a c w1 s1 w' s' :
  fds s !! fd = Some a -> w_coros w !! a = Some c -> fd ∉ l ->
  fds s1 = delete fd (fds s) -> s_epollfd s1 = s_epollfd s -> same_urgency w w1 ->
  (forall ep fd', os_registered (w_kern w1) ep fd' =
     negb (bool_decide ((ep, fd') = (s_epollfd s, fd))) && os_registered (w_kern w) ep fd') ->
  dispatched w1 s1 (append c a q) l w' s' -> dispatched w s q (fd :: l) w' s'.
Proof.
  intros Hfd Hc Hfdl Hfds1 Hep1 Hurg Hr1 []. split; csimpl.
  - done.
  - rewrite (waiters_delete s s1 fd l Hfds1 Hfdl), (foldl_append_same w w1) in di_ok0 by done.
    rewrite Hfd. simpl. unfold append_at at 2. by rewrite Hc.
  - intros fd'. rewrite di_fds0, Hfds1. destruct (decide (fd' = fd)) as [->|Hne].
    + rewrite lookup_delete_eq. case_decide; destruct (decide (fd ∈ fd :: l)) as [|Hn]; try done.
      exfalso. apply Hn. left.
    + rewrite lookup_delete_ne by done. apply decide_ext. rewrite elem_of_cons. tauto.
  - intros fd'. rewrite <- Hep1, di_reg0, Hr1, Hep1, Hfds1.
    destruct (decide (fd' = fd)) as [->|Hne].
    + rewrite lookup_delete_eq, (bool_decide_eq_true_2 (_ = _)) by done.
      rewrite (bool_decide_eq_true_2 (fd ∈ fd :: l /\ _)); [by rewrite andb_comm|].
      split; [left|by rewrite Hfd].
    + rewrite lookup_delete_ne by done. rewrite (bool_decide_eq_false_2 (_ = _)) by (by intros [=]).
      simpl. do 2 f_equal. apply bool_decide_ext. rewrite elem_of_cons. tauto.
Qed.

(** C13. Phase D of the main loop, when no coroutine waits for two descriptors and
    none of the waiting coroutines is in a ready queue already: for distinct
    reported descriptors, every coroutine that waits for one of them is appended
    once to the ready queue its urgency selects, in the order of the report;
    exactly these waits are cancelled, in the wait map and in the epoll set;
    descriptors nobody waits for change nothing; and the invariant of the
    scheduler holds afterwards. *)
Theorem dispatch_wakes_waiters l w s q :
  sched_ok w s q -> w_sched w = Some s -> one_wait s -> waiters_not_queued s q ->
  NoDup l -> 0 ∉ l -> -1 ∉ l ->
  exists w' s', dispatch_events l w = Ok (tt, w') /\ dispatched w s q l w' s'.
Proof.
  revert w s q. induction l as [|fd l IH]; intros w s q Hok Hs Hone Hnq Hnd H0 H1; simpl.
  { by exists w, s. }
  apply NoDup_cons in Hnd as [Hfdl Hnd]. apply not_elem_of_cons in H0 as [H0 H0l], H1 as [H1 H1l].
  erewrite bind_ok by (apply schedule_get_waitco_run; try done; apply Hok). cbv beta.
  destruct (fds s !! fd) as [a|] eqn:Hfd; simpl.
  - destruct (ok_fds _ _ _ Hok fd a Hfd) as (_ & _ & _ & c & Hc & _).
    destruct (Z.eqb_spec a NULL) as [->|Ha]; [by rewrite (ok_null _ _ _ Hok) in Hc|].
    destruct (dispatch_one w s q fd a c Hok Hs Hone Hfd Hc (Hnq fd a Hfd)) as
      (w1 & s1 & Hrun & Hs1 & Hok1 & Hfds1 & Hep1 & Hurg & Hr1).
    rewrite (bind_ok _ _ _ _ _ Hrun).
    destruct (IH w1 s1 (append c a q)) as (w' & s' & Hrun' & Hd'); try done.
    { intros fd1 fd2 b. rewrite Hfds1. intros [_ Hb1]%lookup_delete_Some [_ Hb2]%lookup_delete_Some.
      by apply (Hone _ _ b). }
    { intros fd' b. rewrite Hfds1, queued_append. intros [Hne Hb]%lookup_delete_Some [Hq| ->].
      - by apply (Hnq fd' b).
      - by apply Hne, (Hone _ _ a). }
    exists w', s'. split; [done|]. by eapply dispatched_wake.
  - simpl. destruct (IH w s q) as (w' & s' & Hrun' & Hd'); try done.
    exists w', s'. split; [done|]. by apply dispatched_skip.
Qed.

(** The second condition of [dispatch_wakes_waiters] matters.  A timer makes a
    coroutine ready without cancelling its wait; if a phase ends at its bound
    before the coroutine has run and the event is reported meanwhile, phase D
    links it into the queue a second time, which then never drains. *)
Lemma event_of_queued_coroutine_corrupts_queue w s fd a c :
  w_sched w = Some s -> htable_wf (s_fd_co_map s) -> fds s !! fd = Some a -> fd <> 0 -> fd <> -1 -> a <> NULL ->
  w_coros w !! a = Some c -> co_sched c <> NULL -> waiting_flag c = true -> urgent_flag c = false ->
  os_registered (w_kern w) (s_epollfd s) fd = true -> tq_rep (s_queues s) ready [a] ->
  exists w' s', dispatch_events [fd] w = Ok (tt, w') /\ w_sched w' = Some s' /\
    forall n, TAILQ_EMPTY (dequeue_all n (s_queues s') ready) ready = false /\
      TAILQ_FIRST (dequeue_all n (s_queues s') ready) ready = a.
Proof.
  intros Hs Hwf Hfd H0 H1 Ha Hc Hsc Hw Hu Hreg Hq. cbn [dispatch_events].
  erewrite bind_ok by (by apply schedule_get_waitco_run). rewrite Hfd. cbv beta.
  change (default NULL (Some a)) with a. rewrite (proj2 (Z.eqb_neq a NULL) Ha).
  set (s1 := set_s_queues (TAILQ_INSERT_TAIL (s_queues s) (queue_of c) a) s).
  set (w1 := set_w_sched (Some s1) (with_co a (mark_ready c) w)).
  assert (Hwr : waiting_flag (mark_ready c) = true).
  { by destruct (mark_ready_flags c) as [(_ & _ & Hwc & _) _]; rewrite Hwc. }
  destruct (schedule_cancel_wait_run a fd (mark_ready c) s1 w1) as (h & k & Hcw & _); try done; [apply lookup_insert_eq|].
  exists (set_w_kern k (with_co a (mark_unwaiting (mark_ready c)) (with_fds h s1 w1))), (set_s_fd_co_map h s1).
  split; [|split; [done|]].
  - erewrite bind_ok; [reflexivity|]. rewrite (bind_ok _ _ _ _ _ (make_ready_run w s a c Hs Hc)).
    by rewrite (bind_ok _ _ _ _ _ Hcw).
  - intros n. simpl. unfold queue_of. rewrite Hu. by destruct (self_linked_dequeue (s_queues s) ready a n Hq).
Qed.

(** ** Phases B and C *)

Context (funcs : Z -> Z -> prog world unit).
Local Abbreviation machine := (@machine os T).
Implicit Types (m : machine).

Definition m_sched m : option dyco_schedule := w_sched (m_world m).

(** One step of phase B or C: the head of the queue is taken off it and
    resumed. *)
Definition queue_step (fuel : nat) (h : tqh) (a : addr) m m' : Prop :=
  exists s r, m_sched m = Some s /\ TAILQ_EMPTY (s_queues s) h = false /\
    TAILQ_FIRST (s_queues s) h = a /\
    (in_world (upd_sched (fun s => set_s_queues (TAILQ_REMOVE (s_queues s) h a) s)) ;;;
     in_world (clr_flag a COROUTINE_STATUS_READY) ;;; resume funcs fuel a)%dyco m = Ok (r, m').

(** A sequence of such steps. *)
Inductive queue_steps (fuel : nat) (h : tqh) : list addr -> machine -> machine -> Prop :=
  | qs_nil m : queue_steps fuel h [] m m
  | qs_cons a l m m1 m' :
      queue_step fuel h a m m1 -> queue_steps fuel h l m1 m' ->
      queue_steps fuel h (a :: l) m m'.

(** Why a phase ended after the steps [l]. *)
Definition phase_end (n : nat) (h : tqh) (last_co : addr) (l : list addr) (r : option Z) m' : Prop :=
  exists s', m_sched m' = Some s' /\
  match r with
  | Some v => (v = 1 /\ s_status s' = SCHEDULE_STATUS_STOPPED) \/
              (v = -1 /\ s_status s' = SCHEDULE_STATUS_ABORTED)
  | None => length l = n \/ TAILQ_EMPTY (s_queues s') h = true \/ last l = Some last_co
  end.

Lemma in_world_inv {A} (x : M world A) m (y : A) m' :
  in_world x m = Ok (y, m') -> exists w', x (m_world m) = Ok (y, w') /\
    m' = mk_machine w' (m_ctx m) (m_ret m).
Proof.
  unfold in_world. destruct (x (m_world m)) as [[b w']|e]; [|done]. intros [= -> <-]. eauto.
Qed.

Lemma the_sched_inv w s w' : the_sched w = Ok (s, w') -> w_sched w = Some s /\ w' = w.
Proof.
  unfold the_sched, bind, get_sched, gets. destruct (w_sched w) as [s0|] eqn:E; [|done].
  by intros [= <- <-].
Qed.

Lemma in_world_the_sched m s m' :
  in_world the_sched m = Ok (s, m') -> m_sched m = Some s /\ m' = m.
Proof.
  intros (w' & H & ->)%in_world_inv. apply the_sched_inv in H as [H ->]. by destruct m.
Qed.

Lemma match_status {A} (x y z : A) status :
  match status with
  | SCHEDULE_STATUS_STOPPED => x
  | SCHEDULE_STATUS_ABORTED => y
  | _ => z
  end = if decide (status = SCHEDULE_STATUS_STOPPED) then x
        else if decide (status = SCHEDULE_STATUS_ABORTED) then y else z.
Proof. by destruct status. Qed.

Lemma run_queue_steps fuel n h last_co m r m' :
  m_sched m <> None ->
  run_queue funcs fuel n h last_co m = Ok (r, m') ->
  exists l, (length l <= n)%nat /\ queue_steps fuel h l m m' /\
    (forall l1 a l2, l = l1 ++ a :: l2 -> l2 <> [] -> a <> last_co) /\
    phase_end n h last_co l r m'.
Proof.
  revert m. induction n as [|n IH]; intros m Hm Hrun; simpl in Hrun.
  { injection Hrun as <- <-. destruct (m_sched m) as [s|] eqn:Hs; [|done].
    exists []. split_and!; [done|constructor|by intros []|]. exists s. split; [done|by left]. }
  apply bind_inv in Hrun as (s & m0 & [Hs ->]%in_world_the_sched & Hrun).
  destruct (TAILQ_EMPTY (s_queues s) h) eqn:He.
  { injection Hrun as <- <-. exists []. split_and!; [simpl; lia|constructor|by intros []|].
    exists s. split; [done|]. right. by left. }
  apply bind_inv in Hrun as (u1 & m1 & H1 & Hrun). apply bind_inv in Hrun as (u2 & m2 & H2 & Hrun).
  apply bind_inv in Hrun as (z & m3 & H3 & Hrun).
  apply bind_inv in Hrun as (s3 & m3' & [Hs3 ->]%in_world_the_sched & Hrun).
  set (a := TAILQ_FIRST (s_queues s) h) in *.
  assert (Hstep : queue_step fuel h a m m3).
  { exists s, z. split_and!; try done. rewrite (bind_ok _ _ _ _ _ H1). by rewrite (bind_ok _ _ _ _ _ H2). }
  assert (Hone : queue_steps fuel h [a] m m3) 
    by (eapply qs_cons; [exact Hstep|constructor]).
  assert (Hall : forall l1 b l2, [a] = l1 ++ b :: l2 -> l2 <> [] -> b <> last_co)
    by (by intros [|? []] b l2 [= -> <-]).
  rewrite match_status in Hrun. case_decide as Hstop; [|case_decide as Habort].
  1-2: injection Hrun as <- <-; exists [a]; split_and!; [simpl; lia|done|done|];
    exists s3; split; [done|]; by (left + right).
  destruct (Z.eqb_spec a last_co) as [Ha|Ha].
  { injection Hrun as <- <-. exists [a]. split_and!; [simpl; lia|done|done|].
    exists s3. split; [done|]. right. right. by rewrite <- Ha. }
  destruct (IH m3 ltac:(by rewrite Hs3) Hrun) as (l & Hl & Hsteps & Hne & s' & Hs' & Hr).
  exists (a :: l). split_and!; [simpl; lia|by econstructor| |].
  - intros [|x l1] b l2 [= -> ->] Hl2; [done|by eapply Hne].
  - exists s'. split; [done|]. destruct r; [done|].
    destruct Hr as [Hr|[Hr|Hr]]; [left; simpl; lia|right; by left|right; right].
    destruct l; [done|by rewrite last_cons_cons].
Qed.

(** C21. Phases B and C of the main loop: a phase resumes at most 128 coroutines,
    each time the one at the head of the queue, and stops after the coroutine
    that was last in the queue when the phase started, so a coroutine that is
    queued again during a phase waits for the next turn.  It ends because the
    bound is reached, the queue is empty or the last coroutine has run, or
    because the scheduler was stopped or aborted, which is what its result
    reports. *)
Theorem queue_phase_bounded fuel h m s r m' :
  m_sched m = Some s ->
  process_queue funcs fuel h DYCO_URGENT_MAXEXEC m = Ok (r, m') ->
  exists l, (length l <= 128)%nat /\ queue_steps fuel h l m m' /\
    (forall l1 a l2, l = l1 ++ a :: l2 -> l2 <> [] -> a <> TAILQ_LAST (s_queues s) h) /\
    phase_end 128 h (TAILQ_LAST (s_queues s) h) l r m'.
Proof.
  intros Hs Hrun. unfold process_queue in Hrun.
  apply bind_inv in Hrun as (s0 & m0 & [Hs0 ->]%in_world_the_sched & Hrun).
  assert (s0 = s) as -> by congruence.
  apply (run_queue_steps fuel); [congruence|done].
Qed.

(** ** The result of the main loop *)

Definition stop_result (v : Z) (s' : dyco_schedule) : Prop :=
  (v = 1 /\ s_status s' = SCHEDULE_STATUS_STOPPED) \/
  (v = -1 /\ s_status s' = SCHEDULE_STATUS_ABORTED).

Lemma process_queue_stopped fuel h n m v m' :
  process_queue funcs fuel h n m = Ok (Some v, m') ->
  exists s', m_sched m' = Some s' /\ stop_result v s'.
Proof.
  intros Hrun. unfold process_queue in Hrun.
  apply bind_inv in Hrun as (s & m0 & [Hs ->]%in_world_the_sched & Hrun).
  apply run_queue_steps in Hrun as (l & _ & _ & _ & s' & Hs' & Hr); [|by rewrite Hs]. eauto.
Qed.

Lemma sched_turn_stopped fuel m v m' :
  sched_turn funcs fuel m = Ok (Some v, m') -> exists s', m_sched m' = Some s' /\ stop_result v s'.
Proof.
  intros Hrun. unfold sched_turn in Hrun.
  apply bind_inv in Hrun as ([] & m1 & _ & Hrun).
  apply bind_inv in Hrun as ([v1|] & m2 & Hp & Hrun).
  { injection Hrun as <- <-. by eapply process_queue_stopped. }
  apply bind_inv in Hrun as ([v2|] & m3 & Hp' & Hrun).
  { injection Hrun as <- <-. by eapply process_queue_stopped. }
  by apply bind_inv in Hrun as ([] & m4 & _ & [=]).
Qed.

(** Nothing is left to run: both queues and the tree are empty and no descriptor
    is counted in the table of waits; so, if the state is consistent, nobody is
    ready, asleep or waiting. *)
Definition drained (s' : dyco_schedule) : Prop :=
  s_status s' = SCHEDULE_STATUS_DONE /\
  TAILQ_FIRST (s_queues s') ready = NULL /\ TAILQ_FIRST (s_queues s') urgent_ready = NULL /\
  count (s_fd_co_map s') = 0 /\ rb_is_empty (s_sleeping s') = true /\
  forall w q, sched_ok w s' q -> queued q = [] /\ view s' = ∅ /\ fds s' = ∅.

Lemma isdone_drained s : SCHEDULE_ISDONE s = true -> drained (set_s_status SCHEDULE_STATUS_DONE s).
Proof.
  unfold SCHEDULE_ISDONE. rewrite !andb_true_iff, Z.eqb_eq. intros [[[Hc Hs] Hr] Hu].
  split_and!; try done; [by apply Z.eqb_eq..|]. intros w q Hok.
  assert (Hq : forall h, TAILQ_EMPTY (s_queues s) h = true -> qlist h q = []).
  { intros h Hh. pose proof (rep_empty _ _ _ (rep2_of _ _ h (ok_queues _ _ _ Hok))) as He. simpl in He.
    rewrite Hh in He. by destruct (qlist h q). }
  pose proof (Hq ready Hr) as H1. pose proof (Hq urgent_ready Hu) as H2. simpl in H1, H2. split_and!.
  - unfold queued. by rewrite H1, H2.
  - pose proof (rb_empty_law (s_sleeping s) (tm_wf _ _ (ok_timers _ _ _ Hok))) as He.
    rewrite Hs in He. symmetry in He. by apply bool_decide_eq_true_1 in He.
  - pose proof (htable_count_size _ (ok_fds_wf _ _ _ Hok)) as He. simpl in He. rewrite Hc in He.
    apply map_size_empty_inv. unfold fds. simpl. lia.
Qed.

Lemma main_loop_result fuel m r m' :
  main_loop funcs fuel m = Ok (r, m') ->
  exists s', m_sched m' = Some s' /\ (stop_result r s' \/ r = 0 /\ drained s').
Proof.
  revert m. induction fuel as [|fuel IH]; intros m Hrun; [done|]. simpl in Hrun.
  apply bind_inv in Hrun as (s & m0 & [Hs ->]%in_world_the_sched & Hrun).
  destruct (SCHEDULE_ISDONE s) eqn:Hd.
  - apply bind_inv in Hrun as ([] & m1 & (w1 & Hu & ->)%in_world_inv & [= <- <-]).
    rewrite (upd_sched_run _ s (m_world m) Hs) in Hu. injection Hu as <-.
    eexists. split; [done|]. right. split; [done|]. by apply isdone_drained.
  - apply bind_inv in Hrun as ([v|] & m1 & Ht & Hrun); [|by eapply IH].
    injection Hrun as <- <-. apply sched_turn_stopped in Ht as (s' & Hs' & Hst). eauto.
Qed.

(** C22. What the result of [dyco_schedule_run] means: -2, and nothing is done,
    without a scheduler or after an abort; 0, and nothing is done or looked at,
    when the scheduler is marked as done; otherwise 1 exactly when the scheduler
    is left stopped, -1 exactly when it is left aborted, and 0 only when both
    ready queues and the tree of timers are empty and no descriptor is waited
    for. *)
Theorem run_result_meaning fuel m r m' :
  dyco_schedule_run funcs fuel m = Ok (r, m') ->
  match m_sched m with
  | None => r = -2 /\ m' = m
  | Some s =>
      s_status s <> SCHEDULE_STATUS_RUNNING /\
      (s_status s = SCHEDULE_STATUS_ABORTED -> r = -2 /\ m' = m) /\
      (s_status s = SCHEDULE_STATUS_DONE -> r = 0 /\ m' = m) /\
      (s_status s = SCHEDULE_STATUS_READY \/ s_status s = SCHEDULE_STATUS_STOPPED ->
       exists s', m_sched m' = Some s' /\ (stop_result r s' \/ r = 0 /\ drained s'))
  end.
Proof.
  intros Hrun. unfold dyco_schedule_run in Hrun.
  apply bind_inv in Hrun as (o & m0 & (w0 & [= <- <-] & ->)%in_world_inv & Hrun).
  assert (Hm : mk_machine (m_world m) (m_ctx m) (m_ret m) = m) by (by destruct m).
  rewrite Hm in Hrun. fold (m_sched m) in Hrun.
  destruct (m_sched m) as [s|]; [|by injection Hrun as <- <-].
  destruct (s_status s); try done; split_and!; try done; try (by injection Hrun as <- <-).
  all: try (by intros [|]). all: intros _.
  all: apply bind_inv in Hrun as ([] & m1 & _ & Hrun); by eapply main_loop_result.
Qed.

End run_proofs.

(** ** Concrete states *)

Lemma probe_timers_wakes_expired_witness :
  exists es w' s', probe_timers ex_full = Ok (tt, w') /\
    expiry ex_full ex_full_sched ([], [16]) es w' s'.
Proof.
  apply (probe_timers_wakes_expired ex_full ex_full_sched ([], [16])); [apply ex_full_ok|done|].
  intros a c Hc Hfl ->%list_elem_of_singleton. vm_compute in Hc. simplify_eq.
Defined.

Lemma timeout_of_queued_coroutine_corrupts_queue_witness :
  let w := set_w_coros {[48 := ex_co (BIT COROUTINE_STATUS_SLEEPING) 900000]}
    (set_w_sched (Some (set_s_queues (TAILQ_INSERT_TAIL
      (mk_qmem (mk_qhead NULL (HeadFirst urgent_ready)) (mk_qhead NULL (HeadFirst ready)) ex_links)
      ready 48) (ex_sched {[900000 := 48]}))) ex_full) in
  exists w' s', probe_timers w = Ok (tt, w') /\ w_sched w' = Some s' /\
    forall n, TAILQ_EMPTY (dequeue_all n (s_queues s') ready) ready = false /\
      TAILQ_FIRST (dequeue_all n (s_queues s') ready) ready = 48.
Proof.
  intros w.
  refine (timeout_of_queued_coroutine_corrupts_queue w _ (1, 0)
    (set_clock 1000001000 (w_kern ex_full)) 900000 48 _ eq_refl _ eq_refl eq_refl _ _ eq_refl eq_refl _).
  - apply timers_ok_intro; [done|refine (bool_decide_unpack _ _); by vm_compute..].
  - by vm_compute.
  - done.
  - split; [|apply NoDup_singleton]. vm_compute. split_and!; try done. by eexists.
Defined.

Lemma dispatch_wakes_waiters_witness :
  exists w' s', dispatch_events [9; 7] ex_full = Ok (tt, w') /\
    dispatched ex_full ex_full_sched ([], [16]) [9; 7] w' s'.
Proof.
  assert (Hfds : fds ex_full_sched = {[7 := 64]}) by apply ex_fd_map_ok.
  apply (dispatch_wakes_waiters [9; 7] ex_full ex_full_sched ([], [16])).
  - apply ex_full_ok.
  - done.
  - intros fd1 fd2 a. rewrite Hfds. intros [<- _]%lookup_singleton_Some. by intros [<- _]%lookup_singleton_Some.
  - intros fd a. rewrite Hfds. intros [_ <-]%lookup_singleton_Some ?%list_elem_of_singleton. done.
  - apply (bool_decide_unpack _). by vm_compute.
  - apply (bool_decide_unpack _). by vm_compute.
  - apply (bool_decide_unpack _). by vm_compute.
Defined.

(** A scheduler with nothing to do. *)
Definition ex_idle : machine :=
  mk_machine (ex_world ∅ ∅) ∅ ∅.
Definition ex_idle_ready : machine :=
  mk_machine (set_w_sched (Some (set_s_status SCHEDULE_STATUS_READY (ex_sched ∅))) (ex_world ∅ ∅)) ∅ ∅.
Definition ex_funcs (f arg : Z) : prog (@world sim (gmap Z addr)) unit := PRet tt.

(** A new coroutine on the ready queue. *)
Definition ex_one_sched : @dyco_schedule (gmap Z addr) :=
  set_s_queues ex_queues (set_s_stack_size DYCO_MAX_STACKSIZE (ex_sched ∅)).
Definition ex_one : machine :=
  mk_machine (set_w_sched (Some ex_one_sched) (ex_world ∅ {[16 := ex_co
    (Z.lor (BIT COROUTINE_STATUS_NEW) (BIT COROUTINE_STATUS_READY)) 0]})) ∅ ∅.

Lemma queue_phase_bounded_witness :
  exists m', w_coros (m_world m') = ∅ /\
  exists l, (length l <= 128)%nat /\ queue_steps ex_funcs 2 ready l ex_one m' /\
    (forall l1 a l2, l = l1 ++ a :: l2 -> l2 <> [] -> a <> TAILQ_LAST (s_queues ex_one_sched) ready) /\
    phase_end 128 ready (TAILQ_LAST (s_queues ex_one_sched) ready) l None m'.
Proof.
  destruct (observe_ok (fun x => (x.1, w_coros (m_world x.2)))
    (process_queue ex_funcs 2 ready DYCO_URGENT_MAXEXEC ex_one) (None, ∅)) as ([r m'] & Hrun & [= -> Hw]);
    [by vm_compute|].
  exists m'. split; [done|].
  by apply (queue_phase_bounded ex_funcs 2 ready ex_one ex_one_sched None m').
Defined.

Lemma run_result_meaning_witness :
  exists m', dyco_schedule_run ex_funcs 1 ex_idle_ready = Ok (0, m') /\
  (SCHEDULE_STATUS_READY <> SCHEDULE_STATUS_RUNNING /\
   (SCHEDULE_STATUS_READY = SCHEDULE_STATUS_ABORTED -> 0 = -2 /\ m' = ex_idle_ready) /\
   (SCHEDULE_STATUS_READY = SCHEDULE_STATUS_DONE -> 0 = 0 /\ m' = ex_idle_ready) /\
   (SCHEDULE_STATUS_READY = SCHEDULE_STATUS_READY \/ SCHEDULE_STATUS_READY = SCHEDULE_STATUS_STOPPED ->
    exists s', m_sched m' = Some s' /\ (stop_result 0 s' \/ 0 = 0 /\ drained s'))).
Proof.
  eexists. split; [reflexivity|].
  exact (run_result_meaning ex_funcs 1 ex_idle_ready 0 _ eq_refl).
Defined.
