(* ===== verification/RoundRobin.v ===== *)
(** * The main loop as a round-robin scheduler

    Coroutines that work in rounds and give way between them by
    [dyco_coroutine_sleep(0)]: the whole of [dyco_schedule_run], with the
    context switches, the copies of the shared stack, the ready queue and the
    release of the coroutines that return, refines an abstract round robin on
    a list of tasks, and it ends. *)
From S2P Require Import Prelude Htable Queue SleepTree World SimOS Schedule SchedInv Prog Coroutine.
From S2P Require Import Asymcoro Coropool Schedcall Run.

Local Open Scope Z_scope.
Local Open Scope dyco_scope.

(** ** The abstract scheduler *)

(** A coroutine, the argument of its function and the rounds that remain after
    the next one. *)
Record task := mk_task { t_co : addr; t_arg : Z; t_rounds : nat }.

Definition requeue (t : task) : list task :=
  match t_rounds t with O => [] | S n => [mk_task (t_co t) (t_arg t) n] end.

(** One turn: the first 128 tasks make a round each; those that are not done
    queue up behind the others. *)
Definition turn (l : list task) : list task := drop 128 l ++ (take 128 l ≫= requeue).

(** The arguments of the rounds, in the order in which they are made. *)
Fixpoint round_robin (fuel : nat) (l : list task) : list Z :=
  match fuel, l with
  | S fuel', _ :: _ => (t_arg <$> take 128 l) ++ round_robin fuel' (turn l)
  | _, _ => []
  end.

(** The number of rounds to be made. *)
Definition load (l : list task) : nat := sum_list_with (fun t => S (t_rounds t)) l.

Lemma load_app l1 l2 : load (l1 ++ l2) = (load l1 + load l2)%nat.
Proof. apply sum_list_with_app. Qed.

Lemma load_requeue l : (load (l ≫= requeue) + length l = load l)%nat.
Proof.
  induction l as [|t l IH]; [done|]. rewrite bind_cons, load_app.
  assert (Ht : load (requeue t) = t_rounds t) by (unfold requeue, load; destruct (t_rounds t); simpl; lia).
  unfold load in *. simpl. lia.
Qed.

Lemma load_turn l : l <> [] -> (load (turn l) < load l)%nat.
Proof.
  intros Hl. unfold turn. rewrite load_app. pose proof (load_requeue (take 128 l)) as Hr.
  pose proof (load_app (take 128 l) (drop 128 l)) as Ha. rewrite take_drop in Ha.
  assert (0 < length (take 128 l))%nat by (destruct l; simpl; [done|lia]). lia.
Qed.

Lemma round_robin_fuel f g l :
  (load l <= f)%nat -> (load l <= g)%nat -> round_robin f l = round_robin g l.
Proof.
  revert g l. induction f as [|f IH]; intros g l Hf Hg.
  - destruct l as [|t l]; [by destruct g|]. unfold load in Hf. simpl in Hf. lia.
  - destruct l as [|t l]; [by destruct g|].
    assert (Ht : (load (turn (t :: l)) < load (t :: l))%nat) by (by apply load_turn).
    destruct g as [|g]; [unfold load in Hg; simpl in Hg; lia|].
    cbn [round_robin]. f_equal. apply IH; [lia..].
Qed.

Lemma round_robin_step l :
  l <> [] -> round_robin (load l) l = (t_arg <$> take 128 l) ++ round_robin (load (turn l)) (turn l).
Proof.
  intros Hl. pose proof (load_turn l Hl) as Ht. destruct (load l) as [|n] eqn:Hn; [lia|].
  destruct l as [|t l]; [done|]. cbn [round_robin]. f_equal. apply round_robin_fuel; lia.
Qed.

Section round_robin.
Context {os : OS} {osl : OSLaws os} {T : Type} {st : SleepTree T} {stl : SleepTreeLaws T}.
Local Abbreviation world := (@world os T).
Local Abbreviation dyco_schedule := (@dyco_schedule T).
Local Abbreviation machine := (@machine os T).
Implicit Types (w : world) (s : dyco_schedule) (c : dyco_coroutine) (a : addr) (m : machine) (t : task)
  (l : list task).

(** ** The coroutines *)

(** [work] is what a coroutine does in a round, [rounds] the number of times a
    function gives way. *)
Context (work : Z -> M world unit) (rounds : Z -> nat).

Fixpoint cooperative (n : nat) (arg : Z) : prog world unit :=
  match n with
  | O => atomic (work arg)
  | S n' => do! atomic (work arg); do! dyco_coroutine_sleep 0; cooperative n' arg
  end.

Definition coop_funcs (f arg : Z) : prog world unit := cooperative (rounds f) arg.

(** [trace] is what the outside sees of the rounds; [depth] bounds the stack. *)
Context (trace : kernel -> list Z) (depth : Z).
Hypothesis work_run : forall arg w, exists k, work arg w = Ok (tt, set_w_kern k w) /\
  trace k = trace (w_kern w) ++ [arg] /\
  forall ep fd, os_registered k ep fd = os_registered (w_kern w) ep fd.
Hypothesis trace_clock : forall k, trace (os_clock_gettime k).2 = trace k.
Hypothesis trace_malloc : forall used k, trace (os_malloc used k).2 = trace k.
Hypothesis malloc_ok : forall used k, (os_malloc used k).1 <> NULL.
Hypothesis stack_depth : forall k, 0 < os_stack_used k <= depth.

(** The geometry of the shared stack. *)
Definition stack_room s : Prop :=
  depth <= s_stack_size s < 2 ^ 31 /\ (Z.to_nat depth <= length (s_stack s))%nat.

(** What a coroutine does from its start, or from a resumption, with [n]
    rounds after the next. *)
Definition task_body (a : addr) (n : nat) (arg : Z) : prog world unit :=
  do! cooperative n arg;
  do! atomic (set_flag a COROUTINE_STATUS_EXITED);
  yield a.

Definition mark_running c : dyco_coroutine :=
  set_co_status (SETBIT (co_status c) COROUTINE_STATUS_RUNNING) c.

Definition resumes_as (a : addr) (k : prog world unit) (n : nat) (arg : Z) : Prop :=
  forall w c, w_coros w !! a = Some c -> exec k w = exec (task_body a n arg) (with_co a (mark_running c) w).

(** The status words a task goes through. *)
Definition ST_NEW : Z := Z.lor (BIT COROUTINE_STATUS_NEW) (BIT COROUTINE_STATUS_READY).
Definition ST_PARKED : Z := Z.lor (BIT COROUTINE_FLAGS_ALLOCSTACKMEM) (BIT COROUTINE_STATUS_READY).

(** The part of a coroutine that its rounds do not change. *)
Definition co_fixed c c' : Prop :=
  co_arg c' = co_arg c /\ co_sched c' = co_sched c /\ co_cid c' = co_cid c /\
  co_sleep_usecs c' = co_sleep_usecs c.

(** The saved part of the stack. *)
Definition stack_saved c : Prop :=
  co_stack c <> NULL /\ 0 <= co_stack_size c <= depth /\
  length (co_stack_buf c) = Z.to_nat (co_stack_size c).
Definition stack_kept c : Prop := (co_stack c = NULL /\ co_stack_size c = 0) \/ stack_saved c.

(** Giving way between two rounds: the coroutine is parked. *)
Lemma yield_parks w s a c :
  w_sched w = Some s -> w_coros w !! a = Some c -> co_sched c <> NULL -> stack_room s -> stack_kept c ->
  co_status c = SETBIT (BIT COROUTINE_STATUS_RUNNING) COROUTINE_STATUS_READY \/
  co_status c = SETBIT ST_PARKED COROUTINE_STATUS_RUNNING ->
  exists c' k, exec (yield a) w = (SSwitch (SwapSched a) (atomic (set_flag a COROUTINE_STATUS_RUNNING)),
      with_co a c' (set_w_kern k w)) /\
    co_status c' = ST_PARKED /\ stack_saved c' /\ co_fixed c c' /\ trace k = trace (w_kern w) /\
    forall ep fd, os_registered k ep fd = os_registered (w_kern w) ep fd.
Proof.
  intros Hs Hc Hsc [Hsz Hlen] Hst Hfl. pose proof (stack_depth (w_kern w)) as Hd.
  assert (Hown : ownstack c = false) by (unfold ownstack; by destruct Hfl as [-> | ->]).
  assert (Hex : TESTBIT (co_status c) COROUTINE_STATUS_EXITED = false) by (by destruct Hfl as [-> | ->]).
  assert (Hchk : exists r, exec (checkstk a) w = (SDone r, w)).
  { apply (checkstk_run w s a c Hc Hsc Hs). split; rewrite Hown; [lia|]. intros _. split; [lia|].
    split; [|intros used; apply malloc_ok]. destruct Hst as [[_ ->]|[? _]]; [lia|done]. }
  destruct Hchk as [r Hchk].
  destruct (savestk_exact a c s w Hc Hown Hsc Hs) as (p & k & Hsv & Hp & Hk);
    [lia|lia| |intros used; apply malloc_ok|].
  { destruct Hst as [[_ ->]|[? _]]; [lia|done]. }
  eexists _, k. split.
  { unfold yield. rewrite exec_bind, Hchk, (exec_atomic_bind _ _ _ _ _ (test_co_run a _ c w Hc)), Hex.
    cbn [negb pwhen]. rewrite (exec_atomic_bind _ _ _ _ _ Hsv).
    erewrite exec_atomic_bind by (apply clr_flag_run, lookup_insert_eq). unfold with_co. simpl.
    rewrite insert_insert_eq. reflexivity. }
  split_and!; try done; simpl.
  - by destruct Hfl as [-> | ->].
  - split_and!; simpl; [done|lia..|]. unfold live_part. rewrite length_drop. lia.
  - destruct Hk as [-> | ->]; [done|apply trace_malloc].
  - destruct Hk as [-> | ->]; [done|]. intros ep fd. apply malloc_registered.
Qed.

(** The status of a task that runs, for the first time or again. *)
Definition runs_flags c : Prop :=
  co_status c = BIT COROUTINE_STATUS_RUNNING \/
  co_status c = SETBIT (BIT COROUTINE_FLAGS_ALLOCSTACKMEM) COROUTINE_STATUS_RUNNING.

(** A task as it runs. *)
Record runs w s (q : list Z * list Z) a c : Prop := {
  rn_ok : sched_ok w s q;
  rn_sched : w_sched w = Some s;
  rn_curr : s_curr_thread s = a;
  rn_co : w_coros w !! a = Some c;
  rn_bound : co_sched c <> NULL;
  rn_flags : runs_flags c;
  rn_stack : stack_room s /\ stack_kept c;
  rn_queue : a ∉ queued q
}.

Lemma runs_not_null w s q a c : runs w s q a c -> a <> NULL.
Proof. intros [Hok _ _ Hc _ _ _ _] ->. by rewrite (ok_null _ _ _ Hok) in Hc. Qed.

(** The last round: the task exits. *)
Lemma last_round w s q a c arg :
  runs w s q a c ->
  exists k' c' k, exec (task_body a 0 arg) w = (SSwitch (SwapSched a) k', with_co a c' (set_w_kern k w)) /\
    co_status c' = CLRBIT (SETBIT (co_status c) COROUTINE_STATUS_EXITED) COROUTINE_STATUS_RUNNING /\
    co_fixed c c' /\ trace k = trace (w_kern w) ++ [arg] /\ sched_ok (with_co a c' (set_w_kern k w)) s q.
Proof.
  intros [Hok Hs _ Hc Hsc Hfl [[Hsz Hlen] Hst] Hq]. destruct (work_run arg w) as (k & Hwork & Htr & Hreg).
  set (c1 := set_co_status (SETBIT (co_status c) COROUTINE_STATUS_EXITED) c).
  set (w1 := with_co a c1 (set_w_kern k w)).
  assert (Hc1 : w_coros w1 !! a = Some c1) by apply lookup_insert_eq.
  assert (Hown : ownstack c1 = false) by (unfold ownstack, c1; simpl; by destruct Hfl as [-> | ->]).
  assert (Hex : TESTBIT (co_status c1) COROUTINE_STATUS_EXITED = true)
    by (unfold c1; simpl; by destruct Hfl as [-> | ->]).
  pose proof (stack_depth (w_kern w1)) as Hd.
  destruct (checkstk_run w1 s a c1) as [r Hchk]; [done..| |].
  { split; rewrite Hown; [lia|]. intros _. split; [lia|]. split; [|intros used; apply malloc_ok].
    simpl. destruct Hst as [[_ ->]|[? _]]; [simpl in *; lia|done]. }
  eexists _, (set_co_status (CLRBIT (co_status c1) COROUTINE_STATUS_RUNNING) c1), k. split_and!; try done.
  - unfold task_body. cbn [cooperative]. rewrite (exec_atomic_bind _ _ _ _ _ Hwork).
    erewrite exec_atomic_bind by (apply set_flag_run; exact Hc). unfold yield.
    rewrite exec_bind. change (set_w_coros _ _) with w1. rewrite Hchk.
    rewrite (exec_atomic_bind _ _ _ _ _ (test_co_run a _ c1 w1 Hc1)), Hex. cbn [negb pwhen pbind].
    erewrite exec_atomic_bind by (apply clr_flag_run; exact Hc1). unfold w1, with_co. simpl.
    rewrite insert_insert_eq. reflexivity.
  - eapply (sched_ok_co (set_w_kern k w)); [by apply sched_ok_kern|done| |done].
    unfold co_stable, sleeping_flag, waiting_flag, c1. simpl. by destruct Hfl as [-> | ->].
Qed.

Lemma resumes_after_yield a n arg :
  resumes_as a (pbind (pbind (atomic (set_flag a COROUTINE_STATUS_RUNNING)) (fun _ => cooperative n arg))
    (fun _ => do! atomic (set_flag a COROUTINE_STATUS_EXITED); yield a)) n arg.
Proof.
  intros w c Hc. unfold task_body. rewrite !exec_bind, exec_atomic.
  by rewrite (set_flag_run a _ c w Hc).
Qed.

(** Another round: the task is parked at the end of the queue. *)
Lemma next_round w s q a c n arg :
  runs w s q a c ->
  exists k' w' s' c', exec (task_body a (S n) arg) w = (SSwitch (SwapSched a) k', w') /\
    resumes_as a k' n arg /\ w_sched w' = Some s' /\ w_coros w' = <[a := c']> (w_coros w) /\
    sched_ok w' s' (append c a q) /\ co_status c' = ST_PARKED /\ stack_saved c' /\ co_fixed c c' /\
    trace (w_kern w') = trace (w_kern w) ++ [arg] /\
    s' = set_s_queues (TAILQ_INSERT_TAIL (s_queues s) (queue_of c) a) s.
Proof.
  intros Hr. pose proof (runs_not_null _ _ _ _ _ Hr) as Ha. destruct Hr as [Hok Hs Hcur Hc Hsc Hfl [Hroom Hst] Hq].
  destruct (work_run arg w) as (k & Hwork & Htr & Hreg). set (w1 := set_w_kern k w).
  assert (Hok1 : sched_ok w1 s q) by (by apply sched_ok_kern).
  destruct (make_ready_ok w1 s q a c Hok1 Hs Hc Hq) as (w2 & s2 & Hmr & Hs2 & Hok2 & Hk2 & Hcos2 & _).
  pose proof (make_ready_run w1 s a c Hs Hc) as Hmr'. rewrite Hmr in Hmr'. injection Hmr' as Hw2.
  assert (Hs2' : s2 = set_s_queues (TAILQ_INSERT_TAIL (s_queues s) (queue_of c) a) s).
  { rewrite Hw2 in Hs2. by injection Hs2. }
  assert (Hc2 : w_coros w2 !! a = Some (mark_ready c)) by (rewrite Hcos2; apply lookup_insert_eq).
  destruct (yield_parks w2 s2 a (mark_ready c)) as (c' & k2 & Hy & Hst' & Hsv & Hfix & Htr2 & Hreg2); try done.
  { by rewrite Hs2'. }
  { unfold mark_ready. simpl. destruct Hfl as [-> | ->]; [by left|by right]. }
  eexists _, (with_co a c' (set_w_kern k2 w2)), s2, c'. split_and!; try done.
  - unfold task_body. rewrite exec_bind. cbn [cooperative]. rewrite (exec_atomic_bind _ _ _ _ _ Hwork).
    rewrite exec_bind. unfold dyco_coroutine_sleep.
    rewrite (exec_atomic_bind must_curr _ w1 a w1).
    2: { unfold must_curr. mrun. change (w_sched w1) with (w_sched w). rewrite Hs, Hcur. by destruct (Z.eqb_spec a NULL). }
    rewrite (exec_atomic_bind _ _ _ _ _ (test_co_run a _ c w1 Hc)).
    assert (TESTBIT (co_status c) COROUTINE_FLAGS_ASYMMETRIC = false) as -> by (by destruct Hfl as [-> | ->]).
    rewrite (exec_atomic_bind (DYCO_MUSTNOT false) _ w1 tt w1) by done.
    cbn [Z.eqb]. rewrite (exec_atomic_bind _ _ _ _ _ Hmr), Hy. reflexivity.
  - apply resumes_after_yield.
  - simpl. rewrite Hcos2. simpl. by rewrite insert_insert_eq.
  - eapply (sched_ok_co (set_w_kern k2 w2)); [by apply sched_ok_kern|exact Hc2| |].
    + destruct Hfix as (_ & Hf1 & Hf2 & Hf3). unfold co_stable, sleeping_flag, waiting_flag.
      rewrite Hst', Hf1, Hf2, Hf3. simpl. by destruct Hfl as [-> | ->].
    + intros _. unfold ready_flag. by rewrite Hst'.
  - simpl. rewrite Htr2, Hk2. done.
Qed.

(** ** A resumption *)

(** What of the scheduler the rounds leave alone. *)
Definition same_sched s s' : Prop :=
  s_status s' = s_status s /\ s_sleeping s' = s_sleeping s /\ s_fd_co_map s' = s_fd_co_map s /\
  s_stack_size s' = s_stack_size s /\ length (s_stack s') = length (s_stack s).

(** A task that has been taken off the queue. *)
Definition pending m a c (n : nat) (arg : Z) : Prop :=
  (co_status c = BIT COROUTINE_STATUS_NEW /\ rounds (co_func c) = n /\ co_arg c = arg /\
   co_stack c = NULL /\ co_stack_size c = 0) \/
  (co_status c = BIT COROUTINE_FLAGS_ALLOCSTACKMEM /\ stack_saved c /\
   exists k, m_ctx m !! a = Some k /\ resumes_as a k n arg).

(** [resume] from the switch to the coroutine on. *)
Definition resume_rest (fuel : nat) (co : addr) : M machine Z :=
  swap_to coop_funcs fuel co ;;;
  let* back := schedcall_loop coop_funcs fuel co in
  if negb back then ret 1
  else
    in_world (
      upd_sched (set_s_curr_thread NULL) ;;;
      let* c := getco co in
      if TESTBIT (co_status c) COROUTINE_STATUS_KILLED then
        schedule_cancel_sleep co ;;;
        let* _ := htable_delete_with_freecb NULL get_cid_table set_cid_table
                    (fun a => a =? NULL) coro_abort (co_cid c) in
        ret (-1)
      else if TESTBIT (co_status c) COROUTINE_STATUS_EXITED then
        schedule_cancel_sleep co ;;;
        (if TESTBIT (co_status c) COROUTINE_FLAGS_INCOROPOOL
         then dyco_coropool_return co else freecoro co) ;;;
        ret (-1)
      else ret 0).

Definition enter (co : addr) : M world unit :=
  let* _ := co_sched_of co in
  upd_co co (fun c => set_co_sched_count (u32 (co_sched_count c + 1)) c) ;;;
  upd_sched (set_s_curr_thread co).

Lemma in_world_ok {A} (x : M world A) m (y : A) w' :
  x (m_world m) = Ok (y, w') -> in_world x m = Ok (y, mk_machine w' (m_ctx m) (m_ret m)).
Proof. unfold in_world. by intros ->. Qed.

Lemma resume_split fuel a m b m1 m2 :
  in_world (test_co a COROUTINE_STATUS_NEW) m = Ok (b, m) ->
  (if b : bool then init_coro coop_funcs a else in_world (loadstk a)) m = Ok (tt, m1) ->
  in_world (enter a) m1 = Ok (tt, m2) -> resume coop_funcs fuel a m = resume_rest fuel a m2.
Proof.
  intros H1 H2 H3. unfold resume. rewrite (bind_ok _ _ _ _ _ H1), (bind_ok _ _ _ _ _ H2).
  rewrite (bind_ok _ _ _ _ _ H3). reflexivity.
Qed.

(** The machine in which the coroutine starts to run. *)
Record entered m s q a c (n : nat) (arg : Z) m2 w2 s2 c2 : Prop := {
  en_ctx : exists p, m_ctx m2 !! a = Some p /\ exec p (m_world m2) = exec (task_body a n arg) w2;
  en_others b : b <> a -> m_ctx m2 !! b = m_ctx m !! b;
  en_runs : runs w2 s2 q a c2;
  en_same : same_sched s s2;
  en_kern : w_kern w2 = w_kern (m_world m);
  en_coros : w_coros w2 = <[a := c2]> (w_coros (m_world m));
  en_fixed : co_fixed c c2
}.

Lemma enter_run w s a c :
  w_sched w = Some s -> w_coros w !! a = Some c -> co_sched c <> NULL ->
  enter a w = Ok (tt, set_w_sched (Some (set_s_curr_thread a s))
    (with_co a (set_co_sched_count (u32 (co_sched_count c + 1)) c) w)).
Proof. intros Hs Hc Hsc. unfold enter. mrun. mrun. by erewrite upd_sched_run by done. Qed.

(** The coroutine as it runs, from its state [c0] after [init_coro] or
    [loadstk]. *)
Definition launched c0 : dyco_coroutine :=
  mark_running (set_co_sched_count (u32 (co_sched_count c0 + 1)) c0).

Lemma enter_entered m s q a c n arg m1 c0 s0 :
  let w := m_world m in
  sched_ok w s q -> w_coros w !! a = Some c -> co_sched c <> NULL -> a ∉ queued q ->
  m_world m1 = set_w_sched (Some s0) (with_co a c0 w) -> (forall b, b <> a -> m_ctx m1 !! b = m_ctx m !! b) ->
  sched_ok (with_co a c0 w) s0 q -> same_sched s s0 -> stack_room s0 -> stack_kept c0 -> co_fixed c c0 ->
  runs_flags (launched c0) ->
  (exists p, m_ctx m1 !! a = Some p /\ forall w c1, w_coros w !! a = Some c1 -> co_func c1 = co_func c0 ->
    co_arg c1 = co_arg c0 -> exec p w = exec (task_body a n arg) (with_co a (mark_running c1) w)) ->
  exists m2 w2 s2, in_world (enter a) m1 = Ok (tt, m2) /\ entered m s q a c n arg m2 w2 s2 (launched c0).
Proof.
  intros w Hok Hc Hsc Hq Hw1 Hctx Hok0 Hss Hroom Hst Hfix Hfl (p & Hp & Hexec).
  assert (Hc0 : w_coros (m_world m1) !! a = Some c0) by (rewrite Hw1; apply lookup_insert_eq).
  destruct Hfix as (Hf1 & Hf2 & Hf3 & Hf4).
  pose proof (enter_run (m_world m1) s0 a c0) as Hen. rewrite Hw1 in Hen at 1.
  specialize (Hen eq_refl Hc0 ltac:(by rewrite Hf2)).
  eexists _, (with_co a (launched c0) (set_w_sched (Some (set_s_curr_thread a s0)) w)), (set_s_curr_thread a s0).
  split; [by apply in_world_ok|]. rewrite Hw1. split; try done.
  - exists p. split; [done|]. cbn [m_world]. erewrite Hexec; [|apply lookup_insert_eq|done..].
    unfold with_co, launched. simpl. by rewrite !insert_insert_eq.
  - split; try done; [|apply lookup_insert_eq|].
    + apply (sched_ok_sched (with_co a (launched c0) w)).
      apply (sched_ok_irrel _ s0); try done.
      replace (with_co a (launched c0) w) with (with_co a (launched c0) (with_co a c0 w))
        by (unfold with_co; simpl; by rewrite insert_insert_eq).
      eapply sched_ok_co; [done|apply lookup_insert_eq| |done]. split_and!; try done.
      all: unfold sleeping_flag, waiting_flag; simpl; by rewrite TESTBIT_SETBIT.
    + simpl. congruence.
Qed.

Lemma with_co_id w a c : w_coros w !! a = Some c -> with_co a c w = w.
Proof. intros Hc. unfold with_co. rewrite insert_id by done. by destruct w. Qed.

Lemma execute_body a n arg c0 w c1 :
  w_coros w !! a = Some c1 -> co_func c1 = co_func c0 -> co_arg c1 = co_arg c0 ->
  rounds (co_func c0) = n -> co_arg c0 = arg ->
  exec (execute coop_funcs a) w = exec (task_body a n arg) (with_co a (mark_running c1) w).
Proof.
  intros Hc1 Hf Ha <- <-. unfold execute. rewrite (exec_atomic_bind _ _ _ _ _ (set_flag_run a _ c1 w Hc1)).
  erewrite exec_atomic_bind by (apply getco_run, lookup_insert_eq). cbn [co_func co_arg set_co_status].
  unfold coop_funcs, task_body. by rewrite Hf, Ha.
Qed.

Lemma resume_enters fuel m s q a c n arg :
  let w := m_world m in
  sched_ok w s q -> w_sched w = Some s -> w_coros w !! a = Some c -> co_sched c <> NULL -> a ∉ queued q ->
  stack_room s -> pending m a c n arg ->
  exists m2 w2 s2 c2, resume coop_funcs fuel a m = resume_rest fuel a m2 /\
    entered m s q a c n arg m2 w2 s2 c2.
Proof.
  intros w Hok Hs Hc Hsc Hq Hroom Hp.
  assert (Hm : m = mk_machine w (m_ctx m) (m_ret m)) by (by destruct m).
  assert (Hnew : in_world (test_co a COROUTINE_STATUS_NEW) m = Ok (TESTBIT (co_status c) COROUTINE_STATUS_NEW, m))
    by (rewrite Hm at 2; by apply in_world_ok, test_co_run).
  destruct Hp as [(Hst & Hn & Harg & Hsk & Hsz)|(Hst & Hsv & k & Hk & Hres)].
  - set (c0 := set_co_status (CLRBIT (co_status c) COROUTINE_STATUS_NEW) c).
    set (m1 := mk_machine (with_co a c0 w) (<[a := execute coop_funcs a]> (m_ctx m)) (m_ret m)).
    destruct (enter_entered m s q a c n arg m1 c0 s) as (m2 & w2 & s2 & Hen & He); try done.
    { simpl. by rewrite <- Hs. }
    { intros b Hb. simpl. by rewrite lookup_insert_ne. }
    { eapply sched_ok_co; [done|exact Hc| |done]. unfold co_stable, sleeping_flag, waiting_flag. simpl.
      by rewrite !TESTBIT_CLRBIT. }
    { by left. }
    { left. simpl. by rewrite Hst. }
    { exists (execute coop_funcs a). split; [apply lookup_insert_eq|]. intros w1 c1 Hc1 Hf Ha.
      by apply (execute_body a n arg c0). }
    exists m2, w2, s2, (launched c0). split; [|done].
    apply (resume_split fuel a m _ m1 m2 Hnew); [|done]. rewrite Hst.
    change (init_coro coop_funcs a m = Ok (tt, m1)).
    unfold init_coro. erewrite bind_ok by reflexivity.
    change m1 with (mk_machine (m_world m1) (m_ctx (save_ctx a (execute coop_funcs a) m)) (m_ret m)).
    apply (in_world_ok _ (save_ctx a (execute coop_funcs a) m)). by apply clr_flag_run.
  - destruct Hsv as (Hsk & Hsz & Hbuf). destruct Hroom as [Hdep Hlen].
    assert (Hn : (Z.to_nat (co_stack_size c) <= length (s_stack s))%nat) by lia.
    assert (Hown : ownstack c = false) by (unfold ownstack; by rewrite Hst).
    pose proof (loadstk_run a c s w Hc Hown Hsc Hs Hn) as Hload. set (s0 := set_s_stack _ s) in Hload.
    assert (Hl0 : length (s_stack s0) = length (s_stack s)).
    { simpl. rewrite length_app, !length_take, Hbuf. lia. }
    set (m1 := mk_machine (set_w_sched (Some s0) w) (m_ctx m) (m_ret m)).
    destruct (enter_entered m s q a c n arg m1 c s0) as (m2 & w2 & s2 & Hen & He); try done.
    { by rewrite with_co_id. }
    { rewrite with_co_id by done. by apply (sched_ok_irrel _ s). }
    { split; [done|]. by rewrite Hl0. }
    { by right. }
    { right. simpl. by rewrite Hst. }
    { exists k. split; [done|]. intros w1 c1 Hc1 _ _. by apply Hres. }
    exists m2, w2, s2, (launched c). split; [|done].
    apply (resume_split fuel a m _ m1 m2 Hnew); [|done]. rewrite Hst. by apply in_world_ok.
Qed.

(** ** A round *)

Lemma same_sched_trans s1 s2 s3 : same_sched s1 s2 -> same_sched s2 s3 -> same_sched s1 s3.
Proof. unfold same_sched. intuition congruence. Qed.

(** What a round of the task at [a] with argument [arg] does, whether it is the
    last or not. *)
Record round m s (q : list Z * list Z) a (arg : Z) m' s' : Prop := {
  rd_sched : w_sched (m_world m') = Some s';
  rd_ok : sched_ok (m_world m') s' q;
  rd_same : same_sched s s';
  rd_trace : trace (w_kern (m_world m')) = trace (w_kern (m_world m)) ++ [arg];
  rd_ctx b : b <> a -> m_ctx m' !! b = m_ctx m !! b
}.

(** The switch to the coroutine and back. *)
Lemma swap_round fuel m s q a c n arg m2 w2 s2 c2 k' w' c' :
  entered m s q a c n arg m2 w2 s2 c2 ->
  exec (task_body a n arg) w2 = (SSwitch (SwapSched a) k', w') ->
  w_coros w' !! a = Some c' -> TESTBIT (co_status c') COROUTINE_STATUS_SCHEDCALL = false ->
  let m3 := save_ctx a k' (mk_machine w' (m_ctx m2) (m_ret m2)) in
  swap_to coop_funcs (S fuel) a m2 = Ok (tt, m3) /\ schedcall_loop coop_funcs (S fuel) a m3 = Ok (true, m3).
Proof.
  intros [(p & Hp & Hexec) _ _ _ _ _ _] Hx Hc' Hsc m3. split.
  - unfold swap_to, bind, get_st, gets. rewrite Hp. cbn [run_until_sched]. by rewrite Hexec, Hx.
  - cbn [schedcall_loop]. erewrite bind_ok by (by apply (in_world_ok _ m3), test_co_run). by rewrite Hsc.
Qed.

Lemma co_fixed_trans c1 c2 c3 : co_fixed c1 c2 -> co_fixed c2 c3 -> co_fixed c1 c3.
Proof. unfold co_fixed. intuition congruence. Qed.

Lemma resume_next_round fuel m s q a c n arg :
  let w := m_world m in
  sched_ok w s q -> w_sched w = Some s -> w_coros w !! a = Some c -> co_sched c <> NULL -> a ∉ queued q ->
  stack_room s -> pending m a c (S n) arg ->
  exists m' s' c' k', resume coop_funcs (S fuel) a m = Ok (0, m') /\
    round m s (q.1, q.2 ++ [a]) a arg m' s' /\ w_coros (m_world m') = <[a := c']> (w_coros w) /\
    co_fixed c c' /\ co_status c' = ST_PARKED /\ stack_saved c' /\
    m_ctx m' !! a = Some k' /\ resumes_as a k' n arg.
Proof.
  intros w Hok Hs Hc Hsc Hq Hroom Hp.
  destruct (resume_enters (S fuel) m s q a c (S n) arg Hok Hs Hc Hsc Hq Hroom Hp)
    as (m2 & w2 & s2 & c2 & Hres & Hen).
  destruct (next_round w2 s2 q a c2 n arg (en_runs _ _ _ _ _ _ _ _ _ _ _ Hen))
    as (k' & w' & s' & c' & Hx & Hra & Hs' & Hcos & Hok' & Hst & Hsv & Hfix & Htr & ->).
  assert (Hc' : w_coros w' !! a = Some c') by (rewrite Hcos; apply lookup_insert_eq).
  destruct (swap_round fuel _ _ _ _ _ _ _ _ _ _ _ _ _ _ Hen Hx Hc') as [Hsw Hsl]; [by rewrite Hst|].
  set (m3 := save_ctx a k' _) in *. set (s' := set_s_queues _ _) in *.
  set (w3 := set_w_sched (Some (set_s_curr_thread NULL s')) w').
  assert (Hq' : append c2 a q = (q.1, q.2 ++ [a])).
  { destruct (en_runs _ _ _ _ _ _ _ _ _ _ _ Hen) as [_ _ _ _ _ Hfl _ _]. unfold append, queue_of, urgent_flag.
    by destruct Hfl as [-> | ->]. }
  exists (mk_machine w3 (m_ctx m3) (m_ret m3)), (set_s_curr_thread NULL s'), c', k'. split_and!; try done.
  - rewrite Hres. unfold resume_rest. rewrite (bind_ok _ _ _ _ _ Hsw), (bind_ok _ _ _ _ _ Hsl).
    cbn [negb]. apply in_world_ok. change (m_world m3) with w'.
    erewrite bind_ok by (by apply upd_sched_run). erewrite bind_ok by (by apply getco_run).
    by rewrite Hst.
  - split; simpl; try done.
    + rewrite <- Hq'. apply (sched_ok_sched w'). by apply (sched_ok_irrel _ s').
    + eapply same_sched_trans; [apply Hen|]. done.
    + rewrite Htr. do 2 f_equal. apply Hen.
    + intros b Hb. rewrite lookup_insert_ne by done. by apply Hen.
  - simpl. rewrite Hcos, (en_coros _ _ _ _ _ _ _ _ _ _ _ Hen). apply insert_insert_eq.
  - eapply co_fixed_trans; [apply Hen|done].
  - apply lookup_insert_eq.
Qed.

Lemma resume_last_round fuel m s q a c arg :
  let w := m_world m in
  sched_ok w s q -> w_sched w = Some s -> w_coros w !! a = Some c -> co_sched c <> NULL -> a ∉ queued q ->
  co_cid c <> 0 -> co_cid c <> -1 -> stack_room s -> pending m a c 0 arg ->
  exists m' s', resume coop_funcs (S fuel) a m = Ok (-1, m') /\ round m s q a arg m' s' /\
    w_coros (m_world m') = delete a (w_coros w).
Proof.
  intros w Hok Hs Hc Hsc Hq Hid0 Hid1 Hroom Hp.
  destruct (resume_enters (S fuel) m s q a c 0 arg Hok Hs Hc Hsc Hq Hroom Hp)
    as (m2 & w2 & s2 & c2 & Hres & Hen).
  pose proof (en_runs _ _ _ _ _ _ _ _ _ _ _ Hen) as Hrun.
  destruct (last_round w2 s2 q a c2 arg Hrun) as (k' & c' & k & Hx & Hst & Hfix & Htr & Hok').
  set (w' := with_co a c' (set_w_kern k w2)) in *.
  assert (Hc' : w_coros w' !! a = Some c') by apply lookup_insert_eq.
  assert (Hfl : co_status c' = BIT COROUTINE_STATUS_EXITED \/
                co_status c' = SETBIT (BIT COROUTINE_FLAGS_ALLOCSTACKMEM) COROUTINE_STATUS_EXITED)
    by (rewrite Hst; destruct (rn_flags _ _ _ _ _ Hrun) as [-> | ->]; [by left|by right]).
  destruct (swap_round fuel _ _ _ _ _ _ _ _ _ _ _ _ _ _ Hen Hx Hc') as [Hsw Hsl];
    [by destruct Hfl as [-> | ->]|].
  set (m3 := save_ctx a k' _) in *.
  set (s3 := set_s_curr_thread NULL s2). set (w3 := set_w_sched (Some s3) w').
  assert (Hfx : co_fixed c c') by (eapply co_fixed_trans; [apply Hen|done]). destruct Hfx as (_ & Hf1 & Hf2 & _).
  assert (Hok3 : sched_ok w3 s3 q) by (apply (sched_ok_sched w'); by apply (sched_ok_irrel _ s2)).
  destruct (freecoro_run w3 s3 q a c' Hok3 eq_refl Hc') as (h & Hh & Hfree & Hok4); [congruence..| | | | |done|];
    try (by unfold sleeping_flag, waiting_flag, io_flag, signal_flag; destruct Hfl as [-> | ->]).
  eexists (mk_machine _ (m_ctx m3) (m_ret m3)), _. split_and!.
  - rewrite Hres. unfold resume_rest. rewrite (bind_ok _ _ _ _ _ Hsw), (bind_ok _ _ _ _ _ Hsl).
    cbn [negb]. apply in_world_ok. change (m_world m3) with w'.
    erewrite bind_ok by (apply upd_sched_run; exact (rn_sched _ _ _ _ _ Hrun)). erewrite bind_ok by (by apply getco_run).
    assert (TESTBIT (co_status c') COROUTINE_STATUS_KILLED = false) as -> by (by destruct Hfl as [-> | ->]).
    assert (TESTBIT (co_status c') COROUTINE_STATUS_EXITED = true) as -> by (by destruct Hfl as [-> | ->]).
    assert (TESTBIT (co_status c') COROUTINE_FLAGS_INCOROPOOL = false) as -> by (by destruct Hfl as [-> | ->]).
    erewrite (bind_ok (schedule_cancel_sleep a)).
    2: { unfold schedule_cancel_sleep. erewrite bind_ok by (by apply test_co_run).
      assert (TESTBIT (co_status c') COROUTINE_STATUS_SLEEPING = false) as -> by (by destruct Hfl as [-> | ->]).
      reflexivity. }
    rewrite (bind_ok _ _ _ _ _ Hfree). reflexivity.
  - split; simpl; try done.
    + eapply same_sched_trans; [apply Hen|done].
    + rewrite Htr. do 2 f_equal. apply Hen.
    + intros b Hb. rewrite lookup_insert_ne by done. by apply Hen.
  - simpl. rewrite delete_insert_eq, (en_coros _ _ _ _ _ _ _ _ _ _ _ Hen). apply delete_insert_eq.
Qed.

(** ** The ready queue *)

(** A queued task, new or parked. *)
Definition task_ok m t : Prop :=
  exists c, w_coros (m_world m) !! t_co t = Some c /\ co_sched c <> NULL /\ co_cid c <> 0 /\ co_cid c <> -1 /\
  ((co_status c = ST_NEW /\ rounds (co_func c) = t_rounds t /\ co_arg c = t_arg t /\
    co_stack c = NULL /\ co_stack_size c = 0) \/
   (co_status c = ST_PARKED /\ stack_saved c /\
    exists k, m_ctx m !! t_co t = Some k /\ resumes_as (t_co t) k (t_rounds t) (t_arg t))).

(** The scheduler has the tasks [l] and no other work; [B] are the other
    coroutines. *)
Record tasks_inv (B : gmap Z dyco_coroutine) m s l : Prop := {
  ti_sched : w_sched (m_world m) = Some s;
  ti_ok : sched_ok (m_world m) s ([], t_co <$> l);
  ti_tasks : Forall (task_ok m) l;
  ti_rest a : a ∉ t_co <$> l -> w_coros (m_world m) !! a = B !! a;
  ti_base : Forall (fun t => B !! t_co t = None) l;
  ti_timers : view s = ∅;
  ti_waits : count (s_fd_co_map s) = 0;
  ti_room : stack_room s
}.

Lemma task_ok_frame m m' t :
  w_coros (m_world m') !! t_co t = w_coros (m_world m) !! t_co t -> m_ctx m' !! t_co t = m_ctx m !! t_co t ->
  task_ok m t -> task_ok m' t.
Proof. unfold task_ok. by intros -> ->. Qed.

(** The task at the head of the queue, taken off it. *)
Lemma dequeue_run B m s t l :
  tasks_inv B m s (t :: l) ->
  exists m1 s1 c1,
    (in_world (upd_sched (fun s => set_s_queues (TAILQ_REMOVE (s_queues s) ready (t_co t)) s)) ;;;
     in_world (clr_flag (t_co t) COROUTINE_STATUS_READY)) m = Ok (tt, m1) /\
    w_sched (m_world m1) = Some s1 /\ sched_ok (m_world m1) s1 ([], t_co <$> l) /\
    w_coros (m_world m1) = <[t_co t := c1]> (w_coros (m_world m)) /\ same_sched s s1 /\
    w_kern (m_world m1) = w_kern (m_world m) /\ m_ctx m1 = m_ctx m /\
    co_sched c1 <> NULL /\ co_cid c1 <> 0 /\ co_cid c1 <> -1 /\ pending m1 (t_co t) c1 (t_rounds t) (t_arg t).
Proof.
  intros [Hs Hok Htasks _ _ _ _ _]. apply Forall_cons in Htasks as [(c & Hc & Hsc & H0 & H1 & Hst) _].
  set (a := t_co t) in *. set (w := m_world m) in *.
  set (s1 := set_s_queues (TAILQ_REMOVE (s_queues s) ready a) s). set (w1 := set_w_sched (Some s1) w).
  set (c1 := set_co_status (CLRBIT (co_status c) COROUTINE_STATUS_READY) c).
  assert (Hnd : a ∉ t_co <$> l) by (destruct (ok_queues _ _ _ Hok) as [_ _ Hnd]; by apply NoDup_cons in Hnd as [? _]).
  assert (Hok1 : sched_ok w1 s1 ([], t_co <$> l)).
  { apply (sched_ok_sched w). apply (sched_ok_queues w s ([], a :: (t_co <$> l))); [done| | |].
    - by apply (rep2_remove_first _ _ ready _ _ (ok_queues _ _ _ Hok)).
    - intros b. eapply remove_first_linked. exact (rep2_of _ _ ready (ok_queues _ _ _ Hok)).
    - intros b Hb. apply (ok_queued _ _ _ Hok). by right. }
  exists (mk_machine (with_co a c1 w1) (m_ctx m) (m_ret m)), s1, c1. split_and!; try done.
  - erewrite bind_ok by (by apply in_world_ok, upd_sched_run).
    apply (in_world_ok _ (mk_machine w1 (m_ctx m) (m_ret m))). by apply clr_flag_run.
  - eapply sched_ok_co; [done|exact Hc| |done]. unfold co_stable, sleeping_flag, waiting_flag. simpl.
    by rewrite !TESTBIT_CLRBIT.
  - destruct Hst as [(Hst & Hrest)|(Hst & Hrest)]; [left|right]; split; try done; simpl; by rewrite Hst.
Qed.

(** The invariant after a round of the first task, which is back as [l']. *)
Lemma round_inv B m s t l l' m1 s1 m' s' arg :
  tasks_inv B m s (t :: l) -> same_sched s s1 -> m_ctx m1 = m_ctx m ->
  round m1 s1 ([], t_co <$> (l ++ l')) (t_co t) arg m' s' ->
  (forall b, b <> t_co t -> w_coros (m_world m') !! b = w_coros (m_world m) !! b) ->
  Forall (task_ok m') l' -> Forall (fun t' => t_co t' = t_co t) l' ->
  (l' = [] -> w_coros (m_world m') !! t_co t = None) -> tasks_inv B m' s' (l ++ l').
Proof.
  intros [Hs Hok Htasks Hrest Hbase Hv Hw [Hr1 Hr2]] Hsm1 Hctx [Hs' Hok' Hsm2 _ Hctx'] Hcos Htl' Hal' Hnil.
  pose proof (same_sched_trans _ _ _ Hsm1 Hsm2) as (Hsm3 & Hsm4 & Hsm5 & Hsm6 & Hsm7).
  apply Forall_cons in Htasks as [_ Htasks], Hbase as [Hb0 Hbase].
  assert (Hnd : t_co t ∉ t_co <$> l) by (destruct (ok_queues _ _ _ Hok) as [_ _ Hnd]; by apply NoDup_cons in Hnd as [? _]).
  split; try done.
  - apply Forall_app. split; [|done]. rewrite Forall_forall in *. intros u Hu.
    assert (t_co u <> t_co t) by (intros Hut; apply Hnd; rewrite <- Hut; by apply list_elem_of_fmap_2).
    apply (task_ok_frame m); [by apply Hcos|by rewrite Hctx', Hctx|by apply Htasks].
  - intros a Ha. rewrite fmap_app, elem_of_app in Ha. destruct (decide (a = t_co t)) as [->|Hne].
    + destruct l' as [|u l']; [by rewrite Hnil|]. exfalso. apply Ha. right.
      apply Forall_cons in Hal' as [<- _]. left.
    + rewrite Hcos by done. apply Hrest. rewrite fmap_cons, elem_of_cons. tauto.
  - apply Forall_app. split; [done|]. eapply Forall_impl; [exact Hal'|]. by intros u ->.
  - unfold view. rewrite Hsm4. exact Hv.
  - by rewrite Hsm5.
  - unfold stack_room. by rewrite Hsm6, Hsm7.
Qed.

Lemma queue_round fuel B m s t l :
  tasks_inv B m s (t :: l) ->
  exists r m' s',
    (in_world (upd_sched (fun s => set_s_queues (TAILQ_REMOVE (s_queues s) ready (t_co t)) s)) ;;;
     in_world (clr_flag (t_co t) COROUTINE_STATUS_READY) ;;; resume coop_funcs (S fuel) (t_co t)) m = Ok (r, m') /\
    tasks_inv B m' s' (l ++ requeue t) /\ s_status s' = s_status s /\
    trace (w_kern (m_world m')) = trace (w_kern (m_world m)) ++ [t_arg t].
Proof.
  intros HI. destruct (dequeue_run B m s t l HI)
    as (m1 & s1 & c1 & Hdq & Hs1 & Hok1 & Hcos & Hsm & Hk1 & Hctx & Hsc & H0 & H1 & Hp).
  assert (Hnd : t_co t ∉ queued ([], t_co <$> l)).
  { destruct (ok_queues _ _ _ (ti_ok _ _ _ _ HI)) as [_ _ Hnd]. by apply NoDup_cons in Hnd as [? _]. }
  assert (Hroom : stack_room s1).
  { destruct (ti_room _ _ _ _ HI), Hsm as (_ & _ & _ & Hz & Hl). unfold stack_room. by rewrite Hz, Hl. }
  assert (Hc1 : w_coros (m_world m1) !! t_co t = Some c1) by (rewrite Hcos; apply lookup_insert_eq).
  assert (Hrun : forall r m', resume coop_funcs (S fuel) (t_co t) m1 = Ok (r, m') ->
    (in_world (upd_sched (fun s => set_s_queues (TAILQ_REMOVE (s_queues s) ready (t_co t)) s)) ;;;
     in_world (clr_flag (t_co t) COROUTINE_STATUS_READY) ;;; resume coop_funcs (S fuel) (t_co t)) m = Ok (r, m')).
  { intros r m' Hr. apply bind_inv in Hdq as ([] & m0 & H2 & H3).
    by rewrite (bind_ok _ _ _ _ _ H2), (bind_ok _ _ _ _ _ H3). }
  unfold requeue. destruct (t_rounds t) as [|n].
  - destruct (resume_last_round fuel m1 s1 ([], t_co <$> l) (t_co t) c1 (t_arg t)) as (m' & s' & Hr & Hrd & Hcos'); try done.
    exists (-1), m', s'. split_and!; [by apply Hrun| | |].
    + eapply (round_inv B m s t l []); try done; [by rewrite app_nil_r|..].
      * intros b Hb. by rewrite Hcos', lookup_delete_ne, Hcos, lookup_insert_ne.
      * rewrite Hcos'. intros _. apply lookup_delete_eq.
    + destruct (rd_same _ _ _ _ _ _ _ Hrd) as [-> _]. apply Hsm.
    + rewrite (rd_trace _ _ _ _ _ _ _ Hrd). by rewrite Hk1.
  - destruct (resume_next_round fuel m1 s1 ([], t_co <$> l) (t_co t) c1 n (t_arg t))
      as (m' & s' & c' & k' & Hr & Hrd & Hcos' & Hfix & Hst & Hsv & Hk' & Hra); try done.
    exists 0, m', s'. split_and!; [by apply Hrun| | |].
    + eapply (round_inv B m s t l [mk_task (t_co t) (t_arg t) n]); try done; [by rewrite fmap_app| | |].
      * intros b Hb. by rewrite Hcos', lookup_insert_ne, Hcos, lookup_insert_ne.
      * apply Forall_singleton. destruct Hfix as (_ & Hf1 & Hf2 & _). exists c'. rewrite Hcos'. simpl.
        split_and!; [apply lookup_insert_eq|congruence..|]. right. by eauto.
      * by constructor.
    + destruct (rd_same _ _ _ _ _ _ _ Hrd) as [-> _]. apply Hsm.
    + rewrite (rd_trace _ _ _ _ _ _ _ Hrd). by rewrite Hk1.
Qed.

(** ** The phases of a turn *)

Lemma in_world_pure {A} (x : M world A) m (y : A) : x (m_world m) = Ok (y, m_world m) -> in_world x m = Ok (y, m).
Proof. intros H. unfold in_world. rewrite H. by destruct m. Qed.

Lemma in_world_sched m s : w_sched (m_world m) = Some s -> in_world the_sched m = Ok (s, m).
Proof. intros H. by apply in_world_pure, the_sched_run. Qed.

Lemma run_queue_empty fuel n h last_co m s :
  w_sched (m_world m) = Some s -> TAILQ_EMPTY (s_queues s) h = true ->
  run_queue coop_funcs fuel n h last_co m = Ok (None, m).
Proof.
  intros Hs He. destruct n; [done|]. cbn [run_queue]. rewrite (bind_ok _ _ _ _ _ (in_world_sched m s Hs)).
  by rewrite He.
Qed.

(** A step of phase C on a queue that starts with [t]. *)
Lemma run_queue_cons fuel n last_co B m s t l :
  tasks_inv B m s (t :: l) -> s_status s = SCHEDULE_STATUS_RUNNING ->
  exists m' s', run_queue coop_funcs (S fuel) (S n) ready last_co m =
      (if t_co t =? last_co then ret None else run_queue coop_funcs (S fuel) n ready last_co) m' /\
    tasks_inv B m' s' (l ++ requeue t) /\ s_status s' = SCHEDULE_STATUS_RUNNING /\
    trace (w_kern (m_world m')) = trace (w_kern (m_world m)) ++ [t_arg t].
Proof.
  intros HI Hst. pose proof (rep2_of _ _ ready (ok_queues _ _ _ (ti_ok _ _ _ _ HI))) as Hq. simpl in Hq.
  destruct (queue_round fuel B m s t l HI) as (r & m' & s' & Hrun & HI' & Hst' & Htr).
  apply bind_inv in Hrun as ([] & m1 & H1 & Hrun). apply bind_inv in Hrun as ([] & m2 & H2 & Hrun).
  exists m', s'. split_and!; [|done|congruence|done]. cbn [run_queue].
  rewrite (bind_ok _ _ _ _ _ (in_world_sched m s (ti_sched _ _ _ _ HI))), (rep_empty _ _ _ Hq), (rep_first _ _ _ Hq).
  rewrite (bind_ok _ _ _ _ _ H1), (bind_ok _ _ _ _ _ H2), (bind_ok _ _ _ _ _ Hrun).
  rewrite (bind_ok _ _ _ _ _ (in_world_sched m' s' (ti_sched _ _ _ _ HI'))).
  by rewrite Hst', Hst.
Qed.

(** Phase C makes a round of each of the first [n] tasks of the queue as it was
    at its start, [l0]; [l1] has been queued since. *)
Lemma run_queue_tasks fuel n B m s l0 l1 :
  tasks_inv B m s (l0 ++ l1) -> l0 <> [] -> s_status s = SCHEDULE_STATUS_RUNNING ->
  exists m' s', run_queue coop_funcs (S fuel) n ready (default NULL (last (t_co <$> l0))) m = Ok (None, m') /\
    tasks_inv B m' s' (drop n l0 ++ l1 ++ (take n l0 ≫= requeue)) /\ s_status s' = SCHEDULE_STATUS_RUNNING /\
    trace (w_kern (m_world m')) = trace (w_kern (m_world m)) ++ (t_arg <$> take n l0).
Proof.
  revert m s l0 l1. induction n as [|n IH]; intros m s l0 l1 HI Hl0 Hst.
  { exists m, s. by rewrite !app_nil_r. }
  destruct l0 as [|t l0]; [done|].
  destruct (run_queue_cons fuel n (default NULL (last (t_co <$> t :: l0))) B m s t (l0 ++ l1) HI Hst)
    as (m1 & s1 & Hrun & HI1 & Hst1 & Htr1). rewrite Hrun. clear Hrun.
  destruct (decide (l0 = [])) as [->|Hne].
  { simpl. rewrite Z.eqb_refl. exists m1, s1. rewrite take_nil, drop_nil. simpl.
    rewrite app_nil_r. done. }
  assert (Hlast : last (t_co <$> t :: l0) = last (t_co <$> l0)) by (destruct l0; done).
  destruct (last (t_co <$> l0)) as [b|] eqn:Hb; [|by destruct l0 using rev_ind; [|rewrite fmap_app, last_app in Hb]].
  destruct (Z.eqb_spec (t_co t) (default NULL (last (t_co <$> t :: l0)))) as [Heq|_].
  { exfalso. destruct (ok_queues _ _ _ (ti_ok _ _ _ _ HI)) as [_ _ Hnd].
    change (NoDup (t_co t :: (t_co <$> l0 ++ l1))) in Hnd. apply NoDup_cons in Hnd as [Hn _].
    apply Hn. rewrite Heq, Hlast, fmap_app. apply elem_of_app. left.
    apply last_Some in Hb as [l' ->]. apply elem_of_app. right. apply list_elem_of_singleton. done. }
  destruct (IH m1 s1 l0 (l1 ++ requeue t)) as (m' & s' & Hrun & HI' & Hst' & Htr'); try done.
  { by rewrite app_assoc. }
  exists m', s'. rewrite Hlast, <- Hb. split_and!; [done| |done|].
  - rewrite <- (app_assoc l1) in HI'. exact HI'.
  - rewrite Htr', Htr1. by rewrite <- app_assoc.
Qed.

Lemma tasks_inv_kern B m s l k :
  tasks_inv B m s l -> (forall ep fd, os_registered k ep fd = os_registered (w_kern (m_world m)) ep fd) ->
  tasks_inv B (mk_machine (set_w_kern k (m_world m)) (m_ctx m) (m_ret m)) s l.
Proof. intros [] Hk. split; try done. by apply sched_ok_kern. Qed.

Lemma no_sleepers s : st_wf (s_sleeping s) -> view s = ∅ -> rb_is_empty (s_sleeping s) = true.
Proof. intros Hwf Hv. rewrite rb_empty_law by done. by apply bool_decide_eq_true_2. Qed.

Lemma turn_refines fuel B m s l :
  tasks_inv B m s l -> l <> [] -> s_status s = SCHEDULE_STATUS_RUNNING ->
  exists m' s', sched_turn coop_funcs (S fuel) m = Ok (None, m') /\ tasks_inv B m' s' (turn l) /\
    s_status s' = SCHEDULE_STATUS_RUNNING /\
    trace (w_kern (m_world m')) = trace (w_kern (m_world m)) ++ (t_arg <$> take 128 l).
Proof.
  intros HI Hl Hst. pose proof (ti_sched _ _ _ _ HI) as Hs.
  pose proof (tm_wf _ _ (ok_timers _ _ _ (ti_ok _ _ _ _ HI))) as Hwf.
  set (k := (os_clock_gettime (w_kern (m_world m))).2).
  set (m1 := mk_machine (set_w_kern k (m_world m)) (m_ctx m) (m_ret m)).
  assert (HI1 : tasks_inv B m1 s l) by (apply tasks_inv_kern; [done|intros ep fd; apply clock_registered]).
  assert (Hpt : in_world probe_timers m = Ok (tt, m1)).
  { apply in_world_ok. unfold probe_timers. mrun. fold (view s). rewrite (ti_timers _ _ _ _ HI), map_size_empty.
    cbn [expire_loop]. by rewrite (bind_ok _ _ _ _ _ (get_expired_no_timer _ s Hs Hwf (ti_timers _ _ _ _ HI))). }
  pose proof (ok_queues _ _ _ (ti_ok _ _ _ _ HI1)) as Hq.
  assert (Hurg : process_queue coop_funcs (S fuel) urgent_ready DYCO_URGENT_MAXEXEC m1 = Ok (None, m1)).
  { unfold process_queue. rewrite (bind_ok _ _ _ _ _ (in_world_sched m1 s Hs)).
    apply (run_queue_empty _ _ _ _ m1 s Hs). by rewrite (rep_empty _ _ _ (rep2_of _ _ urgent_ready Hq)). }
  destruct (run_queue_tasks fuel 128 B m1 s l []) as (m' & s' & Hrun & HI' & Hst' & Htr); [by rewrite app_nil_r|done..|].
  assert (Hready : process_queue coop_funcs (S fuel) ready DYCO_URGENT_MAXWAIT m1 = Ok (None, m')).
  { unfold process_queue. rewrite (bind_ok _ _ _ _ _ (in_world_sched m1 s Hs)).
    by rewrite (rep_last _ _ _ (rep2_of _ _ ready Hq)). }
  exists m', s'. split_and!; [|done|done|by rewrite Htr; simpl; unfold k; rewrite trace_clock].
  unfold sched_turn. rewrite (bind_ok _ _ _ _ _ Hpt), (bind_ok _ _ _ _ _ Hurg), (bind_ok _ _ _ _ _ Hready).
  erewrite bind_ok; [done|]. apply in_world_pure. unfold probe_events, schedule_epoll_wait.
  rewrite bind_bind. rewrite (bind_ok _ _ _ _ _ (the_sched_run _ _ (ti_sched _ _ _ _ HI'))).
  rewrite (ti_waits _ _ _ _ HI'), no_sleepers; [done| |apply HI'].
  apply (tm_wf _ _ (ok_timers _ _ _ (ti_ok _ _ _ _ HI'))).
Qed.

(** ** The main loop *)

Lemma done_iff_no_task B m s l : tasks_inv B m s l -> SCHEDULE_ISDONE s = bool_decide (l = []).
Proof.
  intros HI. pose proof (ok_queues _ _ _ (ti_ok _ _ _ _ HI)) as Hq. unfold SCHEDULE_ISDONE.
  rewrite (ti_waits _ _ _ _ HI), no_sleepers; [|apply (ok_timers _ _ _ (ti_ok _ _ _ _ HI))|apply HI].
  rewrite (rep_empty _ _ _ (rep2_of _ _ ready Hq)), (rep_empty _ _ _ (rep2_of _ _ urgent_ready Hq)).
  by destruct l.
Qed.

Lemma main_loop_tasks fuel B m s l :
  tasks_inv B m s l -> s_status s = SCHEDULE_STATUS_RUNNING -> (load l < fuel)%nat ->
  exists m' s', main_loop coop_funcs fuel m = Ok (0, m') /\ w_sched (m_world m') = Some s' /\ drained s' /\
    w_coros (m_world m') = B /\
    trace (w_kern (m_world m')) = trace (w_kern (m_world m)) ++ round_robin (load l) l.
Proof.
  revert m s l. induction fuel as [|fuel IH]; intros m s l HI Hst Hf; [lia|].
  pose proof (ti_sched _ _ _ _ HI) as Hs. cbn [main_loop].
  rewrite (bind_ok _ _ _ _ _ (in_world_sched m s Hs)), (done_iff_no_task _ _ _ _ HI).
  destruct (decide (l = [])) as [->|Hl].
  - rewrite bool_decide_eq_true_2 by done.
    eexists _, (set_s_status SCHEDULE_STATUS_DONE s). split_and!.
    + erewrite bind_ok by (by apply in_world_ok, upd_sched_run). reflexivity.
    + done.
    + apply isdone_drained. by rewrite (done_iff_no_task _ _ _ _ HI), bool_decide_eq_true_2.
    + apply map_eq. intros a. apply (ti_rest _ _ _ _ HI). apply not_elem_of_nil.
    + simpl. by rewrite app_nil_r.
  - rewrite bool_decide_eq_false_2 by done. pose proof (load_turn l Hl) as Hlt.
    destruct fuel as [|fuel]; [lia|].
    destruct (turn_refines fuel B m s l HI Hl Hst) as (m1 & s1 & Hturn & HI1 & Hst1 & Htr1).
    rewrite (bind_ok _ _ _ _ _ Hturn).
    destruct (IH m1 s1 (turn l) HI1 Hst1) as (m' & s' & Hrun & Hs' & Hd & Hco & Htr); [lia|].
    exists m', s'. split_and!; try done. rewrite Htr, Htr1, <- app_assoc. f_equal.
    by rewrite (round_robin_step l).
Qed.

(** C5. The main loop as a round-robin scheduler.  Let the ready queue hold
    coroutines that work in rounds and give way by [dyco_coroutine_sleep(0)]
    between them, new or parked, and let there be no sleeper and no wait.
    Then [dyco_schedule_run] returns 0 with the scheduler drained; every one of
    these coroutines has been released and no other coroutine has changed; and
    the rounds have been made in the order of the abstract round robin, in
    which a turn serves the first 128 of the queue once each and queues those
    that are not done behind the others.  As many units of fuel as there are
    rounds, and one, are enough. *)
Theorem round_robin_completes fuel m s l :
  w_sched (m_world m) = Some s -> sched_ok (m_world m) s ([], t_co <$> l) -> Forall (task_ok m) l ->
  view s = ∅ -> count (s_fd_co_map s) = 0 -> stack_room s ->
  s_status s = SCHEDULE_STATUS_READY \/ s_status s = SCHEDULE_STATUS_STOPPED -> (load l < fuel)%nat ->
  exists m' s', dyco_schedule_run coop_funcs fuel m = Ok (0, m') /\ w_sched (m_world m') = Some s' /\
    drained s' /\ w_coros (m_world m') = foldr delete (w_coros (m_world m)) (t_co <$> l) /\
    trace (w_kern (m_world m')) = trace (w_kern (m_world m)) ++ round_robin (load l) l.
Proof.
  intros Hs Hok Htasks Hv Hw Hroom Hst Hf.
  set (s1 := set_s_status SCHEDULE_STATUS_RUNNING s).
  set (m1 := mk_machine (set_w_sched (Some s1) (m_world m)) (m_ctx m) (m_ret m)).
  set (B := foldr delete (w_coros (m_world m)) (t_co <$> l)).
  destruct (main_loop_tasks fuel B m1 s1 l) as (m' & s' & Hrun & Hres); [|done..|].
  { split; try done.
    - apply (sched_ok_sched (m_world m)). by apply (sched_ok_irrel _ s).
    - intros a Ha. simpl. unfold B. by rewrite lookup_foldr_delete_not_elem_of.
    - apply Forall_forall. intros t Ht. apply lookup_foldr_delete. by apply list_elem_of_fmap_2. }
  exists m', s'. split; [|done]. unfold dyco_schedule_run.
  rewrite (bind_ok _ _ _ _ _ (in_world_pure get_sched m (Some s) ltac:(unfold get_sched, gets; by rewrite Hs))).
  assert (Hup : in_world (upd_sched (set_s_status SCHEDULE_STATUS_RUNNING)) m = Ok (tt, m1))
    by (by apply in_world_ok, upd_sched_run).
  destruct Hst as [-> | ->]; by rewrite (bind_ok _ _ _ _ _ Hup).
Qed.

End round_robin.

(** ** Concrete states

    Coroutine 16 makes two rounds with argument 5, coroutine 32 one with
    argument 6; a round sends its argument to descriptor 1. *)
Definition ex_emit (arg : Z) (k : sim_kernel) : unit * sim_kernel :=
  let n := k_net k in
  (tt, set_net (mk_net (n_open n) (n_nonblock n) (<[1 := default [] (n_sent n !! 1) ++ [arg]]> (n_sent n))
        (n_inbox n) (n_room n) (n_errno n) (n_mask n)) k).
Definition ex_trace (k : sim_kernel) : list Z := default [] (n_sent (k_net k) !! 1).
Definition ex_work (arg : Z) : M (@world sim (gmap Z addr)) unit := sys (os := sim) (ex_emit arg).

Definition ex_task_co (func arg cid : Z) : dyco_coroutine :=
  mk_co func arg SCHED_PTR NULL [] 0 ST_NEW 0 0 0 cid NULL 0 (-1) (-1).
Definition ex_rr_sched : @dyco_schedule (gmap Z addr) :=
  set_s_queues (TAILQ_INSERT_TAIL (TAILQ_INSERT_TAIL
      (mk_qmem (mk_qhead NULL (HeadFirst urgent_ready)) (mk_qhead NULL (HeadFirst ready))
        (gset_to_gmap (mk_qlink NULL (HeadFirst ready)) {[16; 32]})) ready 16) ready 32)
    (set_s_stack (replicate 64 0) (set_s_stack_size DYCO_MAX_STACKSIZE
      (set_s_status SCHEDULE_STATUS_READY (ex_sched ∅)))).
Definition ex_task_cos : gmap Z dyco_coroutine := {[16 := ex_task_co 1 5 101; 32 := ex_task_co 0 6 102]}.
Definition ex_rr : machine :=
  mk_machine (set_w_sched (Some ex_rr_sched) (ex_world ∅ ex_task_cos)) ∅ ∅.
Definition ex_tasks : list task := [mk_task 16 5 1; mk_task 32 6 0].

Lemma ex_tasks_ok {os : OS} {osl : OSLaws os} (w : @world os (gmap Z addr)) :
  w_coros w = ex_task_cos -> sched_ok w ex_rr_sched ([], [16; 32]).
Proof.
  intros Hcos. split; rewrite ?Hcos.
  - apply timers_ok_intro; rewrite ?Hcos; [done|done|refine (bool_decide_unpack _ _); by vm_compute].
  - split; [|split|]; try (split; [|constructor]); vm_compute; try done.
    + by split_and!; try done; eexists.
    + refine (bool_decide_unpack _ _). by vm_compute.
    + refine (bool_decide_unpack _ _). by vm_compute.
  - intros a. rewrite <- !elem_of_dom.
    replace (dom (links (s_queues ex_rr_sched))) with (dom ex_task_cos); [done|].
    by apply (bool_decide_unpack _); vm_compute.
  - done.
  - intros a [->|[->|[]%elem_of_nil]%elem_of_cons]%elem_of_cons; by eexists.
  - exact (proj1 (ex_sched_cids ∅)).
  - intros fd a. change (fds ex_rr_sched) with (habs (s_cid_co_map (ex_sched ∅))).
    by rewrite (proj2 (ex_sched_cids ∅)).
  - exact (proj1 (ex_sched_cids ∅)).
  - intros cid a. change (cids ex_rr_sched) with (habs (s_cid_co_map (ex_sched ∅))).
    by rewrite (proj2 (ex_sched_cids ∅)).
Qed.

Lemma round_robin_completes_witness :
  exists m' s', dyco_schedule_run (coop_funcs ex_work Z.to_nat) 4 ex_rr = Ok (0, m') /\
    w_sched (m_world m') = Some s' /\ drained s' /\ w_coros (m_world m') = ∅ /\
    ex_trace (w_kern (m_world m')) = [5; 6; 5].
Proof.
  apply (round_robin_completes ex_work Z.to_nat ex_trace 64) with (m := ex_rr) (s := ex_rr_sched) (l := ex_tasks).
  - intros arg w. eexists. split; [reflexivity|]. split; [|done].
    unfold ex_trace. simpl. by rewrite lookup_insert_eq.
  - done.
  - done.
  - intros used k. apply sim_malloc_not_null.
  - simpl. lia.
  - done.
  - by apply ex_tasks_ok.
  - repeat constructor; eexists; (split; [reflexivity|]); split_and!; try done; by left.
  - done.
  - done.
  - split; [split; [by vm_compute|reflexivity]|by vm_compute; lia].
  - by left.
  - vm_compute. lia.
Defined.
