(* ===== verification/Semaphore.v ===== *)
(** * Semaphores

    [src/dyco_semaphore.c]: a counter and a queue of waiting coroutines, each
    represented by the eventfd it waits on. *)
From S2P Require Import Prelude Htable Queue SleepTree World SimOS Schedule SchedInv Prog Coroutine.

Local Open Scope Z_scope.
Local Open Scope dyco_scope.

Definition DYCO_SEM_VALUE_MAX : Z := 0x7fffffff.

Section semaphore.
Context {os : OS} {T : Type} {st : SleepTree T}.
Local Abbreviation world := (@world os T).

Definition getsem (a : addr) : M world semaphore :=
  let* w := get_st in match w_sems w !! a with Some x => ret x | None => throw FSegv end.
Definition upd_sem (a : addr) (f : semaphore -> semaphore) : M world unit :=
  let* x := getsem a in modify (fun w => set_w_sems (<[a := f x]> (w_sems w)) w).

Definition sem_notify (fd data : Z) : M world unit :=
  let* r := sys (os_eventfd_write fd data) in DYCO_MUST (r =? 0).

Definition dyco_semaphore_create (value : Z) : M world addr :=
  if DYCO_SEM_VALUE_MAX <? value then ret NULL
  else
    let* a := malloc in
    if a =? NULL then ret NULL
    else modify (fun w => set_w_sems (<[a := mk_sem value []]> (w_sems w)) w) ;;; ret a.

Fixpoint notify_all (fds : list Z) (data : Z) : M world unit :=
  match fds with
  | [] => ret tt
  | fd :: fds' => sem_notify fd data ;;; notify_all fds' data
  end.

Definition dyco_semaphore_destroy (sem : addr) : M world unit :=
  if sem =? NULL then ret tt
  else
    let* x := getsem sem in
    notify_all (sem_wqueue x) 64 ;;;
    modify (fun w => set_w_sems (delete sem (w_sems w)) w).

(** The first test of the [timeout == 0] branch repeats one that has just
    failed. *)
Definition dyco_semaphore_wait (sem : addr) (timeout : Z) : prog world Z :=
  if sem =? NULL then PRet (-1)
  else
    let! x := atomic (getsem sem) in
    if 0 <? sem_semval x then
      do! atomic (upd_sem sem (fun x => set_sem_semval (sem_semval x - 1) x)); PRet 0
    else if timeout =? 0 then
      if 0 <? sem_semval x then
        do! atomic (upd_sem sem (fun x => set_sem_semval (sem_semval x - 1) x)); PRet 0
      else PRet (-1)
    else
      let! oco := atomic opt_curr in
      match oco with
      | None => PRet (-1)
      | Some co =>
          let! notifyfd := atomic (sys os_eventfd) in
          do! atomic (DYCO_MUSTNOT (notifyfd =? -1));
          let! ok := atomic (sys os_alloc_ok) in
          if negb (ok O) then PRet (-1)
          else
            do! atomic (upd_sem sem (fun x => set_sem_wqueue (sem_wqueue x ++ [notifyfd]) x));
            do! suspend co notifyfd EVENTS_R timeout;
            let! r := atomic (sys (os_eventfd_read notifyfd)) in
            let! _ := atomic (sys (os_close notifyfd)) in
            PRet (match r with Some count => if count =? 1 then 0 else -1 | None => -1 end)
      end.

Definition dyco_semaphore_signal (sem : addr) : M world Z :=
  if sem =? NULL then ret (-1)
  else
    let* x := getsem sem in
    if sem_semval x =? DYCO_SEM_VALUE_MAX then ret (-1)
    else
      match sem_wqueue x with
      | [] => upd_sem sem (fun x => set_sem_semval (sem_semval x + 1) x) ;;; ret 0
      | head :: l =>
          let* oco := opt_curr in
          match oco with
          | None => ret (-1)
          | Some _ =>
              upd_sem sem (set_sem_wqueue l) ;;;
              sem_notify head 1 ;;;
              ret 0
          end
      end.

End semaphore.

(** * Properties *)

Section semaphore_proofs.
Context {os : OS} {osl : OSLaws os} {T : Type} {st : SleepTree T} {stl : SleepTreeLaws T}.
Local Abbreviation world := (@world os T).
Local Abbreviation dyco_schedule := (@dyco_schedule T).
Implicit Types (w : world) (s : dyco_schedule) (c : dyco_coroutine) (a sem : addr).

Lemma getsem_run sem x w : w_sems w !! sem = Some x -> getsem sem w = Ok (x, w).
Proof. unfold getsem, bind, get_st. by intros ->. Qed.

Lemma upd_sem_run sem f x w :
  w_sems w !! sem = Some x -> upd_sem sem f w = Ok (tt, set_w_sems (<[sem := f x]> (w_sems w)) w).
Proof. intros Hx. unfold upd_sem, bind. by rewrite (getsem_run sem x w Hx). Qed.

(** A coroutine is running. *)
Definition in_coroutine w : Prop :=
  exists s, w_sched w = Some s /\ s_curr_thread s <> NULL.

(** ** Signals *)

(** What a semaphore promises: a signal that finds a waiter hands its unit to
    the one that has waited longest, otherwise it stores the unit. *)
Definition spec_signal (x : semaphore) : semaphore :=
  match sem_wqueue x with
  | [] => mk_sem (sem_semval x + 1) []
  | _ :: l => mk_sem (sem_semval x) l
  end.

Fixpoint signals (n : nat) (sem : addr) : M world (list Z) :=
  match n with
  | O => ret []
  | S n' =>
      let* r := dyco_semaphore_signal sem in
      let* rs := signals n' sem in ret (r :: rs)
  end.

Lemma signal_store w sem v :
  w_sems w !! sem = Some (mk_sem v []) -> sem <> NULL -> v <> DYCO_SEM_VALUE_MAX ->
  dyco_semaphore_signal sem w = Ok (0, set_w_sems (<[sem := mk_sem (v + 1) []]> (w_sems w)) w).
Proof.
  intros Hx Hn Hv. unfold dyco_semaphore_signal. destruct (Z.eqb_spec sem NULL); [done|].
  mrun with getsem_run. simpl. destruct (Z.eqb_spec v DYCO_SEM_VALUE_MAX); [done|].
  by mrun with upd_sem_run.
Qed.

Lemma signal_wake w sem v fd l n :
  w_sems w !! sem = Some (mk_sem v (fd :: l)) -> sem <> NULL -> v <> DYCO_SEM_VALUE_MAX ->
  in_coroutine w -> os_counter (w_kern w) fd = Some n -> 0 <= n < 2 ^ 32 ->
  exists k, dyco_semaphore_signal sem w =
      Ok (0, set_w_kern k (set_w_sems (<[sem := mk_sem v l]> (w_sems w)) w)) /\
    os_counter k fd = Some (n + 1) /\
    (forall fd', fd' <> fd -> os_counter k fd' = os_counter (w_kern w) fd').
Proof.
  intros Hx Hn Hv (s & Hs & Hcur) Hcnt Hr.
  destruct (eventfd_write_open (w_kern w) fd 1 n Hcnt) as (k & Hk & Hk1 & Hk2); [lia|lia|].
  exists k. split; [|done]. unfold dyco_semaphore_signal. destruct (Z.eqb_spec sem NULL); [done|].
  mrun with getsem_run. simpl. destruct (Z.eqb_spec v DYCO_SEM_VALUE_MAX); [done|].
  mrun with opt_curr_run. mrun with upd_sem_run.
  unfold sem_notify. erewrite bind_ok; [|mrun; reflexivity]. done.
Qed.

Lemma spec_signal_iter n v l :
  Nat.iter n spec_signal (mk_sem v l) = mk_sem (v + Z.of_nat (n - length l)) (drop n l).
Proof.
  revert v l. induction n as [|n IH]; intros v l; [by rewrite drop_0, Nat.sub_0_l, Z.add_0_r|].
  rewrite Nat.iter_succ_r. unfold spec_signal at 2. destruct l as [|fd l]; simpl.
  - rewrite IH, !drop_nil. simpl. f_equal. lia.
  - by rewrite IH.
Qed.

Lemma signals_run n w sem v l :
  w_sems w !! sem = Some (mk_sem v l) -> sem <> NULL -> in_coroutine w -> NoDup l ->
  (forall fd, fd ∈ l -> os_counter (w_kern w) fd = Some 0) ->
  0 <= v -> v + Z.of_nat n <= DYCO_SEM_VALUE_MAX ->
  exists w', signals n sem w = Ok (replicate n 0, w') /\
    w_sems w' !! sem = Some (Nat.iter n spec_signal (mk_sem v l)) /\
    (forall i fd, l !! i = Some fd ->
       os_counter (w_kern w') fd = Some (if decide (i < n)%nat then 1 else 0)) /\
    (forall fd, fd ∉ l -> os_counter (w_kern w') fd = os_counter (w_kern w) fd).
Proof.
  intros Hx Hn. revert w v l Hx. induction n as [|n IH]; intros w v l Hx Hco Hnd Hop Hv Hmax.
  { exists w. split_and!; try done. intros i fd Hi. apply Hop. by eapply list_elem_of_lookup_2. }
  assert (Hvm : v <> DYCO_SEM_VALUE_MAX) by lia. rewrite Nat.iter_succ_r. simpl.
  destruct l as [|fd l].
  - rewrite (bind_ok _ _ _ _ _ (signal_store w sem v Hx Hn Hvm)).
    edestruct (IH (set_w_sems (<[sem := mk_sem (v + 1) []]> (w_sems w)) w) (v + 1) [])
      as (w' & Hrun & Hx' & Hc1 & Hc2); try done; [apply lookup_insert_eq|lia|lia|].
    exists w'. rewrite (bind_ok _ _ _ _ _ Hrun). by split_and!.
  - apply NoDup_cons in Hnd as [Hfd Hnd].
    destruct (signal_wake w sem v fd l 0 Hx Hn Hvm Hco) as (k & Hsig & Hk1 & Hk2);
      [apply Hop; left|lia|]. rewrite (bind_ok _ _ _ _ _ Hsig).
    edestruct (IH (set_w_kern k (set_w_sems (<[sem := mk_sem v l]> (w_sems w)) w)) v l)
      as (w' & Hrun & Hx' & Hc1 & Hc2); try done; [apply lookup_insert_eq| |lia|].
    { intros fd' Hfd'. simpl. rewrite Hk2 by (by intros ->). apply Hop. by right. }
    exists w'. rewrite (bind_ok _ _ _ _ _ Hrun). split_and!; [done|done| |].
    + intros [|i] fd' Hi; simpl in Hi.
      * simplify_eq. rewrite Hc2 by done. rewrite decide_True by lia. apply Hk1.
      * rewrite (Hc1 i fd' Hi). do 2 case_decide; done || lia.
    + intros fd' [Hne Hni]%not_elem_of_cons. rewrite Hc2 by done. by apply Hk2.
Qed.

(** C26. Signals are neither lost nor reordered: [n] signals on a semaphore whose
    queue holds the waiters [l] write once to the eventfds of the first [n] of
    them, in the order in which they began to wait, do not touch the others,
    and store the remaining units in the counter. *)
Theorem signals_wake_in_order n w sem v l :
  w_sems w !! sem = Some (mk_sem v l) -> sem <> NULL -> in_coroutine w -> NoDup l ->
  (forall fd, fd ∈ l -> os_counter (w_kern w) fd = Some 0) ->
  0 <= v -> v + Z.of_nat n <= DYCO_SEM_VALUE_MAX ->
  exists w', signals n sem w = Ok (replicate n 0, w') /\
    w_sems w' !! sem = Some (mk_sem (v + Z.of_nat (n - length l)) (drop n l)) /\
    (forall i fd, l !! i = Some fd ->
       os_counter (w_kern w') fd = Some (if decide (i < n)%nat then 1 else 0)).
Proof.
  intros Hx Hn Hco Hnd Hop Hv Hmax.
  destruct (signals_run n w sem v l Hx Hn Hco Hnd Hop Hv Hmax) as (w' & H1 & H2 & H3 & _).
  exists w'. by rewrite <- spec_signal_iter.
Qed.

(** ** Waits *)

(** The branches of [dyco_semaphore_wait] that do not block: a null semaphore
    is an error, a positive counter is decremented, and with no unit available
    a wait without timeout, or outside of a coroutine, is an error that
    changes nothing. *)
Theorem sem_wait_immediate w sem v l timeout :
  w_sems w !! sem = Some (mk_sem v l) ->
  exec (dyco_semaphore_wait NULL timeout) w = (SDone (-1), w) /\
  (sem <> NULL -> 0 < v -> exec (dyco_semaphore_wait sem timeout) w =
     (SDone 0, set_w_sems (<[sem := mk_sem (v - 1) l]> (w_sems w)) w)) /\
  (sem <> NULL -> v <= 0 -> timeout = 0 \/ opt_curr w = Ok (None, w) ->
     exec (dyco_semaphore_wait sem timeout) w = (SDone (-1), w)).
Proof.
  intros Hx. split_and!; [done|..]; intros Hn Hv; unfold dyco_semaphore_wait.
  all: destruct (Z.eqb_spec sem NULL); [done|].
  all: rewrite (exec_atomic_bind _ _ _ _ _ (getsem_run sem _ w Hx)); cbn [sem_semval].
  - destruct (Z.ltb_spec 0 v); [|lia].
    by rewrite (exec_atomic_bind _ _ _ _ _ (upd_sem_run sem _ _ w Hx)).
  - destruct (Z.ltb_spec 0 v); [lia|]. intros Ht. destruct (Z.eqb_spec timeout 0); [done|].
    destruct Ht as [?|Ht]; [done|]. by rewrite (exec_atomic_bind _ _ _ _ _ Ht).
Qed.

(** The rest of a wait, from its resumption on. *)
Definition sem_tail (a : addr) (fd : Z) : prog world Z :=
  (do! resumed a fd;
   let! r := atomic (sys (os_eventfd_read fd)) in
   let! _ := atomic (sys (os_close fd)) in
   PRet (match r with Some count => if count =? 1 then 0 else -1 | None => -1 end))%dyco.

(** The result of a wait is what the waker wrote to its eventfd: 1 by a signal,
    64 by the destruction of the semaphore, nothing when the timer expired. *)
Lemma sem_tail_run w s q a c fd n :
  sched_ok w s q -> w_sched w = Some s -> one_wait s -> w_coros w !! a = Some c ->
  (waiting_flag c = true -> fds s !! fd = Some a) -> os_counter (w_kern w) fd = Some n -> 0 <= n ->
  exists w', exec (sem_tail a fd) w = (SDone (if n =? 1 then 0 else -1), w') /\
    w_sems w' = w_sems w /\ os_counter (w_kern w') fd = None /\
    (forall fd', fd' <> fd -> os_counter (w_kern w') fd' = os_counter (w_kern w) fd').
Proof.
  intros Hok Hs Hone Hc Hfd Hn Hpos. unfold sem_tail.
  destruct (resumed_run w s q a c fd Hok Hs Hone Hc Hfd) as
    (w1 & s1 & c1 & He & _ & _ & _ & _ & _ & _ & Hcnt & (_ & _ & _ & _ & Hsem) & _).
  rewrite exec_bind, He.
  assert (Hr : exists k, os_eventfd_read fd (w_kern w1) = (if n =? 0 then None else Some n, k) /\
    forall fd', fd' <> fd -> os_counter k fd' = os_counter (w_kern w) fd').
  { destruct (Z.eqb_spec n 0) as [->|Hn0].
    - destruct (eventfd_read_zero (w_kern w1) fd) as (k & Hk & Hk'); [by rewrite Hcnt|].
      exists k. split; [done|]. intros fd' _. by rewrite Hk', Hcnt.
    - destruct (eventfd_read_positive (w_kern w1) fd n) as (k & Hk & _ & Hk'); [by rewrite Hcnt|lia|].
      exists k. split; [done|]. intros fd' Hne. by rewrite Hk', Hcnt. }
  destruct Hr as (k & Hk & Hk').
  rewrite (exec_atomic_bind _ _ _ _ _ (sys_run _ w1 _ k Hk)).
  destruct (os_close fd k) as [r2 k2] eqn:Hk2.
  rewrite (exec_atomic_bind _ _ _ _ _ (sys_run _ (set_w_kern k w1) _ k2 Hk2)).
  pose proof (close_eventfd k fd) as [Hcl1 Hcl2]. rewrite Hk2 in Hcl1, Hcl2. simpl in Hcl1, Hcl2.
  exists (set_w_kern k2 (set_w_kern k w1)). split; [|split_and!; [exact Hsem|exact Hcl1|]].
  - by destruct (Z.eqb_spec n 0) as [->|].
  - intros fd' Hne. simpl. rewrite Hcl2 by done. by apply Hk'.
Qed.

(** A wait that times out returns -1 and closes its eventfd, but leaves it in
    the queue of the semaphore.  The next signal, from whichever coroutine,
    takes the closed descriptor for the longest waiter, fails to write to it
    and ends the process. *)
Theorem sem_timeout_then_signal_exits w s q a c fd sem v l :
  sched_ok w s q -> w_sched w = Some s -> one_wait s -> w_coros w !! a = Some c ->
  (waiting_flag c = true -> fds s !! fd = Some a) ->
  os_counter (w_kern w) fd = Some 0 ->
  sem <> NULL -> w_sems w !! sem = Some (mk_sem v (fd :: l)) -> v <> DYCO_SEM_VALUE_MAX ->
  exists w', exec (sem_tail a fd) w = (SDone (-1), w') /\
    w_sems w' !! sem = Some (mk_sem v (fd :: l)) /\ os_counter (w_kern w') fd = None /\
    forall w2, in_coroutine w2 -> w_sems w2 !! sem = w_sems w' !! sem ->
      os_counter (w_kern w2) fd = None -> dyco_semaphore_signal sem w2 = Err FExit.
Proof.
  intros Hok Hs Hone Hc Hfd Hn Hnull Hx Hv.
  destruct (sem_tail_run w s q a c fd 0 Hok Hs Hone Hc Hfd Hn ltac:(lia)) as (w' & He & Hsem & Hcl & _).
  exists w'. split_and!; [done|by rewrite Hsem|done|].
  intros w2 (s2 & Hs2 & Hcur) Hx2 Hcl2. rewrite Hsem, Hx in Hx2.
  destruct (eventfd_write_closed (w_kern w2) fd 1 Hcl2) as (k & Hk & _).
  unfold dyco_semaphore_signal. destruct (Z.eqb_spec sem NULL); [done|].
  mrun with getsem_run. simpl. destruct (Z.eqb_spec v DYCO_SEM_VALUE_MAX); [done|].
  mrun with opt_curr_run. mrun with upd_sem_run.
  unfold sem_notify, bind at 1. erewrite bind_ok by (apply sys_run; exact Hk). done.
Qed.

(** A wait that finds no unit: the coroutine is appended to the queue of the
    semaphore with a fresh eventfd and suspended with its timer set; when it is
    resumed, in whatever consistent state, the wait returns 0 exactly if a
    signal has written to its eventfd, and -1 after a timeout or the
    destruction of the semaphore, with the eventfd closed. *)
Theorem sem_wait_blocks w s q a c sem v l timeout fd k1 now k :
  running w s a c -> sched_ok w s q -> (forall k, stack_ok (set_w_kern k w) s c) ->
  sem <> NULL -> w_sems w !! sem = Some (mk_sem v l) -> v <= 0 -> 0 < timeout ->
  os_eventfd (w_kern w) = (fd, k1) -> fd <> -1 -> fd <> 0 -> memory_ok k1 ->
  let k2 := (os_alloc_ok k1).2 in
  memory_ok (os_epoll_add (s_epollfd s) fd EVENTS_R k2).2 ->
  os_clock_gettime (after_wait s fd EVENTS_R k2) = (now, k) ->
  deadline s now timeout + Z.of_nat (size (view s)) < 2 ^ 64 ->
  (exists w1 s1 key,
    exec (dyco_semaphore_wait sem timeout) w = (SSwitch (SwapSched a) (sem_tail a fd), w1) /\
    w_sems w1 !! sem = Some (mk_sem v (l ++ [fd])) /\ w_sched w1 = Some s1 /\
    fds s1 = <[fd := a]> (fds s) /\ view s1 !! key = Some a /\ deadline s now timeout <= key) /\
  (forall w2 s2 q2 c2 n, sched_ok w2 s2 q2 -> w_sched w2 = Some s2 -> one_wait s2 ->
    w_coros w2 !! a = Some c2 -> (waiting_flag c2 = true -> fds s2 !! fd = Some a) ->
    os_counter (w_kern w2) fd = Some n -> 0 <= n ->
    exists w3, exec (sem_tail a fd) w2 = (SDone (if n =? 1 then 0 else -1), w3) /\
      os_counter (w_kern w3) fd = None).
Proof.
  intros Hrun Hok Hst Hnull Hx Hv Ht He H1 H0 Hmem k2 Hmem2 Hk Hlt. split.
  2: { intros w2 s2 q2 c2 n Hok2 Hs2 Hone Hc2 Hfd2 Hn Hpos.
       destruct (sem_tail_run w2 s2 q2 a c2 fd n) as (w3 & He3 & _ & Hcl & _); try done. eauto. }
  destruct (eventfd_new _ _ _ He H1) as (_ & _ & Hnew & _ & Hunreg & Hregs).
  assert (Hcur : opt_curr w = Ok (Some a, w)).
  { destruct Hrun as (Hs & <- & Hn & _). by apply opt_curr_run. }
  unfold dyco_semaphore_wait. destruct (Z.eqb_spec sem NULL); [done|].
  rewrite (exec_atomic_bind _ _ _ _ _ (getsem_run sem _ w Hx)). cbn [sem_semval].
  destruct (Z.ltb_spec 0 v); [lia|]. destruct (Z.eqb_spec timeout 0); [lia|].
  rewrite (exec_atomic_bind _ _ _ _ _ Hcur).
  rewrite (exec_atomic_bind _ _ _ _ _ (sys_run _ w _ k1 He)).
  rewrite (exec_atomic_bind _ _ (set_w_kern k1 w) tt (set_w_kern k1 w))
    by (by destruct (Z.eqb_spec fd (-1))).
  destruct (os_alloc_ok k1) as [ok k2'] eqn:Hal.
  rewrite (exec_atomic_bind _ _ _ _ _ (sys_run _ (set_w_kern k1 w) ok k2' Hal)).
  assert (Hokf : ok O = true) by (specialize (Hmem O); by rewrite Hal in Hmem). rewrite Hokf. cbn [negb].
  erewrite exec_atomic_bind by (by apply upd_sem_run). rewrite exec_bind.
  set (w0 := set_w_sems _ _).
  destruct (suspend_run w0 s q a c fd EVENTS_R timeout now k) as
    (w1 & s1 & key & Hexec & Hs1 & Hf1 & _ & Hv1 & Hd1 & (_ & _ & _ & _ & Hsem)); try done.
  - assert (Hk2 : forall ep fd', os_registered k2 ep fd' = os_registered (w_kern w) ep fd').
    { intros ep fd'. pose proof (alloc_registered k1 ep fd') as Hr. rewrite Hal in Hr.
      etrans; [exact Hr|apply Hregs]. }
    destruct (sched_ok_kern w s q k2 Hok) as [[] ]; [done|]. by split.
  - intros k0. destruct (Hst k0). by split.
  - pose proof (alloc_registered k1 (s_epollfd s) fd) as Hr. rewrite Hal in Hr.
    etrans; [exact Hr|apply Hunreg].
  - pose proof (alloc_quiet k1 fd) as Hr. rewrite Hal in Hr. exists 0. etrans; [exact Hr|exact Hnew].
  - rewrite Hexec. exists w1, s1, key. split_and!; try done. rewrite Hsem. apply lookup_insert_eq.
Qed.

End semaphore_proofs.

(** ** Concrete states *)

(** Semaphore 160 with two waiters, on the eventfds 8 and 9; coroutine 64 runs. *)
Definition ex_sems : @world sim (gmap Z addr) :=
  set_w_sems {[160 := mk_sem 0 [8; 9]]}
    (set_w_kern (mk_sim 1000000000 10 {[8 := 0; 9 := 0]} ∅ : @kernel sim) ex_blk).

Lemma ex_sems_in_coroutine : in_coroutine ex_sems.
Proof. by eexists. Qed.

Lemma signals_wake_in_order_witness :
  exists w', signals 3 160 ex_sems = Ok ([0; 0; 0], w') /\
    w_sems w' !! 160 = Some (mk_sem 1 []) /\
    (forall i fd, [8; 9] !! i = Some fd ->
       os_counter (w_kern w') fd = Some (if decide (i < 3)%nat then 1 else 0)).
Proof.
  refine (signals_wake_in_order 3 ex_sems 160 0 [8; 9] _ _ _ _ _ _ _); try done.
  - apply ex_sems_in_coroutine.
  - refine (bool_decide_unpack _ _). by vm_compute.
  - by intros fd [->|[->|[]%elem_of_nil]%elem_of_cons]%elem_of_cons.
Defined.

Lemma sem_wait_immediate_witness :
  exec (dyco_semaphore_wait NULL 5) ex_sems = (SDone (-1), ex_sems) /\
  (160 <> NULL -> 0 < 0 -> exec (dyco_semaphore_wait 160 5) ex_sems =
     (SDone 0, set_w_sems (<[160 := mk_sem (0 - 1) [8; 9]]> (w_sems ex_sems)) ex_sems)) /\
  (160 <> NULL -> 0 <= 0 -> 5 = 0 \/ opt_curr ex_sems = Ok (None, ex_sems) ->
     exec (dyco_semaphore_wait 160 5) ex_sems = (SDone (-1), ex_sems)).
Proof. by apply (sem_wait_immediate ex_sems 160 0 [8; 9] 5). Defined.

(** Coroutine 64 was resumed by its timer: the eventfd 8 was not written. *)
Lemma sem_timeout_then_signal_exits_witness :
  exists w', exec (sem_tail 64 8) ex_sems = (SDone (-1), w') /\
    w_sems w' !! 160 = Some (mk_sem 0 [8; 9]) /\ os_counter (w_kern w') 8 = None /\
    forall w2 : @world sim (gmap Z addr), in_coroutine w2 -> w_sems w2 !! 160 = w_sems w' !! 160 ->
      os_counter (w_kern w2) 8 = None -> dyco_semaphore_signal 160 w2 = Err FExit.
Proof.
  assert (Hok : sched_ok ex_sems ex_blk_sched ([], [])).
  { destruct (sched_ok_kern ex_blk ex_blk_sched ([], []) (w_kern ex_sems) ex_blk_ok) as [[] ]; [done|].
    by split. }
  refine (sem_timeout_then_signal_exits ex_sems ex_blk_sched ([], []) 64 (ex_co 0 5) 8 160 0 [9]
    Hok _ _ _ _ _ _ _ _); done.
Defined.

Definition ex_sem0 : @world sim (gmap Z addr) := set_w_sems {[160 := mk_sem 0 [3]]} ex_blk.

Lemma sem_wait_blocks_witness :
  (exists w1 s1 key,
    exec (dyco_semaphore_wait 160 300) ex_sem0 = (SSwitch (SwapSched 64) (sem_tail 64 10), w1) /\
    w_sems w1 !! 160 = Some (mk_sem 0 [3; 10]) /\ w_sched w1 = Some s1 /\
    fds s1 = <[10 := 64]> (fds ex_blk_sched) /\ view s1 !! key = Some 64 /\
    deadline ex_blk_sched (1, 0) 300 <= key) /\
  (forall w2 s2 q2 c2 n, sched_ok (os := sim) w2 s2 q2 -> w_sched w2 = Some s2 -> one_wait s2 ->
    w_coros w2 !! 64 = Some c2 -> (waiting_flag c2 = true -> fds s2 !! 10 = Some 64) ->
    os_counter (w_kern w2) 10 = Some n -> 0 <= n ->
    exists w3, exec (sem_tail 64 10) w2 = (SDone (if n =? 1 then 0 else -1), w3) /\
      os_counter (w_kern w3) 10 = None).
Proof.
  refine (sem_wait_blocks ex_sem0 ex_blk_sched ([], []) 64 (ex_co 0 5) 160 0 [3] 300 10
    (mk_sim 1000000000 11 {[7 := 0; 10 := 0]} ∅) (1, 0) (mk_sim 1000001000 11 {[7 := 0; 10 := 0]} {[(3, 10)]})
    _ _ _ _ _ _ _ _ _ _ _ _ _ _); try done.
  - destruct ex_blk_ok as [[] ]. by split.
  - intros k. split; [done|]. intros _. split_and!; [simpl; lia|done|]. intros used. apply sim_malloc_not_null.
Defined.
