(* ===== verification/Channel.v ===== *)
(** * Half-duplex channels

    [src/dyco_channel.c]: a one-message buffer between a sender and a
    receiver, each of which can block on its own eventfd. *)
From S2P Require Import Prelude Htable Queue SleepTree World SimOS Schedule SchedInv Prog Coroutine.

Local Open Scope Z_scope.
Local Open Scope dyco_scope.

(** The enumeration value written to an eventfd, and the conversion back. *)
Definition hdc_code (s : half_duplex_channel_status) : Z :=
  match s with
  | HDC_STATUS_NOP => 0 | HDC_STATUS_EMPTY => 1 | HDC_STATUS_FULL => 2
  | HDC_STATUS_WANTREAD => 3 | HDC_STATUS_WANTWRITE => 4
  | HDC_STATUS_WANTCLOSE => 5 | HDC_STATUS_CANCLOSE => 6
  end.

Section channel.
Context {os : OS} {T : Type} {st : SleepTree T}.
Local Abbreviation world := (@world os T).

Definition getchan (a : addr) : M world half_duplex_channel :=
  let* w := get_st in match w_chans w !! a with Some x => ret x | None => throw FSegv end.
Definition upd_chan (a : addr) (f : half_duplex_channel -> half_duplex_channel) : M world unit :=
  let* x := getchan a in modify (fun w => set_w_chans (<[a := f x]> (w_chans w)) w).

Definition hdc_notify (chan : addr) (fd : Z) : M world unit :=
  let* x := getchan chan in
  let* _ := sys (os_eventfd_write fd (hdc_code (ch_status x))) in ret tt.

(** The callers of [hdc_wait] ignore its result and read the status of the
    channel afterwards. *)
Definition hdc_wait (chan : addr) (fd timeout : Z) : prog world unit :=
  if timeout =? 0 then PRet tt
  else
    let! oco := atomic opt_curr in
    match oco with
    | None => PRet tt
    | Some co =>
        let! asym := atomic (test_co co COROUTINE_FLAGS_ASYMMETRIC) in
        do! atomic (DYCO_MUSTNOT asym);
        do! suspend co fd EVENTS_R timeout;
        let! _ := atomic (sys (os_eventfd_read fd)) in PRet tt
    end.

Definition dyco_channel_create (size : Z) : M world addr :=
  let* chan := malloc in
  if chan =? NULL then ret NULL
  else
    let* r_notifyfd := sys os_eventfd in
    DYCO_MUSTNOT (r_notifyfd =? -1) ;;;
    let* w_notifyfd := sys os_eventfd in
    DYCO_MUSTNOT (w_notifyfd =? -1) ;;;
    let maxsize := if 0 <? size then size else DYCO_DEFAULT_CHANNELSIZE in
    let* ok := sys os_alloc_ok in
    if negb (ok O) then
      let* _ := sys (os_close r_notifyfd) in
      let* _ := sys (os_close w_notifyfd) in ret NULL
    else
      modify (fun w => set_w_chans
        (<[chan := mk_chan maxsize 0 [] r_notifyfd w_notifyfd HDC_STATUS_EMPTY]> (w_chans w)) w) ;;;
      ret chan.

(** The second disjunct of the guard, [(channel->status = HDC_STATUS_WANTCLOSE)],
    is an assignment: its value is that of the enumerator. *)
Definition dyco_channel_destroy (chan : addr) : prog world unit :=
  if chan =? NULL then PRet tt
  else
    do! atomic (upd_chan chan (set_ch_status HDC_STATUS_WANTCLOSE));
    if negb (hdc_code HDC_STATUS_WANTCLOSE =? 0) then PRet tt
    else
      let! x := atomic (getchan chan) in
      do! (match ch_status x with
           | HDC_STATUS_WANTREAD =>
               do! atomic (upd_chan chan (set_ch_status HDC_STATUS_WANTCLOSE));
               do! atomic (hdc_notify chan (ch_r_notifyfd x));
               hdc_wait chan (ch_w_notifyfd x) (-1)
           | HDC_STATUS_WANTWRITE =>
               do! atomic (upd_chan chan (set_ch_status HDC_STATUS_WANTCLOSE));
               do! atomic (hdc_notify chan (ch_w_notifyfd x));
               hdc_wait chan (ch_r_notifyfd x) (-1)
           | _ => PRet tt
           end);
      let! x := atomic (getchan chan) in
      let! _ := atomic (sys (os_close (ch_r_notifyfd x))) in
      let! _ := atomic (sys (os_close (ch_w_notifyfd x))) in
      atomic (modify (fun w => set_w_chans (delete chan (w_chans w)) w)).

(** The message is stored and the channel becomes full. *)
Definition hdc_store (chan : addr) (buf : list Z) (size : Z) : M world unit :=
  upd_chan chan (fun x => set_ch_status HDC_STATUS_FULL
    (set_ch_msg (take (Z.to_nat size) buf) (set_ch_msglen size x))).

Definition dyco_channel_send (chan : addr) (buf : list Z) (size timeout : Z) : prog world Z :=
  if chan =? NULL then PRet (-2)
  else
    let! x := atomic (getchan chan) in
    if (ch_maxsize x <? size) || (size =? 0) then PRet (-2)
    else
      match ch_status x with
      | HDC_STATUS_EMPTY =>
          do! atomic (hdc_store chan buf size); PRet (i32 size)
      | HDC_STATUS_FULL =>
          do! atomic (upd_chan chan (set_ch_status HDC_STATUS_WANTWRITE));
          do! hdc_wait chan (ch_w_notifyfd x) timeout;
          let! y := atomic (getchan chan) in
          match ch_status y with
          | HDC_STATUS_EMPTY =>
              do! atomic (hdc_store chan buf size); PRet (i32 size)
          | HDC_STATUS_FULL => PRet (-2)
          | HDC_STATUS_WANTREAD =>
              do! atomic (hdc_store chan buf size);
              do! atomic (hdc_notify chan (ch_r_notifyfd y)); PRet (i32 size)
          | HDC_STATUS_WANTWRITE =>
              do! atomic (upd_chan chan (set_ch_status HDC_STATUS_FULL)); PRet 0
          | HDC_STATUS_WANTCLOSE =>
              do! atomic (upd_chan chan (set_ch_status HDC_STATUS_CANCLOSE));
              do! atomic (hdc_notify chan (ch_r_notifyfd y)); PRet (-1)
          | _ => PRet (-1)
          end
      | HDC_STATUS_WANTREAD =>
          do! atomic (hdc_store chan buf size);
          do! atomic (hdc_notify chan (ch_r_notifyfd x)); PRet (i32 size)
      | HDC_STATUS_WANTWRITE => PRet (-2)
      | HDC_STATUS_WANTCLOSE => PRet (-1)
      | _ => PRet (-2)
      end.

(** The message is copied out and the channel becomes empty. *)
Definition hdc_fetch (chan : addr) : M world (Z * list Z) :=
  let* x := getchan chan in
  upd_chan chan (set_ch_status HDC_STATUS_EMPTY) ;;;
  ret (i32 (ch_msglen x), take (Z.to_nat (ch_msglen x)) (ch_msg x)).

(** The result and the bytes written to the caller's buffer. *)
Definition dyco_channel_recv (chan : addr) (maxsize timeout : Z) : prog world (Z * list Z) :=
  if chan =? NULL then PRet (-2, [])
  else
    let! x := atomic (getchan chan) in
    if maxsize <? ch_maxsize x then PRet (-2, [])
    else
      match ch_status x with
      | HDC_STATUS_EMPTY =>
          do! atomic (upd_chan chan (set_ch_status HDC_STATUS_WANTREAD));
          do! hdc_wait chan (ch_r_notifyfd x) timeout;
          let! y := atomic (getchan chan) in
          match ch_status y with
          | HDC_STATUS_EMPTY => PRet (-2, [])
          | HDC_STATUS_FULL => atomic (hdc_fetch chan)
          | HDC_STATUS_WANTREAD =>
              do! atomic (upd_chan chan (set_ch_status HDC_STATUS_EMPTY)); PRet (0, [])
          | HDC_STATUS_WANTWRITE =>
              let! r := atomic (hdc_fetch chan) in
              do! atomic (hdc_notify chan (ch_w_notifyfd y)); PRet r
          | HDC_STATUS_WANTCLOSE =>
              do! atomic (upd_chan chan (set_ch_status HDC_STATUS_CANCLOSE));
              do! atomic (hdc_notify chan (ch_w_notifyfd y)); PRet (-1, [])
          | _ => PRet (-1, [])
          end
      | HDC_STATUS_FULL => atomic (hdc_fetch chan)
      | HDC_STATUS_WANTREAD => PRet (-2, [])
      | HDC_STATUS_WANTWRITE =>
          let! r := atomic (hdc_fetch chan) in
          do! atomic (hdc_notify chan (ch_w_notifyfd x)); PRet r
      | HDC_STATUS_WANTCLOSE => PRet (-1, [])
      | _ => PRet (-2, [])
      end.

End channel.

(** * Properties *)

Section channel_proofs.
Context {os : OS} {osl : OSLaws os} {T : Type} {st : SleepTree T} {stl : SleepTreeLaws T}.
Local Abbreviation world := (@world os T).
Local Abbreviation dyco_schedule := (@dyco_schedule T).
Implicit Types (w : world) (s : dyco_schedule) (x : half_duplex_channel) (chan : addr) (buf : list Z).

Lemma getchan_run chan x w : w_chans w !! chan = Some x -> getchan chan w = Ok (x, w).
Proof. unfold getchan, bind, get_st. by intros ->. Qed.

Definition with_chan chan x w : world := set_w_chans (<[chan := x]> (w_chans w)) w.

Lemma upd_chan_run chan f x w :
  w_chans w !! chan = Some x -> upd_chan chan f w = Ok (tt, with_chan chan (f x) w).
Proof. intros Hx. unfold upd_chan, bind. by rewrite (getchan_run chan x w Hx). Qed.

Lemma hdc_fetch_run chan x w :
  w_chans w !! chan = Some x ->
  hdc_fetch chan w = Ok ((i32 (ch_msglen x), take (Z.to_nat (ch_msglen x)) (ch_msg x)),
    with_chan chan (set_ch_status HDC_STATUS_EMPTY x) w).
Proof. intros Hx. unfold hdc_fetch. mrun with getchan_run. by mrun with upd_chan_run. Qed.

(** The channel that holds the message [buf]. *)
Definition filled buf x : half_duplex_channel :=
  set_ch_status HDC_STATUS_FULL (set_ch_msg buf (set_ch_msglen (Z.of_nat (length buf)) x)).

Definition sendable buf x : Prop :=
  0 < Z.of_nat (length buf) <= ch_maxsize x /\ ch_maxsize x < 2 ^ 31.

Lemma hdc_store_run chan buf x w :
  w_chans w !! chan = Some x ->
  hdc_store chan buf (Z.of_nat (length buf)) w = Ok (tt, with_chan chan (filled buf x) w).
Proof.
  intros Hx. unfold hdc_store. erewrite upd_chan_run by done. unfold filled.
  by rewrite Nat2Z.id, firstn_all.
Qed.

(** Run the first operation of a program. *)
Ltac pstep lem := rewrite (exec_atomic_bind _ _ _ _ _ lem).

(** The guards of [dyco_channel_send] and [dyco_channel_recv]. *)
Lemma send_guard buf x :
  sendable buf x -> (ch_maxsize x <? Z.of_nat (length buf)) || (Z.of_nat (length buf) =? 0) = false.
Proof.
  intros [? ?]. destruct (Z.ltb_spec (ch_maxsize x) (Z.of_nat (length buf))); [lia|].
  destruct (Z.eqb_spec (Z.of_nat (length buf)) 0); [lia|done].
Qed.

(** ** A channel as a one-place buffer *)

(** Operations that do not block. *)
Inductive cop := TrySend (buf : list Z) | TryRecv (maxsize : Z).

Definition run_cop chan (o : cop) : prog world (Z * list Z) :=
  match o with
  | TrySend buf => (let! r := dyco_channel_send chan buf (Z.of_nat (length buf)) 0 in PRet (r, []))%dyco
  | TryRecv maxsize => dyco_channel_recv chan maxsize 0
  end.

(** The specification: at most one message is stored; a send to a full buffer
    and a receive from an empty one return 0. *)
Definition spec_cop (maxsize : Z) (o : cop) (slot : option (list Z)) : (Z * list Z) * option (list Z) :=
  match o with
  | TrySend buf =>
      if (maxsize <? Z.of_nat (length buf)) || (Z.of_nat (length buf) =? 0) then ((-2, []), slot)
      else match slot with
           | None => ((Z.of_nat (length buf), []), Some buf)
           | Some _ => ((0, []), slot)
           end
  | TryRecv m =>
      if m <? maxsize then ((-2, []), slot)
      else match slot with
           | Some buf => ((Z.of_nat (length buf), buf), None)
           | None => ((0, []), slot)
           end
  end.

Fixpoint run_cops chan (l : list cop) : prog world (list (Z * list Z)) :=
  match l with
  | [] => PRet []
  | o :: l' => (let! r := run_cop chan o in let! rs := run_cops chan l' in PRet (r :: rs))%dyco
  end.

Fixpoint spec_cops (maxsize : Z) (l : list cop) (slot : option (list Z)) :
    list (Z * list Z) * option (list Z) :=
  match l with
  | [] => ([], slot)
  | o :: l' =>
      let '(r, slot1) := spec_cop maxsize o slot in
      let '(rs, slot2) := spec_cops maxsize l' slot1 in (r :: rs, slot2)
  end.

(** The slot a channel at rest represents. *)
Definition chan_rep x (maxsize : Z) (slot : option (list Z)) : Prop :=
  ch_maxsize x = maxsize /\
  match slot with
  | None => ch_status x = HDC_STATUS_EMPTY
  | Some buf => ch_status x = HDC_STATUS_FULL /\ ch_msglen x = Z.of_nat (length buf) /\
      ch_msg x = buf /\ sendable buf x
  end.

Lemma hdc_wait_now chan fd w : exec (hdc_wait chan fd 0) w = (SDone tt, w).
Proof. done. Qed.

Lemma try_send_run chan buf x w maxsize slot :
  chan <> NULL -> w_chans w !! chan = Some x -> chan_rep x maxsize slot -> maxsize < 2 ^ 31 ->
  exists w' x', exec (run_cop chan (TrySend buf)) w = (SDone (spec_cop maxsize (TrySend buf) slot).1, w') /\
    w_chans w' !! chan = Some x' /\ chan_rep x' maxsize (spec_cop maxsize (TrySend buf) slot).2.
Proof.
  intros Hn Hx [<- Hrep] Hb. cbn [run_cop spec_cop]. unfold dyco_channel_send.
  destruct (Z.eqb_spec chan NULL); [done|]. rewrite exec_bind. pstep (getchan_run chan x w Hx).
  destruct ((ch_maxsize x <? _) || _) eqn:Hg; [by exists w, x|].
  apply orb_false_iff in Hg as [Hg1%Z.ltb_ge Hg2%Z.eqb_neq].
  assert (Hsend : sendable buf x) by (split; lia).
  destruct slot as [m|].
  - destruct Hrep as (Hst & Hrep). rewrite Hst.
    pstep (upd_chan_run chan (set_ch_status HDC_STATUS_WANTWRITE) x w Hx).
    rewrite exec_bind, hdc_wait_now.
    set (y := set_ch_status HDC_STATUS_WANTWRITE x).
    pstep (getchan_run chan y (with_chan chan y w) (lookup_insert_eq _ _ _)).
    change (ch_status y) with HDC_STATUS_WANTWRITE. cbv iota.
    pstep (upd_chan_run chan (set_ch_status HDC_STATUS_FULL) y (with_chan chan y w)
      (lookup_insert_eq _ _ _)).
    eexists _, _. split; [done|]. split; [apply lookup_insert_eq|]. done.
  - rewrite Hrep. pstep (hdc_store_run chan buf x w Hx).
    eexists _, _. split; [simpl; by rewrite i32_small by (unfold is_i32; lia)|].
    split; [apply lookup_insert_eq|]. done.
Qed.

Lemma try_recv_run chan m x w maxsize slot :
  chan <> NULL -> w_chans w !! chan = Some x -> chan_rep x maxsize slot -> maxsize < 2 ^ 31 ->
  exists w' x', exec (run_cop chan (TryRecv m)) w = (SDone (spec_cop maxsize (TryRecv m) slot).1, w') /\
    w_chans w' !! chan = Some x' /\ chan_rep x' maxsize (spec_cop maxsize (TryRecv m) slot).2.
Proof.
  intros Hn Hx [<- Hrep] Hb. cbn [run_cop spec_cop]. unfold dyco_channel_recv.
  destruct (Z.eqb_spec chan NULL); [done|]. pstep (getchan_run chan x w Hx).
  destruct (m <? ch_maxsize x) eqn:Hg; [by exists w, x|].
  destruct slot as [buf|].
  - destruct Hrep as (Hst & Hlen & Hmsg & [Hs1 Hs2]). rewrite Hst.
    rewrite exec_atomic, (hdc_fetch_run chan x w Hx), Hlen, Hmsg, Nat2Z.id, firstn_all.
    eexists _, _. split; [by rewrite i32_small by (unfold is_i32; lia)|].
    split; [apply lookup_insert_eq|]. done.
  - rewrite Hrep. pstep (upd_chan_run chan (set_ch_status HDC_STATUS_WANTREAD) x w Hx).
    rewrite exec_bind, hdc_wait_now.
    set (y := set_ch_status HDC_STATUS_WANTREAD x).
    pstep (getchan_run chan y (with_chan chan y w) (lookup_insert_eq _ _ _)).
    change (ch_status y) with HDC_STATUS_WANTREAD. cbv iota.
    pstep (upd_chan_run chan (set_ch_status HDC_STATUS_EMPTY) y (with_chan chan y w)
      (lookup_insert_eq _ _ _)).
    eexists _, _. split; [done|]. split; [apply lookup_insert_eq|]. done.
Qed.

(** C24. Operations that do not block make a channel a one-place buffer: every
    sequence of sends and receives without timeout returns what the same
    sequence returns on a slot that holds at most one message.  A message is
    received once, complete and unchanged, a full channel keeps its message
    when a send is refused, and the size limits are enforced.  A send to a full
    and a receive from an empty channel return 0, which the comments of the
    interface in [README.md] give for a closed channel only. *)
Theorem channel_refines_slot l chan x w maxsize slot :
  chan <> NULL -> w_chans w !! chan = Some x -> chan_rep x maxsize slot -> maxsize < 2 ^ 31 ->
  exists w' x', exec (run_cops chan l) w = (SDone (spec_cops maxsize l slot).1, w') /\
    w_chans w' !! chan = Some x' /\ chan_rep x' maxsize (spec_cops maxsize l slot).2.
Proof.
  intros Hn. revert w x slot. induction l as [|o l IH]; intros w x slot Hx Hrep Hb; [by exists w, x|].
  cbn [run_cops spec_cops]. rewrite exec_bind.
  assert (Hstep : exists w' x', exec (run_cop chan o) w = (SDone (spec_cop maxsize o slot).1, w') /\
    w_chans w' !! chan = Some x' /\ chan_rep x' maxsize (spec_cop maxsize o slot).2)
    by (destruct o; [by eapply try_send_run|by eapply try_recv_run]).
  destruct Hstep as (w1 & x1 & -> & Hx1 & Hrep1). destruct (spec_cop maxsize o slot) as [r slot1].
  destruct (IH w1 x1 slot1 Hx1 Hrep1 Hb) as (w2 & x2 & He & Hx2 & Hrep2). rewrite exec_bind, He.
  destruct (spec_cops maxsize l slot1). by exists w2, x2.
Qed.

(** ** Rendezvous *)

Lemma hdc_notify_run chan x w fd n :
  w_chans w !! chan = Some x -> os_counter (w_kern w) fd = Some n -> 0 <= n < 2 ^ 32 ->
  exists k, hdc_notify chan fd w = Ok (tt, set_w_kern k w) /\
    os_counter k fd = Some (n + hdc_code (ch_status x)).
Proof.
  intros Hx Hc Hn.
  destruct (eventfd_write_open (w_kern w) fd (hdc_code (ch_status x)) n Hc) as (k & Hk & Hk1 & _);
    [by destruct (ch_status x)|destruct (ch_status x); simpl; lia|].
  exists k. split; [|done]. unfold hdc_notify. mrun with getchan_run. by mrun.
Qed.

(** The end of a blocked [hdc_wait]. *)
Definition hdc_woken (a fd : addr) : prog world unit :=
  (do! resumed a fd; let! _ := atomic (sys (os_eventfd_read fd)) in PRet tt)%dyco.

Lemma hdc_woken_run w s q a c fd :
  sched_ok w s q -> w_sched w = Some s -> one_wait s -> w_coros w !! a = Some c ->
  (waiting_flag c = true -> fds s !! fd = Some a) ->
  exists w', exec (hdc_woken a fd) w = (SDone tt, w') /\ w_chans w' = w_chans w.
Proof.
  intros Hok Hs Hone Hc Hfd. unfold hdc_woken. rewrite exec_bind.
  destruct (resumed_run w s q a c fd Hok Hs Hone Hc Hfd) as
    (w3 & s3 & c3 & He & _ & _ & _ & _ & _ & _ & _ & (_ & Hch & _) & _). rewrite He.
  destruct (os_eventfd_read fd (w_kern w3)) as [r k3] eqn:Hk3.
  pstep (sys_run _ w3 _ k3 Hk3). by exists (set_w_kern k3 w3).
Qed.

(** The rest of a receive that blocked on the eventfd [fd]. *)
Definition recv_tail (chan a fd : addr) : prog world (Z * list Z) :=
  (do! hdc_woken a fd;
   let! y := atomic (getchan chan) in
   match ch_status y with
   | HDC_STATUS_EMPTY => PRet (-2, [])
   | HDC_STATUS_FULL => atomic (hdc_fetch chan)
   | HDC_STATUS_WANTREAD =>
       do! atomic (upd_chan chan (set_ch_status HDC_STATUS_EMPTY)); PRet (0, [])
   | HDC_STATUS_WANTWRITE =>
       let! r := atomic (hdc_fetch chan) in
       do! atomic (hdc_notify chan (ch_w_notifyfd y)); PRet r
   | HDC_STATUS_WANTCLOSE =>
       do! atomic (upd_chan chan (set_ch_status HDC_STATUS_CANCLOSE));
       do! atomic (hdc_notify chan (ch_w_notifyfd y)); PRet (-1, [])
   | _ => PRet (-1, [])
   end)%dyco.

(** [recv_tail] is what a receive on an empty channel continues with, after it
    announced itself and blocked. *)
Lemma recv_blocks w s q a c chan x maxsize timeout now k :
  running w s a c -> sched_ok w s q -> (forall k, stack_ok (set_w_kern k w) s c) ->
  chan <> NULL -> w_chans w !! chan = Some x -> ch_status x = HDC_STATUS_EMPTY ->
  ch_maxsize x <= maxsize -> 0 < timeout ->
  let fd := ch_r_notifyfd x in
  os_registered (w_kern w) (s_epollfd s) fd = false -> is_Some (os_counter (w_kern w) fd) -> fd <> 0 ->
  memory_ok (os_epoll_add (s_epollfd s) fd EVENTS_R (w_kern w)).2 ->
  os_clock_gettime (after_wait s fd EVENTS_R (w_kern w)) = (now, k) ->
  deadline s now timeout + Z.of_nat (size (view s)) < 2 ^ 64 ->
  exists w1 s1 key,
    exec (dyco_channel_recv chan maxsize timeout) w = (SSwitch (SwapSched a) (recv_tail chan a fd), w1) /\
    w_chans w1 !! chan = Some (set_ch_status HDC_STATUS_WANTREAD x) /\
    w_sched w1 = Some s1 /\ fds s1 = <[fd := a]> (fds s) /\
    view s1 !! key = Some a /\ deadline s now timeout <= key.
Proof.
  intros Hrun Hok Hst Hn Hx Hem Hm Ht fd Hreg Hcnt H0 Hmem Hk Hlt.
  unfold dyco_channel_recv. destruct (Z.eqb_spec chan NULL); [done|]. pstep (getchan_run chan x w Hx).
  destruct (Z.ltb_spec maxsize (ch_maxsize x)); [lia|]. rewrite Hem.
  pstep (upd_chan_run chan (set_ch_status HDC_STATUS_WANTREAD) x w Hx). rewrite exec_bind.
  set (w0 := with_chan chan _ w).
  assert (Hrun0 : running w0 s a c) by done. destruct (Hrun0) as (Hs & Hcur & Hnn & Hc & _ & Has & _).
  unfold hdc_wait. destruct (Z.eqb_spec timeout 0); [lia|].
  pstep (opt_curr_of w0 s a Hs Hcur Hnn). pstep (test_co_run a COROUTINE_FLAGS_ASYMMETRIC c w0 Hc). rewrite Has.
  rewrite (exec_atomic_bind (DYCO_MUSTNOT false) _ w0 tt w0 eq_refl), exec_bind. fold fd.
  destruct (suspend_run w0 s q a c fd EVENTS_R timeout now k) as
    (w1 & s1 & key & -> & Hs1 & Hf1 & _ & Hv1 & Hd1 & (_ & Hch & _)); try done.
  - destruct Hok as [[] ]. by split.
  - intros k0. destruct (Hst k0). by split.
  - exists w1, s1, key. split_and!; try done. rewrite Hch. apply lookup_insert_eq.
Qed.

(** C25. A receiver that has announced itself on an empty channel rendezvouses with
    the sender: the send stores the message and writes to
    the receiver's eventfd, and the receiver, resumed in any consistent state
    in which the channel still holds the message, returns it complete, leaving
    the channel empty; a receiver resumed by its timer returns 0 and withdraws
    its announcement, although the channel is open ([README.md] gives 0 for a
    closed channel). *)
Theorem channel_rendezvous chan x w a buf timeout n :
  chan <> NULL -> w_chans w !! chan = Some x -> ch_status x = HDC_STATUS_WANTREAD -> sendable buf x ->
  os_counter (w_kern w) (ch_r_notifyfd x) = Some n -> 0 <= n < 2 ^ 32 ->
  exists w1, exec (dyco_channel_send chan buf (Z.of_nat (length buf)) timeout) w =
      (SDone (Z.of_nat (length buf)), w1) /\
    w_chans w1 !! chan = Some (filled buf x) /\
    os_counter (w_kern w1) (ch_r_notifyfd x) = Some (n + 2) /\
    forall w2 s2 q2 c2 y, sched_ok w2 s2 q2 -> w_sched w2 = Some s2 -> one_wait s2 ->
      w_coros w2 !! a = Some c2 ->
      (waiting_flag c2 = true -> fds s2 !! ch_r_notifyfd x = Some a) ->
      w_chans w2 !! chan = Some y ->
      (y = filled buf x -> exists w3,
         exec (recv_tail chan a (ch_r_notifyfd x)) w2 = (SDone (Z.of_nat (length buf), buf), w3) /\
         w_chans w3 !! chan = Some (set_ch_status HDC_STATUS_EMPTY (filled buf x))) /\
      (y = x -> exists w3,
         exec (recv_tail chan a (ch_r_notifyfd x)) w2 = (SDone (0, []), w3) /\
         w_chans w3 !! chan = Some (set_ch_status HDC_STATUS_EMPTY x)).
Proof.
  intros Hn Hx Hst Hsend Hcnt Hr. pose proof Hsend as [Hs1 Hs2].
  destruct (hdc_notify_run chan (filled buf x) (with_chan chan (filled buf x) w) (ch_r_notifyfd x) n)
    as (k & Hk & Hk1); [apply lookup_insert_eq|done|done|].
  exists (set_w_kern k (with_chan chan (filled buf x) w)). split_and!; [|apply lookup_insert_eq|done|].
  - unfold dyco_channel_send. destruct (Z.eqb_spec chan NULL); [done|]. pstep (getchan_run chan x w Hx).
    rewrite (send_guard buf x Hsend), Hst. pstep (hdc_store_run chan buf x w Hx).
    pstep Hk. simpl. by rewrite i32_small by (unfold is_i32; lia).
  - intros w2 s2 q2 c2 y Hok2 Hss2 Hone Hc2 Hfd2 Hy. unfold recv_tail. rewrite exec_bind.
    destruct (hdc_woken_run w2 s2 q2 a c2 (ch_r_notifyfd x)) as (w3 & -> & Hch); try done.
    assert (Hy3 : w_chans w3 !! chan = Some y) by (by rewrite Hch).
    pstep (getchan_run chan y _ Hy3). split; intros ->.
    + cbn [ch_status filled set_ch_status set_ch_msg set_ch_msglen].
      rewrite exec_atomic, (hdc_fetch_run chan _ _ Hy3).
      eexists (with_chan chan _ w3). split; [|apply lookup_insert_eq].
      simpl. by rewrite Nat2Z.id, firstn_all, i32_small by (unfold is_i32; lia).
    + rewrite Hst. pstep (upd_chan_run chan (set_ch_status HDC_STATUS_EMPTY) x _ Hy3).
      eexists. split; [done|apply lookup_insert_eq].
Qed.

(** [dyco_channel_destroy] destroys nothing: its guard assigns the closing
    status instead of comparing with it, so the channel stays allocated with
    its descriptors open, a blocked peer is not notified, and from then on
    every send and receive fails with -1. *)
Theorem channel_destroy_leaks chan x w buf timeout m :
  chan <> NULL -> w_chans w !! chan = Some x -> sendable buf x -> ch_maxsize x <= m ->
  exists w', exec (dyco_channel_destroy chan) w = (SDone tt, w') /\
    w_chans w' !! chan = Some (set_ch_status HDC_STATUS_WANTCLOSE x) /\ w_kern w' = w_kern w /\
    exec (dyco_channel_send chan buf (Z.of_nat (length buf)) timeout) w' = (SDone (-1), w') /\
    exec (dyco_channel_recv chan m timeout) w' = (SDone (-1, []), w').
Proof.
  intros Hn Hx Hsend Hm. set (y := set_ch_status HDC_STATUS_WANTCLOSE x).
  assert (Hy : w_chans (with_chan chan y w) !! chan = Some y) by apply lookup_insert_eq.
  exists (with_chan chan y w). split_and!; [|done|done|..];
    unfold dyco_channel_destroy, dyco_channel_send, dyco_channel_recv;
    (destruct (Z.eqb_spec chan NULL); [done|]).
  - by pstep (upd_chan_run chan (set_ch_status HDC_STATUS_WANTCLOSE) x w Hx).
  - pstep (getchan_run chan y _ Hy). by rewrite (send_guard buf y Hsend).
  - pstep (getchan_run chan y _ Hy).
    by replace (m <? ch_maxsize y) with false by (symmetry; by apply Z.ltb_ge).
Qed.

End channel_proofs.

(** ** Concrete states *)

(** Channel 176 with capacity 4; its eventfds are 8 and 9. *)
Definition ex_chan (status : half_duplex_channel_status) : half_duplex_channel :=
  mk_chan 4 0 [] 8 9 status.
Definition ex_chans (status : half_duplex_channel_status) : @world sim (gmap Z addr) :=
  set_w_chans {[176 := ex_chan status]}
    (set_w_kern (mk_sim 1000000000 10 {[8 := 0; 9 := 0]} ∅ : @kernel sim) ex_blk).

Lemma channel_refines_slot_witness :
  exists w' x', exec (run_cops 176 [TrySend [1; 2]; TrySend [3]; TryRecv 4; TryRecv 4; TryRecv 3;
      TrySend [1; 2; 3; 4; 5]]) (ex_chans HDC_STATUS_EMPTY) =
      (SDone [(2, []); (0, []); (2, [1; 2]); (0, []); (-2, []); (-2, [])], w') /\
    w_chans w' !! 176 = Some x' /\ chan_rep x' 4 None.
Proof.
  apply (channel_refines_slot [TrySend [1; 2]; TrySend [3]; TryRecv 4; TryRecv 4; TryRecv 3;
    TrySend [1; 2; 3; 4; 5]] 176 (ex_chan HDC_STATUS_EMPTY) (ex_chans HDC_STATUS_EMPTY) 4 None); done.
Defined.

Lemma channel_rendezvous_witness :
  let x := ex_chan HDC_STATUS_WANTREAD in
  exists w1, exec (dyco_channel_send 176 [5; 6] 2 100) (ex_chans HDC_STATUS_WANTREAD) =
      (SDone 2, w1) /\
    w_chans w1 !! 176 = Some (filled [5; 6] x) /\
    os_counter (w_kern w1) 8 = Some 2 /\
    forall (w2 : @world sim (gmap Z addr)) s2 q2 c2 y,
      sched_ok w2 s2 q2 -> w_sched w2 = Some s2 -> one_wait s2 ->
      w_coros w2 !! 64 = Some c2 -> (waiting_flag c2 = true -> fds s2 !! 8 = Some 64) ->
      w_chans w2 !! 176 = Some y ->
      (y = filled [5; 6] x -> exists w3,
         exec (recv_tail 176 64 8) w2 = (SDone (2, [5; 6]), w3) /\
         w_chans w3 !! 176 = Some (set_ch_status HDC_STATUS_EMPTY (filled [5; 6] x))) /\
      (y = x -> exists w3,
         exec (recv_tail 176 64 8) w2 = (SDone (0, []), w3) /\
         w_chans w3 !! 176 = Some (set_ch_status HDC_STATUS_EMPTY x)).
Proof.
  intros x.
  refine (channel_rendezvous 176 x (ex_chans HDC_STATUS_WANTREAD) 64 [5; 6] 100 0 _ _ _ _ _ _); done.
Defined.

Lemma channel_destroy_leaks_witness :
  exists w', exec (dyco_channel_destroy 176) (ex_chans HDC_STATUS_EMPTY) = (SDone tt, w') /\
    w_chans w' !! 176 = Some (ex_chan HDC_STATUS_WANTCLOSE) /\
    w_kern w' = w_kern (ex_chans HDC_STATUS_EMPTY) /\
    exec (dyco_channel_send 176 [1] 1 0) w' = (SDone (-1), w') /\
    exec (dyco_channel_recv 176 4 0) w' = (SDone (-1, []), w').
Proof.
  apply (channel_destroy_leaks 176 (ex_chan HDC_STATUS_EMPTY) (ex_chans HDC_STATUS_EMPTY) [1] 0 4); done.
Defined.
