(* ===== verification/Calm.v ===== *)
(** * The state of a program in good order

    The invariant of a thread whose coroutines compute, sleep, wait on and
    signal semaphores, and send and receive over channels: no coroutine is ever lost.  Whenever the scheduler runs,
    every coroutine is on a ready queue, in the tree of timers or waiting for
    its eventfd, and in one of these places only; every eventfd in the queue of
    a semaphore is open and is that of a waiting coroutine; the units of a
    semaphore that is used as a lock are neither lost nor multiplied; and the
    messages of a channel are taken out in the order in which they are put in. *)
From S2P Require Import Prelude Htable Queue SleepTree World SimOS Schedule SchedInv Prog Coroutine Semaphore Run RoundRobin.

Local Open Scope Z_scope.
Local Open Scope dyco_scope.

(** ** The system

    [inside k sem] is how many coroutines are in the section that the program
    guards with the semaphore [sem], as the program counts them: the kernel is
    all that is outside of the library, the variables of the program too. *)
Class Inside (os : OS) := inside : kernel -> addr -> Z.

(** The reading of the clock in microseconds; [onward k k'] is a step of the
    system that the program takes no part in, [later k k'] one that leaves the
    descriptors alone as well. *)
Definition now_of {os : OS} (k : kernel) : Z :=
  let '(sec, nsec) := (os_clock_gettime k).1 in u64 (sec * 1000000 + nsec / 1000).

Definition onward {os : OS} {ins : Inside os} (k k' : kernel) : Prop :=
  now_of k <= now_of k' /\ forall sem, inside k' sem = inside k sem.

Definition later {os : OS} {osl : OSLaws os} {ins : Inside os} (k k' : kernel) : Prop :=
  onward k k' /\ (forall ep fd, os_registered k' ep fd = os_registered k ep fd) /\
  (forall fd, os_counter k' fd = os_counter k fd).

(** Time does not go backwards and stays below 2^63 microseconds; memory and
    descriptors are not exhausted and a new epoll set is empty; [epoll_wait] fails only when interrupted,
    and reports registered descriptors with something to read; the stacks stay
    below [depth]. *)
Class CalmLaws (os : OS) {osl : OSLaws os} {ins : Inside os} := {
  depth : Z;
  stack_depth k : 0 < os_stack_used k <= depth;
  clock_bound k : now_of k < 2 ^ 63;
  clock_later k : later k (os_clock_gettime k).2;
  malloc_later used k : later k (os_malloc used k).2;
  malloc_succeeds used k : (os_malloc used k).1 <> NULL;
  alloc_later k : later k (os_alloc_ok k).2;
  alloc_succeeds k : memory_ok k;
  wait_later ep timeout k : later k (os_epoll_wait ep timeout k).2;
  wait_error ep timeout k : (os_epoll_wait ep timeout k).1.1 = -1 ->
    os_errno_eintr (os_epoll_wait ep timeout k).2 = true;
  wait_reports ep timeout k fd : fd ∈ (os_epoll_wait ep timeout k).1.2 ->
    os_registered k ep fd = true /\ os_counter k fd <> Some 0;
  eventfd_succeeds k : (os_eventfd k).1 <> -1 /\ (os_eventfd k).1 <> 0;
  eventfd_onward k : onward k (os_eventfd k).2;
  write_onward fd v k : onward k (os_eventfd_write fd v k).2;
  write_registered fd v k ep fd' : os_registered (os_eventfd_write fd v k).2 ep fd' = os_registered k ep fd';
  read_onward fd k : onward k (os_eventfd_read fd k).2;
  read_registered fd k ep fd' : os_registered (os_eventfd_read fd k).2 ep fd' = os_registered k ep fd';
  close_onward fd k : onward k (os_close fd k).2;
  close_registered fd k ep fd' : fd' <> fd -> os_registered (os_close fd k).2 ep fd' = os_registered k ep fd';
  close_unregistered fd k ep : os_registered k ep fd = false -> os_registered (os_close fd k).2 ep fd = false;
  epoll_create_succeeds k : (os_epoll_create k).1 <> -1;
  epoll_create_onward k : onward k (os_epoll_create k).2;
  epoll_create_fresh k fd : os_registered (os_epoll_create k).2 (os_epoll_create k).1 fd = false;
  epoll_add_onward ep fd ev k : onward k (os_epoll_add ep fd ev k).2;
  epoll_del_onward ep fd k : onward k (os_epoll_del ep fd k).2
}.

(** A program that installs no signal handlers is not interrupted, and
    [epoll_wait] reports something when a registered eventfd can be read. *)
Class AlertLaws (os : OS) {osl : OSLaws os} : Prop := {
  wait_uninterrupted ep timeout k : (os_epoll_wait ep timeout k).1.1 <> -1;
  wait_alert ep timeout k fd n : os_registered k ep fd = true -> os_counter k fd = Some n -> 0 < n ->
    let r := (os_epoll_wait ep timeout k).1 in exists fd', fd' ∈ take (Z.to_nat r.1) r.2
}.

(** ** The client

    What a program of such coroutines shares: its semaphores, each an event
    that is signalled and awaited freely ([None]) or a lock with so many units
    ([Some cap]); its channels, each with its eventfds, the size of its buffer
    and the messages that are to go through it, in their order; and the data of
    the user in the scheduler. *)
Record stream := mk_stream { st_r : Z; st_w : Z; st_size : Z; st_msg : nat -> list Z }.

(** What a coroutine owns: the locks of which it holds a unit, those of them
    whose section it has entered, and the ends of channels ([true] is the end of
    the sender) with the number of messages that it has put in or taken out. *)
Record locks := mk_locks { l_held : gset addr; l_in : gset addr; l_ends : gmap (addr * bool) nat }.

(** What its coroutines keep to besides: whether they set timers; for what
    object, at what eventfd and owning what they may wait; and what each may own
    when it has come to its end. *)
Record rules := mk_rules {
  ru_timers : bool;
  ru_may : Z -> addr -> locks -> Prop;
  ru_end : addr -> locks -> Prop
}.
Definition free_rules : rules := mk_rules true (fun _ _ _ => True) (fun _ _ => True).

Record client := Client {
  cl_sems : gmap addr (option Z);
  cl_chans : gmap addr stream;
  cl_udata : Z;
  cl_rules : rules
}.
Definition mk_client (sems : gmap addr (option Z)) (udata : Z) : client := Client sems ∅ udata free_rules.

(** The eventfd on which a coroutine waits, or has waited until it reads it,
    with the semaphore or the channel; and what it owns. *)
Record ghost := mk_ghost { g_fd : gmap addr (Z * addr); g_locks : gmap addr locks }.
Definition no_locks : locks := mk_locks ∅ ∅ ∅.
Definition locks_of (G : ghost) (a : addr) : locks := default no_locks (g_locks G !! a).
Definition local (G : ghost) (a : addr) : option (Z * addr) * locks := (g_fd G !! a, locks_of G a).
Definition set_locks (a : addr) (l : locks) (G : ghost) : ghost := mk_ghost (g_fd G) (<[a := l]> (g_locks G)).

Section calm.
Context {os : OS} {osl : OSLaws os} {ins : Inside os} {cl : CalmLaws os} {T : Type} {st : SleepTree T} {stl : SleepTreeLaws T}.
Local Abbreviation world := (@world os T).
Local Abbreviation dyco_schedule := (@dyco_schedule T).
Implicit Types (w : world) (s : dyco_schedule) (c : dyco_coroutine) (a : addr) (q : list Z * list Z) (G : ghost).

Context (env : client).

(** What a coroutine may do to the system: it neither turns the clock back nor
    touches the registrations and the eventfds of the library. *)
Definition quiet {A} (f : kernel -> A * kernel) : Prop := forall k, later k (f k).2.

(** Counting [d] coroutines more in the section of [sem]; the count is the
    result. *)
Definition counts (d : Z) (sem : addr) (f : kernel -> Z * kernel) : Prop :=
  forall k, now_of k <= now_of (f k).2 /\
    (forall ep fd, os_registered (f k).2 ep fd = os_registered k ep fd) /\
    (forall fd, os_counter (f k).2 fd = os_counter k fd) /\
    (forall sem2, inside (f k).2 sem2 = inside k sem2 + if decide (sem2 = sem) then d else 0) /\
    (f k).1 = inside (f k).2 sem.

Lemma onward_trans k1 k2 k3 : onward k1 k2 -> onward k2 k3 -> onward k1 k3.
Proof. intros [H1 H2] [H3 H4]. split; [lia|]. intros sem. by rewrite H4. Qed.

Lemma later_refl k : later k k.
Proof. by repeat split. Qed.

Lemma later_trans k1 k2 k3 : later k1 k2 -> later k2 k3 -> later k1 k3.
Proof.
  intros (H1 & H2 & H3) (H4 & H5 & H6). split_and!; [by eapply onward_trans| |].
  - intros ep fd. by rewrite H5.
  - intros fd. by rewrite H6.
Qed.

(** ** The invariant *)

(** Flags that no such coroutine ever has. *)
Definition NEVER : list Z :=
  [COROUTINE_FLAGS_OWNSTACK; COROUTINE_STATUS_SCHEDCALL; COROUTINE_STATUS_KILLED; COROUTINE_FLAGS_INCOROPOOL;
   COROUTINE_FLAGS_IOMULTIPLEXING; COROUTINE_FLAGS_WAITSIGNAL; COROUTINE_FLAGS_ASYMMETRIC].

Definition calm_co (exited : bool) c : Prop :=
  co_sched c <> NULL /\ co_cid c <> 0 /\ co_cid c <> -1 /\ stack_kept depth c /\
  Forall (fun f => TESTBIT (co_status c) f = false) NEVER /\
  TESTBIT (co_status c) COROUTINE_STATUS_EXITED = exited.

(** The time since the scheduler was made. *)
Definition clock s (k : kernel) : Z := now_of k - s_birth s.

Definition blocked c : bool := sleeping_flag c || waiting_flag c.

(** The eventfd [fd] of the object [obj] has been written and not read. *)
Definition signalled (k : kernel) (fd : Z) (obj : addr) : Prop :=
  exists n, os_counter k fd = Some n /\ 0 < n /\ (cl_chans env !! obj = None -> n = 1).

(** The eventfds of the coroutines, against the map of waits and the queues of
    the semaphores. *)
Record owners w s G : Prop := {
  ow_fds fd a : fds s !! fd = Some a -> exists sem, g_fd G !! a = Some (fd, sem);
  ow_reg fd : os_registered (w_kern w) (s_epollfd s) fd = true -> is_Some (fds s !! fd);
  ow_inj a b fd sem1 sem2 : g_fd G !! a = Some (fd, sem1) -> g_fd G !! b = Some (fd, sem2) -> a = b;
  ow_open a fd sem : g_fd G !! a = Some (fd, sem) -> is_Some (w_coros w !! a) /\ fd <> 0 /\
    (signalled (w_kern w) fd sem \/ (os_counter (w_kern w) fd = Some 0 /\ fds s !! fd = Some a));
  ow_queue sem x fd : w_sems w !! sem = Some x -> fd ∈ sem_wqueue x ->
    os_counter (w_kern w) fd = Some 0 /\ exists a, fds s !! fd = Some a /\ g_fd G !! a = Some (fd, sem);
  ow_nodup sem x : w_sems w !! sem = Some x -> NoDup (sem_wqueue x);
  ow_sems sem : is_Some (cl_sems env !! sem) -> is_Some (w_sems w !! sem);
  ow_apart sem : is_Some (w_sems w !! sem) -> cl_chans env !! sem = None
}.

(** The units of a lock: free, held, or on their way to a coroutine that has
    been signalled; and the coroutines in its section. *)
Definition holds (sem : addr) (l : locks) : bool := bool_decide (sem ∈ l_held l).
Definition enters (sem : addr) (l : locks) : bool := bool_decide (sem ∈ l_in l).
Definition woken (k : kernel) (sem : addr) (p : Z * addr) : bool :=
  bool_decide (p.2 = sem) && bool_decide (os_counter k p.1 = Some 1).

Record permits w G : Prop := {
  pm_units sem cap : cl_sems env !! sem = Some (Some cap) -> cap <= DYCO_SEM_VALUE_MAX /\
    exists x, w_sems w !! sem = Some x /\ 0 <= sem_semval x /\
      sem_semval x + tally (holds sem) (g_locks G) + tally (woken (w_kern w) sem) (g_fd G) = cap;
  pm_inside sem cap : cl_sems env !! sem = Some (Some cap) -> inside (w_kern w) sem = tally (enters sem) (g_locks G);
  pm_held a l : g_locks G !! a = Some l -> l_in l ⊆ l_held l
}.

(** *** Channels

    At an end of a channel nobody waits, or its owner is blocked, or has been
    signalled and has not yet read its eventfd. *)
Inductive mode := Idle | Parked | Woken.

Definition at_end (k : kernel) G (ch : addr) (b : bool) (fd : Z) (md : mode) : Prop :=
  match md with
  | Idle => os_counter k fd = Some 0 /\ forall a obj, g_fd G !! a <> Some (fd, obj)
  | _ => exists a n, g_fd G !! a = Some (fd, ch) /\ is_Some (l_ends (locks_of G a) !! (ch, b)) /\
      os_counter k fd = Some n /\ match md with Parked => n = 0 | _ => 0 < n end
  end.

Definition st_desc (sm : stream) (b : bool) : Z := if b then st_w sm else st_r sm.

(** The message [j] is in the buffer. *)
Definition carries (x : half_duplex_channel) (sm : stream) (j : nat) : Prop :=
  ch_msg x = st_msg sm j /\ ch_msglen x = Z.of_nat (length (st_msg sm j)) /\ Z.of_nat (length (st_msg sm j)) <= st_size sm.

(** The status against the number [i] of messages put in, the number [j] of
    messages taken out, and the ends of the receiver and of the sender. *)
Definition stage (x : half_duplex_channel) (sm : stream) (i j : nat) (mr mw : mode) : Prop :=
  match ch_status x with
  | HDC_STATUS_EMPTY => i = j /\ mr = Idle /\ mw <> Parked
  | HDC_STATUS_FULL => i = S j /\ carries x sm j /\ mr <> Parked /\ mw = Idle
  | HDC_STATUS_WANTREAD => i = j /\ mr = Parked /\ mw <> Parked
  | HDC_STATUS_WANTWRITE => i = S j /\ carries x sm j /\ mr <> Parked /\ mw = Parked
  | _ => False
  end.

Definition owned G (e : addr * bool) (n : nat) : Prop := forall a m, l_ends (locks_of G a) !! e = Some m -> m = n.

(** The channel as it was made. *)
Definition wired (x : half_duplex_channel) (sm : stream) : Prop :=
  ch_r_notifyfd x = st_r sm /\ ch_w_notifyfd x = st_w sm /\ ch_maxsize x = st_size sm.

Definition chan_view w G (ch : addr) (sm : stream) x i j mr mw : Prop :=
  w_chans w !! ch = Some x /\ wired x sm /\
  at_end (w_kern w) G ch false (st_r sm) mr /\ at_end (w_kern w) G ch true (st_w sm) mw /\
  stage x sm i j mr mw /\ owned G (ch, true) i /\ owned G (ch, false) j.

Definition chan_ok w G ch sm : Prop := exists x i j mr mw, chan_view w G ch sm x i j mr mw.

(** The eventfds of the channels are their own, and the channels are no
    semaphores. *)
Record streams_ok : Prop := {
  sk_fds ch1 sm1 b1 ch2 sm2 b2 : cl_chans env !! ch1 = Some sm1 -> cl_chans env !! ch2 = Some sm2 ->
    st_desc sm1 b1 = st_desc sm2 b2 -> ch1 = ch2 /\ b1 = b2;
  sk_desc ch sm b : cl_chans env !! ch = Some sm -> 0 < st_desc sm b;
  sk_size ch sm : cl_chans env !! ch = Some sm -> st_size sm < 2 ^ 31;
  sk_apart ch : is_Some (cl_chans env !! ch) -> ch <> NULL /\ cl_sems env !! ch = None
}.

Record chans w G : Prop := {
  ck_streams : streams_ok;
  ck_chan ch sm : cl_chans env !! ch = Some sm -> chan_ok w G ch sm;
  ck_owner a b e : is_Some (l_ends (locks_of G a) !! e) -> is_Some (l_ends (locks_of G b) !! e) -> a = b
}.

(** [r] is the coroutine that is running, if any, and whether it has come to
    its end. *)
Record calm w s q G (r : option (addr * bool)) : Prop := {
  cm_sched : w_sched w = Some s;
  cm_ok : sched_ok w s q;
  cm_placed a c : w_coros w !! a = Some c -> (forall e, r <> Some (a, e)) -> a ∈ queued q \/ blocked c = true;
  cm_once a c : w_coros w !! a = Some c -> blocked c = true -> a ∉ queued q;
  cm_apart a c : w_coros w !! a = Some c -> waiting_flag c = true -> sleeping_flag c = false;
  cm_running a e : r = Some (a, e) -> a ∉ queued q /\
    exists c, w_coros w !! a = Some c /\ sleeping_flag c = false /\ waiting_flag c = false /\ calm_co e c;
  cm_co a c : w_coros w !! a = Some c -> (forall e, r <> Some (a, e)) -> calm_co false c;
  cm_keys a c : w_coros w !! a = Some c -> sleeping_flag c = false ->
    co_sleep_usecs c <= clock s (w_kern w) /\ view s !! co_sleep_usecs c = None;
  cm_waiting a c : w_coros w !! a = Some c -> waiting_flag c = true -> exists fd, fds s !! fd = Some a;
  cm_owners : owners w s G;
  cm_permits : permits w G;
  cm_chans : chans w G;
  cm_udata : s_udata s = cl_udata env;
  cm_birth : 0 <= s_birth s <= now_of (w_kern w);
  cm_room : stack_room depth s;
  cm_status : s_status s = SCHEDULE_STATUS_READY \/ s_status s = SCHEDULE_STATUS_RUNNING;
  cm_size : Z.of_nat (size (w_coros w)) < 2 ^ 32
}.

(** What the steps leave alone in the scheduler. *)
Definition alike s s' : Prop :=
  s_birth s' = s_birth s /\ s_epollfd s' = s_epollfd s /\
  s_stack_size s' = s_stack_size s /\ length (s_stack s') = length (s_stack s) /\ s_status s' = s_status s /\
  s_udata s' = s_udata s.

(** A step of the coroutine [a], the only one that is running before or
    after. *)
Lemma calm_move w s q G r a c w' s' q' G' r' c' :
  calm w s q G r -> w_coros w !! a = Some c ->
  w_sched w' = Some s' -> w_coros w' = <[a := c']> (w_coros w) -> now_of (w_kern w) <= now_of (w_kern w') -> alike s s' ->
  sched_ok w' s' q' -> owners w' s' G' -> permits w' G' -> chans w' G' ->
  (forall b e, r = Some (b, e) -> b = a) -> (forall b e, r' = Some (b, e) -> b = a) ->
  (forall b, b <> a -> b ∈ queued q' <-> b ∈ queued q) ->
  (forall fd b, b <> a -> fds s !! fd = Some b -> fds s' !! fd = Some b) ->
  (forall k, k <= clock s (w_kern w) -> view s !! k = None -> view s' !! k = None) ->
  (sleeping_flag c' = false -> co_sleep_usecs c' <= clock s' (w_kern w') /\ view s' !! co_sleep_usecs c' = None) ->
  (waiting_flag c' = true -> sleeping_flag c' = false /\ exists fd, fds s' !! fd = Some a) ->
  match r' with
  | None => calm_co false c' /\ if blocked c' then a ∉ queued q' else a ∈ queued q'
  | Some (_, e) => calm_co e c' /\ sleeping_flag c' = false /\ waiting_flag c' = false /\ a ∉ queued q'
  end ->
  calm w' s' q' G' r'.
Proof.
  intros [] Hc Hs' Hcos Hnow (A1 & A2 & A4 & A5 & A6 & A7) Hok' Hown Hperm Hch Hr Hr' Hq Hfds Hview Hkey Hwait Ha.
  assert (Hclk : clock s (w_kern w) <= clock s' (w_kern w')) by (unfold clock; rewrite A1; lia).
  split; try done.
  - intros b cb Hb Hne. rewrite Hcos in Hb. apply lookup_insert_Some in Hb as [[<- <-]|[Hab Hb]].
    + destruct r' as [[b e]|]; [|destruct Ha as [_ Ha]; destruct (blocked c'); [by right|by left]].
      rewrite (Hr' b e eq_refl) in Hne. by destruct (Hne e).
    + rewrite Hq by done. apply (cm_placed0 b cb Hb). intros e He. by apply Hab, eq_sym, (Hr b e).
  - intros b cb Hb Hbl. rewrite Hcos in Hb. apply lookup_insert_Some in Hb as [[<- <-]|[Hab Hb]].
    + destruct r' as [[b e]|]; [by destruct Ha as (_ & _ & _ & ?)|]. rewrite Hbl in Ha. by destruct Ha.
    + rewrite Hq by done. by apply (cm_once0 b cb).
  - intros b cb Hb Hw. rewrite Hcos in Hb. apply lookup_insert_Some in Hb as [[<- <-]|[Hab Hb]]; [by apply Hwait|].
    by apply (cm_apart0 b cb).
  - intros b e ->. pose proof (Hr' b e eq_refl) as ->. destruct Ha as (H1 & H2 & H3 & H4). split; [done|].
    exists c'. rewrite Hcos, lookup_insert_eq. done.
  - intros b cb Hb Hne. rewrite Hcos in Hb. apply lookup_insert_Some in Hb as [[<- <-]|[Hab Hb]].
    + destruct r' as [[b e]|]; [|by destruct Ha]. rewrite (Hr' b e eq_refl) in Hne. by destruct (Hne e).
    + apply (cm_co0 b cb Hb). intros e He. by apply Hab, eq_sym, (Hr b e).
  - intros b cb Hb Hsl. rewrite Hcos in Hb. apply lookup_insert_Some in Hb as [[<- <-]|[Hab Hb]]; [by apply Hkey|].
    destruct (cm_keys0 b cb Hb Hsl). split; [lia|by apply Hview].
  - intros b cb Hb Hw. rewrite Hcos in Hb. apply lookup_insert_Some in Hb as [[<- <-]|[Hab Hb]]; [by apply Hwait|].
    destruct (cm_waiting0 b cb Hb Hw) as [fd Hfd]. exists fd. by apply Hfds.
  - congruence.
  - rewrite A1. lia.
  - unfold stack_room. by rewrite A4, A5.
  - by rewrite A6.
  - rewrite Hcos, map_size_insert_Some by eauto. done.
Qed.

Lemma owners_same w s G w' s' :
  owners w s G -> later (w_kern w) (w_kern w') -> fds s' = fds s -> s_epollfd s' = s_epollfd s ->
  w_sems w' = w_sems w -> (forall a, is_Some (w_coros w !! a) -> is_Some (w_coros w' !! a)) -> owners w' s' G.
Proof.
  intros [] (_ & Hreg & Hcnt) Hf He Hsem Hdom. split; rewrite ?Hsem, ?Hf, ?He; try done.
  - intros fd. rewrite Hreg. apply ow_reg0.
  - intros a fd sem Ha. unfold signalled. rewrite Hcnt. destruct (ow_open0 a fd sem Ha) as (H1 & H2). split_and!; [by apply Hdom|apply H2..].
  - intros sem x fd. rewrite Hcnt. apply ow_queue0.
Qed.

Lemma permits_step w G w' G' :
  permits w G -> onward (w_kern w) (w_kern w') ->
  (forall sem cap x, cl_sems env !! sem = Some (Some cap) -> w_sems w !! sem = Some x -> 0 <= sem_semval x ->
    exists x', w_sems w' !! sem = Some x' /\ 0 <= sem_semval x' /\
      sem_semval x' + tally (holds sem) (g_locks G') + tally (woken (w_kern w') sem) (g_fd G') =
      sem_semval x + tally (holds sem) (g_locks G) + tally (woken (w_kern w) sem) (g_fd G)) ->
  (forall sem, tally (enters sem) (g_locks G') = tally (enters sem) (g_locks G)) ->
  (forall a l, g_locks G' !! a = Some l -> l_in l ⊆ l_held l) -> permits w' G'.
Proof.
  intros [] [_ Hins] Hunits Hen Hheld. split; [| |done].
  - intros sem cap Hcap. destruct (pm_units0 sem cap Hcap) as (H1 & x & H2 & H3 & H4). split; [done|].
    destruct (Hunits sem cap x Hcap H2 H3) as (x' & H5 & H6 & H7). exists x'. split_and!; [done|done|lia].
  - intros sem cap Hcap. rewrite Hins, Hen. by apply (pm_inside0 sem cap).
Qed.

Lemma permits_same w G w' :
  permits w G -> onward (w_kern w) (w_kern w') -> (forall fd, os_counter (w_kern w') fd = os_counter (w_kern w) fd) ->
  w_sems w' = w_sems w -> permits w' G.
Proof.
  intros Hp Hon Hcnt Hsem. apply (permits_step w G); try done; [|apply Hp].
  intros sem cap x _ Hx Hr. rewrite Hsem. exists x. split_and!; [done|done|]. f_equal. apply tally_ext. intros a p _.
  unfold woken. by rewrite Hcnt.
Qed.

(** *** Steps that leave the channels alone *)

Definition chan_fd (fd : Z) : Prop := exists ch sm b, cl_chans env !! ch = Some sm /\ fd = st_desc sm b.

Lemma at_end_step k G k' G' ch b fd md :
  at_end k G ch b fd md -> os_counter k' fd = os_counter k fd ->
  (forall a obj, g_fd G' !! a = Some (fd, obj) <-> g_fd G !! a = Some (fd, obj)) ->
  (forall a, is_Some (l_ends (locks_of G a) !! (ch, b)) -> is_Some (l_ends (locks_of G' a) !! (ch, b))) ->
  at_end k' G' ch b fd md.
Proof.
  intros H Hcnt Hfd Hl. assert (Hn : forall md', md' <> Idle -> at_end k G ch b fd md' -> at_end k' G' ch b fd md').
  { intros md' Hne Hmd. destruct md'; [done|..]; destruct Hmd as (a & n & H1 & H2 & H3 & H4); exists a, n;
      rewrite Hfd, Hcnt; by split_and!; [|apply Hl|..]. }
  destruct md; [|by apply Hn..]. destruct H as [H1 H2]. split; [by rewrite Hcnt|]. intros a obj. rewrite Hfd. apply H2.
Qed.

Lemma chans_step w G w' G' :
  chans w G -> w_chans w' = w_chans w -> (forall fd, chan_fd fd -> os_counter (w_kern w') fd = os_counter (w_kern w) fd) ->
  (forall fd a obj, chan_fd fd -> g_fd G' !! a = Some (fd, obj) <-> g_fd G !! a = Some (fd, obj)) ->
  (forall a, l_ends (locks_of G' a) = l_ends (locks_of G a)) -> chans w' G'.
Proof.
  intros [Hst Hch Hown] Hw Hcnt Hfd Hl. split; [done| |].
  - intros ch sm Hc. destruct (Hch ch sm Hc) as (x & i & j & mr & mw & H1 & H2 & H3 & H4 & H5 & H6 & H7).
    assert (Hf : forall b, chan_fd (st_desc sm b)) by (intros b; by exists ch, sm, b).
    exists x, i, j, mr, mw. unfold chan_view. rewrite Hw. split_and!; try done.
    + eapply at_end_step; [done|apply Hcnt, (Hf false)|intros; apply Hfd, (Hf false)|intros a; by rewrite Hl].
    + eapply at_end_step; [done|apply Hcnt, (Hf true)|intros; apply Hfd, (Hf true)|intros a; by rewrite Hl].
    + intros a m. rewrite Hl. apply H6.
    + intros a m. rewrite Hl. apply H7.
  - intros a b e. rewrite !Hl. apply Hown.
Qed.

Lemma chans_same w G w' :
  chans w G -> w_chans w' = w_chans w -> (forall fd, os_counter (w_kern w') fd = os_counter (w_kern w) fd) -> chans w' G.
Proof. intros Hch Hw Hcnt. by apply (chans_step w G). Qed.

Lemma chans_none w G : cl_chans env = ∅ -> (forall a, l_ends (locks_of G a) = ∅) -> chans w G.
Proof.
  intros Hc Hl. split.
  - split; intros ch; rewrite Hc; [intros sm1 b1 ch2 sm2 b2|intros sm b|intros sm|by intros [? ?]]; by rewrite lookup_empty.
  - intros ch sm. by rewrite Hc, lookup_empty.
  - intros a b e. rewrite Hl, lookup_empty. by intros [? ?].
Qed.

(** Who waits at the eventfd of a channel waits for the channel. *)
Lemma chan_waiter w s G fd a obj :
  chans w G -> owners w s G -> chan_fd fd -> g_fd G !! a = Some (fd, obj) -> is_Some (cl_chans env !! obj).
Proof.
  intros Hch Hown (ch & sm & b & Hc & ->) Ha. destruct (ck_chan _ _ Hch ch sm Hc) as (x & i & j & mr & mw & _ & _ & Hr & Hw & _).
  assert (H : exists md, at_end (w_kern w) G ch b (st_desc sm b) md) by (destruct b; [by exists mw|by exists mr]).
  destruct H as [md Hmd]. destruct md; [by destruct Hmd as [_ Hno]; destruct (Hno a obj)|..];
    destruct Hmd as (a2 & n & H1 & _); pose proof (ow_inj _ _ _ Hown a a2 _ _ _ Ha H1) as <-; rewrite Ha in H1;
    injection H1 as ->; by eexists.
Qed.

Lemma chan_open w G fd : chans w G -> chan_fd fd -> is_Some (os_counter (w_kern w) fd).
Proof.
  intros Hch (ch & sm & b & Hc & ->). destruct (ck_chan _ _ Hch ch sm Hc) as (x & i & j & mr & mw & _ & _ & Hr & Hw & _).
  assert (H : exists md, at_end (w_kern w) G ch b (st_desc sm b) md) by (destruct b; [by exists mw|by exists mr]).
  destruct H as [md Hmd]. destruct md; [destruct Hmd as [H _]; by eexists|..]; destruct Hmd as (a2 & n & _ & _ & H & _); by eexists.
Qed.

(** Only the locks of [a] change. *)
Lemma tally_set_locks P a l G :
  P no_locks = false -> tally P (g_locks (set_locks a l G)) = tally P (g_locks G) - Z.b2z (P (locks_of G a)) + Z.b2z (P l).
Proof. apply tally_update. Qed.

Lemma set_locks_held a l G :
  (forall b l1, g_locks G !! b = Some l1 -> l_in l1 ⊆ l_held l1) -> l_in l ⊆ l_held l ->
  forall b l1, g_locks (set_locks a l G) !! b = Some l1 -> l_in l1 ⊆ l_held l1.
Proof.
  intros HG Hl b l1 H. simpl in H. apply lookup_insert_Some in H as [[<- <-]|[_ H]]; [done|by apply (HG b)].
Qed.

Lemma local_set_locks a l G : local (set_locks a l G) a = (g_fd G !! a, l).
Proof. unfold local, locks_of. simpl. by rewrite lookup_insert_eq. Qed.

Lemma local_set_locks_ne a b l G : b <> a -> local (set_locks a l G) b = local G b.
Proof. intros Hb. unfold local, locks_of. simpl. by rewrite lookup_insert_ne. Qed.

Lemma owners_locks w s G G' : owners w s G -> g_fd G' = g_fd G -> owners w s G'.
Proof. intros [] E. split; try rewrite E; done. Qed.

(** A step that leaves descriptors and semaphores alone. *)
Lemma calm_step w s q G r a c w' s' q' r' c' :
  calm w s q G r -> w_coros w !! a = Some c ->
  w_sched w' = Some s' -> w_coros w' = <[a := c']> (w_coros w) -> later (w_kern w) (w_kern w') -> alike s s' ->
  w_sems w' = w_sems w -> w_chans w' = w_chans w -> s_fd_co_map s' = s_fd_co_map s -> waiting_flag c' = waiting_flag c ->
  sched_ok w' s' q' ->
  (forall b e, r = Some (b, e) -> b = a) -> (forall b e, r' = Some (b, e) -> b = a) ->
  (forall b, b <> a -> b ∈ queued q' <-> b ∈ queued q) ->
  (forall k, k <= clock s (w_kern w) -> view s !! k = None -> view s' !! k = None) ->
  (sleeping_flag c' = false -> co_sleep_usecs c' <= clock s' (w_kern w') /\ view s' !! co_sleep_usecs c' = None) ->
  (waiting_flag c = true -> sleeping_flag c' = false) ->
  match r' with
  | None => calm_co false c' /\ if blocked c' then a ∉ queued q' else a ∈ queued q'
  | Some (_, e) => calm_co e c' /\ sleeping_flag c' = false /\ waiting_flag c' = false /\ a ∉ queued q'
  end ->
  calm w' s' q' G r'.
Proof.
  intros Hcm Hc Hs' Hcos Hl Hal Hsem Hchs Hmap Hw Hok Hr Hr' Hq Hv Hk Hsl Ha.
  assert (Hf : fds s' = fds s) by (unfold fds; by rewrite Hmap).
  eapply (calm_move w s q G r a c); try done.
  - apply Hl.
  - apply (owners_same w s); [apply Hcm|done|done|apply Hal|done|].
    intros b Hb. rewrite Hcos. by apply lookup_insert_is_Some'; right.
  - apply (permits_same w); [apply Hcm|apply Hl|apply Hl|done].
  - apply (chans_same w); [apply Hcm|done|apply Hl].
  - intros fd b _. by rewrite Hf.
  - rewrite Hw, Hf. intros E. split; [by apply Hsl|]. by apply (cm_waiting _ _ _ _ _ Hcm a c).
Qed.

(** ** Flags *)

(** Two status words with the same flags as far as [calm_co] looks. *)
Definition watch (d d' : Z) : Prop :=
  Forall (fun f => TESTBIT d' f = TESTBIT d f) (COROUTINE_STATUS_EXITED :: NEVER).

Lemma calm_co_kept e c c' :
  calm_co e c -> watch (co_status c) (co_status c') -> co_sched c' = co_sched c -> co_cid c' = co_cid c ->
  stack_kept depth c' -> calm_co e c'.
Proof.
  intros (H1 & H2 & H3 & _ & Hn & He) [Hex Hw]%Forall_cons E1 E2 Hst. unfold calm_co. rewrite E1, E2.
  split_and!; try done; [|congruence].
  rewrite Forall_forall in *. intros f Hf. rewrite Hw by done. by apply Hn.
Qed.

Lemma calm_co_never e c f : calm_co e c -> f ∈ NEVER -> TESTBIT (co_status c) f = false.
Proof. intros (_ & _ & _ & _ & Hn & _). rewrite Forall_forall in Hn. apply Hn. Qed.

Lemma calm_co_stack e c : calm_co e c -> stack_kept depth c.
Proof. by intros (_ & _ & _ & ? & _). Qed.

Definition new_flag c : bool := TESTBIT (co_status c) COROUTINE_STATUS_NEW.

(** The coroutines of [w'] are among those of [w], as new as there and with the
    same functions. *)
Definition birth c : bool * Z * Z := (new_flag c, co_func c, co_arg c).

Lemma birth_eq c c' : birth c = birth c' -> new_flag c = new_flag c' /\ co_func c = co_func c' /\ co_arg c = co_arg c'.
Proof. by intros [= ]. Qed.

Definition heirs w w' : Prop :=
  forall a c', w_coros w' !! a = Some c' -> exists c, w_coros w !! a = Some c /\ birth c' = birth c.

Lemma heirs_refl w w' : w_coros w' = w_coros w -> heirs w w'.
Proof. intros E a c. rewrite E. eauto. Qed.

Lemma heirs_trans w1 w2 w3 : heirs w1 w2 -> heirs w2 w3 -> heirs w1 w3.
Proof. intros H1 H2 a c3 Hc. destruct (H2 _ _ Hc) as (c2 & Hc2 & ->). by apply H1. Qed.

Lemma heirs_insert w w' a c c' :
  w_coros w !! a = Some c -> w_coros w' = <[a := c']> (w_coros w) -> birth c' = birth c -> heirs w w'.
Proof.
  intros Hc E Hn b cb. rewrite E. intros [[<- <-]|[_ Hb]]%lookup_insert_Some; eauto.
Qed.

(** Coroutines have been made ready, and nothing else. *)
Definition roused w w' : Prop :=
  (forall a, w_coros w' !! a = None -> w_coros w !! a = None) /\
  forall a c', w_coros w' !! a = Some c' -> exists c, w_coros w !! a = Some c /\ birth c' = birth c /\
    (sleeping_flag c' = true -> sleeping_flag c = true) /\ (waiting_flag c' = true -> waiting_flag c = true).

Lemma roused_refl w w' : w_coros w' = w_coros w -> roused w w'.
Proof. intros E. split; rewrite E; [done|]. intros a c Hc. by exists c. Qed.

Lemma roused_trans w1 w2 w3 : roused w1 w2 -> roused w2 w3 -> roused w1 w3.
Proof.
  intros [D1 H1] [D2 H2]. split; [by intros a Ha%D2%D1|]. intros a c3 Hc3. destruct (H2 a c3 Hc3) as (c2 & Hc2 & B2 & S2 & W2).
  destruct (H1 a c2 Hc2) as (c1 & Hc1 & B1 & S1 & W1). exists c1. split_and!; [done|congruence|auto|auto].
Qed.

Lemma roused_heirs w w' : roused w w' -> heirs w w'.
Proof. intros [_ H] a c' Hc. destruct (H a c' Hc) as (c & ? & ? & _). by exists c. Qed.

Lemma roused_insert w w' a c c' :
  w_coros w !! a = Some c -> w_coros w' = <[a := c']> (w_coros w) -> birth c' = birth c ->
  (sleeping_flag c' = true -> sleeping_flag c = true) -> (waiting_flag c' = true -> waiting_flag c = true) -> roused w w'.
Proof.
  intros Hc E Hb Hs Hw. split; intros b; rewrite E; [by intros [? _]%lookup_insert_None|].
  intros cb [[<- <-]|[_ H]]%lookup_insert_Some; [by exists c|by exists cb].
Qed.

End calm.

Ltac never := eapply calm_co_never; [eassumption|by apply (bool_decide_unpack _); vm_compute].
Ltac flags := unfold birth, blocked, sleeping_flag, waiting_flag, ready_flag, urgent_flag, new_flag; simpl;
  rewrite ?TESTBIT_SETBIT, ?TESTBIT_CLRBIT, ?TESTBIT_SETBIT, ?TESTBIT_CLRBIT by done; simpl; rewrite ?TESTBIT_SETBIT by done.
Ltac watched := unfold watch, NEVER; repeat constructor; simpl;
  rewrite ?TESTBIT_SETBIT, ?TESTBIT_CLRBIT, ?TESTBIT_SETBIT, ?TESTBIT_CLRBIT by done; reflexivity.
