(* ===== verification/CalmSteps.v ===== *)
(** * The steps of a program in good order

    What the parts of the scheduler and the calls of a coroutine do to the
    invariant [calm]: they keep it. *)
From S2P Require Import Prelude Htable Queue SleepTree World SimOS Schedule SchedInv Prog Coroutine Semaphore Run RoundRobin Calm.

Local Open Scope Z_scope.
Local Open Scope dyco_scope.

Section steps.
Context {os : OS} {osl : OSLaws os} {ins : Inside os} {cl : CalmLaws os} {T : Type} {st : SleepTree T} {stl : SleepTreeLaws T}.
Local Abbreviation world := (@world os T).
Local Abbreviation dyco_schedule := (@dyco_schedule T).
Implicit Types (w : world) (s : dyco_schedule) (c : dyco_coroutine) (a : addr) (q : list Z * list Z) (G : ghost).
Context (env : client).
Local Abbreviation calm := (calm env).
Local Abbreviation owners := (owners env).
Local Abbreviation permits := (permits env).
Local Abbreviation chans := (chans env).

(** ** The clock *)

Lemma calm_kern w s q G r k : calm w s q G r -> later (w_kern w) k -> calm (set_w_kern k w) s q G r.
Proof.
  intros Hcm Hk. pose proof (owners_same env w s G (set_w_kern k w) s (cm_owners _ _ _ _ _ _ Hcm) Hk eq_refl eq_refl eq_refl (fun a H => H)) as Hown.
  pose proof (permits_same env w G (set_w_kern k w) (cm_permits _ _ _ _ _ _ Hcm) (proj1 Hk) (proj2 (proj2 Hk)) eq_refl) as Hperm.
  pose proof (chans_same env w G (set_w_kern k w) (cm_chans _ _ _ _ _ _ Hcm) eq_refl (proj2 (proj2 Hk))) as Hch.
  destruct Hcm. pose proof Hk as ([Hnow _] & Hreg & _). split; try done; simpl.
  - apply sched_ok_kern; [done|]. intros fd. apply Hreg.
  - intros a c Hc Hsl. destruct (cm_keys a c Hc Hsl) as [H1 H2]. split; [|done]. unfold clock in *. lia.
  - lia.
Qed.

Lemma elapsed_clock w s q G r now k :
  calm w s q G r -> os_clock_gettime (w_kern w) = (now, k) -> elapsed s now = clock s (w_kern w).
Proof.
  intros [] Hk. pose proof (clock_bound (w_kern w)) as Hb. unfold elapsed, clock, diff_usecs.
  assert (E : u64 (now.1 * 1000000 + now.2 / 1000) = now_of (w_kern w))
    by (unfold now_of; rewrite Hk; by destruct now).
  rewrite E. apply u64_small. unfold is_u64. lia.
Qed.

(** ** Phase A *)

Lemma queued_append_ne c a q b : b <> a -> b ∈ queued (append c a q) <-> b ∈ queued q.
Proof. rewrite queued_append. tauto. Qed.

Lemma queued_append_self c a q : a ∈ queued (append c a q).
Proof. rewrite queued_append. tauto. Qed.

Lemma expire_calm fuel w s q G :
  (size (view s) < fuel)%nat -> calm w s q G None ->
  exists w' s' q', expire_loop fuel w = Ok (tt, w') /\ calm w' s' q' G None /\ roused w w'.
Proof.
  revert w s q. induction fuel as [|fuel IH]; intros w s q Hsz Hcm; [lia|]. cbn [expire_loop].
  destruct (os_clock_gettime (w_kern w)) as [now k] eqn:Hk.
  pose proof (clock_later (w_kern w)) as Hlat. rewrite Hk in Hlat. cbn [snd] in Hlat.
  destruct (get_expired_ok w s q now k (cm_ok _ _ _ _ _ _ Hcm) (cm_sched _ _ _ _ _ _ Hcm) Hk) as
    [(Hnone & Hrun & Hok')|(key & a & c & t & Hv & Hmin & Hc & Hfl & Hrun & Hvt & Hok' & Hle)];
    rewrite (bind_ok _ _ _ _ _ Hrun).
  { exists (set_w_kern k w), s, q. split_and!; [done|by apply calm_kern|by apply roused_refl]. }
  destruct (Z.eqb_spec a NULL) as [->|Ha]; [by rewrite (ok_null _ _ _ (cm_ok _ _ _ _ _ _ Hcm)) in Hc|].
  rewrite (elapsed_clock w s q G None now k Hcm Hk) in Hle.
  set (w1 := with_co a (mark_expired c) _) in *. set (s1 := set_s_sleeping t s) in *.
  assert (Hc1 : w_coros w1 !! a = Some (mark_expired c)) by apply lookup_insert_eq.
  destruct (make_ready_ok w1 s1 q a _ Hok' eq_refl Hc1)
    as (w2 & s2 & Hmr & Hs2 & Hok2 & Hk2 & Hcos2 & Ht2 & Hb2 & Hf2 & He2).
  { apply (cm_once _ _ _ _ _ _ Hcm a c Hc). unfold blocked. by rewrite Hfl. }
  rewrite (bind_ok _ _ _ _ _ Hmr).
  assert (Hwf : waiting_flag c = false).
  { destruct (waiting_flag c) eqn:E; [|done]. by rewrite (cm_apart _ _ _ _ _ _ Hcm a c Hc E) in Hfl. }
  assert (Hcos : w_coros w2 = <[a := mark_ready (mark_expired c)]> (w_coros w))
    by (rewrite Hcos2; simpl; by rewrite insert_insert_eq).
  pose proof (make_ready_run w1 s1 a _ eq_refl Hc1) as Hmr'. rewrite Hmr in Hmr'. injection Hmr' as Hw2.
  assert (Hs2' : s2 = set_s_queues (TAILQ_INSERT_TAIL (s_queues s1) (queue_of (mark_expired c)) a) s1)
    by (rewrite Hw2 in Hs2; by injection Hs2).
  assert (Hkey : co_sleep_usecs c = key)
    by (destruct (tm_entry _ _ (ok_timers _ _ _ (cm_ok _ _ _ _ _ _ Hcm)) key a Hv) as (c0 & Hc0 & Hkey & _); congruence).
  assert (Hvs2 : view s2 = delete key (view s)) by (unfold view at 1; by rewrite Hs2').
  assert (Hcm2 : calm w2 s2 (append (mark_expired c) a q) G None).
  { eapply (calm_step env w s q G None a c); try done.
    - by rewrite Hk2.
    - by rewrite Hs2'.
    - by rewrite Hw2.
    - by rewrite Hw2.
    - by flags.
    - intros b Hb. by apply queued_append_ne.
    - intros k' _ Hk'. rewrite Hvs2. apply lookup_delete_None. by right.
    - intros _. simpl. rewrite Hkey, Hvs2, lookup_delete_eq. split; [|done]. unfold clock in *. rewrite Hs2', Hk2.
      simpl. destruct Hlat as [[Hlat _] _]. lia.
    - by rewrite Hwf.
    - split; [|by flags; rewrite (Hwf : TESTBIT _ _ = false); apply queued_append_self].
      apply (calm_co_kept _ c); [by apply (cm_co _ _ _ _ _ _ Hcm a)|watched|done|done|]. 
      destruct (cm_co _ _ _ _ _ _ Hcm a c Hc) as (_ & _ & _ & Hst & _); done. }
  destruct (IH w2 s2 (append (mark_expired c) a q)) as (w' & s' & q' & Hrun' & Hcm' & Hh); [|done|].
  { rewrite Hvs2. rewrite map_size_delete_Some by (by eexists). assert (0 < size (view s))%nat; [|lia].
    destruct (decide (size (view s) = 0)%nat) as [E|E]; [|lia]. apply map_size_empty_inv in E. by rewrite E, lookup_empty in Hv. }
  exists w', s', q'. split_and!; [done..|]. eapply roused_trans; [|exact Hh]. eapply roused_insert; [done..| | |].
  - unfold new_flag. by flags.
  - by rewrite Hfl.
  - by flags.
Qed.

Lemma running_co a e w s q G : calm w s q G (Some (a, e)) ->
  a ∉ queued q /\ exists c, w_coros w !! a = Some c /\ sleeping_flag c = false /\ waiting_flag c = false /\ calm_co e c.
Proof. intros Hcm. by apply (cm_running _ _ _ _ _ _ Hcm). Qed.

(** A change of the running coroutine that nobody looks at. *)
Lemma calm_touch w s q G a e c c' :
  calm w s q G (Some (a, e)) -> w_coros w !! a = Some c -> watch (co_status c) (co_status c') ->
  sleeping_flag c' = sleeping_flag c -> waiting_flag c' = waiting_flag c -> co_sleep_usecs c' = co_sleep_usecs c ->
  co_sched c' = co_sched c ->
  co_cid c' = co_cid c -> stack_kept depth c' ->
  calm (with_co a c' w) s q G (Some (a, e)).
Proof.
  intros Hcm Hc Hx Hsl Hw Hkey Hsc Hcid Hst. destruct (running_co _ _ _ _ _ _ Hcm) as (Hq & c0 & Hc0 & Hs0 & Hw0 & Hco).
  rewrite Hc in Hc0. injection Hc0 as <-.
  eapply (calm_step env w s q G _ a c); try done.
  - by apply (cm_sched _ _ _ _ _ _ Hcm).
  - eapply sched_ok_co; [by apply (cm_ok _ _ _ _ _ _ Hcm)|done| |done]. by split_and!.
  - by intros b e' [= <- _].
  - by intros b e' [= <- _].
  - intros _. rewrite Hkey. by apply (cm_keys _ _ _ _ _ _ Hcm a c).
  - congruence.
  - split_and!; [by apply (calm_co_kept _ c)|congruence|congruence|done].
Qed.

Lemma calm_mark w s q G a e c x :
  calm w s q G (Some (a, e)) -> w_coros w !! a = Some c -> watch (co_status c) x ->
  TESTBIT x COROUTINE_STATUS_SLEEPING = TESTBIT (co_status c) COROUTINE_STATUS_SLEEPING ->
  TESTBIT x COROUTINE_FLAGS_WAITING = TESTBIT (co_status c) COROUTINE_FLAGS_WAITING ->
  calm (with_co a (set_co_status x c) w) s q G (Some (a, e)).
Proof.
  intros Hcm Hc Hx Hsl Hw. destruct (running_co _ _ _ _ _ _ Hcm) as (_ & c0 & Hc0 & _ & _ & Hco). rewrite Hc in Hc0.
  injection Hc0 as <-. by apply (calm_touch w s q G a e c); try apply (calm_co_stack e c).
Qed.

(** A change of the scheduler that is not of its containers. *)
Lemma calm_sched w s s' q G r :
  calm w s q G r -> alike s (set_s_status (s_status s) s') -> s_fd_co_map s' = s_fd_co_map s -> s_sleeping s' = s_sleeping s ->
  s_queues s' = s_queues s ->
  s_cid_co_map s' = s_cid_co_map s -> s_status s' = SCHEDULE_STATUS_RUNNING \/ s_status s' = s_status s ->
  calm (set_w_sched (Some s') w) s' q G r.
Proof.
  intros [] (A1 & A2 & A4 & A5 & _ & A7) A3 Hsl Hqs Hcid Hstat. simpl in *.
  assert (Hf : fds s' = fds s) by (unfold fds; by rewrite A3). split; try done; simpl.
  - apply sched_ok_sched. by apply (sched_ok_irrel _ s).
  - intros a c Hc Hfl. unfold clock, view. rewrite A1, Hsl. by apply (cm_keys a c).
  - intros a c. rewrite Hf. apply cm_waiting.
  - by apply (owners_same env w s); try done; apply later_refl.
  - by apply (permits_same env w); try done; apply (later_refl (w_kern w)).
  - by apply (chans_same env w).
  - congruence.
  - by rewrite A1.
  - unfold stack_room. by rewrite A4, A5.
  - destruct Hstat as [-> | ->]; [by right|done].
Qed.

Lemma later_malloc w k : k = w_kern w \/ k = (os_malloc (used_addrs w) (w_kern w)).2 -> later (w_kern w) k.
Proof. intros [-> | ->]; [apply later_refl|apply malloc_later]. Qed.

Lemma room_facts w s c e :
  stack_room depth s -> calm_co e c -> stack_ok w s c /\ ownstack c = false.
Proof.
  intros [Hsz Hlen] Hco. assert (Hown : ownstack c = false) by (unfold ownstack; never).
  pose proof (stack_depth (w_kern w)) as Hd. split; [|done]. split; rewrite Hown; [lia|]. intros _.
  split_and!; [lia| |intros used; apply malloc_succeeds].
  destruct (calm_co_stack e c Hco) as [[_ ->]|[? _]]; [lia|done].
Qed.

(** The coroutine as [yield] leaves it. *)
Definition parked_co p n stack c : dyco_coroutine :=
  set_co_status (CLRBIT (co_status (saved_co p n stack c)) COROUTINE_STATUS_RUNNING) (saved_co p n stack c).

Lemma parked_kept e w s c p :
  stack_room depth s -> calm_co e c -> p <> NULL ->
  calm_co e (parked_co p (os_stack_used (w_kern w)) (s_stack s) c).
Proof.
  intros [Hsz Hlen] Hco Hp. pose proof (stack_depth (w_kern w)) as Hd. apply (calm_co_kept _ c); try done; [watched|].
  right. split_and!; simpl; [done|lia|lia|]. unfold live_part. rewrite length_drop. lia.
Qed.

(** Without a time to wait: to the end of the ready queue. *)
Lemma ready_rests w s q G a c :
  calm w s q G (Some (a, false)) -> w_coros w !! a = Some c ->
  exists w' s', make_ready a w = Ok (tt, w') /\ calm w' s' (append c a q) G None /\
    w_coros w' = <[a := mark_ready c]> (w_coros w).
Proof.
  intros Hcm Hc. destruct (running_co _ _ _ _ _ _ Hcm) as (Hq & c0 & Hc0 & Hsl & Hwf & Hco). rewrite Hc in Hc0. injection Hc0 as <-.
  pose proof (cm_sched _ _ _ _ _ _ Hcm) as Hs.
  destruct (make_ready_ok w s q a c (cm_ok _ _ _ _ _ _ Hcm) Hs Hc Hq) as (w1 & s1 & Hmr & Hs1 & Hok1 & Hk1 & Hcos1 & Ht1 & _).
  pose proof (make_ready_run w s a c Hs Hc) as Hmr'. rewrite Hmr in Hmr'. injection Hmr' as Hw1.
  assert (Hs1' : s1 = set_s_queues (TAILQ_INSERT_TAIL (s_queues s) (queue_of c) a) s) by (rewrite Hw1 in Hs1; by injection Hs1).
  exists w1, s1. split_and!; [done| |done]. assert (Hv1 : view s1 = view s) by (unfold view; by rewrite Ht1).
  eapply (calm_step env w s q G _ a c); try done.
  - rewrite Hk1. apply later_refl.
  - by rewrite Hs1'.
  - by rewrite Hw1.
  - by rewrite Hw1.
  - by rewrite Hs1'.
  - by flags.
  - by intros b e [= <- _].
  - intros b Hb. by apply queued_append_ne.
  - intros k _ Hk. by rewrite Hv1.
  - intros _. destruct (cm_keys _ _ _ _ _ _ Hcm a c Hc Hsl) as [H1 H2]. rewrite Hv1. split; [|done].
    unfold clock in *. by rewrite Hs1', Hk1.
  - by rewrite Hwf.
  - split; [|by flags; rewrite (Hsl : TESTBIT _ _ = false), (Hwf : TESTBIT _ _ = false); apply queued_append_self].
    apply (calm_co_kept _ c); try done; [watched|by apply (calm_co_stack false c)].
Qed.

Lemma view_size w s : timers_ok w s -> (size (view s) <= size (w_coros w))%nat.
Proof.
  intros Ht. rewrite <- (size_dom (D := gset Z) (w_coros w)), <- length_map_to_list.
  set (l := map_to_list (view s)). rewrite <- (length_fmap snd l), <- (size_list_to_set (C := gset Z)).
  - apply subseteq_size. intros a [[k b] [-> Hk]]%elem_of_list_to_set%list_elem_of_fmap. apply elem_of_map_to_list in Hk.
    destruct (tm_entry _ _ Ht k b Hk) as (c & Hc & _). by apply elem_of_dom.
  - apply NoDup_fmap_2_strong; [|apply NoDup_map_to_list].
    intros [k1 a1] [k2 a2] H1%elem_of_map_to_list H2%elem_of_map_to_list. simpl. intros ->.
    destruct (tm_entry _ _ Ht _ _ H1) as (c1 & Hc1 & <- & _). destruct (tm_entry _ _ Ht _ _ H2) as (c2 & Hc2 & <- & _).
    congruence.
Qed.

(** With a time to wait: into the tree, later than any time that has passed. *)
Lemma sleeper_rests w s q G a c msecs :
  calm w s q G (Some (a, false)) -> w_coros w !! a = Some c -> 0 < msecs <= 4294967 ->
  exists w' s' c', schedule_sched_sleep a msecs w = Ok (tt, w') /\ calm w' s' q G None /\
    w_coros w' = <[a := c']> (w_coros w) /\ birth c' = birth c.
Proof.
  intros Hcm Hc Hm. destruct (running_co _ _ _ _ _ _ Hcm) as (Hq & c0 & Hc0 & Hsl & Hwf & Hco). rewrite Hc in Hc0. injection Hc0 as <-.
  pose proof (cm_sched _ _ _ _ _ _ Hcm) as Hs. pose proof (cm_ok _ _ _ _ _ _ Hcm) as Hok. pose proof (ok_timers _ _ _ Hok) as Ht.
  assert (Ha : a <> NULL) by (intros ->; by rewrite (ok_null _ _ _ Hok) in Hc).
  destruct (os_clock_gettime (w_kern w)) as [now k] eqn:Hk. pose proof (clock_later (w_kern w)) as Hlat.
  rewrite Hk in Hlat. cbn [snd] in Hlat. destruct (cm_keys _ _ _ _ _ _ Hcm a c Hc Hsl) as [Hle Hfree].
  pose proof (clock_bound (w_kern w)) as Hb. pose proof (cm_birth _ _ _ _ _ _ Hcm) as Hbirth.
  pose proof (view_size w s Ht) as Hvs. pose proof (cm_size _ _ _ _ _ _ Hcm) as Hsize.
  assert (Hdur : sleep_duration msecs = msecs * 1000) by (unfold sleep_duration; apply u32_small; unfold is_u32; lia).
  assert (Hdl : deadline s now msecs = clock s (w_kern w) + msecs * 1000)
    by (unfold deadline; by rewrite (elapsed_clock w s q G _ now k Hcm Hk), Hdur).
  destruct (schedule_sched_sleep_run w s a c msecs now k Ha Hc ltac:(apply Hco) Hs Ht Hk ltac:(lia))
    as (t & j & Hj & Hff & Hrun & Hwt & Hvt); [rewrite Hdl; unfold clock; lia|].
  rewrite (delete_id (view s)) in Hvt by done. rewrite (delete_id (view s)) in Hff by done.
  set (key := deadline s now msecs + Z.of_nat j) in *. set (c' := mark_asleep key c) in *.
  exists (with_co a c' (with_tree t s (set_w_kern k w))), (set_s_sleeping t s), c'. split_and!; [done| |done|].
  2: { unfold c'. by flags. }
  assert (Hsl' : sleeping_flag c' = true) by apply mark_asleep_flag.
  assert (Hw' : waiting_flag c' = waiting_flag c) by (unfold c'; by flags).
  eapply (calm_step env w s q G _ a c); try done.
  - apply (sched_ok_timer (set_w_kern k w) s q a c); try done.
    + apply sched_ok_kern; [done|]. intros fd. apply Hlat.
    + eapply (timers_ok_insert (set_w_kern k w)); try done; [by destruct Ht|congruence|by rewrite delete_id by done; apply Hff
        |by rewrite delete_id].
    + unfold c'. by flags.
  - by intros b e [= <- _].
  - intros k' Hk' Hn. unfold view. simpl. rewrite Hvt. apply lookup_insert_None. split; [done|]. unfold key. lia.
  - intros E. by rewrite Hsl' in E.
  - by rewrite Hwf.
  - unfold blocked. rewrite Hsl'. split; [|done]. apply (calm_co_kept _ c); try done; [|by apply (calm_co_stack false c)].
    unfold c'. watched.
Qed.

Lemma calm_free w s q G a e c h :
  calm w s q G (Some (a, e)) -> g_fd G !! a = None -> w_coros w !! a = Some c ->
  let w' := set_w_coros (delete a (w_coros w)) (set_w_sched (Some (freed h a s)) w) in
  sched_ok w' (freed h a s) q -> calm w' (freed h a s) q G None.
Proof.
  intros [] HG Hc w' Hok'. split; try done; simpl.
  - intros b cb [Hab Hb]%lookup_delete_Some _. apply (cm_placed b cb Hb). intros e' [= E _]. by apply Hab.
  - intros b cb [_ Hb]%lookup_delete_Some. by apply (cm_once b cb).
  - intros b cb [_ Hb]%lookup_delete_Some. by apply (cm_apart b cb).
  - intros b cb [Hab Hb]%lookup_delete_Some _. apply (cm_co b cb Hb). intros e' [= E _]. by apply Hab.
  - intros b cb [_ Hb]%lookup_delete_Some. by apply (cm_keys b cb).
  - intros b cb [_ Hb]%lookup_delete_Some. by apply (cm_waiting b cb).
  - destruct cm_owners. split; try done. simpl. intros b fd sem Hb. destruct (ow_open b fd sem Hb) as (H1 & H2).
    split; [|done]. rewrite lookup_delete_ne; [done|]. intros ->. congruence.
  - by apply (permits_same env w); try done; apply (later_refl (w_kern w)).
  - by apply (chans_same env w).
  - rewrite map_size_delete_Some by eauto. lia.
Qed.

Lemma release_ok w s q G a :
  calm w s q G (Some (a, true)) -> g_fd G !! a = None ->
  exists w' s', (schedule_cancel_sleep a ;;; freecoro a) w = Ok (tt, w') /\ calm w' s' q G None /\
    w_coros w' = delete a (w_coros w).
Proof.
  intros Hcm HG. destruct (running_co _ _ _ _ _ _ Hcm) as (Hq & c & Hc & Hsl & Hwf & Hco).
  pose proof Hco as (Hsc & H0 & H1 & _). pose proof (cm_sched _ _ _ _ _ _ Hcm) as Hs.
  destruct (freecoro_run w s q a c (cm_ok _ _ _ _ _ _ Hcm) Hs Hc) as (h & Hh & Hfree & Hok); try done;
    try (unfold io_flag, signal_flag; never).
  eexists _, (freed h a s). split_and!; [|by eapply calm_free|done].
  rewrite (bind_ok (schedule_cancel_sleep a) _ w tt w); [exact Hfree|].
  unfold schedule_cancel_sleep. erewrite bind_ok by (by apply test_co_run). by rewrite (Hsl : TESTBIT _ _ = false).
Qed.


(** ** Semaphores *)

Lemma sched_ok_sems w s q m : sched_ok w s q -> sched_ok (set_w_sems m w) s q.
Proof. intros [[] ? ? ? ? ? ? ? ?]. by split. Qed.

Lemma sched_ok_aside w w' s q :
  sched_ok w s q -> w_coros w' = w_coros w ->
  (forall fd, os_registered (w_kern w') (s_epollfd s) fd = os_registered (w_kern w) (s_epollfd s) fd) -> sched_ok w' s q.
Proof.
  intros [] Hc Hr. destruct ok_timers. split; rewrite ?Hc; try done; [by split; rewrite ?Hc|].
  intros fd a. rewrite Hr. apply ok_fds.
Qed.

(** A step that changes only the eventfds, the semaphores, the channels and what
    the coroutines own. *)
Lemma calm_outside w s q G r w' G' :
  calm w s q G r -> w_sched w' = w_sched w -> w_coros w' = w_coros w -> onward (w_kern w) (w_kern w') ->
  (forall fd, os_registered (w_kern w') (s_epollfd s) fd = os_registered (w_kern w) (s_epollfd s) fd) ->
  owners w' s G' -> permits w' G' -> chans w' G' -> calm w' s q G' r.
Proof.
  intros [] Hs Hcos [Hnow _] Hreg Hown Hperm Hch. split; rewrite ?Hcos; try done.
  - congruence.
  - by apply (sched_ok_aside w).
  - intros a c Hc Hsl. destruct (cm_keys a c Hc Hsl) as [H1 H2]. split; [|done]. unfold clock in *. lia.
  - lia.
Qed.

(** Only the queue of one semaphore changes, to a part of it. *)
Lemma owners_sems w s G sem x x' :
  owners w s G -> w_sems w !! sem = Some x -> (exists l, sem_wqueue x = l ++ sem_wqueue x') ->
  owners (set_w_sems (<[sem := x']> (w_sems w)) w) s G.
Proof.
  intros [] Hx [l Hl]. split; try done; simpl.
  - intros sem1 x1 fd [[<- <-]|[_ H1]]%lookup_insert_Some Hin; [|by apply (ow_queue sem1 x1)].
    apply (ow_queue sem x fd Hx). rewrite Hl. apply elem_of_app. by right.
  - intros sem1 x1 [[<- <-]|[_ H1]]%lookup_insert_Some; [|by apply (ow_nodup sem1)].
    pose proof (ow_nodup sem x Hx) as Hnd. rewrite Hl in Hnd. by apply NoDup_app in Hnd as (_ & _ & ?).
  - intros sem1 H1. apply lookup_insert_is_Some'. right. by apply ow_sems.
  - intros sem1 [->|H1]%lookup_insert_is_Some'; apply ow_apart; [by eexists|done].
Qed.

(** *** The units of the locks *)

Definition lock (sem : addr) : Prop := exists cap, cl_sems env !! sem = Some (Some cap).

(** [a], with the locks [l], takes a unit of [sem] or gives one back. *)
Definition got (sem : addr) (l : locks) : locks :=
  match cl_sems env !! sem with Some (Some _) => mk_locks ({[sem]} ∪ l_held l) (l_in l) (l_ends l) | _ => l end.
Definition given (sem : addr) (l : locks) : locks :=
  match cl_sems env !! sem with Some (Some _) => mk_locks (l_held l ∖ {[sem]}) (l_in l) (l_ends l) | _ => l end.

Lemma holds_got sem sem2 cap l :
  cl_sems env !! sem2 = Some (Some cap) -> holds sem2 (got sem l) = bool_decide (sem2 = sem) || holds sem2 l.
Proof.
  intros H2. unfold got, holds. destruct (decide (sem2 = sem)) as [->|E].
  { rewrite H2, (bool_decide_true (sem = sem)) by done. simpl. apply bool_decide_eq_true. set_solver. }
  rewrite (bool_decide_false (sem2 = sem)) by done. simpl.
  destruct (cl_sems env !! sem) as [[?|]|]; [|done..]. simpl. apply bool_decide_ext. set_solver.
Qed.

Lemma holds_given sem sem2 cap l :
  cl_sems env !! sem2 = Some (Some cap) -> holds sem2 (given sem l) = negb (bool_decide (sem2 = sem)) && holds sem2 l.
Proof.
  intros H2. unfold given, holds. destruct (decide (sem2 = sem)) as [->|E].
  { rewrite H2, (bool_decide_true (sem = sem)) by done. simpl. apply bool_decide_eq_false. set_solver. }
  rewrite (bool_decide_false (sem2 = sem)) by done. simpl.
  destruct (cl_sems env !! sem) as [[?|]|]; [|done..]. simpl. apply bool_decide_ext. set_solver.
Qed.

Lemma got_in sem l : l_in (got sem l) = l_in l.
Proof. unfold got. by destruct (cl_sems env !! sem) as [[?|]|]. Qed.

Lemma given_in sem l : l_in (given sem l) = l_in l.
Proof. unfold given. by destruct (cl_sems env !! sem) as [[?|]|]. Qed.

Lemma got_ends sem l : l_ends (got sem l) = l_ends l.
Proof. unfold got. by destruct (cl_sems env !! sem) as [[?|]|]. Qed.

Lemma given_ends sem l : l_ends (given sem l) = l_ends l.
Proof. unfold given. by destruct (cl_sems env !! sem) as [[?|]|]. Qed.

Lemma set_locks_ends a l G :
  l_ends l = l_ends (locks_of G a) -> forall b, l_ends (locks_of (set_locks a l G) b) = l_ends (locks_of G b).
Proof.
  intros Hl b. unfold locks_of at 1. simpl. destruct (decide (b = a)) as [->|Hb]; [by rewrite lookup_insert_eq|].
  by rewrite lookup_insert_ne.
Qed.

Lemma got_held sem l : l_in l ⊆ l_held l -> l_in (got sem l) ⊆ l_held (got sem l).
Proof. unfold got. destruct (cl_sems env !! sem) as [[?|]|]; simpl; [set_solver|done|done]. Qed.

Lemma given_held sem l : l_in l ⊆ l_held l -> sem ∉ l_in l -> l_in (given sem l) ⊆ l_held (given sem l).
Proof. unfold given. destruct (cl_sems env !! sem) as [[?|]|]; simpl; [set_solver|done|done]. Qed.

Lemma locks_of_held w G a : permits w G -> l_in (locks_of G a) ⊆ l_held (locks_of G a).
Proof. intros Hp. unfold locks_of. destruct (g_locks G !! a) as [l|] eqn:E; [by apply (pm_held _ _ _ Hp a)|done]. Qed.

(** The eventfds that have been written change with the counters. *)
Lemma woken_write k k' fd sem sem2 b F :
  F !! b = Some (fd, sem) -> (forall a sem3, F !! a = Some (fd, sem3) -> a = b) -> os_counter k fd = Some 0 ->
  os_counter k' fd = Some 1 -> (forall fd', fd' <> fd -> os_counter k' fd' = os_counter k fd') ->
  tally (woken k' sem2) F = tally (woken k sem2) F + Z.b2z (bool_decide (sem2 = sem)).
Proof.
  intros Hb Hinj H0 H1 Hoth. rewrite (tally_lookup (woken k' sem2) F b _ Hb), (tally_lookup (woken k sem2) F b _ Hb).
  rewrite (tally_ext (woken k' sem2) (woken k sem2)).
  - unfold woken. simpl. rewrite H0, H1. rewrite (bool_decide_true (Some 1 = Some 1)), (bool_decide_false (Some 0 = Some 1)) by done.
    rewrite andb_true_r, andb_false_r, (bool_decide_ext (sem = sem2) (sem2 = sem)) by done. simpl. lia.
  - intros c [fd1 sem1] [Hne Hc]%lookup_delete_Some. unfold woken. simpl. rewrite Hoth; [done|]. intros ->. by apply Hne, eq_sym, (Hinj c sem1).
Qed.

Lemma woken_quiet k k' sem2 F fd :
  (forall a sem3, F !! a <> Some (fd, sem3)) -> (forall fd', fd' <> fd -> os_counter k' fd' = os_counter k fd') ->
  tally (woken k' sem2) F = tally (woken k sem2) F.
Proof.
  intros Hno Hoth. apply tally_ext. intros c [fd1 sem1] Hc. unfold woken. simpl. rewrite Hoth; [done|]. intros ->. by apply (Hno c sem1).
Qed.

(** A unit goes from the semaphore to the running coroutine or back. *)
Lemma calm_semval w s q G r a sem x v l :
  calm w s q G r -> w_sems w !! sem = Some x -> l_in l = l_in (locks_of G a) -> l_in l ⊆ l_held l ->
  l_ends l = l_ends (locks_of G a) ->
  (forall sem2 cap, cl_sems env !! sem2 = Some (Some cap) -> sem2 <> sem -> holds sem2 l = holds sem2 (locks_of G a)) ->
  (lock sem -> 0 <= v /\ v + Z.b2z (holds sem l) = sem_semval x + Z.b2z (holds sem (locks_of G a))) ->
  calm (set_w_sems (<[sem := set_sem_semval v x]> (w_sems w)) w) s q (set_locks a l G) r.
Proof.
  intros Hcm Hx Hin Hheld Hends Hoth Hv. pose proof (cm_permits _ _ _ _ _ _ Hcm) as Hp.
  apply (calm_outside w s q G r); [done|done|done|by split; [apply Z.le_refl|]|done|..].
  - apply (owners_locks env _ s G); [|done]. apply (owners_sems w s G sem x); [apply Hcm|done|by exists []].
  - apply (permits_step env w G); [done|split; [done|]; done| | |].
    + intros sem2 cap x2 H2 Hx2 Hr. simpl. rewrite tally_update with (d := no_locks) by done. fold (locks_of G a).
      destruct (decide (sem2 = sem)) as [->|Hne].
      * destruct (Hv ltac:(by eexists)) as [Hv1 Hv2]. rewrite Hx in Hx2. injection Hx2 as <-.
        rewrite lookup_insert_eq. eexists. split_and!; [done|done|]. simpl. lia.
      * rewrite lookup_insert_ne by done. exists x2. rewrite (Hoth sem2 cap H2 Hne). split_and!; [done|done|lia].
    + intros sem2. rewrite tally_set_locks by done. unfold enters. rewrite Hin. lia.
    + by apply set_locks_held; [apply Hp|].
  - apply (chans_step env w G); [apply Hcm|done..|by apply set_locks_ends].
Qed.

(** The running coroutine goes in or out of the section of a lock, and the
    program counts it. *)
Lemma calm_count w s q G r a sem l k d :
  calm w s q G r -> now_of (w_kern w) <= now_of k ->
  (forall ep fd, os_registered k ep fd = os_registered (w_kern w) ep fd) ->
  (forall fd, os_counter k fd = os_counter (w_kern w) fd) ->
  (forall sem2, inside k sem2 = inside (w_kern w) sem2 + if decide (sem2 = sem) then d else 0) ->
  l_held l = l_held (locks_of G a) -> l_in l ⊆ l_held l -> l_ends l = l_ends (locks_of G a) ->
  (forall sem2, Z.b2z (enters sem2 l) = Z.b2z (enters sem2 (locks_of G a)) + if decide (sem2 = sem) then d else 0) ->
  calm (set_w_kern k w) s q (set_locks a l G) r.
Proof.
  intros [] Hnow Hreg Hcnt Hins Hh Hsub Hends Hen. split; try done; simpl.
  - by apply sched_ok_kern.
  - intros b c Hc Hsl. destruct (cm_keys b c Hc Hsl) as [H1 H2]. split; [|done]. unfold clock in *. lia.
  - apply (owners_locks env _ s G); [|done]. destruct cm_owners. split; try done; simpl.
    + intros fd. rewrite Hreg. apply ow_reg.
    + intros b fd sem1 Hb. unfold signalled. rewrite Hcnt. by apply (ow_open b fd sem1).
    + intros sem1 x fd. rewrite Hcnt. apply ow_queue.
  - destruct cm_permits. split; [| |by apply set_locks_held].
    + intros sem2 cap Hcap. destruct (pm_units sem2 cap Hcap) as (H1 & x & H2 & H3 & H4). split; [done|]. exists x.
      split_and!; [done|done|]. rewrite tally_set_locks by done. unfold holds. rewrite Hh, <- H4. simpl.
      rewrite (tally_ext (woken k sem2) (woken (w_kern w) sem2)); [unfold holds; lia|].
      intros b p _. unfold woken. by rewrite Hcnt.
    + intros sem2 cap Hcap. rewrite tally_set_locks by done. simpl. rewrite Hins, (pm_inside sem2 cap Hcap), Hen. lia.
  - by apply (chans_step env w G); [|..|apply set_locks_ends].
  - lia.
Qed.

(** No more coroutines are in the section of a lock than it has units. *)
Lemma inside_bound w G sem cap :
  permits w G -> cl_sems env !! sem = Some (Some cap) -> inside (w_kern w) sem <= cap.
Proof.
  intros Hp Hcap. rewrite (pm_inside _ _ _ Hp sem cap Hcap).
  destruct (pm_units _ _ _ Hp sem cap Hcap) as (_ & x & _ & Hx & Hsum).
  pose proof (tally_nonneg (woken (w_kern w) sem) (g_fd G)).
  assert (tally (enters sem) (g_locks G) <= tally (holds sem) (g_locks G)); [|lia].
  apply tally_mono. intros b l Hb. unfold enters, holds. rewrite !bool_decide_eq_true.
  pose proof (pm_held _ _ _ Hp b l Hb). set_solver.
Qed.

(** A semaphore is no channel. *)
Lemma sem_apart w s q G r sem : calm w s q G r -> is_Some (cl_sems env !! sem) -> cl_chans env !! sem = None.
Proof.
  intros Hcm [v Hv]. destruct (cl_chans env !! sem) as [sm|] eqn:E; [|done].
  destruct (sk_apart _ (ck_streams _ _ _ (cm_chans _ _ _ _ _ _ Hcm)) sem) as [_ E2]; [by eexists|congruence].
Qed.

Lemma sem_fd_apart w s q G r a fd sem :
  calm w s q G r -> g_fd G !! a = Some (fd, sem) -> is_Some (cl_sems env !! sem) -> ~ chan_fd env fd.
Proof.
  intros Hcm HG Hs Hf. destruct (chan_waiter env w s G fd a sem (cm_chans _ _ _ _ _ _ Hcm) (cm_owners _ _ _ _ _ _ Hcm) Hf HG) as [sm Hsm].
  by rewrite (sem_apart w s q G r sem Hcm Hs) in Hsm.
Qed.

(** A signal: the first waiter leaves the queue and its eventfd is written; a
    unit of the running coroutine goes to the waiter. *)
Lemma signal_calm w s q G r a sem x fd l :
  calm w s q G r -> w_sems w !! sem = Some x -> sem_wqueue x = fd :: l ->
  (lock sem -> sem ∈ l_held (locks_of G a) /\ sem ∉ l_in (locks_of G a)) -> is_Some (cl_sems env !! sem) ->
  exists k, os_eventfd_write fd 1 (w_kern w) = (0, k) /\
    calm (set_w_sems (<[sem := set_sem_wqueue l x]> (w_sems w)) (set_w_kern k w)) s q
      (set_locks a (given sem (locks_of G a)) G) r.
Proof.
  intros Hcm Hx Hl Hlock Hcl. pose proof (cm_owners _ _ _ _ _ _ Hcm) as Hown. pose proof (cm_permits _ _ _ _ _ _ Hcm) as Hp.
  destruct (ow_queue _ _ _ _ Hown sem x fd Hx) as (H0 & b & Hfd & Hb); [rewrite Hl; left|].
  destruct (eventfd_write_open (w_kern w) fd 1 0 H0) as (k & Hk & Hfd1 & Hoth); [lia|lia|].
  exists k. split; [done|]. pose proof (write_onward fd 1 (w_kern w)) as Hnow. pose proof (write_registered fd 1 (w_kern w)) as Hreg.
  rewrite Hk in Hnow, Hreg. cbn [snd] in Hnow, Hreg.
  pose proof (sem_fd_apart w s q G r b fd sem Hcm Hb Hcl) as Hsc.
  apply (calm_outside w s q G r); [done|done|done|done|by intros| | |].
  - apply (owners_locks env _ s G); [|done].
    pose proof (owners_sems w s G sem x (set_sem_wqueue l x) Hown Hx ltac:(by exists [fd])) as Hown1.
    assert (Hnotin : forall sem1 x1, <[sem := set_sem_wqueue l x]> (w_sems w) !! sem1 = Some x1 -> fd ∉ sem_wqueue x1).
    { intros sem1 x1 [[<- <-]|[Hne H1]]%lookup_insert_Some; simpl.
      - pose proof (ow_nodup _ _ _ _ Hown sem x Hx) as Hnd. rewrite Hl in Hnd. by apply NoDup_cons in Hnd as [? _].
      - intros Hin. destruct (ow_queue _ _ _ _ Hown sem1 x1 fd H1 Hin) as (_ & c & Hc & Hc2). congruence. }
    destruct Hown1. split; try done; simpl in *.
    + intros fd1. rewrite Hreg. apply ow_reg.
    + intros c fd1 sem1 Hc. destruct (ow_open c fd1 sem1 Hc) as (H1 & H2 & H3). split_and!; [done|done|].
      destruct (decide (fd1 = fd)) as [->|Hne]; [left; exists 1; done|]. unfold signalled. by rewrite Hoth.
    + intros sem1 x1 fd1 H1 Hin. destruct (ow_queue sem1 x1 fd1 H1 Hin) as [H2 H3]. split; [|done].
      rewrite Hoth; [done|]. intros ->. by apply (Hnotin sem1 x1).
  - apply (permits_step env w G); [done|done| | |].
    + intros sem2 cap x2 H2 Hx2 Hr. simpl. rewrite tally_update with (d := no_locks) by done. fold (locks_of G a).
      rewrite (woken_write (w_kern w) k fd sem sem2 b); try done.
      2: { intros c sem3 Hc. by apply (ow_inj _ _ _ _ Hown c b fd sem3 sem). }
      rewrite (holds_given sem sem2 cap) by done. destruct (decide (sem2 = sem)) as [->|Hne].
      * rewrite Hx in Hx2. injection Hx2 as <-. rewrite lookup_insert_eq. eexists. split_and!; [done|done|].
        destruct (Hlock ltac:(by eexists)) as [Hh _]. unfold holds at 2. rewrite !bool_decide_true by done. simpl. lia.
      * rewrite lookup_insert_ne by done. exists x2. rewrite bool_decide_false by done. simpl. split_and!; [done|done|lia].
    + intros sem2. rewrite tally_set_locks by done. unfold enters. rewrite given_in. lia.
    + apply set_locks_held; [apply Hp|]. destruct (cl_sems env !! sem) as [[cap|]|] eqn:E;
        [apply given_held; [by apply (locks_of_held w)|apply Hlock; by eexists]|..];
        unfold given; rewrite E; by apply (locks_of_held w).
  - apply (chans_step env w G); [apply Hcm|done| |by intros|apply set_locks_ends, given_ends].
    intros fd1 Hf. apply Hoth. by intros ->.
Qed.

(** The running coroutine waits for nothing. *)
Lemma running_no_wait w s q G a e fd : calm w s q G (Some (a, e)) -> fds s !! fd <> Some a.
Proof.
  intros Hcm E. destruct (running_co _ _ _ _ _ _ Hcm) as (_ & c & Hc & _ & Hw & _).
  destruct (ok_fds _ _ _ (cm_ok _ _ _ _ _ _ Hcm) fd a E) as (_ & _ & _ & c1 & Hc1 & Hw1 & _). congruence.
Qed.

(** The eventfd of the running coroutine has been signalled. *)
Lemma running_signalled w s q G a fd sem :
  calm w s q G (Some (a, false)) -> g_fd G !! a = Some (fd, sem) ->
  fds s !! fd = None /\ signalled env (w_kern w) fd sem.
Proof.
  intros Hcm HG. pose proof (cm_owners _ _ _ _ _ _ Hcm) as Hown.
  destruct (running_co _ _ _ _ _ _ Hcm) as (_ & c & Hc & _ & Hw & _).
  destruct (ow_open _ _ _ _ Hown a fd sem HG) as (_ & _ & Hn).
  assert (Hfd : fds s !! fd = None).
  { destruct (fds s !! fd) as [b|] eqn:E; [|done]. destruct (ow_fds _ _ _ _ Hown fd b E) as [sem2 Hb].
    pose proof (ow_inj _ _ _ _ Hown a b fd sem sem2 HG Hb) as <-. by destruct (running_no_wait w s q G a false fd Hcm). }
  split; [done|]. destruct Hn as [?|[_ E]]; [done|congruence].
Qed.

(** What becomes of the ghost state when [a] closes its eventfd: the unit that
    was on its way has arrived. *)
Definition closed (a sem : addr) G : ghost :=
  set_locks a (got sem (locks_of G a)) (mk_ghost (delete a (g_fd G)) (g_locks G)).

Lemma closed_permits w s G a fd sem k :
  owners w s G -> permits w G -> g_fd G !! a = Some (fd, sem) -> os_counter (w_kern w) fd = Some 1 ->
  (forall fd1, fd1 <> fd -> os_counter k fd1 = os_counter (w_kern w) fd1) -> onward (w_kern w) k ->
  (lock sem -> sem ∉ l_held (locks_of G a)) -> permits (set_w_kern k w) (closed a sem G).
Proof.
  intros Hown Hp HG H1 Hcnt Hon Hlock. apply (permits_step env w G); [done|done| | |].
  - intros sem2 cap x H2 Hx Hr. exists x. split_and!; [done|done|]. simpl.
    rewrite tally_update with (d := no_locks) by done. fold (locks_of G a).
    rewrite (woken_quiet (w_kern w) k sem2 _ fd); [|by intros b sem3 [Hb E]%lookup_delete_Some; apply Hb, eq_sym, (ow_inj _ _ _ _ Hown b a fd sem3 sem)|done].
    rewrite (tally_lookup (woken (w_kern w) sem2) (g_fd G) a _ HG), (holds_got sem sem2 cap) by done.
    unfold woken at 3. simpl. rewrite (bool_decide_true (_ = Some 1)), andb_true_r by done.
    destruct (decide (sem2 = sem)) as [->|Hne].
    + rewrite !bool_decide_true by done. unfold holds at 2. rewrite bool_decide_false by (apply Hlock; by eexists). simpl. lia.
    + rewrite !bool_decide_false by done. simpl. lia.
  - intros sem2. simpl. rewrite tally_update with (d := no_locks) by done. fold (locks_of G a). unfold enters. rewrite got_in. lia.
  - apply set_locks_held; [apply Hp|]. apply got_held. by apply (locks_of_held w).
Qed.

(** The end of a wait: the eventfd of the running coroutine is read and
    closed. *)
Lemma close_calm w s q G a fd sem :
  calm w s q G (Some (a, false)) -> g_fd G !! a = Some (fd, sem) -> (lock sem -> sem ∉ l_held (locks_of G a)) ->
  is_Some (cl_sems env !! sem) ->
  exists k1, os_eventfd_read fd (w_kern w) = (Some 1, k1) /\
    calm (set_w_kern (os_close fd k1).2 (set_w_kern k1 w)) s q (closed a sem G) (Some (a, false)).
Proof.
  intros Hcm HG Hlock Hcl. pose proof (cm_owners _ _ _ _ _ _ Hcm) as Hown.
  destruct (running_signalled w s q G a fd sem Hcm HG) as [Hfd (n & Hn & _ & Hn1)].
  rewrite (Hn1 (sem_apart w s q G _ sem Hcm Hcl)) in Hn. clear n Hn1.
  pose proof (sem_fd_apart w s q G _ a fd sem Hcm HG Hcl) as Hsf.
  destruct (eventfd_read_positive (w_kern w) fd 1 Hn) as (k1 & Hk1 & _ & Hcnt1); [lia|].
  exists k1. split; [done|]. set (k2 := (os_close fd k1).2).
  pose proof (read_onward fd (w_kern w)) as Hon1. pose proof (read_registered fd (w_kern w) (s_epollfd s)) as Hreg1.
  rewrite Hk1 in Hon1, Hreg1. cbn [snd] in Hon1, Hreg1.
  assert (Hon : onward (w_kern w) k2) by (eapply onward_trans; [done|apply close_onward]).
  assert (Hunreg : os_registered (w_kern w) (s_epollfd s) fd = false).
  { destruct (os_registered (w_kern w) (s_epollfd s) fd) eqn:E; [|done]. destruct (ow_reg _ _ _ _ Hown fd E). congruence. }
  assert (Hcnt : forall fd1, fd1 <> fd -> os_counter k2 fd1 = os_counter (w_kern w) fd1).
  { intros fd1 Hne. rewrite (proj2 (close_eventfd k1 fd) fd1 Hne). by apply Hcnt1. }
  assert (Hreg : forall fd1, os_registered k2 (s_epollfd s) fd1 = os_registered (w_kern w) (s_epollfd s) fd1).
  { intros fd1. destruct (decide (fd1 = fd)) as [->|Hne].
    - rewrite Hunreg. apply close_unregistered. by rewrite Hreg1.
    - unfold k2. by rewrite close_registered, Hreg1. }
  change (set_w_kern k2 (set_w_kern k1 w)) with (set_w_kern k2 w).
  apply (calm_outside w s q G); [done|done|done|done|done| | |].
  3: { apply (chans_step env w G); [apply Hcm|done| | |].
    - intros fd1 Hf. apply Hcnt. by intros ->.
    - intros fd1 b obj Hf. simpl. rewrite lookup_delete_Some. split; [by intros [_ ?]|]. intros Hb. split; [|done].
      intros <-. rewrite HG in Hb. injection Hb as <- _. by apply Hsf.
    - intros b. unfold closed. apply (set_locks_ends a (got sem (locks_of G a)) (mk_ghost (delete a (g_fd G)) (g_locks G))), got_ends. }
  2: { by apply (closed_permits w s G a fd); try done; apply Hcm. }
  destruct Hown. split; try done; simpl.
  - intros fd1 b Hb. rewrite lookup_delete_ne; [by apply ow_fds|]. intros ->. destruct (ow_fds fd1 b Hb) as [sem2 E]. congruence.
  - intros fd1. rewrite Hreg. apply ow_reg.
  - intros b1 b2 fd1 sem1 sem2 [_ H1]%lookup_delete_Some [_ H2]%lookup_delete_Some. by apply (ow_inj b1 b2 fd1 sem1 sem2).
  - intros b fd1 sem1 [Hne Hb]%lookup_delete_Some. unfold signalled. rewrite Hcnt; [by apply (ow_open b fd1 sem1)|].
    intros ->. by apply Hne, (ow_inj a b fd sem sem1).
  - intros sem1 x fd1 Hx Hin. destruct (ow_queue sem1 x fd1 Hx Hin) as (H1 & b & Hb & Hb2).
    rewrite Hcnt by (intros ->; congruence). split; [done|]. exists b. rewrite lookup_delete_ne; [done|]. intros ->. congruence.
Qed.

(** A running coroutine waits at an eventfd for the object [sem]. *)
Definition waits (a : addr) (fd : Z) (sem : addr) G : ghost := mk_ghost (<[a := (fd, sem)]> (g_fd G)) (g_locks G).

(** Nobody is at the eventfd. *)
Definition untaken G (fd : Z) : Prop := forall a obj, g_fd G !! a <> Some (fd, obj).

Lemma owners_register w s G a obj fd w4 s4 :
  owners w s G -> is_Some (w_coros w !! a) -> g_fd G !! a = None -> (forall b, fds s !! b <> Some a) ->
  fd <> 0 -> untaken G fd -> os_counter (w_kern w4) fd = Some 0 ->
  (forall fd', fd' <> fd -> os_counter (w_kern w4) fd' = os_counter (w_kern w) fd') ->
  (forall fd', os_registered (w_kern w4) (s_epollfd s) fd' =
    bool_decide (fd' = fd) || os_registered (w_kern w) (s_epollfd s) fd') ->
  w_sems w4 = w_sems w -> (forall b, is_Some (w_coros w !! b) -> is_Some (w_coros w4 !! b)) ->
  fds s4 = <[fd := a]> (fds s) -> s_epollfd s4 = s_epollfd s -> owners w4 s4 (waits a fd obj G).
Proof.
  intros [] Ha HG Hnw H0 Hfresh Hnew Hcnt Hreg Hsem Hdom Hfds Hep.
  split; rewrite ?Hfds, ?Hep, ?Hsem; try done; simpl.
  - intros fd1 b [[<- <-]|[Hne Hb]]%lookup_insert_Some; [exists obj; apply lookup_insert_eq|].
    rewrite lookup_insert_ne; [by apply ow_fds|]. intros ->. by apply (Hnw fd1).
  - intros fd1. rewrite Hreg. intros [->%bool_decide_eq_true|H1]%orb_prop; apply lookup_insert_is_Some'; [by left|right; by apply ow_reg].
  - intros b1 b2 fd1 sem1 sem2 [[<- E]|[H1 E1]]%lookup_insert_Some [[<- E2]|[H2 E2]]%lookup_insert_Some; try done.
    + injection E as <- _. by destruct (Hfresh b2 sem2).
    + injection E2 as <- _. by destruct (Hfresh b1 sem1).
    + by apply (ow_inj b1 b2 fd1 sem1 sem2).
  - intros b fd1 sem1 [[<- [= <- <-]]|[H1 E1]]%lookup_insert_Some.
    + split_and!; [by apply Hdom|done|]. right. by rewrite lookup_insert_eq.
    + destruct (ow_open b fd1 sem1 E1) as (H2 & H3 & H4). assert (fd1 <> fd) by (intros ->; by destruct (Hfresh b sem1)).
      split_and!; [by apply Hdom|done|]. unfold signalled. by rewrite Hcnt, lookup_insert_ne by congruence.
  - intros sem1 x1 fd1 H1 Hin. destruct (ow_queue sem1 x1 fd1 H1 Hin) as (H3 & b & Hb & Hb2).
    assert (fd1 <> fd) by (intros ->; by destruct (Hfresh b sem1)). rewrite Hcnt, lookup_insert_ne by congruence.
    split; [done|]. exists b. rewrite lookup_insert_ne; [done|]. intros ->. congruence.
Qed.

(** The eventfd of a registered coroutine enters the queue of its semaphore. *)
Lemma owners_enqueue w s G a sem x fd :
  owners w s G -> w_sems w !! sem = Some x -> os_counter (w_kern w) fd = Some 0 -> fds s !! fd = Some a ->
  g_fd G !! a = Some (fd, sem) -> fd ∉ sem_wqueue x ->
  owners (set_w_sems (<[sem := set_sem_wqueue (sem_wqueue x ++ [fd]) x]> (w_sems w)) w) s G.
Proof.
  intros [] Hx H0 Hfd HG Hout. split; try done; simpl.
  - intros sem1 x1 fd1 [[<- <-]|[Hne H1]]%lookup_insert_Some Hin; [|by apply (ow_queue sem1 x1)].
    simpl in Hin. apply elem_of_app in Hin as [Hin|[->|[]%elem_of_nil]%elem_of_cons]; [by apply (ow_queue sem x)|eauto].
  - intros sem1 x1 [[<- <-]|[Hne H1]]%lookup_insert_Some; [|by apply (ow_nodup sem1)].
    simpl. apply NoDup_app. split_and!; [by apply (ow_nodup sem)| |apply NoDup_singleton].
    by intros fd1 Hin ->%list_elem_of_singleton.
  - intros sem1 H1. apply lookup_insert_is_Some'. right. by apply ow_sems.
  - intros sem1 [->|H1]%lookup_insert_is_Some'; apply ow_apart; [by eexists|done].
Qed.

Lemma waits_permits w s G a sem x fd k3 w4 :
  owners w s G -> permits w G -> g_fd G !! a = None -> w_sems w !! sem = Some x ->
  os_counter (w_kern w) fd = None -> os_counter k3 fd = Some 0 ->
  (forall fd', fd' <> fd -> os_counter k3 fd' = os_counter (w_kern w) fd') -> onward (w_kern w) k3 ->
  w_kern w4 = k3 -> w_sems w4 = <[sem := set_sem_wqueue (sem_wqueue x ++ [fd]) x]> (w_sems w) ->
  permits w4 (waits a fd sem G).
Proof.
  intros Hown Hp HG Hx Hcl Hnew Hcnt Hon Hk Hsem. apply (permits_step env w G); [done|by rewrite Hk| |done|apply Hp].
  intros sem2 cap x2 H2 Hx2 Hr. rewrite Hk, Hsem. simpl.
  assert (Hw : tally (woken k3 sem2) (<[a := (fd, sem)]> (g_fd G)) = tally (woken (w_kern w) sem2) (g_fd G)).
  { rewrite tally_fresh by done. unfold woken at 2. simpl. rewrite Hnew, (bool_decide_false (Some 0 = _)), andb_false_r by done.
    rewrite (woken_quiet (w_kern w) k3 sem2 _ fd); [simpl; lia| |done]. intros b sem3 Hb.
    destruct (ow_open _ _ _ _ Hown b fd sem3 Hb) as (_ & _ & [(n & Hn & _)|[Hn _]]); congruence. }
  rewrite Hw. destruct (decide (sem2 = sem)) as [->|Hne].
  - rewrite Hx in Hx2. injection Hx2 as <-. rewrite lookup_insert_eq. by eexists.
  - rewrite lookup_insert_ne by done. by exists x2.
Qed.

(** The registration of an eventfd that nobody has written, and what it needs
    of the ghost state afterwards. *)
Lemma register_calm w s q G a c w3 fd timeout :
  calm w s q G (Some (a, false)) -> w_coros w !! a = Some c -> w_sched w3 = Some s -> w_coros w3 = w_coros w ->
  onward (w_kern w) (w_kern w3) ->
  (forall fd', os_registered (w_kern w3) (s_epollfd s) fd' = os_registered (w_kern w) (s_epollfd s) fd') ->
  fds s !! fd = None -> os_counter (w_kern w3) fd = Some 0 -> 0 < fd -> timeout <= 0 ->
  exists w4 s4, schedule_sched_wait a fd EVENTS_R w3 = Ok (tt, w4) /\ schedule_sched_sleep a timeout w4 = Ok (tt, w4) /\
    w_coros w4 = <[a := mark_waiting c]> (w_coros w) /\ onward (w_kern w) (w_kern w4) /\
    (forall fd', os_counter (w_kern w4) fd' = os_counter (w_kern w3) fd') /\
    (forall fd', os_registered (w_kern w4) (s_epollfd s) fd' =
      bool_decide (fd' = fd) || os_registered (w_kern w) (s_epollfd s) fd') /\
    w_sems w4 = w_sems w3 /\ w_chans w4 = w_chans w3 /\ fds s4 = <[fd := a]> (fds s) /\ s_epollfd s4 = s_epollfd s /\
    (forall G', owners w4 s4 G' -> permits w4 G' -> chans w4 G' -> calm w4 s4 q G' None).
Proof.
  intros Hcm Hc Hs3 Hcos3 Hon3 Hreg3 Hfree Hcnt3 H0 Ht. destruct (running_co _ _ _ _ _ _ Hcm) as (Hq & c0 & Hc0 & Hsl & Hwf & Hco).
  rewrite Hc in Hc0. injection Hc0 as <-. pose proof (cm_sched _ _ _ _ _ _ Hcm) as Hs. pose proof (cm_ok _ _ _ _ _ _ Hcm) as Hok.
  assert (Hunr : os_registered (w_kern w3) (s_epollfd s) fd = false).
  { rewrite Hreg3. destruct (os_registered _ _ fd) eqn:E; [|done].
    destruct (ow_reg _ _ _ _ (cm_owners _ _ _ _ _ _ Hcm) fd E). congruence. }
  destruct (schedule_sched_wait_run a fd EVENTS_R c s w3) as (h & Hrun & Hwh & Hah & Hreg4 & Hcnt4); try done.
  { by rewrite Hcos3. } { apply Hco. } { apply Hok. } { apply alloc_succeeds. } { lia. }
  set (k4 := after_wait s fd EVENTS_R (w_kern w3)) in *.
  set (s4 := set_s_fd_co_map h s). set (w4 := with_co a (mark_waiting c) (with_fds h s (set_w_kern k4 w3))) in *.
  assert (Hnow : onward (w_kern w) k4).
  { eapply onward_trans; [exact Hon3|]. unfold k4, after_wait. eapply onward_trans; [apply epoll_add_onward|apply alloc_later]. }
  destruct (cm_keys _ _ _ _ _ _ Hcm a c Hc Hsl) as [Hle Hfr].
  assert (Hwc : waiting_flag (mark_waiting c) = true /\ sleeping_flag (mark_waiting c) = sleeping_flag c)
    by (unfold mark_waiting; by flags).
  destruct Hwc as [Hw4 Hsl4]. assert (Hcos4 : w_coros w4 = <[a := mark_waiting c]> (w_coros w)) by (unfold w4; simpl; by rewrite Hcos3).
  assert (Hreg : forall fd', os_registered k4 (s_epollfd s) fd' = bool_decide (fd' = fd) || os_registered (w_kern w) (s_epollfd s) fd').
  { intros fd'. rewrite Hreg4, Hreg3. f_equal. apply bool_decide_ext. split; [by intros [= ->]|by intros ->]. }
  exists w4, s4. split_and!; try done.
  - assert (Hc4 : w_coros w4 !! a = Some (mark_waiting c)) by (rewrite Hcos4; apply lookup_insert_eq).
    unfold schedule_sched_sleep. rewrite (bind_ok _ _ _ _ _ (getco_run a _ w4 Hc4)).
    rewrite (bind_ok _ _ _ s4 w4) by (unfold co_sched_of; rewrite (bind_ok _ _ _ _ _ (getco_run a _ w4 Hc4));
      destruct (Z.eqb_spec (co_sched (mark_waiting c)) NULL) as [E|_]; [by destruct Hco|by apply the_sched_run]).
    rewrite rb_find_law by (apply Hok). change (st_view (s_sleeping s4)) with (view s).
    change (co_sleep_usecs (mark_waiting c)) with (co_sleep_usecs c). rewrite Hfr.
    erewrite bind_ok by reflexivity. by destruct (Z.leb_spec timeout 0); [|lia].
  - intros G' Hown Hperm Hch. eapply (calm_move env w s q G (Some (a, false)) a c w4 s4 q _ None (mark_waiting c)); try done.
    + apply Hnow.
    + apply (sched_wait_ok w3 s q a c fd h k4); try done; [by apply (sched_ok_aside w)|by rewrite Hcos3|by apply Hco|lia|lia].
    + by intros b e [= <- _].
    + intros fd1 b Hne Hb. change (fds s4) with (habs h). rewrite Hah, lookup_insert_ne; [done|]. intros ->. congruence.
    + intros _. simpl. split; [|done]. unfold clock in *. simpl. destruct Hnow. lia.
    + intros _. split; [by rewrite Hsl4|]. exists fd. change (fds s4) with (habs h). rewrite Hah. apply lookup_insert_eq.
    + unfold blocked. rewrite Hw4, orb_true_r. split; [|done].
      apply (calm_co_kept _ c); try done; [unfold mark_waiting; watched|by apply (calm_co_stack false c)].
Qed.

Definition enqueued (sem : addr) (x : semaphore) (fd : Z) w : world :=
  set_w_sems (<[sem := set_sem_wqueue (sem_wqueue x ++ [fd]) x]> (w_sems w)) w.

Lemma block_calm w s q G a c sem x fd k1 timeout :
  calm w s q G (Some (a, false)) -> w_coros w !! a = Some c -> g_fd G !! a = None -> w_sems w !! sem = Some x ->
  os_eventfd (w_kern w) = (fd, k1) -> timeout <= 0 ->
  let w3 := enqueued sem x fd (set_w_kern (os_alloc_ok k1).2 (set_w_kern k1 w)) in
  exists w4 s4, schedule_sched_wait a fd EVENTS_R w3 = Ok (tt, w4) /\ schedule_sched_sleep a timeout w4 = Ok (tt, w4) /\
    calm w4 s4 q (waits a fd sem G) None /\ w_coros w4 = <[a := mark_waiting c]> (w_coros w).
Proof.
  intros Hcm Hc HG Hx Hev Ht w3. destruct (running_co _ _ _ _ _ _ Hcm) as (_ & c0 & Hc0 & _ & Hwf & _).
  rewrite Hc in Hc0. injection Hc0 as <-. pose proof (cm_owners _ _ _ _ _ _ Hcm) as Hown.
  pose proof (eventfd_succeeds (w_kern w)) as [H1 H0]. pose proof (eventfd_onward (w_kern w)) as Hnow1.
  rewrite Hev in H1, H0, Hnow1. cbn [fst snd] in H1, H0, Hnow1.
  destruct (eventfd_new _ _ _ Hev H1) as (Hpos & Hcl & Hnew & Hoth & Hunr & Hreg1).
  destruct (alloc_later k1) as (Hnow2 & Hreg2 & Hcnt2). set (k2 := (os_alloc_ok k1).2) in *.
  assert (Hnone : fds s !! fd = None).
  { destruct (fds s !! fd) as [b|] eqn:E; [|done]. destruct (ow_fds _ _ _ _ Hown _ b E) as [sem1 HGb].
    destruct (ow_open _ _ _ _ Hown b _ sem1 HGb) as (_ & _ & [(n & Hn & _)|[Hn _]]); congruence. }
  destruct (register_calm w s q G a c w3 fd timeout) as
    (w4 & s4 & Hrun & Hss & Hcos4 & Hon4 & Hcnt4 & Hreg4 & Hsem4 & Hch4 & Hfds4 & Hep4 & Hfin); try done.
  { apply Hcm. } { by eapply onward_trans. } { intros fd'. simpl. by rewrite Hreg2, Hreg1. } { simpl. by rewrite Hcnt2. } { lia. }
  assert (Hoth4 : forall fd', fd' <> fd -> os_counter (w_kern w4) fd' = os_counter (w_kern w) fd').
  { intros fd' Hne. rewrite Hcnt4. simpl. by rewrite Hcnt2, Hoth. }
  assert (Hnew4 : os_counter (w_kern w4) fd = Some 0) by (rewrite Hcnt4; simpl; by rewrite Hcnt2).
  exists w4, s4. split_and!; [done|done| |done]. apply Hfin.
  - assert (Hun : untaken G fd).
    { intros b obj Hb. destruct (ow_open _ _ _ _ Hown b fd obj Hb) as (_ & _ & [(n & Hn & _)|[Hn _]]); congruence. }
    set (w4' := set_w_sems (w_sems w) w4). assert (Hown4 : owners w4' s4 (waits a fd sem G)).
    { eapply (owners_register w s G); try done.
      - intros b. by eapply running_no_wait.
      - intros b Hb. unfold w4'. simpl. rewrite Hcos4. by apply lookup_insert_is_Some'; right. }
    replace w4 with (set_w_sems (<[sem := set_sem_wqueue (sem_wqueue x ++ [fd]) x]> (w_sems w4')) w4')
      by (unfold w4'; clear -Hsem4; destruct w4; simpl in Hsem4 |- *; by rewrite Hsem4).
    apply (owners_enqueue w4' s4 _ a); try done; [by rewrite Hfds4, lookup_insert_eq|apply lookup_insert_eq|].
    intros Hin. destruct (ow_queue _ _ _ _ Hown sem x fd Hx Hin) as [? _]. congruence.
  - apply (waits_permits w s G a sem x fd (w_kern w4)); try done; apply Hcm.
  - assert (Hnf : forall fd1, chan_fd env fd1 -> fd1 <> fd).
    { intros fd1 Hf ->. destruct (chan_open env w G fd (cm_chans _ _ _ _ _ _ Hcm) Hf). congruence. }
    apply (chans_step env w G); [apply Hcm|by rewrite Hch4| | |done].
    + intros fd1 Hf. by apply Hoth4, Hnf.
    + intros fd1 b obj Hf. simpl. destruct (decide (b = a)) as [->|Hne]; [|by rewrite lookup_insert_ne].
      rewrite lookup_insert_eq, HG. split; [|done]. intros [= -> _]. by destruct (Hnf fd1 Hf).
Qed.

(** ** Phase D *)

Lemma owners_wake w s G fd w' s' :
  owners w s G -> os_counter (w_kern w) fd <> Some 0 -> fds s' = delete fd (fds s) -> s_epollfd s' = s_epollfd s ->
  (forall fd', os_registered (w_kern w') (s_epollfd s) fd' = negb (bool_decide (fd' = fd)) && os_registered (w_kern w) (s_epollfd s) fd') ->
  (forall fd', os_counter (w_kern w') fd' = os_counter (w_kern w) fd') -> w_sems w' = w_sems w ->
  (forall b, is_Some (w_coros w !! b) -> is_Some (w_coros w' !! b)) -> owners w' s' G.
Proof.
  intros [] Hpos Hf He Hreg Hcnt Hsem Hdom. split; rewrite ?Hsem, ?Hf, ?He; try done.
  - intros fd1 b [_ Hb]%lookup_delete_Some. by apply ow_fds.
  - intros fd1. rewrite Hreg. intros [Hne%negb_true_iff%bool_decide_eq_false H1]%andb_prop.
    rewrite lookup_delete_ne by done. by apply ow_reg.
  - intros b fd1 sem Hb. unfold signalled. rewrite Hcnt. destruct (ow_open b fd1 sem Hb) as (H1 & H2 & H3).
    split_and!; [by apply Hdom|done|].
    destruct H3 as [?|[H3 H4]]; [by left|right]. split; [done|]. rewrite lookup_delete_ne; [done|]. by intros ->.
  - intros sem x fd1 Hx Hin. rewrite Hcnt. destruct (ow_queue sem x fd1 Hx Hin) as (H1 & b & Hb & Hb2). split; [done|].
    exists b. rewrite lookup_delete_ne; [done|]. by intros ->.
Qed.

(** A waiter is woken by its event. *)
Lemma wake_calm w s q G a fd :
  calm w s q G None -> fds s !! fd = Some a -> os_counter (w_kern w) fd <> Some 0 ->
  exists w' s' q', (make_ready a ;;; let* _ := schedule_cancel_wait a fd in ret tt) w = Ok (tt, w') /\
    calm w' s' q' G None /\ roused w w' /\ (forall fd', os_counter (w_kern w') fd' = os_counter (w_kern w) fd') /\
    fds s' = delete fd (fds s) /\ exists c', w_coros w' !! a = Some c' /\ waiting_flag c' = false.
Proof.
  intros Hcm Hfd Hpos. pose proof (cm_sched _ _ _ _ _ _ Hcm) as Hs. pose proof (cm_ok _ _ _ _ _ _ Hcm) as Hok.
  pose proof (cm_owners _ _ _ _ _ _ Hcm) as Hown.
  destruct (ok_fds _ _ _ Hok fd a Hfd) as (Hreg & H0 & H1 & c & Hc & Hw & Hsc).
  assert (Hq : a ∉ queued q) by (apply (cm_once _ _ _ _ _ _ Hcm a c Hc); unfold blocked; by rewrite Hw, orb_true_r).
  assert (Hone : one_wait s).
  { intros fd1 fd2 b E1 E2. destruct (ow_fds _ _ _ _ Hown fd1 b E1), (ow_fds _ _ _ _ Hown fd2 b E2). congruence. }
  destruct (make_ready_ok w s q a c Hok Hs Hc Hq) as (w1 & s1 & Hmr & Hs1 & Hok1 & _).
  pose proof (make_ready_run w s a c Hs Hc) as Hmr'. rewrite Hmr in Hmr'. injection Hmr' as Hw1.
  assert (Hs1' : s1 = set_s_queues (TAILQ_INSERT_TAIL (s_queues s) (queue_of c) a) s) by (rewrite Hw1 in Hs1; by injection Hs1).
  assert (Hfds1 : fds s1 = fds s) by (by rewrite Hs1').
  assert (Hc1 : w_coros w1 !! a = Some (mark_ready c)) by (rewrite Hw1; apply lookup_insert_eq).
  assert (Hw1' : waiting_flag (mark_ready c) = true) by (rewrite <- Hw; by flags).
  destruct (schedule_cancel_wait_run a fd (mark_ready c) s1 w1 Hc1 Hsc Hs1 (ok_fds_wf _ _ _ Hok1) Hw1')
    as (h & k & Hcw & Hwh & Hah & Hr & Hcnt & Hk); [by rewrite Hw1, Hs1'|done|done|].
  destruct (cancel_wait_ok w1 s1 _ a (mark_ready c) fd Hok1 Hs1) as (w2 & s2 & Hcw2 & Hs2 & Hok2 & Hfds2 & Hep2 & Hcos2 & _);
    [by intros fd1 fd2 b; rewrite Hfds1; apply Hone|by rewrite Hfds1|done|].
  rewrite Hcw in Hcw2. injection Hcw2 as Hw2.
  rewrite (bind_ok _ _ _ _ _ Hmr), (bind_ok _ _ _ _ _ Hcw). eexists _, s2, (append c a q). split; [reflexivity|].
  rewrite Hw2. set (c2 := mark_unwaiting (mark_ready c)) in *.
  assert (Hcos : w_coros w2 = <[a := c2]> (w_coros w)) by (rewrite Hcos2, Hw1; simpl; by rewrite insert_insert_eq).
  assert (Hk1 : w_kern w1 = w_kern w) by (by rewrite Hw1). assert (Hk2 : w_kern w2 = k) by (by rewrite <- Hw2).
  assert (Hs2' : s2 = set_s_fd_co_map h s1) by (rewrite <- Hw2 in Hs2; by injection Hs2).
  assert (Hsl : sleeping_flag c2 = sleeping_flag c) by (unfold c2, mark_unwaiting; by flags).
  assert (Hns : sleeping_flag c = false) by (by apply (cm_apart _ _ _ _ _ _ Hcm a c)).
  assert (Hf2 : fds s2 = delete fd (fds s)) by (by rewrite Hfds2, Hfds1).
  assert (Hwf2 : waiting_flag c2 = false) by (unfold c2, mark_unwaiting; by flags).
  assert (Hnow2 : onward (w_kern w) (w_kern w2)) by (rewrite Hk2, Hk, Hk1; apply epoll_del_onward).
  split_and!.
  - eapply (calm_move env w s q G None a c w2 s2 _ G None c2); try done.
    + apply Hnow2.
    + by rewrite Hs2', Hs1'.
    + eapply (owners_wake w s G fd); try done.
      * by rewrite Hs2', Hs1'.
      * intros fd'. rewrite Hk2, Hr, Hk1. rewrite Hs1'. simpl. do 2 f_equal. apply bool_decide_ext.
        split; [by intros [= ->]|by intros ->].
      * intros fd'. by rewrite Hk2, Hcnt, Hk1.
      * by rewrite <- Hw2, Hw1.
      * intros b Hb. rewrite Hcos. by apply lookup_insert_is_Some'; right.
    + apply (permits_same env w); [apply Hcm|done| |by rewrite <- Hw2, Hw1]. intros fd'. by rewrite Hk2, Hcnt, Hk1.
    + apply (chans_same env w); [apply Hcm|by rewrite <- Hw2, Hw1|]. intros fd'. by rewrite Hk2, Hcnt, Hk1.
    + intros b Hb. by apply queued_append_ne.
    + intros fd1 b Hne Hb. rewrite Hf2, lookup_delete_ne; [done|]. intros ->. congruence.
    + intros k' _ Hv. by rewrite Hs2', Hs1'.
    + intros _. destruct (cm_keys _ _ _ _ _ _ Hcm a c Hc Hns) as [H2 H3]. simpl.
      unfold clock in *. rewrite Hs2', Hs1'. split; [|exact H3]. simpl. rewrite Hk2, Hk, Hk1.
      pose proof (proj1 (epoll_del_onward (s_epollfd s1) fd (w_kern w))). lia.
    + by rewrite Hwf2.
    + unfold blocked. rewrite Hsl, Hns, Hwf2. split; [|apply queued_append_self].
      apply (calm_co_kept _ c); try done; [by apply (cm_co _ _ _ _ _ _ Hcm a)|unfold c2, mark_unwaiting; watched|].
      by apply (calm_co_stack false c), (cm_co _ _ _ _ _ _ Hcm a).
  - eapply roused_insert; [exact Hc|exact Hcos|unfold c2, mark_unwaiting; by flags|by rewrite Hsl|by rewrite Hwf2].
  - intros fd'. by rewrite Hk2, Hcnt, Hk1.
  - done.
  - exists c2. by rewrite Hcos, lookup_insert_eq.
Qed.

Lemma dispatch_calm l w s q G :
  calm w s q G None -> (forall fd, fd ∈ l -> fd <> 0 /\ fd <> -1 /\ os_counter (w_kern w) fd <> Some 0) ->
  exists w' s' q', dispatch_events l w = Ok (tt, w') /\ calm w' s' q' G None /\ roused w w' /\
    forall fd a, fd ∈ l -> fds s !! fd = Some a -> exists c', w_coros w' !! a = Some c' /\ waiting_flag c' = false.
Proof.
  revert w s q. induction l as [|fd l IH]; intros w s q Hcm Hl.
  { exists w, s, q; split_and!; [done|done|by apply roused_refl|]. by intros fd a ?%elem_of_nil. }
  destruct (Hl fd) as (H0 & H1 & Hpos); [left|]. cbn [dispatch_events].
  erewrite bind_ok by (apply schedule_get_waitco_run; [apply Hcm|apply Hcm|done|done]).
  destruct (fds s !! fd) as [a|] eqn:Hfd; simpl.
  - destruct (ok_fds _ _ _ (cm_ok _ _ _ _ _ _ Hcm) fd a Hfd) as (_ & _ & _ & c & Hc & _).
    destruct (Z.eqb_spec a NULL) as [->|Ha]; [by rewrite (ok_null _ _ _ (cm_ok _ _ _ _ _ _ Hcm)) in Hc|].
    destruct (wake_calm w s q G a fd Hcm Hfd Hpos) as (w1 & s1 & q1 & Hrun & Hcm1 & Hh & Hcnt & Hf1 & c1 & Hc1 & Hw1).
    rewrite (bind_ok _ _ _ _ _ Hrun). destruct (IH w1 s1 q1 Hcm1) as (w2 & s2 & q2 & Hrun2 & Hcm2 & Hh2 & Hp2).
    { intros fd' Hin. rewrite Hcnt. apply Hl. by right. }
    exists w2, s2, q2. split_and!; [done|done|by eapply roused_trans|]. intros fd' b Hin Hb.
    destruct (decide (fd' = fd)) as [->|Hne].
    + rewrite Hfd in Hb. injection Hb as <-. destruct (w_coros w2 !! a) as [c2|] eqn:Hc2; [|apply Hh2 in Hc2; congruence].
      exists c2. split; [done|]. destruct (proj2 Hh2 a c2 Hc2) as (c3 & Hc3 & _ & _ & W). rewrite Hc1 in Hc3. injection Hc3 as <-.
      destruct (waiting_flag c2); [|done]. by rewrite W in Hw1.
    + apply elem_of_cons in Hin as [?|Hin]; [done|]. apply (Hp2 fd' b Hin). by rewrite Hf1, lookup_delete_ne.
  - erewrite bind_ok by reflexivity. destruct (IH w s q Hcm) as (w2 & s2 & q2 & Hrun2 & Hcm2 & Hh2 & Hp2).
    { intros fd' Hin. apply Hl. by right. }
    exists w2, s2, q2. split_and!; [done..|]. intros fd' b [->|Hin]%elem_of_cons Hb; [congruence|by apply (Hp2 fd')].
Qed.

(** What the system reports. *)
Definition reported w (l : list Z) : Prop := forall fd, fd ∈ l -> fd <> 0 /\ fd <> -1 /\ os_counter (w_kern w) fd <> Some 0.

(** A waiter whose eventfd can be read. *)
Definition called s w : Prop := exists fd a n, fds s !! fd = Some a /\ os_counter (w_kern w) fd = Some n /\ 0 < n.

Definition waited s q G w (x : Z * list Z) w' : Prop :=
  calm w' s q G None /\ w_coros w' = w_coros w /\ reported w' x.2 /\
  (AlertLaws os -> called s w -> exists fd a, fd ∈ take (Z.to_nat x.1) x.2 /\ fds s !! fd = Some a).

Lemma called_later s w w' : later (w_kern w) (w_kern w') -> called s w -> called s w'.
Proof. intros (_ & _ & Hcnt) (fd & a & n & H1 & H2). exists fd, a, n. by rewrite Hcnt. Qed.

Lemma waited_from s q G w1 w x w' :
  later (w_kern w) (w_kern w1) -> w_coros w1 = w_coros w -> waited s q G w1 x w' -> waited s q G w x w'.
Proof. intros Hl E (H1 & H2 & H3 & H4). split_and!; [done|congruence|done|]. intros Hal Hc. by apply H4, (called_later s w). Qed.

Lemma epoll_wait_calm w s q G ep timeout :
  calm w s q G None -> ep = s_epollfd s ->
  exists x w', sys (os_epoll_wait ep timeout) w = Ok (x, w') /\ waited s q G w x w' /\ later (w_kern w) (w_kern w') /\
    (AlertLaws os -> x.1 <> -1) /\ (x.1 = -1 -> os_errno_eintr (w_kern w') = true).
Proof.
  intros Hcm Hep. unfold sys. pose proof (wait_later ep timeout (w_kern w)) as Hl. pose proof (wait_error ep timeout (w_kern w)) as Herr.
  pose proof (wait_reports ep timeout (w_kern w)) as Hrep.
  assert (Hun : AlertLaws os -> (os_epoll_wait ep timeout (w_kern w)).1.1 <> -1) by (intros ?; apply wait_uninterrupted).
  assert (Hal : AlertLaws os -> called s w -> exists fd', fd' ∈ take (Z.to_nat (os_epoll_wait ep timeout (w_kern w)).1.1) (os_epoll_wait ep timeout (w_kern w)).1.2).
  { intros ? (fd & a & n & H1 & H2 & H3). apply (wait_alert ep timeout (w_kern w) fd n); [|done..]. rewrite Hep.
    by apply (ok_fds _ _ _ (cm_ok _ _ _ _ _ _ Hcm) fd a). }
  destruct (os_epoll_wait ep timeout (w_kern w)) as [y k]. cbn [fst snd] in *.
  assert (Hfds : forall fd, fd ∈ y.2 -> is_Some (fds s !! fd)).
  { intros fd Hin. destruct (Hrep fd Hin) as [Hreg _]. subst ep. by apply (ow_reg _ _ _ _ (cm_owners _ _ _ _ _ _ Hcm)). }
  exists y, (set_w_kern k w). split; [done|]. split; [|done]. split; [by apply calm_kern|]. split; [done|]. split.
  - intros fd Hin. destruct (Hrep fd Hin) as [_ Hpos]. destruct (Hfds fd Hin) as [a Hfd].
    destruct (ok_fds _ _ _ (cm_ok _ _ _ _ _ _ Hcm) fd a Hfd) as (_ & H0 & H1 & _). split_and!; [done|done|].
    simpl. by rewrite (proj2 (proj2 Hl)).
  - intros ? Hc. destruct Hal as [fd Hin]; [done|done|]. destruct (Hfds fd) as [a Ha]; [|by exists fd, a].
    by apply (subseteq_take (Z.to_nat y.1) y.2).
Qed.

(** The fuel may run out when it is [weary]; without interruptions one call is
    enough. *)
Lemma epoll_wait_loop_calm (weary : Prop) fuel w s q G ep timeout :
  calm w s q G None -> ep = s_epollfd s -> (fuel = O -> weary) -> AlertLaws os \/ weary ->
  match epoll_wait_loop fuel ep timeout w with Ok (x, w') => waited s q G w x w' | Err e => e = FFuel /\ weary end.
Proof.
  intros Hcm Hep Hf Hal. revert w Hcm Hf. induction fuel as [|fuel IH]; intros w Hcm Hf; [by split; [|apply Hf]|]. cbn [epoll_wait_loop].
  destruct (epoll_wait_calm w s q G ep timeout Hcm Hep) as ([nready l] & w1 & E & Hw1 & Hl & Hun & Herr).
  rewrite (bind_ok _ _ _ _ _ E). destruct (Z.eqb_spec nready (-1)) as [->|Hne]; [|exact Hw1].
  destruct Hal as [Hal|Hwy]; [by destruct (Hun Hal)|].
  unfold bind at 1, get_st. rewrite (Herr eq_refl). pose proof Hw1 as (Hcm1 & Hcos1 & _).
  specialize (IH w1 Hcm1 (fun _ => Hwy)). destruct (epoll_wait_loop fuel ep timeout _) as [[x w2]|e]; [|done].
  by eapply waited_from.
Qed.

Lemma epoll_calm (weary : Prop) fuel w s q G :
  calm w s q G None -> (fuel = O -> weary) -> AlertLaws os \/ weary ->
  match schedule_epoll_wait fuel w with Ok (x, w') => waited s q G w x w' | Err e => e = FFuel /\ weary end.
Proof.
  intros Hcm Hf Hal. pose proof (cm_sched _ _ _ _ _ _ Hcm) as Hs.
  unfold schedule_epoll_wait. rewrite (bind_ok _ _ _ _ _ (the_sched_run s w Hs)).
  destruct ((count (s_fd_co_map s) =? 0) && rb_is_empty (s_sleeping s)) eqn:Hnone.
  { split_and!; [done|done|by intros fd ?%elem_of_nil|]. intros _ (fd & a & n & Hfd & _). exfalso.
    apply andb_prop in Hnone as [Hcnt%Z.eqb_eq _]. unfold fds in Hfd.
    rewrite (htable_count_size _ (ok_fds_wf _ _ _ (cm_ok _ _ _ _ _ _ Hcm))) in Hcnt.
    assert (E : habs (s_fd_co_map s) = ∅) by (apply map_size_empty_inv; lia). by rewrite E, lookup_empty in Hfd. }
  assert (Hsys : forall timeout w1, calm w1 s q G None -> later (w_kern w) (w_kern w1) -> w_coros w1 = w_coros w ->
    match sys (os_epoll_wait (s_epollfd s) timeout) w1 with Ok (x, w') => waited s q G w x w' | Err e => e = FFuel /\ weary end).
  { intros timeout w1 Hcm1 Hl1 Hcos1. destruct (epoll_wait_calm w1 s q G _ timeout Hcm1 eq_refl) as (x & w2 & -> & Hw2 & _).
    by eapply waited_from. }
  destruct (negb _ || negb _); [apply Hsys; [done|apply later_refl|done]|].
  destruct (os_clock_gettime (w_kern w)) as [now k] eqn:Hk.
  destruct (schedule_min_timeout_run w s now k Hs (ok_timers _ _ _ (cm_ok _ _ _ _ _ _ Hcm)) Hk) as (r & w1 & Hr & Hw1).
  rewrite (bind_ok _ _ _ _ _ Hr).
  assert (Hcm1 : calm w1 s q G None /\ w_coros w1 = w_coros w /\ later (w_kern w) (w_kern w1)).
  { pose proof (clock_later (w_kern w)) as Hl. rewrite Hk in Hl.
    destruct (map_min (view s)) as [[key a]|]; destruct Hw1 as [_ ->]; [by split_and!; [apply calm_kern|..]|].
    split_and!; [done|done|apply later_refl]. }
  destruct Hcm1 as (Hcm1 & Hcos1 & Hl1). destruct (r =? 0); [by apply Hsys|].
  pose proof (epoll_wait_loop_calm weary fuel w1 s q G _ (i32 (r / 1000)) Hcm1 eq_refl Hf Hal) as Hl.
  destruct (epoll_wait_loop fuel _ _ w1) as [[x w2]|e]; [|done]. by eapply waited_from.
Qed.

(** A waiter that is called is woken. *)
Definition woke w w' : Prop := exists a c c', w_coros w !! a = Some c /\ waiting_flag c = true /\
  w_coros w' !! a = Some c' /\ waiting_flag c' = false.

Lemma probe_events_calm (weary : Prop) fuel w s q G :
  calm w s q G None -> (fuel = O -> weary) -> AlertLaws os \/ weary ->
  match probe_events fuel w with
  | Ok (_, w') => exists s' q', calm w' s' q' G None /\ roused w w' /\ (AlertLaws os -> called s w -> woke w w')
  | Err e => e = FFuel /\ weary
  end.
Proof.
  intros Hcm Hf Hal. pose proof (epoll_calm weary fuel w s q G Hcm Hf Hal) as H. unfold probe_events, bind at 1.
  destruct (schedule_epoll_wait fuel w) as [[[nready l] w1]|e]; [|done]. destruct H as (Hcm1 & Hcos & Hrep & Hal1).
  destruct (Z.eqb_spec nready 0) as [->|Hne].
  { exists s, q. split_and!; [done|by apply roused_refl|]. intros H1 H2. destruct (Hal1 H1 H2) as (fd & a & Hin & _).
    by apply elem_of_nil in Hin. }
  destruct (dispatch_calm (take (Z.to_nat nready) l) w1 s q G Hcm1) as (w2 & s2 & q2 & -> & Hcm2 & Hh & Hp).
  { intros fd Hin. apply Hrep. by apply (subseteq_take (Z.to_nat nready) l). }
  exists s2, q2. split_and!; [done|eapply roused_trans; [by apply roused_refl|done]|]. intros H1 H2.
  destruct (Hal1 H1 H2) as (fd & a & Hin & Hfd). destruct (Hp fd a Hin Hfd) as (c' & Hc' & Hw').
  destruct (ok_fds _ _ _ (cm_ok _ _ _ _ _ _ Hcm1) fd a Hfd) as (_ & _ & _ & c & Hc & Hw & _).
  exists a, c, c'. by rewrite <- Hcos.
Qed.

End steps.
