(* ===== verification/ChanSteps.v ===== *)
(** * The steps of channels in a program in good order

    What sending and receiving do to the invariant [calm]: a message is put in
    or taken out, the coroutine at the other end is notified, or the running
    coroutine blocks at its own end. *)
From S2P Require Import Prelude Htable Queue SleepTree World SimOS Schedule SchedInv Prog Coroutine Semaphore Channel.
From S2P Require Import Run RoundRobin Calm CalmSteps.

Local Open Scope Z_scope.
Local Open Scope dyco_scope.

Section chan_steps.
Context {os : OS} {osl : OSLaws os} {ins : Inside os} {cl : CalmLaws os} {T : Type} {st : SleepTree T} {stl : SleepTreeLaws T}.
Local Abbreviation world := (@world os T).
Local Abbreviation dyco_schedule := (@dyco_schedule T).
Implicit Types (w : world) (s : dyco_schedule) (c : dyco_coroutine) (a ch : addr) (q : list Z * list Z) (G : ghost)
  (sm : stream) (x : half_duplex_channel) (b : bool) (md mr mw : mode).
Context (env : client).
Local Abbreviation calm := (calm env).
Local Abbreviation owners := (owners env).
Local Abbreviation permits := (permits env).
Local Abbreviation chans := (chans env).

(** ** The owner of an end *)
Definition owns G a (e : addr * bool) (n : nat) : Prop := l_ends (locks_of G a) !! e = Some n.

(** The owner is not blocked there when it waits for nothing. *)
Lemma end_idle w G k a ch b fd md n :
  chans w G -> g_fd G !! a = None -> owns G a (ch, b) n -> at_end k G ch b fd md -> md = Idle.
Proof.
  intros Hch HG Ho Hmd. destruct md; [done|..]; destruct Hmd as (p & v & H1 & H2 & _);
    rewrite (ck_owner _ _ _ Hch p a (ch, b)) in H1 by (done || by eexists); congruence.
Qed.

Lemma end_woken w s G a ch b fd md n :
  owners w s G -> g_fd G !! a = Some (fd, ch) -> os_counter (w_kern w) fd = Some n -> 0 < n ->
  at_end (w_kern w) G ch b fd md -> md = Woken.
Proof.
  intros Hown HG Hn Hpos Hmd. destruct md; [by destruct Hmd as [_ H]; destruct (H a ch)| |done].
  destruct Hmd as (p & v & H1 & _ & H3 & ->). rewrite Hn in H3. injection H3 as ->. lia.
Qed.

(** Another number of messages at an end. *)
Definition with_end (e : addr * bool) (n : nat) (l : locks) : locks := mk_locks (l_held l) (l_in l) (<[e := n]> (l_ends l)).
Definition moved a (e : addr * bool) (n : nat) G : ghost := set_locks a (with_end e n (locks_of G a)) G.

Lemma moved_ends a e n G p : l_ends (locks_of (moved a e n G) p) =
  if decide (p = a) then <[e := n]> (l_ends (locks_of G a)) else l_ends (locks_of G p).
Proof.
  unfold moved, locks_of at 1. simpl. destruct (decide (p = a)) as [->|Hne]; [by rewrite lookup_insert_eq|].
  by rewrite lookup_insert_ne.
Qed.

Lemma moved_some a e n m G p e2 :
  owns G a e m -> is_Some (l_ends (locks_of (moved a e n G) p) !! e2) <-> is_Some (l_ends (locks_of G p) !! e2).
Proof.
  intros Ho. rewrite moved_ends. destruct (decide (p = a)) as [->|]; [|done]. rewrite lookup_insert_is_Some'.
  split; [|by right]. intros [->|?]; [by eexists|done].
Qed.

Lemma moved_other a e n G p e2 : e2 <> e -> l_ends (locks_of (moved a e n G) p) !! e2 = l_ends (locks_of G p) !! e2.
Proof. intros Hne. rewrite moved_ends. destruct (decide (p = a)) as [->|]; [|done]. by rewrite lookup_insert_ne. Qed.

Lemma moved_owned w a e n m G : chans w G -> owns G a e m -> owned (moved a e n G) e n.
Proof.
  intros Hch Ho p v. rewrite moved_ends. destruct (decide (p = a)) as [->|Hne]; [rewrite lookup_insert_eq; by intros [= ->]|].
  intros Hp. destruct Hne. by apply (ck_owner _ _ _ Hch p a e); eexists.
Qed.

Lemma moved_owned_other a e n G e2 v : e2 <> e -> owned G e2 v -> owned (moved a e n G) e2 v.
Proof. intros Hne H p u. rewrite moved_other by done. apply H. Qed.

Lemma at_end_moved k a e n m G ch b fd md : owns G a e m -> at_end k G ch b fd md -> at_end k (moved a e n G) ch b fd md.
Proof. intros Ho H. eapply at_end_step; [exact H|done|done|]. intros p. by rewrite (moved_some a e n m). Qed.

(** ** Changing one channel *)

Lemma chan_update w G w' G' ch sm x i j mr mw :
  chans w G -> cl_chans env !! ch = Some sm -> w_chans w' = <[ch := x]> (w_chans w) -> chan_view w' G' ch sm x i j mr mw ->
  (forall fd, (forall b, fd <> st_desc sm b) -> chan_fd env fd -> os_counter (w_kern w') fd = os_counter (w_kern w) fd) ->
  (forall fd a obj, (forall b, fd <> st_desc sm b) -> chan_fd env fd ->
    g_fd G' !! a = Some (fd, obj) <-> g_fd G !! a = Some (fd, obj)) ->
  (forall a e, e.1 <> ch -> l_ends (locks_of G' a) !! e = l_ends (locks_of G a) !! e) ->
  (forall a e, is_Some (l_ends (locks_of G' a) !! e) <-> is_Some (l_ends (locks_of G a) !! e)) -> chans w' G'.
Proof.
  intros [Hst Hch Hown] Hc Hw Hv Hcnt Hfd Hl Hs. split; [done| |].
  - intros ch2 sm2 Hc2. destruct (decide (ch2 = ch)) as [->|Hne].
    { rewrite Hc in Hc2. injection Hc2 as <-. by exists x, i, j, mr, mw. }
    assert (Hd : forall b2 b, st_desc sm2 b2 <> st_desc sm b).
    { intros b2 b E. by destruct (sk_fds _ Hst _ _ _ _ _ _ Hc2 Hc E). }
    assert (Hf : forall b2, chan_fd env (st_desc sm2 b2)) by (intros b2; by exists ch2, sm2, b2).
    destruct (Hch ch2 sm2 Hc2) as (x2 & i2 & j2 & mr2 & mw2 & H1 & H2 & H3 & H4 & H5 & H6 & H7).
    exists x2, i2, j2, mr2, mw2. split_and!; try done.
    + by rewrite Hw, lookup_insert_ne.
    + eapply at_end_step; [done|apply Hcnt; [apply (Hd false)|apply (Hf false)]|
        intros; apply Hfd; [apply (Hd false)|apply (Hf false)]|]. intros p. by rewrite Hl.
    + eapply at_end_step; [done|apply Hcnt; [apply (Hd true)|apply (Hf true)]|
        intros; apply Hfd; [apply (Hd true)|apply (Hf true)]|]. intros p. by rewrite Hl.
    + intros p m. rewrite Hl by done. apply H6.
    + intros p m. rewrite Hl by done. apply H7.
  - intros p1 p2 e. rewrite !Hs. apply Hown.
Qed.

(** The units of locks have nothing to do with it. *)
Lemma chan_permits w G w' G' :
  permits w G -> streams_ok env -> onward (w_kern w) (w_kern w') -> w_sems w' = w_sems w ->
  (forall sem, cl_chans env !! sem = None -> tally (woken (w_kern w') sem) (g_fd G') = tally (woken (w_kern w) sem) (g_fd G)) ->
  (g_locks G' = g_locks G \/ exists a e n, g_locks G' = g_locks (moved a e n G)) -> permits w' G'.
Proof.
  intros Hp Hst Hon Hsem Hw Hl.
  assert (Hsame : (forall P, P no_locks = false -> (forall l1 l2, l_held l1 = l_held l2 -> l_in l1 = l_in l2 -> P l1 = P l2) ->
    tally P (g_locks G') = tally P (g_locks G)) /\ (forall a l, g_locks G' !! a = Some l -> l_in l ⊆ l_held l)).
  { destruct Hl as [-> | (a & e & n & ->)]; [split; [done|apply Hp]|]. split.
    - intros P HP Hext. unfold moved. rewrite tally_set_locks by done. rewrite (Hext (with_end e n _) (locks_of G a)) by done. lia.
    - apply set_locks_held; [apply Hp|]. by apply (locks_of_held env w). }
  destruct Hsame as [Hsame Hheld]. apply (permits_step env w G); try done.
  - intros sem cap x Hcap Hx Hr. exists x. rewrite Hsem, Hw, (Hsame (holds sem)); [done|done| |].
    + intros l1 l2 H1 H2. unfold holds. by rewrite H1.
    + destruct (cl_chans env !! sem) eqn:E; [|done]. destruct (sk_apart _ Hst sem) as [_ ?]; [by eexists|congruence].
  - intros sem. apply Hsame; [done|]. intros l1 l2 H1 H2. unfold enters. by rewrite H2.
Qed.

(** ** A message goes in or out

    At most the eventfd at the other end is written, and then somebody waits
    there. *)
Definition notified w G ch (fd : Z) (k : kernel) : Prop :=
  onward (w_kern w) k /\ (forall ep fd', os_registered k ep fd' = os_registered (w_kern w) ep fd') /\
  (forall fd', fd' <> fd -> os_counter k fd' = os_counter (w_kern w) fd') /\
  (os_counter k fd = os_counter (w_kern w) fd \/
   exists p v, g_fd G !! p = Some (fd, ch) /\ os_counter k fd = Some v /\ 0 < v).

Lemma not_notified w G ch fd : notified w G ch fd (w_kern w).
Proof. split_and!; [by split|done|done|by left]. Qed.

Lemma notified_write w s G ch sm b v :
  chans w G -> cl_chans env !! ch = Some sm -> at_end (w_kern w) G ch b (st_desc sm b) Parked -> 0 < v < 2 ^ 64 - 1 ->
  exists k, os_eventfd_write (st_desc sm b) v (w_kern w) = (0, k) /\ notified w G ch (st_desc sm b) k /\
    at_end k G ch b (st_desc sm b) Woken.
Proof.
  intros Hch Hc (p & n & H1 & H2 & H3 & ->) Hv.
  destruct (eventfd_write_open (w_kern w) _ v 0 H3) as (k & Hk & Hfd & Hoth); [lia|lia|].
  pose proof (write_onward (st_desc sm b) v (w_kern w)) as Hon. pose proof (write_registered (st_desc sm b) v (w_kern w)) as Hreg.
  rewrite Hk in Hon, Hreg. exists k. split_and!; [done| |].
  - split_and!; [done|done|done|]. right. exists p, (0 + v). split_and!; [done|done|lia].
  - exists p, (0 + v). split_and!; [done|done|done|lia].
Qed.

Lemma notified_owners w s G ch sm b k w' :
  owners w s G -> cl_chans env !! ch = Some sm -> notified w G ch (st_desc sm b) k -> w_kern w' = k ->
  w_sems w' = w_sems w -> w_coros w' = w_coros w -> owners w' s G.
Proof.
  intros [] Hc (_ & Hreg & Hcnt & Hfd) Hk Hsem Hcos. split; rewrite ?Hk, ?Hsem, ?Hcos; try done.
  - intros fd. rewrite Hreg. apply ow_reg.
  - intros p fd obj Hp. destruct (ow_open p fd obj Hp) as (H1 & H2 & H3). split_and!; [done|done|]. unfold signalled.
    destruct (decide (fd = st_desc sm b)) as [->|Hne]; [|by rewrite Hcnt].
    destruct Hfd as [->|(p2 & v & E1 & E2 & E3)]; [done|]. left. exists v. split_and!; [done|done|].
    pose proof (ow_inj p p2 _ _ _ Hp E1) as <-. rewrite Hp in E1. injection E1 as ->. congruence.
  - intros sem y fd Hy Hin. destruct (ow_queue sem y fd Hy Hin) as (H1 & p & H2 & H3).
    destruct (decide (fd = st_desc sm b)) as [->|Hne]; [|rewrite Hcnt by done; eauto].
    destruct Hfd as [->|(p2 & v & E1 & E2 & E3)]; [eauto|]. exfalso.
    pose proof (ow_inj p p2 _ _ _ H3 E1) as <-. rewrite H3 in E1. injection E1 as ->.
    rewrite ow_apart in Hc; [done|by eexists].
Qed.

(** The running coroutine puts a message in or takes one out. *)
Lemma transfer_calm w s q G r a ch sm x b n k i j mr mw :
  calm w s q G r -> cl_chans env !! ch = Some sm -> owns G a (ch, b) n -> notified w G ch (st_desc sm (negb b)) k ->
  let w' := with_chan ch x (set_w_kern k w) in let G' := moved a (ch, b) (S n) G in
  chan_view w' G' ch sm x i j mr mw -> calm w' s q G' r.
Proof.
  intros Hcm Hc Ho Hk w' G' Hv. pose proof (cm_chans _ _ _ _ _ _ Hcm) as Hch. pose proof (cm_owners _ _ _ _ _ _ Hcm) as Hown.
  pose proof Hk as (Hon & Hreg & Hcnt & Hfd). apply (calm_outside env w s q G r); try done.
  - apply (owners_locks env _ s G); [|done]. by apply (notified_owners w s G ch sm (negb b) k).
  - apply (chan_permits w G); [apply Hcm|apply Hch|done|done| |right; by eexists a, _, _].
    intros sem Hs. apply tally_ext. intros p [fd obj] Hp. unfold woken. simpl.
    destruct (decide (fd = st_desc sm (negb b))) as [->|Hne]; [|by rewrite Hcnt].
    destruct Hfd as [->|(p2 & v & E1 & E2 & E3)]; [done|].
    pose proof (ow_inj _ _ _ _ Hown p p2 _ _ _ Hp E1) as <-. rewrite Hp in E1. injection E1 as ->.
    rewrite bool_decide_false; [done|]. intros ->. congruence.
  - apply (chan_update w G w' G' ch sm x i j mr mw); try done.
    + intros fd Hne _. by apply Hcnt.
    + intros p e Hne. apply moved_other. intros ->. by apply Hne.
    + intros p e. by eapply moved_some.
Qed.

(** ** Waiting *)

(** The running coroutine blocks at its end. *)
Lemma block_end_calm w s q G a c ch sm x b n i j mr mw timeout :
  calm w s q G (Some (a, false)) -> w_coros w !! a = Some c -> cl_chans env !! ch = Some sm -> g_fd G !! a = None ->
  owns G a (ch, b) n -> at_end (w_kern w) G ch b (st_desc sm b) Idle -> timeout <= 0 ->
  (forall k G', at_end k G' ch b (st_desc sm b) Parked ->
    (forall md, at_end (w_kern w) G ch (negb b) (st_desc sm (negb b)) md -> at_end k G' ch (negb b) (st_desc sm (negb b)) md) ->
    (forall e v, owned G e v -> owned G' e v) ->
    chan_view (with_chan ch x (set_w_kern k w)) G' ch sm x i j mr mw) ->
  let w3 := with_chan ch x w in
  exists w4 s4, schedule_sched_wait a (st_desc sm b) EVENTS_R w3 = Ok (tt, w4) /\
    schedule_sched_sleep a timeout w4 = Ok (tt, w4) /\
    calm w4 s4 q (waits a (st_desc sm b) ch G) None /\ w_coros w4 = <[a := mark_waiting c]> (w_coros w).
Proof.
  intros Hcm Hc Hsm HG Ho [H0 Hun] Ht Hv w3. pose proof (cm_owners _ _ _ _ _ _ Hcm) as Hown. pose proof (cm_chans _ _ _ _ _ _ Hcm) as Hch.
  set (fd := st_desc sm b) in *. set (G' := waits a fd ch G).
  assert (Hnone : fds s !! fd = None).
  { destruct (fds s !! fd) as [p|] eqn:E; [|done]. destruct (ow_fds _ _ _ _ Hown _ p E) as [obj Hp]. by destruct (Hun p obj). }
  pose proof (sk_desc _ (ck_streams _ _ _ Hch) ch sm b Hsm) as Hpos. fold fd in Hpos.
  destruct (register_calm env w s q G a c w3 fd timeout) as
    (w4 & s4 & Hrun & Hss & Hcos4 & Hon4 & Hcnt4 & Hreg4 & Hsem4 & Hch4 & Hfds4 & Hep4 & Hfin); try done.
  { apply Hcm. }
  assert (Hcnt : forall fd', os_counter (w_kern w4) fd' = os_counter (w_kern w) fd') by (intros fd'; by rewrite Hcnt4).
  exists w4, s4. split_and!; [done|done| |done]. apply Hfin.
  - apply (owners_register env w s G a ch fd); try done.
    + intros fd'. by eapply running_no_wait.
    + lia.
    + by rewrite Hcnt.
    + intros p Hp. rewrite Hcos4. by apply lookup_insert_is_Some'; right.
  - apply (chan_permits w G); [apply Hcm|apply Hch|done|done| |by left].
    intros sem Hs. simpl. rewrite tally_fresh by done. unfold woken at 2. simpl.
    rewrite (bool_decide_false (ch = sem)) by congruence. simpl.
    rewrite (tally_ext _ (woken (w_kern w) sem)); [lia|]. intros p y _. unfold woken. by rewrite Hcnt.
  - assert (Hd : forall b2, b2 <> b -> st_desc sm b2 <> fd).
    { intros b2 Hne E. by destruct (sk_fds _ (ck_streams _ _ _ Hch) _ _ _ _ _ _ Hsm Hsm E). }
    assert (Hg : forall fd' p obj, fd' <> fd -> g_fd G' !! p = Some (fd', obj) <-> g_fd G !! p = Some (fd', obj)).
    { intros fd' p obj Hne. simpl. destruct (decide (p = a)) as [->|Hpa]; [|by rewrite lookup_insert_ne].
      rewrite lookup_insert_eq, HG. split; [|done]. by intros [= -> _]. }
    apply (chan_update w G w4 G' ch sm x i j mr mw); try done.
    + specialize (Hv (w_kern w4) G'). destruct Hv as (V1 & V2 & V3 & V4 & V5 & V6 & V7).
      * exists a, 0. split_and!; [apply lookup_insert_eq|by eexists|by rewrite Hcnt|done].
      * intros md Hmd. eapply at_end_step; [exact Hmd|apply Hcnt|intros; apply Hg, Hd; by destruct b|done].
      * done.
      * split_and!; try done. by rewrite Hch4.
    + intros fd' p obj Hne _. apply Hg. exact (Hne b).
Qed.

(** After it: the eventfd is read, and the end is idle again. *)
Lemma stage_sender_woken x sm i j mr :
  stage x sm i j mr Woken ->
  stage x sm i j mr Idle /\ (ch_status x = HDC_STATUS_EMPTY \/ ch_status x = HDC_STATUS_WANTREAD).
Proof. unfold stage. by destruct (ch_status x); intuition. Qed.

Lemma stage_receiver_woken x sm i j mw :
  stage x sm i j Woken mw ->
  stage x sm i j Idle mw /\ (ch_status x = HDC_STATUS_FULL \/ ch_status x = HDC_STATUS_WANTWRITE).
Proof. unfold stage. by destruct (ch_status x); intuition. Qed.

Definition unwaits a G : ghost := mk_ghost (delete a (g_fd G)) (g_locks G).

Lemma read_end_calm w s q G a ch sm b n :
  calm w s q G (Some (a, false)) -> cl_chans env !! ch = Some sm -> g_fd G !! a = Some (st_desc sm b, ch) ->
  owns G a (ch, b) n ->
  exists v k, os_eventfd_read (st_desc sm b) (w_kern w) = (Some v, k) /\
    calm (set_w_kern k w) s q (unwaits a G) (Some (a, false)) /\
    exists x i j mr mw, chan_view (set_w_kern k w) (unwaits a G) ch sm x i j mr mw /\
      if b then ch_status x = HDC_STATUS_EMPTY \/ ch_status x = HDC_STATUS_WANTREAD
      else ch_status x = HDC_STATUS_FULL \/ ch_status x = HDC_STATUS_WANTWRITE.
Proof.
  intros Hcm Hsm HG Ho. pose proof (cm_owners _ _ _ _ _ _ Hcm) as Hown. pose proof (cm_chans _ _ _ _ _ _ Hcm) as Hch.
  destruct (running_signalled env w s q G a _ ch Hcm HG) as [Hfd (v & Hv & Hpos & _)]. set (fd := st_desc sm b) in *.
  destruct (eventfd_read_positive (w_kern w) fd v Hv ltac:(lia)) as (k & Hk & Hz & Hoth).
  pose proof (read_onward fd (w_kern w)) as Hon. pose proof (read_registered fd (w_kern w)) as Hreg. rewrite Hk in Hon, Hreg.
  cbn [snd] in Hon, Hreg. set (G' := unwaits a G). set (w' := set_w_kern k w).
  assert (Hinj : forall p obj, g_fd G !! p = Some (fd, obj) -> p = a) by (intros p obj Hp; by apply (ow_inj _ _ _ _ Hown p a fd obj ch)).
  assert (Hg : forall fd' p obj, fd' <> fd -> g_fd G' !! p = Some (fd', obj) <-> g_fd G !! p = Some (fd', obj)).
  { intros fd' p obj Hne. simpl. rewrite lookup_delete_Some. split; [by intros [_ ?]|]. intros Hp. split; [|done].
    intros <-. rewrite HG in Hp. by injection Hp. }
  assert (Hd : forall b2, b2 <> b -> st_desc sm b2 <> fd).
  { intros b2 Hne E. by destruct (sk_fds _ (ck_streams _ _ _ Hch) _ _ _ _ _ _ Hsm Hsm E). }
  assert (Hidle : at_end k G' ch b fd Idle).
  { split; [done|]. intros p obj Hp. simpl in Hp. apply lookup_delete_Some in Hp as [Hne Hp]. by apply Hne, eq_sym, (Hinj p obj). }
  assert (Hother : forall b2 md, b2 <> b -> at_end (w_kern w) G ch b2 (st_desc sm b2) md -> at_end k G' ch b2 (st_desc sm b2) md).
  { intros b2 md Hne Hmd. eapply at_end_step; [exact Hmd|by apply Hoth, Hd|intros; by apply Hg, Hd|done]. }
  destruct (ck_chan _ _ _ Hch ch sm Hsm) as (x & i & j & mr & mw & V1 & V2 & V3 & V4 & V5 & V6 & V7).
  assert (Hview : exists mr' mw', chan_view w' G' ch sm x i j mr' mw' /\
      if b then ch_status x = HDC_STATUS_EMPTY \/ ch_status x = HDC_STATUS_WANTREAD
      else ch_status x = HDC_STATUS_FULL \/ ch_status x = HDC_STATUS_WANTWRITE).
  { destruct b.
    - assert (mw = Woken) as -> by (by apply (end_woken w s G a ch true fd mw v)).
      destruct (stage_sender_woken _ _ _ _ _ V5) as [V5' Hs].
      exists mr, Idle. split; [split_and!; try done; by apply (Hother false)|done].
    - assert (mr = Woken) as -> by (by apply (end_woken w s G a ch false fd mr v)).
      destruct (stage_receiver_woken _ _ _ _ _ V5) as [V5' Hs].
      exists Idle, mw. split; [split_and!; try done; by apply (Hother true)|done]. }
  destruct Hview as (mr' & mw' & Hview & Hst). exists v, k. split_and!; [done| |by exists x, i, j, mr', mw'].
  apply (calm_outside env w s q G); try done.
  - destruct Hown. split; try done; simpl.
    + intros fd1 p Hp. rewrite lookup_delete_ne; [by apply ow_fds|]. intros ->. destruct (ow_fds fd1 p Hp) as [sem2 E].
      rewrite HG in E. injection E as <- _. congruence.
    + intros fd1. rewrite Hreg. apply ow_reg.
    + intros b1 b2 fd1 sem1 sem2 [_ H1]%lookup_delete_Some [_ H2]%lookup_delete_Some. by apply (ow_inj b1 b2 fd1 sem1 sem2).
    + intros p fd1 sem1 [Hne Hp]%lookup_delete_Some. unfold signalled. rewrite Hoth; [by apply (ow_open p fd1 sem1)|].
      intros ->. by apply Hne, eq_sym, (Hinj p sem1).
    + intros sem1 y fd1 Hy Hin. destruct (ow_queue sem1 y fd1 Hy Hin) as (H1 & p & Hp & Hp2).
      rewrite Hoth by (intros ->; rewrite Hv in H1; injection H1 as ->; lia). split; [done|]. exists p.
      rewrite lookup_delete_ne; [done|]. intros ->. rewrite HG in Hp2. injection Hp2 as <- _. rewrite Hv in H1. injection H1 as ->. lia.
  - apply (chan_permits w G); [apply Hcm|apply Hch|done|done| |by left].
    intros sem Hs. simpl. rewrite (tally_lookup (woken (w_kern w) sem) (g_fd G) a _ HG). unfold woken at 3. simpl.
    rewrite (bool_decide_false (ch = sem)) by congruence. simpl. rewrite Z.add_0_r. apply tally_ext.
    intros p [fd1 obj] [Hne Hp]%lookup_delete_Some. unfold woken. simpl. rewrite Hoth; [done|]. intros ->.
    by apply Hne, eq_sym, (Hinj p obj).
  - apply (chan_update w G w' G' ch sm x i j mr' mw'); try done.
    + unfold w'. simpl. by rewrite insert_id.
    + intros fd' Hne _. apply Hoth. exact (Hne b).
    + intros fd' p obj Hne _. apply Hg. exact (Hne b).
Qed.

End chan_steps.
