(* ===== verification/Safe.v ===== *)
(** * Programs that never fail

    [safe] is a logic for the programs of coroutines: a safe program never
    fails, and whenever it gives way to the scheduler the thread is in good
    order ([calm]).  The calls that compute, sleep, and wait on and signal
    semaphores without a time limit are safe. *)
From S2P Require Import Prelude Htable Queue SleepTree World SimOS Schedule SchedInv Prog Coroutine Semaphore.
From S2P Require Import Asymcoro Coropool Schedcall Run RoundRobin Calm CalmSteps.

Local Open Scope Z_scope.
Local Open Scope dyco_scope.

Section safe.
Context {os : OS} {osl : OSLaws os} {ins : Inside os} {cl : CalmLaws os} {T : Type} {st : SleepTree T} {stl : SleepTreeLaws T}.
Local Abbreviation world := (@world os T).
Local Abbreviation dyco_schedule := (@dyco_schedule T).
Implicit Types (w : world) (s : dyco_schedule) (c : dyco_coroutine) (a : addr) (q : list Z * list Z) (G : ghost) (l : locks).
Context (env : client).
Local Abbreviation calm := (calm env).
Local Abbreviation lock := (lock env).

(** ** The logic

    [safe a p Q o w]: the program [p] of the coroutine [a], in [w], never
    fails; when it gives way to the scheduler, no coroutine is lost, or it has
    come to its end, and it keeps to the rules of the client; and it goes on like
    this from whatever state in good order it is resumed in.  [o] is the state
    of its last resumption; [Q] holds of the result when the program is done. *)
Definition origin : Type := world * ghost.
Implicit Types (o : origin).

(** The other coroutines are left alone. *)
Definition since a o w G : Prop :=
  heirs o.1 w /\ forall b, b <> a -> local G b = local o.2 b /\ w_coros w !! b = w_coros o.1 !! b.

(** The rules of a coroutine at rest. *)
Definition may_wait (l : locks) (p : Z * addr) : Prop := ru_may (cl_rules env) p.1 p.2 l.
Definition may_sleep : Prop := ru_timers (cl_rules env) = true.
Definition rests w G a : Prop :=
  (forall p, g_fd G !! a = Some p -> may_wait (locks_of G a) p) /\
  exists c, w_coros w !! a = Some c /\ (sleeping_flag c = true -> may_sleep).
Definition ends G a : Prop := g_fd G !! a = None /\ ru_end (cl_rules env) a (locks_of G a).

(** [a] is at work; [g] is its eventfd, if it has one, and [l] its locks. *)
Definition working a (g : option (Z * addr)) l o w : Prop :=
  exists s q G, calm w s q G (Some (a, false)) /\ s_curr_thread s = a /\ local G a = (g, l) /\ since a o w G.
Definition fine a l : origin -> world -> Prop := working a None l.

Fixpoint safe {A} a (p : prog world A) (Q : A -> origin -> world -> Prop) o w : Prop :=
  match p with
  | PRet x => Q x o w
  | PFault _ => False
  | PGet k => safe a (k w) Q o w
  | PPut w' k => safe a k Q o w'
  | PSwitch (SwapSched b) k =>
      b = a /\ exists s q G, since a o w G /\
        ((calm w s q G (Some (a, true)) /\ ends G a) \/
         (calm w s q G None /\ rests w G a /\
          forall w' s' q' G', calm w' s' q' G' (Some (a, false)) -> s_curr_thread s' = a -> local G' a = local G a ->
            safe a k Q (w', G') w'))
  | PSwitch _ _ => False
  end.

Lemma safe_bind {A B} a (p : prog world A) (f : A -> prog world B) P Q o w :
  safe a p P o w -> (forall x o w, P x o w -> safe a (f x) Q o w) -> safe a (pbind p f) Q o w.
Proof.
  revert o w. induction p as [x|e|k IH|w' k IH|s k IH]; intros o w Hp Hf; simpl in *; try by auto.
  destruct s as [b|b|b|b]; try done. destruct Hp as (-> & s & q & G & Hh & Hend). split; [done|].
  exists s, q, G. split; [done|]. destruct Hend as [?|(Hcm & Hc & Hk)]; [by left|]. right. split_and!; [done|done|].
  intros w' s' q' G' H1 H2 H3. by apply IH; [apply (Hk w' s' q' G')|].
Qed.

Lemma safe_weaken {A} a (p : prog world A) (P Q : A -> origin -> world -> Prop) o w :
  safe a p P o w -> (forall x o w, P x o w -> Q x o w) -> safe a p Q o w.
Proof.
  revert o w. induction p as [x|e|k IH|w' k IH|s k IH]; intros o w Hp Hf; simpl in *; try by auto.
  destruct s as [b|b|b|b]; try done. destruct Hp as (-> & s & q & G & Hh & Hend). split; [done|].
  exists s, q, G. split; [done|]. destruct Hend as [?|(Hcm & Hc & Hk)]; [by left|]. right. split_and!; [done|done|].
  intros w' s' q' G' H1 H2 H3. by apply IH; [apply (Hk w' s' q' G')|].
Qed.

Lemma safe_exec {A} a (p : prog world A) Q o w :
  match exec p w with
  | (SDone x, w') => Q x o w'
  | (SFault _, _) => False
  | (SSwitch s k, w') => safe a (PSwitch s k) Q o w'
  end <-> safe a p Q o w.
Proof. revert w. induction p as [x|e|k IH|w' k IH|s k IH]; intros w; simpl; try done; apply IH. Qed.

Lemma safe_done_bind {A B} a (p : prog world A) (f : A -> prog world B) Q o w x w' :
  exec p w = (SDone x, w') -> safe a (f x) Q o w' -> safe a (pbind p f) Q o w.
Proof. intros Hp Hf. apply safe_exec. rewrite exec_bind, Hp. by apply safe_exec. Qed.

Lemma safe_step {A B} a (x : M world A) (f : A -> prog world B) Q o w y w' :
  x w = Ok (y, w') -> safe a (f y) Q o w' -> safe a (pbind (atomic x) f) Q o w.
Proof. intros Hx Hf. eapply safe_done_bind; [|exact Hf]. by rewrite exec_atomic, Hx. Qed.

Lemma safe_last {A} a (x : M world A) Q o w y w' :
  x w = Ok (y, w') -> Q y o w' -> safe a (atomic x) Q o w.
Proof. intros Hx HQ. apply safe_exec. by rewrite exec_atomic, Hx. Qed.

(** ** Giving way *)

Lemma since_refl a w G : since a (w, G) w G.
Proof. split; [by apply heirs_refl|done]. Qed.

Lemma since_insert a o w G w' c c' :
  since a o w G -> w_coros w !! a = Some c -> w_coros w' = <[a := c']> (w_coros w) -> birth c' = birth c ->
  since a o w' G.
Proof.
  intros [Hh HG] Hc E Hn. split; [eapply heirs_trans; [exact Hh|]; by eapply heirs_insert|].
  intros b Hb. rewrite E, lookup_insert_ne by done. by apply HG.
Qed.

Lemma since_same a o w G w' : since a o w G -> w_coros w' = w_coros w -> since a o w' G.
Proof. intros [Hh HG] E. split; [eapply heirs_trans; [exact Hh|]; by apply heirs_refl|]. by rewrite E. Qed.

Lemma since_ghost a o w G G' : since a o w G -> (forall b, b <> a -> local G' b = local G b) -> since a o w G'.
Proof. intros [Hh HG] E. split; [done|]. intros b Hb. rewrite E by done. by apply HG. Qed.

(** [yield] of a coroutine that already has its place. *)
Lemma yield_safe a o w s q G c :
  calm w s q G None -> w_coros w !! a = Some c -> rests w G a -> since a o w G ->
  safe a (yield a) (fun _ => working a (g_fd G !! a) (locks_of G a)) o w.
Proof.
  intros Hcm Hc Hrest Hh. pose proof (cm_sched _ _ _ _ _ _ Hcm) as Hs. pose proof (cm_co _ _ _ _ _ _ Hcm a c Hc) as Hco.
  specialize (Hco ltac:(done)). pose proof (cm_room _ _ _ _ _ _ Hcm) as Hroom.
  destruct (room_facts w s c false Hroom Hco) as [Hst Hown]. pose proof Hco as (Hsc & _ & _ & Hkept & _ & Hex).
  destruct (checkstk_run w s a c Hc Hsc Hs Hst) as [r Hchk]. unfold yield.
  eapply safe_done_bind; [exact Hchk|]. eapply safe_step; [by apply test_co_run|]. rewrite Hex. cbn [negb pwhen].
  destruct Hroom as [Hsz Hlen] eqn:E. clear E. pose proof (stack_depth (w_kern w)) as Hd.
  destruct (savestk_exact a c s w Hc Hown Hsc Hs) as (p & k & Hsv & Hp & Hk);
    [lia|lia|by destruct Hst as [_ Hsh]; apply Hsh|intros used; apply malloc_succeeds|].
  eapply safe_step; [exact Hsv|]. eapply safe_step; [apply clr_flag_run, lookup_insert_eq|].
  set (c' := parked_co p (os_stack_used (w_kern w)) (s_stack s) c).
  set (w' := with_co a c' (set_w_kern k w)). set (w1 := set_w_coros _ _).
  assert (Hw1 : w1 = w') by (unfold w1, w', with_co; simpl; by rewrite insert_insert_eq). rewrite Hw1.
  assert (Hlat : later (w_kern w) k) by (by apply later_malloc).
  assert (Hfl : sleeping_flag c' = sleeping_flag c /\ waiting_flag c' = waiting_flag c /\ birth c' = birth c) by (by flags).
  destruct Hfl as (Hsl & Hwf & Hnw). assert (Hbl : blocked c' = blocked c) by (unfold blocked; congruence).
  cbn [pbind pswitch safe]. split; [done|]. exists s, q, G. split; [by eapply since_insert|]. right. split_and!.
  - eapply (calm_step env w s q G None a c); try done.
    + eapply (sched_ok_co (set_w_kern k w)); [apply sched_ok_kern; [by apply (cm_ok _ _ _ _ _ _ Hcm)|intros fd; apply Hlat]|done| |].
      * by split_and!.
      * intros Hq. destruct (ok_queued _ _ _ (cm_ok _ _ _ _ _ _ Hcm) a Hq) as (c0 & Hc0 & Hr). rewrite Hc in Hc0.
        injection Hc0 as <-. by flags.
    + rewrite Hsl. intros Hsl0.
      destruct (cm_keys _ _ _ _ _ _ Hcm a c Hc Hsl0) as [H1 H2]. split; [|done]. simpl. destruct Hlat as [[Hnow _] _].
      unfold clock in *. simpl. lia.
    + rewrite Hsl. by apply (cm_apart _ _ _ _ _ _ Hcm a c).
    + split; [by apply parked_kept|]. rewrite Hbl.
      destruct (blocked c) eqn:Hb; [by apply (cm_once _ _ _ _ _ _ Hcm a c)|].
      destruct (cm_placed _ _ _ _ _ _ Hcm a c Hc) as [?|?]; [done|done|congruence].
  - destruct Hrest as (Hm & c0 & Hc0 & Hs0). rewrite Hc in Hc0. injection Hc0 as <-. split; [done|]. exists c'.
    split; [apply lookup_insert_eq|by rewrite Hsl].
  - intros w2 s2 q2 G2 Hcm2 Hcur HG2. destruct (running_co _ _ _ _ _ _ _ Hcm2) as (Hq2 & c2 & Hc2 & Hs2 & Hw2 & Hco2).
    eapply safe_last; [by apply set_flag_run|]. exists s2, q2, G2. split_and!; [|done|done|].
    + apply (calm_mark _ w2 s2 q2 G2 a false c2); try done; [watched|by rewrite TESTBIT_SETBIT|by rewrite TESTBIT_SETBIT].
    + eapply (since_insert _ _ w2); [apply since_refl|exact Hc2|done|]. by flags.
Qed.

(** ** Sleeping *)

Lemma rests_ready w w' G a c' :
  g_fd G !! a = None -> w_coros w' = <[a := c']> (w_coros w) -> (sleeping_flag c' = true -> may_sleep) -> rests w' G a.
Proof. intros HG E Hs. split; [by rewrite HG|]. exists c'. by rewrite E, lookup_insert_eq. Qed.

Lemma sleep_safe a l o w msecs :
  0 <= msecs <= 4294967 -> msecs = 0 \/ may_sleep -> fine a l o w ->
  safe a (dyco_coroutine_sleep msecs) (fun _ => fine a l) o w.
Proof.
  intros Hm Hms (s & q & G & Hcm & Hcur & HG & Hh). destruct (running_co _ _ _ _ _ _ _ Hcm) as (Hq & c & Hc & Hsl & Hwf & Hco).
  pose proof (cm_sched _ _ _ _ _ _ Hcm) as Hs.
  assert (Ha : a <> NULL) by (intros ->; by rewrite (ok_null _ _ _ (cm_ok _ _ _ _ _ _ Hcm)) in Hc).
  unfold dyco_coroutine_sleep. eapply (safe_step _ _ _ _ _ _ a w).
  { unfold must_curr. mrun. rewrite Hs, Hcur. by destruct (Z.eqb_spec a NULL). }
  eapply safe_step; [by apply test_co_run|]. assert (Hasym : TESTBIT (co_status c) COROUTINE_FLAGS_ASYMMETRIC = false) by never.
  rewrite Hasym. eapply (safe_step _ _ _ _ _ _ tt w); [done|]. unfold fine. injection HG as HG <-. rewrite <- HG. destruct (Z.eqb_spec msecs 0) as [->|Hne].
  - destruct (ready_rests env w s q G a c Hcm Hc) as (w' & s' & Hmr & Hcm' & Hcos). eapply safe_step; [exact Hmr|].
    eapply yield_safe; [exact Hcm'|rewrite Hcos; apply lookup_insert_eq| |].
    { eapply rests_ready; [done|exact Hcos|]. replace (sleeping_flag (mark_ready c)) with (sleeping_flag c) by (by flags).
      by rewrite Hsl. }
    eapply since_insert; [exact Hh|exact Hc|exact Hcos|]. by flags.
  - rewrite i32_small by (unfold is_i32; lia).
    destruct (sleeper_rests env w s q G a c msecs Hcm Hc ltac:(lia)) as (w' & s' & c' & Hrun & Hcm' & Hcos & Hn).
    eapply safe_step; [exact Hrun|]. eapply yield_safe; [exact Hcm'|rewrite Hcos; apply lookup_insert_eq| |].
    { eapply rests_ready; [done|exact Hcos|]. by destruct Hms. }
    by eapply since_insert.
Qed.

(** ** Semaphores *)

(** Once it runs again, a coroutine has neither a timer nor a wait to give
    up. *)
Lemma wait_over a w s q G fd :
  calm w s q G (Some (a, false)) -> schedule_cancel_sleep a w = Ok (tt, w) /\ schedule_cancel_wait a fd w = Ok (1, w).
Proof.
  intros Hcm. destruct (running_co _ _ _ _ _ _ _ Hcm) as (_ & c & Hc & Hsl & Hwf & _). split.
  - unfold schedule_cancel_sleep. erewrite bind_ok by (by apply test_co_run). by rewrite (Hsl : TESTBIT _ _ = false).
  - unfold schedule_cancel_wait. erewrite bind_ok by (by apply test_co_run). by rewrite (Hwf : TESTBIT _ _ = false).
Qed.

(** From the registration of the eventfd to the return from the switch. *)
Lemma blocked_safe a o w0 w w4 s4 q G c fd sem timeout :
  schedule_sched_wait a fd EVENTS_R w = Ok (tt, w4) -> schedule_sched_sleep a timeout w4 = Ok (tt, w4) ->
  calm w4 s4 q (waits a fd sem G) None -> since a o w0 G -> w_coros w0 !! a = Some c ->
  w_coros w4 = <[a := mark_waiting c]> (w_coros w0) -> may_wait (locks_of G a) (fd, sem) ->
  safe a (suspend a fd EVENTS_R timeout) (fun _ => working a (Some (fd, sem)) (locks_of G a)) o w.
Proof.
  intros Hsw Hss Hcm Hh Hc Hcos Hmay. unfold suspend. eapply safe_step; [exact Hsw|]. eapply safe_step; [exact Hss|].
  assert (Hs4 : since a o w4 (waits a fd sem G)).
  { eapply since_ghost; [eapply since_insert; [exact Hh|exact Hc|exact Hcos|unfold mark_waiting; by flags]|].
    intros b Hb. unfold local, locks_of. simpl. by rewrite lookup_insert_ne. }
  assert (Hc4 : w_coros w4 !! a = Some (mark_waiting c)) by (rewrite Hcos; apply lookup_insert_eq).
  assert (Hr4 : rests w4 (waits a fd sem G) a).
  { split; [simpl; rewrite lookup_insert_eq; by intros p [= <-]|]. exists (mark_waiting c). split; [done|].
    rewrite (cm_apart _ _ _ _ _ _ Hcm a _ Hc4); [done|]. unfold mark_waiting. by flags. }
  eapply safe_bind; [by eapply yield_safe|].
  simpl. rewrite lookup_insert_eq. intros _ o1 w1 Hw1. pose proof Hw1 as (s1 & q1 & G1 & Hcm1 & _).
  destruct (wait_over a w1 s1 q1 G1 fd Hcm1) as [H1 H2].
  eapply safe_step; [exact H1|]. eapply safe_step; [exact H2|]. exact Hw1.
Qed.

(** After it: the eventfd is read and closed, and what is read is 1. *)
Lemma woken_safe a l o w fd sem :
  working a (Some (fd, sem)) l o w -> (lock sem -> sem ∉ l_held l) -> is_Some (cl_sems env !! sem) ->
  safe a (let! r := atomic (sys (os_eventfd_read fd)) in
          let! _ := atomic (sys (os_close fd)) in
          PRet (match r with Some count => if count =? 1 then 0 else -1 | None => -1 end))
    (fun r o w => r = 0 /\ fine a (got env sem l) o w) o w.
Proof.
  intros (s & q & G & Hcm & Hcur & [= HGa <-] & Hh) Hlock Hin.
  destruct (close_calm _ w s q G a fd sem Hcm HGa Hlock Hin) as (k1 & Hr & Hcl).
  destruct (os_close fd k1) as [r2 k2] eqn:Hc. cbn [snd] in Hcl.
  eapply (safe_step _ _ _ _ _ _ (Some 1) (set_w_kern k1 w)); [unfold sys; by rewrite Hr|].
  eapply (safe_step _ _ _ _ _ _ r2 (set_w_kern k2 (set_w_kern k1 w))); [unfold sys; simpl; by rewrite Hc|].
  split; [done|]. exists s, q, (closed env a sem G). split_and!; [exact Hcl|done| |].
  - unfold closed. rewrite local_set_locks. simpl. by rewrite lookup_delete_eq.
  - eapply since_ghost; [by eapply since_same|].
    intros b Hb. unfold closed. rewrite local_set_locks_ne by done. unfold local, locks_of. simpl. by rewrite lookup_delete_ne.
Qed.

(** The state of a coroutine that has taken a step of its own. *)
Lemma fine_after a l o w G w' s' q' l' :
  calm w' s' q' (set_locks a l' G) (Some (a, false)) -> s_curr_thread s' = a -> local G a = (None, l) -> since a o w G ->
  w_coros w' = w_coros w -> fine a l' o w'.
Proof.
  intros Hcm Hcur [= HGa _] Hh Hcos. exists s', q', (set_locks a l' G). split_and!; [done|done|by rewrite local_set_locks, HGa|].
  eapply since_ghost; [by eapply since_same|]. intros b Hb. by apply local_set_locks_ne.
Qed.

Lemma wait_unit w s q G a sem x :
  calm w s q G (Some (a, false)) -> w_sems w !! sem = Some x -> 0 < sem_semval x -> (lock sem -> sem ∉ l_held (locks_of G a)) ->
  calm (set_w_sems (<[sem := set_sem_semval (sem_semval x - 1) x]> (w_sems w)) w) s q (set_locks a (got env sem (locks_of G a)) G)
    (Some (a, false)).
Proof.
  intros Hcm Hx Hpos Hlock. pose proof (locks_of_held _ w G a (cm_permits _ _ _ _ _ _ Hcm)) as Hsub.
  apply calm_semval; [done|done|apply got_in|by apply got_held|apply got_ends| |].
  - intros sem2 cap H2 Hne. rewrite (holds_got _ sem sem2 cap) by done. by rewrite bool_decide_false.
  - intros Hl. pose proof Hl as [cap Hcap]. rewrite (holds_got _ sem sem cap), bool_decide_true by done.
    unfold holds. rewrite bool_decide_false by (by apply Hlock). simpl. lia.
Qed.

Lemma sem_wait_safe a l o w sem timeout :
  sem = NULL \/ is_Some (cl_sems env !! sem) -> (lock sem -> sem ∉ l_held l) -> timeout <= 0 ->
  (forall fd, may_wait l (fd, sem)) -> fine a l o w ->
  safe a (dyco_semaphore_wait sem timeout) (fun r o w =>
    (r = 0 /\ sem <> NULL /\ fine a (got env sem l) o w) \/ (r = -1 /\ (sem = NULL \/ timeout = 0) /\ fine a l o w)) o w.
Proof.
  intros Hsem Hlock Ht Hmay Hw. pose proof Hw as (s & q & G & Hcm & Hcur & HGa & Hh). unfold dyco_semaphore_wait.
  destruct (Z.eqb_spec sem NULL) as [->|Hnn]; [right; by auto|]. destruct Hsem as [?|Hin]; [done|].
  destruct (ow_sems _ _ _ _ (cm_owners _ _ _ _ _ _ Hcm) sem Hin) as [x Hx]. injection HGa as HGfd Hl.
  rewrite <- Hl in Hlock. assert (HGa : local G a = (None, l)) by (unfold local; by rewrite HGfd, Hl).
  eapply safe_step; [by apply getsem_run|]. destruct (Z.ltb_spec 0 (sem_semval x)) as [Hpos|_].
  { eapply safe_step; [by apply upd_sem_run|]. left. split_and!; [done|done|]. rewrite <- Hl.
    by eapply fine_after; [apply wait_unit|..]. }
  destruct (Z.eqb_spec timeout 0) as [->|Hne]; [right; by auto|].
  destruct (running_co _ _ _ _ _ _ _ Hcm) as (_ & c & Hc & _). pose proof (cm_sched _ _ _ _ _ _ Hcm) as Hs.
  assert (Ha : a <> NULL) by (intros ->; by rewrite (ok_null _ _ _ (cm_ok _ _ _ _ _ _ Hcm)) in Hc).
  eapply (safe_step _ _ _ _ _ _ (Some a) w).
  { unfold opt_curr, get_sched, gets, bind. rewrite Hs, Hcur. by destruct (Z.eqb_spec a NULL). }
  destruct (os_eventfd (w_kern w)) as [fd k1] eqn:Hev. pose proof (eventfd_succeeds (w_kern w)) as [H1 _]. rewrite Hev in H1.
  eapply (safe_step _ _ _ _ _ _ fd (set_w_kern k1 w)); [unfold sys; by rewrite Hev|].
  eapply (safe_step _ _ _ _ _ _ tt (set_w_kern k1 w)).
  { unfold DYCO_MUSTNOT. by destruct (Z.eqb_spec fd (-1)). }
  pose proof (alloc_succeeds k1) as Hmem. unfold memory_ok in Hmem. destruct (os_alloc_ok k1) as [ok k2] eqn:Hal.
  eapply (safe_step _ _ _ _ _ _ ok (set_w_kern k2 (set_w_kern k1 w))); [unfold sys; simpl; by rewrite Hal|].
  cbn [fst] in Hmem. rewrite Hmem. cbn [negb].
  eapply safe_step; [by apply upd_sem_run|].
  destruct (block_calm _ w s q G a c sem x fd k1 timeout Hcm Hc HGfd Hx Hev Ht) as (w4 & s4 & Hsw & Hss & Hcm4 & Hcos).
  rewrite Hal in Hsw. eapply safe_bind; [apply (blocked_safe a o w _ w4 s4 q G c fd sem); try done; by rewrite Hl|].
  intros [] o1 w1 Hw1. eapply safe_weaken; [apply woken_safe; [exact Hw1|done|done]|].
  rewrite Hl. intros r o2 w2 [-> Hf]. by left.
Qed.

Lemma sem_signal_safe a l o w sem :
  sem = NULL \/ is_Some (cl_sems env !! sem) -> (lock sem -> sem ∈ l_held l /\ sem ∉ l_in l) -> fine a l o w ->
  safe a (atomic (dyco_semaphore_signal sem)) (fun r o w =>
    (r = 0 /\ fine a (given env sem l) o w) \/ (r = -1 /\ (sem = NULL \/ ~ lock sem) /\ fine a l o w)) o w.
Proof.
  intros Hsem Hlock Hw. pose proof Hw as (s & q & G & Hcm & Hcur & HGa & Hh).
  unfold dyco_semaphore_signal. destruct (Z.eqb_spec sem NULL) as [->|Hnn]; [eapply safe_last; [done|right; by auto]|].
  destruct Hsem as [?|Hin]; [done|]. destruct (ow_sems _ _ _ _ (cm_owners _ _ _ _ _ _ Hcm) sem Hin) as [x Hx].
  pose proof HGa as [= HGfd Hl]. pose proof (cm_permits _ _ _ _ _ _ Hcm) as Hp.
  assert (Hunit : lock sem -> sem_semval x < DYCO_SEM_VALUE_MAX).
  { intros Hlk. destruct (Hlock Hlk) as [Hheld _]. destruct Hlk as [cap Hcap].
    destruct (pm_units _ _ _ Hp sem cap Hcap) as (H1 & x1 & Hx1 & Hr & Hsum). rewrite Hx in Hx1. injection Hx1 as <-.
    pose proof (tally_nonneg (woken (w_kern w) sem) (g_fd G)). unfold locks_of in Hl. destruct (g_locks G !! a) as [l1|] eqn:E.
    - simpl in Hl. subst l1. rewrite (tally_lookup (holds sem) _ a l E) in Hsum.
      pose proof (tally_nonneg (holds sem) (delete a (g_locks G))). unfold holds at 2 in Hsum.
      rewrite bool_decide_true in Hsum by done. simpl in Hsum. lia.
    - simpl in Hl. subst l. by apply elem_of_empty in Hheld. }
  assert (Hget := getsem_run sem x w Hx). destruct (Z.eqb_spec (sem_semval x) DYCO_SEM_VALUE_MAX) as [Hmax|Hmax].
  { eapply (safe_last _ _ _ _ _ (-1) w).
    - rewrite (bind_ok _ _ _ _ _ Hget), Hmax. reflexivity.
    - right. split_and!; [done| |done]. right. intros Hlk. specialize (Hunit Hlk). lia. }
  apply Z.eqb_neq in Hmax. destruct (sem_wqueue x) as [|fd wl] eqn:Hwq.
  { eapply safe_last.
    - rewrite (bind_ok _ _ _ _ _ Hget), Hmax, Hwq. erewrite bind_ok by (by apply upd_sem_run). reflexivity.
    - left. split; [done|]. eapply fine_after; [|done..|done]. rewrite <- Hl in *. pose proof (locks_of_held _ w G a Hp) as Hsub.
      apply calm_semval; [done|done|apply given_in| |apply given_ends| |].
      + destruct (cl_sems env !! sem) as [[cap|]|] eqn:E; [apply given_held; [done|apply Hlock; by eexists]|..]; unfold given; by rewrite E.
      + intros sem2 cap H2 Hne. rewrite (holds_given _ sem sem2 cap) by done. by rewrite bool_decide_false.
      + intros Hlk. pose proof (Hlock Hlk) as [Hheld _]. destruct Hlk as [cap Hcap].
        destruct (pm_units _ _ _ Hp sem cap Hcap) as (_ & x1 & Hx1 & Hr & _). rewrite Hx in Hx1. injection Hx1 as <-.
        rewrite (holds_given _ sem sem cap), bool_decide_true by done. unfold holds. rewrite bool_decide_true by done. simpl. lia. }
  destruct (running_co _ _ _ _ _ _ _ Hcm) as (_ & c & Hc & _). pose proof (cm_sched _ _ _ _ _ _ Hcm) as Hs.
  assert (Ha : a <> NULL) by (intros ->; by rewrite (ok_null _ _ _ (cm_ok _ _ _ _ _ _ Hcm)) in Hc).
  destruct (signal_calm _ w s q G _ a sem x fd wl Hcm Hx Hwq) as (k & Hk & Hcm'); [by rewrite Hl|done|].
  eapply safe_last.
  - rewrite (bind_ok _ _ _ _ _ Hget), Hmax, Hwq. rewrite (bind_ok _ _ _ (Some a) w).
    2: { unfold opt_curr, get_sched, gets, bind. rewrite Hs, Hcur. by destruct (Z.eqb_spec a NULL). }
    erewrite bind_ok by (by apply upd_sem_run). unfold sem_notify, sys, bind. simpl. rewrite Hk. reflexivity.
  - left. split; [done|]. rewrite Hl in Hcm'. by eapply fine_after.
Qed.

(** ** Counting *)

Lemma count_safe a l o w d sem f l' :
  counts d sem f -> l_held l' = l_held l -> l_in l' ⊆ l_held l' -> l_ends l' = l_ends l ->
  (forall sem2, Z.b2z (enters sem2 l') = Z.b2z (enters sem2 l) + if decide (sem2 = sem) then d else 0) -> fine a l o w ->
  safe a (atomic (sys f)) (fun n o w => fine a l' o w /\ forall cap, cl_sems env !! sem = Some (Some cap) -> n <= cap) o w.
Proof.
  intros Hf Hh Hsub Hends Hen (s & q & G & Hcm & Hcur & HGa & Hs). destruct (Hf (w_kern w)) as (H1 & H2 & H3 & H4 & H5).
  destruct (f (w_kern w)) as [n k] eqn:E. cbn [fst snd] in *. pose proof HGa as [= HGfd Hl]. rewrite <- Hl in Hh, Hends, Hen.
  pose proof (calm_count _ w s q G _ a sem l' k d Hcm H1 H2 H3 H4 Hh Hsub Hends Hen) as Hcm'.
  eapply safe_last; [unfold sys; by rewrite E|]. split; [by eapply fine_after|].
  intros cap Hcap. rewrite H5. exact (inside_bound _ _ _ sem cap (cm_permits _ _ _ _ _ _ Hcm') Hcap).
Qed.

Lemma fine_held a l o w : fine a l o w -> l_in l ⊆ l_held l.
Proof. intros (s & q & G & Hcm & _ & [= _ <-] & _). apply (locks_of_held env w), Hcm. Qed.

End safe.
