(* ===== verification/ChanSafe.v ===== *)
(** * Channels in programs that never fail

    [dyco_channel_send] and [dyco_channel_recv] in the logic of [Safe]: the
    owner of an end of a channel puts in the next message, or takes it out, and
    neither loses its place nor its message when it has to wait. *)
From S2P Require Import Prelude Htable Queue SleepTree World SimOS Schedule SchedInv Prog Coroutine Semaphore Channel.
From S2P Require Import Run RoundRobin Calm CalmSteps ChanSteps Safe.

Local Open Scope Z_scope.
Local Open Scope dyco_scope.

Section chan_safe.
Context {os : OS} {osl : OSLaws os} {ins : Inside os} {cl : CalmLaws os} {T : Type} {st : SleepTree T} {stl : SleepTreeLaws T}.
Local Abbreviation world := (@world os T).
Local Abbreviation dyco_schedule := (@dyco_schedule T).
Implicit Types (w : world) (s : dyco_schedule) (c : dyco_coroutine) (a ch : addr) (q : list Z * list Z) (G : ghost)
  (sm : stream) (x : half_duplex_channel) (b : bool) (md mr mw : mode) (l : locks).
Context (env : client).
Local Abbreviation calm := (calm env).
Local Abbreviation safe := (safe env).
Local Abbreviation fine := (fine env).

(** The state of a coroutine, taken apart, with the channel of its end. *)
Lemma fine_view a l o w ch sm b n :
  fine a l o w -> cl_chans env !! ch = Some sm -> l_ends l !! (ch, b) = Some n ->
  exists s q G x i j mr mw, calm w s q G (Some (a, false)) /\ s_curr_thread s = a /\ g_fd G !! a = None /\ locks_of G a = l /\
    since a o w G /\ chan_view w G ch sm x i j mr mw /\ (if b then i = n /\ mw = Idle else j = n /\ mr = Idle).
Proof.
  intros (s & q & G & Hcm & Hcur & [= HG Hl] & Hs) Hc Hn. pose proof (cm_chans _ _ _ _ _ _ Hcm) as Hch.
  destruct (ck_chan _ _ _ Hch ch sm Hc) as (x & i & j & mr & mw & Hv). pose proof Hv as (_ & _ & Hr & Hw & _ & Ho1 & Ho2).
  assert (Ho : owns G a (ch, b) n) by (unfold owns; by rewrite Hl).
  exists s, q, G, x, i, j, mr, mw. split_and!; try done.
  destruct b; split; [by rewrite (Ho1 a n Ho)|by eapply end_idle|by rewrite (Ho2 a n Ho)|by eapply end_idle].
Qed.

(** The state afterwards. *)
Lemma fine_moved a l o w G w' s q e n :
  calm w' s q (moved a e n G) (Some (a, false)) -> s_curr_thread s = a -> g_fd G !! a = None -> locks_of G a = l ->
  since a o w G -> w_coros w' = w_coros w -> fine a (with_end e n l) o w'.
Proof. intros Hcm Hcur HG <- Hs Hcos. eapply fine_after; [exact Hcm|done|unfold local; by rewrite HG|exact Hs|done]. Qed.

(** ** A message goes in or out *)

Lemma notified_other w G ch sm b k md :
  streams_ok env -> cl_chans env !! ch = Some sm -> notified w G ch (st_desc sm (negb b)) k ->
  at_end (w_kern w) G ch b (st_desc sm b) md -> at_end k G ch b (st_desc sm b) md.
Proof.
  intros Hst Hc (_ & _ & Hcnt & _) Hmd. eapply at_end_step; [exact Hmd|apply Hcnt|done|done].
  intros E. destruct (sk_fds _ Hst _ _ _ _ _ _ Hc Hc E) as [_ Hb]. by destruct b.
Qed.

Lemma transfer_fine a l o w s q G ch sm b n k x x' i j mr mw md :
  calm w s q G (Some (a, false)) -> s_curr_thread s = a -> g_fd G !! a = None -> locks_of G a = l -> since a o w G ->
  chan_view w G ch sm x i j mr mw -> cl_chans env !! ch = Some sm -> l_ends l !! (ch, b) = Some n ->
  at_end (w_kern w) G ch b (st_desc sm b) Idle -> notified w G ch (st_desc sm (negb b)) k ->
  at_end k G ch (negb b) (st_desc sm (negb b)) md -> wired x' sm ->
  (if b then stage x' sm (S n) j md Idle else stage x' sm i (S n) Idle md) ->
  fine a (with_end (ch, b) (S n) l) o (with_chan ch x' (set_w_kern k w)).
Proof.
  intros Hcm Hcur HG Hl Hs (_ & _ & _ & _ & _ & Ho1 & Ho2) Hc Hn Hid Hk Hmd Hx' Hst.
  pose proof (cm_chans _ _ _ _ _ _ Hcm) as Hch. assert (Ho : owns G a (ch, b) n) by (unfold owns; by rewrite Hl).
  pose proof (notified_other w G ch sm b k Idle (ck_streams _ _ _ Hch) Hc Hk Hid) as Hid'.
  eapply fine_moved; [|done..].
  eapply (transfer_calm env w s q G (Some (a, false)) a ch sm x' b n k
    (if b then S n else i) (if b then j else S n) (if b then md else Idle) (if b then Idle else md)); try done.
  pose proof (at_end_moved k a (ch, b) (S n) n G ch) as Hm. pose proof (moved_owned env w a (ch, b) (S n) n G Hch Ho) as Hown.
  destruct b; simpl in *; split_and!; try done; try (by apply lookup_insert_eq); try (by apply Hm);
    by apply moved_owned_other.
Qed.

(** ** Waiting *)

Lemma hdc_wait_safe a l o w s q G ch sm b n x x' i j mr mw timeout :
  calm w s q G (Some (a, false)) -> s_curr_thread s = a -> g_fd G !! a = None -> locks_of G a = l -> since a o w G ->
  chan_view w G ch sm x i j mr mw -> cl_chans env !! ch = Some sm -> l_ends l !! (ch, b) = Some n ->
  at_end (w_kern w) G ch b (st_desc sm b) Idle -> wired x' sm ->
  stage x' sm i j (if b then mr else Parked) (if b then Parked else mw) -> timeout < 0 ->
  may_wait env l (st_desc sm b, ch) ->
  safe a (hdc_wait ch (st_desc sm b) timeout) (fun _ o w => fine a l o w /\ forall y, w_chans w !! ch = Some y ->
    if b then ch_status y = HDC_STATUS_EMPTY \/ ch_status y = HDC_STATUS_WANTREAD
    else ch_status y = HDC_STATUS_FULL \/ ch_status y = HDC_STATUS_WANTWRITE) o (with_chan ch x' w).
Proof.
  intros Hcm Hcur HG Hl Hs (_ & _ & Hr & Hw & _ & Ho1 & Ho2) Hc Hn Hid Hx' Hst Ht Hmay.
  destruct (running_co _ _ _ _ _ _ _ Hcm) as (_ & c & Hco & _ & _ & Hcc). pose proof (cm_sched _ _ _ _ _ _ Hcm) as Hsc.
  assert (Ha : a <> NULL) by (intros ->; by rewrite (ok_null _ _ _ (cm_ok _ _ _ _ _ _ Hcm)) in Hco).
  assert (Ho : owns G a (ch, b) n) by (unfold owns; by rewrite Hl).
  unfold hdc_wait. destruct (Z.eqb_spec timeout 0); [lia|]. eapply (safe_step _ _ _ _ _ _ _ (Some a)).
  { unfold opt_curr, get_sched, gets, bind. simpl. rewrite Hsc, Hcur. by destruct (Z.eqb_spec a NULL). }
  eapply safe_step; [by apply test_co_run|]. assert (Hasym : TESTBIT (co_status c) COROUTINE_FLAGS_ASYMMETRIC = false) by never.
  rewrite Hasym. eapply safe_step; [done|].
  destruct (block_end_calm env w s q G a c ch sm x' b n i j (if b then mr else Parked) (if b then Parked else mw) timeout)
    as (w4 & s4 & Hsw & Hss & Hcm4 & Hcos4); try done; [lia| |].
  { intros k G' Hp Hother Hown. destruct b; simpl in *; split_and!; try done; try (by apply lookup_insert_eq);
      try (by apply Hother); by apply Hown. }
  eapply safe_bind; [by apply (blocked_safe env a o w _ w4 s4 q G c (st_desc sm b) ch); [..|rewrite Hl]|].
  intros [] o1 w1 (s1 & q1 & G1 & Hcm1 & Hcur1 & HG1 & Hs1). injection HG1 as HG1 Hl1.
  destruct (read_end_calm env w1 s1 q1 G1 a ch sm b n Hcm1 Hc HG1) as (v & k & Hk & Hcm2 & y & i2 & j2 & mr2 & mw2 & Hv2 & Hst2).
  { unfold owns. by rewrite Hl1, Hl. }
  eapply safe_step; [unfold sys; by rewrite Hk|]. split.
  - exists s1, q1, (unwaits a G1). split_and!; [done|done| |].
    + unfold local, unwaits, locks_of in *. simpl. rewrite lookup_delete_eq. by rewrite Hl1, Hl.
    + eapply since_ghost; [by eapply since_same|]. intros p Hp. unfold local, unwaits, locks_of. simpl. by rewrite lookup_delete_ne.
  - intros z Hz. destruct Hv2 as [Hy _]. rewrite Hy in Hz. by injection Hz as <-.
Qed.

(** ** Sending *)

Lemma put_run a l o w ch sm n x :
  fine a l o w -> cl_chans env !! ch = Some sm -> l_ends l !! (ch, true) = Some n ->
  Z.of_nat (length (st_msg sm n)) <= st_size sm -> w_chans w !! ch = Some x ->
  exists w1, hdc_store ch (st_msg sm n) (Z.of_nat (length (st_msg sm n))) w = Ok (tt, w1) /\
    (ch_status x = HDC_STATUS_EMPTY -> fine a (with_end (ch, true) (S n) l) o w1) /\
    (ch_status x = HDC_STATUS_WANTREAD -> exists w2, hdc_notify ch (ch_r_notifyfd x) w1 = Ok (tt, w2) /\
      fine a (with_end (ch, true) (S n) l) o w2).
Proof.
  intros Hf Hc Hn Hlen Hx. destruct (fine_view a l o w ch sm true n Hf Hc Hn) as
    (s & q & G & x2 & i & j & mr & mw & Hcm & Hcur & HG & Hl & Hs & Hv & -> & ->).
  pose proof Hv as (Hx2 & Hwx & Hr & Hw & Hst & _). rewrite Hx in Hx2. injection Hx2 as <-.
  pose proof (cm_chans _ _ _ _ _ _ Hcm) as Hch. pose proof (ck_streams _ _ _ Hch) as Hss.
  exists (with_chan ch (filled (st_msg sm n) x) w). split; [by apply hdc_store_run|]. split.
  - intros E. unfold stage in Hst. rewrite E in Hst. destruct Hst as (-> & -> & _).
    replace (with_chan ch (filled (st_msg sm j) x) w) with (with_chan ch (filled (st_msg sm j) x) (set_w_kern (w_kern w) w)) by (by destruct w).
    apply (transfer_fine a l o w s q G ch sm true j (w_kern w) x _ j j Idle Idle Idle); try done. apply not_notified.
  - intros E. unfold stage in Hst. rewrite E in Hst. destruct Hst as (-> & -> & _). destruct Hwx as (Hrf & Hwf & Hsz).
    destruct (notified_write env w s G ch sm false (hdc_code HDC_STATUS_FULL) Hch Hc Hr) as (k & Hk & Hnot & Hwo); [done|].
    exists (with_chan ch (filled (st_msg sm j) x) (set_w_kern k w)). split.
    + unfold hdc_notify. erewrite bind_ok by (apply getchan_run, lookup_insert_eq). rewrite Hrf.
      change (ch_status (filled (st_msg sm j) x)) with HDC_STATUS_FULL. change (st_r sm) with (st_desc sm false).
      unfold sys, bind. simpl. simpl in Hk. by rewrite Hk.
    + by apply (transfer_fine a l o w s q G ch sm true j k x _ j j Parked Idle Woken).
Qed.

Lemma with_chan_twice ch x y w : with_chan ch x (with_chan ch y w) = with_chan ch x w.
Proof. unfold with_chan. simpl. by rewrite insert_insert_eq. Qed.

Lemma with_chan_id ch x w : w_chans w !! ch = Some x -> with_chan ch x w = w.
Proof. intros H. unfold with_chan. rewrite insert_id by done. by destruct w. Qed.

Lemma send_safe a l o w ch sm n timeout :
  fine a l o w -> cl_chans env !! ch = Some sm -> l_ends l !! (ch, true) = Some n ->
  0 < Z.of_nat (length (st_msg sm n)) <= st_size sm -> timeout <= 0 -> may_wait env l (st_w sm, ch) ->
  safe a (dyco_channel_send ch (st_msg sm n) (Z.of_nat (length (st_msg sm n))) timeout) (fun r o w =>
    (r = Z.of_nat (length (st_msg sm n)) /\ fine a (with_end (ch, true) (S n) l) o w) \/
    (r = 0 /\ timeout = 0 /\ fine a l o w)) o w.
Proof.
  intros Hf Hc Hn Hlen Ht Hmay. set (buf := st_msg sm n) in *. set (size := Z.of_nat (length buf)) in *.
  destruct (fine_view a l o w ch sm true n Hf Hc Hn) as
    (s & q & G & x & i & j & mr & mw & Hcm & Hcur & HG & Hl & Hs & Hv & -> & ->).
  pose proof Hv as (Hx & Hwx & Hr & Hw & Hst & _). pose proof Hwx as (Hrf & Hwf & Hsz).
  pose proof (cm_chans _ _ _ _ _ _ Hcm) as Hch. pose proof (ck_streams _ _ _ Hch) as Hss.
  destruct (sk_apart _ Hss ch) as [Hnn _]; [by eexists|]. pose proof (sk_size _ Hss ch sm Hc) as Hmax.
  assert (Hi : i32 size = size) by (apply i32_small; unfold is_i32; lia).
  unfold dyco_channel_send. destruct (Z.eqb_spec ch NULL); [done|]. eapply safe_step; [by apply getchan_run|].
  rewrite Hsz. destruct (Z.ltb_spec (st_size sm) size); [lia|]. destruct (Z.eqb_spec size 0); [lia|]. cbn [orb].
  destruct (put_run a l o w ch sm n x Hf Hc Hn) as (w1 & H1 & Hput & Hnot); [apply Hlen|done|].
  unfold stage in Hst. destruct (ch_status x) eqn:E; try done.
  - eapply safe_step; [exact H1|]. left. split; [done|]. by apply Hput.
  - destruct Hst as (-> & Hcar & Hmr & _). set (x1 := set_ch_status HDC_STATUS_WANTWRITE x).
    eapply safe_step; [by apply upd_chan_run|]. fold x1. destruct (decide (timeout = 0)) as [->|Hneg].
    { unfold hdc_wait. cbn [Z.eqb pbind]. eapply safe_step; [apply getchan_run, lookup_insert_eq|]. cbn [ch_status x1 set_ch_status].
      eapply safe_step; [apply upd_chan_run, lookup_insert_eq|]. right. split_and!; [done|done|].
      replace (set_ch_status HDC_STATUS_FULL x1) with x by (unfold x1; destruct x; simpl in *; by rewrite E).
      by rewrite with_chan_twice, with_chan_id. }
    rewrite Hwf. eapply safe_bind.
    { eapply (hdc_wait_safe a l o w s q G ch sm true (S j) x x1 (S j) j mr Idle timeout); try done. lia. }
    intros [] o2 w2 [Hf2 Hst2]. clear w1 H1 Hput Hnot.
    destruct (fine_view a l o2 w2 ch sm true (S j) Hf2 Hc Hn) as (s2 & q2 & G2 & y & i2 & j2 & mr2 & mw2 & Hrest).
    destruct Hrest as (_ & _ & _ & _ & _ & (Hy & Hwy & _) & _). specialize (Hst2 y Hy). pose proof Hwy as (Hry & _ & _).
    destruct (put_run a l o2 w2 ch sm (S j) y Hf2 Hc Hn) as (w3 & H3 & Hput & Hnot); [apply Hlen|done|].
    eapply safe_step; [by apply getchan_run|]. destruct Hst2 as [E2|E2]; rewrite E2.
    + eapply safe_step; [exact H3|]. left. split; [done|]. by apply Hput.
    + destruct (Hnot E2) as (w4 & H4 & Hf4). eapply safe_step; [exact H3|]. eapply safe_step; [exact H4|]. by left.
  - destruct (Hnot eq_refl) as (w2 & H2 & Hf2). eapply safe_step; [exact H1|]. eapply safe_step; [exact H2|]. by left.
  - destruct Hst as (_ & _ & _ & ?). done.
Qed.

(** ** Receiving *)

Lemma take_run a l o w ch sm n x :
  fine a l o w -> cl_chans env !! ch = Some sm -> l_ends l !! (ch, false) = Some n -> w_chans w !! ch = Some x ->
  (ch_status x = HDC_STATUS_FULL \/ ch_status x = HDC_STATUS_WANTWRITE) ->
  exists w1, hdc_fetch ch w = Ok ((Z.of_nat (length (st_msg sm n)), st_msg sm n), w1) /\
    (ch_status x = HDC_STATUS_FULL -> fine a (with_end (ch, false) (S n) l) o w1) /\
    (ch_status x = HDC_STATUS_WANTWRITE -> exists w2, hdc_notify ch (ch_w_notifyfd x) w1 = Ok (tt, w2) /\
      fine a (with_end (ch, false) (S n) l) o w2).
Proof.
  intros Hf Hc Hn Hx Hfull. destruct (fine_view a l o w ch sm false n Hf Hc Hn) as
    (s & q & G & x2 & i & j & mr & mw & Hcm & Hcur & HG & Hl & Hs & Hv & -> & ->).
  pose proof Hv as (Hx2 & Hwx & Hr & Hw & Hst & _). rewrite Hx in Hx2. injection Hx2 as <-.
  pose proof (cm_chans _ _ _ _ _ _ Hcm) as Hch. pose proof (ck_streams _ _ _ Hch) as Hss. pose proof (sk_size _ Hss ch sm Hc) as Hmax.
  assert (Hcar : carries x sm n) by (unfold stage in Hst; by destruct Hfull as [E|E]; rewrite E in Hst; destruct Hst as (_ & ? & _)).
  destruct Hcar as (Hm & Hml & Hle). set (x1 := set_ch_status HDC_STATUS_EMPTY x).
  exists (with_chan ch x1 w). split.
  { rewrite (hdc_fetch_run ch x w Hx), Hm, Hml. rewrite i32_small by (unfold is_i32; lia). by rewrite Nat2Z.id, firstn_all. }
  split.
  - intros E. unfold stage in Hst. rewrite E in Hst. destruct Hst as (-> & _ & _ & ->).
    replace (with_chan ch x1 w) with (with_chan ch x1 (set_w_kern (w_kern w) w)) by (by destruct w).
    apply (transfer_fine a l o w s q G ch sm false n (w_kern w) x _ (S n) n Idle Idle Idle); try done. apply not_notified.
  - intros E. unfold stage in Hst. rewrite E in Hst. destruct Hst as (-> & _ & _ & ->). destruct Hwx as (Hrf & Hwf & Hsz).
    destruct (notified_write env w s G ch sm true (hdc_code HDC_STATUS_EMPTY) Hch Hc Hw) as (k & Hk & Hnot & Hwo); [done|].
    exists (with_chan ch x1 (set_w_kern k w)). split.
    + unfold hdc_notify. erewrite bind_ok by (apply getchan_run, lookup_insert_eq). rewrite Hwf.
      change (ch_status x1) with HDC_STATUS_EMPTY. change (st_w sm) with (st_desc sm true).
      unfold sys, bind. simpl. simpl in Hk. by rewrite Hk.
    + by apply (transfer_fine a l o w s q G ch sm false n k x _ (S n) n Idle Parked Woken).
Qed.

Lemma recv_safe a l o w ch sm n maxsize timeout :
  fine a l o w -> cl_chans env !! ch = Some sm -> l_ends l !! (ch, false) = Some n -> st_size sm <= maxsize -> timeout <= 0 ->
  may_wait env l (st_r sm, ch) ->
  safe a (dyco_channel_recv ch maxsize timeout) (fun r o w =>
    (r = (Z.of_nat (length (st_msg sm n)), st_msg sm n) /\ fine a (with_end (ch, false) (S n) l) o w) \/
    (r = (0, []) /\ timeout = 0 /\ fine a l o w)) o w.
Proof.
  intros Hf Hc Hn Hmax Ht Hmay. destruct (fine_view a l o w ch sm false n Hf Hc Hn) as
    (s & q & G & x & i & j & mr & mw & Hcm & Hcur & HG & Hl & Hs & Hv & -> & ->).
  pose proof Hv as (Hx & Hwx & Hr & Hw & Hst & _). pose proof Hwx as (Hrf & Hwf & Hsz).
  pose proof (cm_chans _ _ _ _ _ _ Hcm) as Hch. pose proof (ck_streams _ _ _ Hch) as Hss.
  destruct (sk_apart _ Hss ch) as [Hnn _]; [by eexists|].
  unfold dyco_channel_recv. destruct (Z.eqb_spec ch NULL); [done|]. eapply safe_step; [by apply getchan_run|].
  rewrite Hsz. destruct (Z.ltb_spec maxsize (st_size sm)); [lia|].
  pose proof (take_run a l o w ch sm n x Hf Hc Hn Hx) as Htake.
  unfold stage in Hst. destruct (ch_status x) eqn:E; try done.
  - destruct Hst as (-> & _ & Hmw). set (x1 := set_ch_status HDC_STATUS_WANTREAD x). clear Htake.
    eapply safe_step; [by apply upd_chan_run|]. fold x1. destruct (decide (timeout = 0)) as [->|Hneg].
    { unfold hdc_wait. cbn [Z.eqb pbind]. eapply safe_step; [apply getchan_run, lookup_insert_eq|]. cbn [ch_status x1 set_ch_status].
      eapply safe_step; [apply upd_chan_run, lookup_insert_eq|]. right. split_and!; [done|done|].
      replace (set_ch_status HDC_STATUS_EMPTY x1) with x by (unfold x1; destruct x; simpl in *; by rewrite E).
      by rewrite with_chan_twice, with_chan_id. }
    rewrite Hrf. eapply safe_bind.
    { by eapply (hdc_wait_safe a l o w s q G ch sm false n x x1 n n Idle mw timeout); try done; lia. }
    intros [] o2 w2 [Hf2 Hst2].
    destruct (fine_view a l o2 w2 ch sm false n Hf2 Hc Hn) as (s2 & q2 & G2 & y & i2 & j2 & mr2 & mw2 & Hrest).
    destruct Hrest as (_ & _ & _ & _ & _ & (Hy & _) & _). specialize (Hst2 y Hy).
    destruct (take_run a l o2 w2 ch sm n y Hf2 Hc Hn Hy Hst2) as (w3 & H3 & Hput & Hnot).
    eapply safe_step; [by apply getchan_run|]. destruct Hst2 as [E2|E2]; rewrite E2.
    + eapply safe_last; [exact H3|]. left. split; [done|]. by apply Hput.
    + destruct (Hnot E2) as (w4 & H4 & Hf4). eapply safe_step; [exact H3|]. eapply safe_step; [exact H4|]. by left.
  - destruct (Htake ltac:(by left)) as (w1 & H1 & Hput & _). eapply safe_last; [exact H1|]. left. split; [done|]. by apply Hput.
  - destruct Hst as (_ & ? & _). done.
  - destruct (Htake ltac:(by right)) as (w1 & H1 & _ & Hnot). destruct (Hnot eq_refl) as (w2 & H2 & Hf2).
    eapply safe_step; [exact H1|]. eapply safe_step; [exact H2|]. by left.
Qed.

End chan_safe.
