(* ===== verification/Rules.v ===== *)
(** * The programs of well-behaved coroutines

    [calm_prog] are the rules by which programs are put together of calls that
    compute, sleep, wait on and signal semaphores, and send and receive over
    channels, with what a coroutine owns before and after.  Such programs are
    [safe], and so is the whole life of a coroutine that consists of them. *)
From S2P Require Import Prelude Htable Queue SleepTree World SimOS Schedule SchedInv Prog Coroutine Semaphore Channel.
From S2P Require Import Asymcoro Coropool Schedcall Run RoundRobin Calm CalmSteps ChanSteps Safe ChanSafe.

Local Open Scope Z_scope.
Local Open Scope dyco_scope.

Section rules.
Context {os : OS} {osl : OSLaws os} {ins : Inside os} {cl : CalmLaws os} {T : Type} {st : SleepTree T} {stl : SleepTreeLaws T}.
Local Abbreviation world := (@world os T).
Local Abbreviation dyco_schedule := (@dyco_schedule T).
Implicit Types (w : world) (s : dyco_schedule) (c : dyco_coroutine) (a : addr) (q : list Z * list Z) (G : ghost) (l : locks).
Context (env : client).
Local Abbreviation calm := (calm env).
Local Abbreviation lock := (lock env).
Local Abbreviation safe := (safe env).
Local Abbreviation fine := (fine env).

(** ** Programs *)

(** A call that only looks, for a coroutine. *)
Definition looks {A} (m : M world A) (P : A -> Prop) : Prop :=
  forall w s q G a, calm w s q G (Some (a, false)) -> s_curr_thread s = a -> exists x, m w = Ok (x, w) /\ P x.

(** [calm_prog l A p Q]: for a coroutine that owns [l], [p] is a program of
    allowed calls, and [Q] holds of its result and of what it owns at its end. *)
Inductive calm_prog : locks -> forall A : Type, prog world A -> (A -> locks -> Prop) -> Prop :=
  | cp_ret l A (x : A) (Q : A -> locks -> Prop) : Q x l -> calm_prog l A (PRet x) Q
  | cp_bind l A B (p : prog world A) (f : A -> prog world B) Q R :
      calm_prog l A p Q -> (forall x l', Q x l' -> calm_prog l' B (f x) R) -> calm_prog l B (pbind p f) R
  | cp_weaken l A (p : prog world A) (Q R : A -> locks -> Prop) :
      calm_prog l A p Q -> (forall x l', Q x l' -> R x l') -> calm_prog l A p R
  | cp_sys l A (f : kernel -> A * kernel) : quiet f -> calm_prog l A (atomic (sys f)) (fun _ l' => l' = l)
  | cp_look l A (m : M world A) P : looks m P -> calm_prog l A (atomic m) (fun x l' => P x /\ l' = l)
  | cp_sleep l msecs : 0 <= msecs <= 4294967 -> msecs = 0 \/ may_sleep env -> calm_prog l unit (dyco_coroutine_sleep msecs) (fun _ l' => l' = l)
  | cp_wait l sem timeout :
      sem = NULL \/ is_Some (cl_sems env !! sem) -> (lock sem -> sem ∉ l_held l) -> timeout <= 0 ->
      (forall fd, may_wait env l (fd, sem)) ->
      calm_prog l Z (dyco_semaphore_wait sem timeout) (fun r l' =>
        (r = 0 /\ sem <> NULL /\ l' = got env sem l) \/ (r = -1 /\ (sem = NULL \/ timeout = 0) /\ l' = l))
  | cp_signal l sem :
      sem = NULL \/ is_Some (cl_sems env !! sem) -> (lock sem -> sem ∈ l_held l /\ sem ∉ l_in l) ->
      calm_prog l Z (atomic (dyco_semaphore_signal sem)) (fun r l' =>
        (r = 0 /\ l' = given env sem l) \/ (r = -1 /\ (sem = NULL \/ ~ lock sem) /\ l' = l))
  | cp_send l ch sm n timeout :
      cl_chans env !! ch = Some sm -> l_ends l !! (ch, true) = Some n ->
      0 < Z.of_nat (length (st_msg sm n)) <= st_size sm -> timeout <= 0 -> may_wait env l (st_w sm, ch) ->
      calm_prog l Z (dyco_channel_send ch (st_msg sm n) (Z.of_nat (length (st_msg sm n))) timeout) (fun r l' =>
        (r = Z.of_nat (length (st_msg sm n)) /\ l' = with_end (ch, true) (S n) l) \/ (r = 0 /\ timeout = 0 /\ l' = l))
  | cp_recv l ch sm n maxsize timeout :
      cl_chans env !! ch = Some sm -> l_ends l !! (ch, false) = Some n -> st_size sm <= maxsize -> timeout <= 0 ->
      may_wait env l (st_r sm, ch) ->
      calm_prog l (Z * list Z) (dyco_channel_recv ch maxsize timeout) (fun r l' =>
        (r = (Z.of_nat (length (st_msg sm n)), st_msg sm n) /\ l' = with_end (ch, false) (S n) l) \/
        (r = (0, []) /\ timeout = 0 /\ l' = l))
  | cp_enter l sem cap f :
      cl_sems env !! sem = Some (Some cap) -> counts 1 sem f -> sem ∈ l_held l -> sem ∉ l_in l ->
      calm_prog l Z (atomic (sys f)) (fun n l' => n <= cap /\ l' = mk_locks (l_held l) ({[sem]} ∪ l_in l) (l_ends l))
  | cp_leave l sem f :
      counts (-1) sem f -> sem ∈ l_in l ->
      calm_prog l Z (atomic (sys f)) (fun _ l' => l' = mk_locks (l_held l) (l_in l ∖ {[sem]}) (l_ends l)).

(** ** The rules are sound *)

Lemma prog_safe l A (p : prog world A) Q a o w :
  calm_prog l A p Q -> fine a l o w -> safe a p (fun x o w => exists l', Q x l' /\ fine a l' o w) o w.
Proof.
  intros Hp. revert o w.
  induction Hp as [l A x Q HQ|l A B p f Q R Hp IHp Hf IHf|l A p Q R Hp IHp HQR|l A f Hf|l A m P Hm|l msecs Hm Hms
    |l sem timeout Hs Hl Ht Hmay|l sem Hs Hl|l ch sm n timeout Hc Hn Hlen Ht Hmay
    |l ch sm n maxsize timeout Hc Hn Hmax Ht Hmay|l sem cap f Hcap Hf Hheld Hin|l sem f Hf Hin]; intros o w Hw.
  - by exists l.
  - eapply safe_bind; [by apply IHp|]. intros x o1 w1 (l' & HQ & Hw1). by apply (IHf x l' HQ).
  - eapply safe_weaken; [by apply IHp|]. intros x o1 w1 (l' & HQ & Hw1). eauto.
  - pose proof (Hf (w_kern w)) as Hk. destruct (f (w_kern w)) as [x k] eqn:E.
    eapply safe_last; [unfold sys; by rewrite E|]. destruct Hw as (s & q & G & Hcm & Hcur & HGa & Hh).
    exists l. split; [done|]. exists s, q, G. split_and!; [by apply calm_kern|done|done|by eapply since_same].
  - pose proof Hw as (s & q & G & Hcm & Hcur & _). destruct (Hm w s q G a Hcm Hcur) as (x & Hx & HP).
    eapply safe_last; [exact Hx|]. by exists l.
  - eapply safe_weaken; [by apply sleep_safe|]. intros [] o1 w1 Hw1. by exists l.
  - eapply safe_weaken; [by apply sem_wait_safe|]. intros r o1 w1 [(H1 & H2 & H3)|(H1 & H2 & H3)]; eexists; split; eauto.
  - eapply safe_weaken; [by apply sem_signal_safe|]. intros r o1 w1 [(H1 & H2)|(H1 & H2 & H3)]; eexists; split; eauto.
  - eapply safe_weaken; [by apply send_safe|]. intros r o1 w1 [(H1 & H2)|(H1 & H2 & H3)]; eexists; split; eauto.
  - eapply safe_weaken; [by apply recv_safe|]. intros r o1 w1 [(H1 & H2)|(H1 & H2 & H3)]; eexists; split; eauto.
  - pose proof (fine_held env a l o w Hw). eapply safe_weaken.
    { apply (count_safe env a l o w 1 sem f (mk_locks (l_held l) ({[sem]} ∪ l_in l) (l_ends l))); try done; simpl; [set_solver|].
      intros sem2. unfold enters. simpl. destruct (decide (sem2 = sem)) as [->|Hne].
      - rewrite bool_decide_true by set_solver. by rewrite bool_decide_false.
      - rewrite Z.add_0_r. f_equal. apply bool_decide_ext. set_solver. }
    intros n o1 w1 [Hw1 Hn]. eexists. split; [|exact Hw1]. split; [by apply Hn|done].
  - pose proof (fine_held env a l o w Hw). eapply safe_weaken.
    { apply (count_safe env a l o w (-1) sem f (mk_locks (l_held l) (l_in l ∖ {[sem]}) (l_ends l))); try done; simpl; [set_solver|].
      intros sem2. unfold enters. simpl. destruct (decide (sem2 = sem)) as [->|Hne].
      - rewrite bool_decide_false by set_solver. by rewrite bool_decide_true.
      - rewrite Z.add_0_r. f_equal. apply bool_decide_ext. set_solver. }
    intros n o1 w1 [Hw1 _]. eexists. split; [done|exact Hw1].
Qed.

(** *** Calls that only look *)

Lemma getUdata_looks : looks dyco_schedule_getUdata (fun x => x = (0, Some (cl_udata env))).
Proof.
  intros w s q G a Hcm Hcur. exists (0, Some (cl_udata env)). split; [|done].
  unfold dyco_schedule_getUdata, get_sched, gets, bind. rewrite (cm_sched _ _ _ _ _ _ Hcm). unfold ret.
  by rewrite (cm_udata _ _ _ _ _ _ Hcm).
Qed.

Lemma coroID_looks : looks dyco_coroutine_coroID (fun _ => True).
Proof.
  intros w s q G a Hcm Hcur. destruct (running_co _ _ _ _ _ _ _ Hcm) as (_ & c & Hc & _).
  assert (Ha : a <> NULL) by (intros ->; by rewrite (ok_null _ _ _ (cm_ok _ _ _ _ _ _ Hcm)) in Hc).
  exists (co_cid c). split; [|done]. unfold dyco_coroutine_coroID, opt_curr, get_sched, gets, bind.
  rewrite (cm_sched _ _ _ _ _ _ Hcm), Hcur. destruct (Z.eqb_spec a NULL); [done|]. unfold ret.
  by rewrite (getco_run a c w Hc).
Qed.

(** *** Lengths

    Each of the calls switches twice at most: when it gives way, and before that
    if it finds its stack exhausted. *)
Lemma yield_short a : short 2 (yield a : prog world unit).
Proof.
  unfold yield. apply (short_bind _ _ 1 1); [unfold checkstk; shorten|]. shorten.
Qed.

Lemma suspend_short a fd ev timeout : short 2 (suspend a fd ev timeout : prog world unit).
Proof. unfold suspend. do 2 (apply short_atomic_bind; intros ?). apply (short_bind _ _ 2 0); [apply yield_short|shorten]. Qed.

Lemma sleep_short msecs : short 2 (dyco_coroutine_sleep msecs : prog world unit).
Proof. unfold dyco_coroutine_sleep. do 4 (apply short_atomic_bind; intros ?). apply yield_short. Qed.

Lemma sem_wait_short sem timeout : short 2 (dyco_semaphore_wait sem timeout : prog world Z).
Proof. unfold dyco_semaphore_wait. shorten. apply (short_bind _ _ 2 0); [apply suspend_short|shorten]. Qed.

Lemma hdc_wait_short ch fd timeout : short 2 (hdc_wait ch fd timeout : prog world unit).
Proof. unfold hdc_wait. shorten. apply (short_bind _ _ 2 0); [apply suspend_short|shorten]. Qed.

Lemma send_short ch buf n timeout : short 2 (dyco_channel_send ch buf n timeout : prog world Z).
Proof. unfold dyco_channel_send. shorten; (apply (short_bind _ _ 2 0); [apply hdc_wait_short|shorten]). Qed.

Lemma recv_short ch n timeout : short 2 (dyco_channel_recv ch n timeout : prog world (Z * list Z)).
Proof. unfold dyco_channel_recv. shorten; (apply (short_bind _ _ 2 0); [apply hdc_wait_short|shorten]). Qed.

(** *** Assertions *)
Definition assert (b : bool) : prog world unit := if b then PRet tt else PFault FExit.

Lemma assert_calm l b : b = true -> calm_prog l unit (assert b) (fun _ l' => l' = l).
Proof. intros ->. by apply cp_ret. Qed.

(** ** The whole life of a coroutine *)
Context (funcs : Z -> Z -> prog world unit).

(** What a saved context is good for: [v] is what the coroutine has. *)
Definition ready_ctx a (v : option (Z * addr) * locks) (p : prog world unit) : Prop :=
  forall w s q G, calm w s q G (Some (a, false)) -> s_curr_thread s = a -> local G a = v ->
    safe a p (fun _ _ _ => False) (w, G) w.

Lemma execute_short n a : (forall func arg, short n (funcs func arg)) -> short (n + 2) (execute funcs a).
Proof.
  intros Hf. unfold execute. do 2 (apply short_atomic_bind; intros ?).
  apply short_bind; [apply Hf|]. intros ?. apply short_atomic_bind. intros ?. apply yield_short.
Qed.

Lemma exit_safe a l o w :
  fine a l o w -> ru_end (cl_rules env) a l -> safe a (do! atomic (set_flag a COROUTINE_STATUS_EXITED); yield a) (fun _ _ _ => False) o w.
Proof.
  intros (s & q & G & Hcm & Hcur & HGa & Hh) Hend. destruct (running_co _ _ _ _ _ _ _ Hcm) as (Hq & c & Hc & Hsl & Hwf & Hco).
  set (c1 := set_co_status (SETBIT (co_status c) COROUTINE_STATUS_EXITED) c).
  assert (Hco1 : calm_co true c1).
  { destruct Hco as (H1 & H2 & H3 & H4 & Hn & _). split_and!; try done; [|by unfold c1; flags].
    rewrite Forall_forall in *. intros f Hf. specialize (Hn f Hf). unfold NEVER in Hf.
    repeat (apply elem_of_cons in Hf as [->|Hf]; [by unfold c1; flags|]). by apply elem_of_nil in Hf. }
  assert (Hf1 : sleeping_flag c1 = sleeping_flag c /\ waiting_flag c1 = waiting_flag c) by (unfold c1; by flags).
  destruct Hf1 as [Hsl1 Hwf1]. rewrite Hsl in Hsl1. rewrite Hwf in Hwf1.
  assert (Hcm1 : calm (with_co a c1 w) s q G (Some (a, true))).
  { eapply (calm_step env w s q G _ a c); try done.
    - by apply (cm_sched _ _ _ _ _ _ Hcm).
    - congruence.
    - eapply sched_ok_co; [by apply (cm_ok _ _ _ _ _ _ Hcm)|done| |done]. unfold co_stable, c1. by flags.
    - by intros b e [= <- _].
    - by intros b e [= <- _].
    - intros _. by apply (cm_keys _ _ _ _ _ _ Hcm a c). }
  set (w1 := with_co a c1 w) in *. assert (Hc1 : w_coros w1 !! a = Some c1) by apply lookup_insert_eq.
  eapply safe_step; [by apply set_flag_run|]. change (set_w_coros _ _) with w1. fold c1 in Hc1.
  pose proof Hco1 as (Hsc & _ & _ & _ & _ & Hex).
  destruct (room_facts w1 s c1 true (cm_room _ _ _ _ _ _ Hcm1) Hco1) as [Hst _].
  destruct (checkstk_run w1 s a c1 Hc1 Hsc (cm_sched _ _ _ _ _ _ Hcm1) Hst) as [r Hchk]. unfold yield.
  eapply safe_done_bind; [exact Hchk|]. eapply safe_step; [by apply test_co_run|]. rewrite Hex. cbn [negb pwhen pbind].
  eapply safe_step; [by apply clr_flag_run|]. cbn [pbind pswitch safe]. split; [done|]. exists s, q, G. split; [|left; split; [|injection HGa as HG <-; by split]].
  - eapply since_insert; [exact Hh|exact Hc|simpl; by rewrite insert_insert_eq|]. unfold new_flag. by flags.
  - apply (calm_mark _ w1 s q G a true c1); try done; [watched|by flags|by flags].
Qed.

(** From the start function of its context on, if its function is a program of
    allowed calls. *)
Lemma execute_safe w s q G a c :
  calm w s q G (Some (a, false)) -> s_curr_thread s = a -> w_coros w !! a = Some c -> g_fd G !! a = None ->
  calm_prog (locks_of G a) unit (funcs (co_func c) (co_arg c)) (fun _ => ru_end (cl_rules env) a) ->
  safe a (execute funcs a) (fun _ _ _ => False) (w, G) w.
Proof.
  intros Hcm Hcur Hc HG Hp. unfold execute. eapply safe_step; [by apply set_flag_run|].
  eapply safe_step; [apply getco_run, lookup_insert_eq|]. cbn [co_func co_arg set_co_status].
  eapply safe_bind; [eapply prog_safe; [exact Hp|]|by intros [] o1 w1 (l & He & Hw1); apply (exit_safe a l)].
  exists s, q, G. split_and!; [|done|by unfold local; rewrite HG|].
  - apply (calm_mark _ w s q G a false c); try done; [watched|by flags|by flags].
  - eapply (since_insert _ _ w); [apply since_refl|exact Hc|done|]. by flags.
Qed.

End rules.
