(* ===== verification/SatOS.v ===== *)
(** * A simulated system for programs in good order

    The simulated system of [SimOS] with what [CalmLaws] asks for; the
    witnesses of whole runs are on it. *)
From S2P Require Import Prelude World SimOS Calm.

Local Open Scope Z_scope.

(** The simulated system, its clock stopped at 2^62 nanoseconds and never
    turned back, and with a descriptor for every [eventfd] and
    [epoll_create]: the first positive number above all that are in use. *)
Definition sat_now (k : sim_kernel) : Z := Z.max 0 (Z.min (k_clock k) (2 ^ 62)).

Definition sat_used (k : sim_kernel) : gset Z :=
  dom (k_counters k) ∪ set_map snd (k_regs k) ∪ set_map fst (k_regs k) ∪ n_open (k_net k).
Definition sat_fd (k : sim_kernel) : Z := set_fold (fun a m => Z.max (a + 1) m) 1 (sat_used k).
Definition renumber (fd : Z) (k : sim_kernel) : sim_kernel :=
  mk_kernel (k_clock k) fd (k_counters k) (k_regs k) (k_net k).

Instance sat : OS := {
  kernel := sim_kernel;
  os_clock_gettime k := ((sat_now k / 1000000000, sat_now k mod 1000000000), set_clock (k_clock k + sim_tick) k);
  os_malloc := os_malloc (OS := sim);
  os_alloc_ok := os_alloc_ok (OS := sim);
  os_epoll_create k := os_epoll_create (OS := sim) (renumber (sat_fd k) k);
  os_epoll_add := os_epoll_add (OS := sim);
  os_epoll_del := os_epoll_del (OS := sim);
  os_epoll_wait ep timeout := os_epoll_wait (OS := sim) ep (Z.max 0 timeout);
  os_errno_eintr := os_errno_eintr (OS := sim);
  os_poll := os_poll (OS := sim);
  os_close := os_close (OS := sim);
  os_eventfd k := os_eventfd (OS := sim) (renumber (sat_fd k) k);
  os_eventfd_write := os_eventfd_write (OS := sim);
  os_eventfd_read := os_eventfd_read (OS := sim);
  os_sigprocmask := os_sigprocmask (OS := sim);
  os_getpagesize := os_getpagesize (OS := sim);
  os_stack_used := os_stack_used (OS := sim)
}.

Instance sat_laws : OSLaws sat.
Proof.
  unshelve refine {| os_counter := (sim_counter : @kernel sat -> Z -> option Z);
    os_registered (k : @kernel sat) ep fd := bool_decide ((ep, fd) ∈ k_regs k) |}; try apply sim_laws.
  intros k. exact (@eventfd_new sim sim_laws (renumber (sat_fd k) k)).
Defined.

(** The variable that counts the coroutines in the section of [sem]. *)
Definition sat_count (k : sim_kernel) (sem : Z) : Z :=
  match n_sent (k_net k) !! sem with Some [n] => n | _ => 0 end.
Instance sat_inside : Inside sat := sat_count.

Definition sat_add (d sem : Z) (k : sim_kernel) : Z * sim_kernel :=
  let n := sat_count k sem + d in let net := k_net k in
  (n, set_net (mk_net (n_open net) (n_nonblock net) (<[sem := [n]]> (n_sent net)) (n_inbox net) (n_room net) (n_errno net)
                 (n_mask net)) k).

Lemma sat_fd_above k : 1 <= sat_fd k /\ forall a, a ∈ sat_used k -> a < sat_fd k.
Proof.
  unfold sat_fd. apply (set_fold_ind_L (fun r X => 1 <= r /\ forall a, a ∈ X -> a < r)).
  - split; [lia|]. by intros a Ha%elem_of_empty.
  - intros x X r _ [H1 IH]. split; [lia|]. intros a [->%elem_of_singleton|Ha]%elem_of_union; [lia|].
    specialize (IH a Ha). lia.
Qed.

Lemma sat_eventfd k : (os_eventfd (OS := sat) k).1 = sat_fd k.
Proof.
  destruct (sat_fd_above k) as [H1 Hf]. simpl. unfold sim_eventfd. rewrite decide_True; [done|]. simpl. split_and!.
  - lia.
  - apply not_elem_of_dom. intros Hin. specialize (Hf (sat_fd k)). unfold sat_used in Hf. set_solver by lia.
  - intros [ep fd] Hin. simpl. intros ->. specialize (Hf (sat_fd k)). unfold sat_used in Hf.
    assert (sat_fd k < sat_fd k); [|lia]. apply Hf. rewrite !elem_of_union, elem_of_map. left. left. right.
    by exists (ep, sat_fd k).
Qed.

Lemma sat_epoll_create k : exists k', os_epoll_create (OS := sat) k = (sat_fd k, k') /\
  k_clock k' = k_clock k /\ k_regs k' = k_regs k /\ n_sent (k_net k') = n_sent (k_net k).
Proof.
  destruct (sat_fd_above k) as [H1 Hf]. simpl. unfold sim_open. rewrite decide_True; [by eexists|]. simpl. split; [lia|].
  intros Hin. specialize (Hf (sat_fd k)). unfold sat_used in Hf. set_solver by lia.
Qed.

Lemma sat_now_of (k : sim_kernel) : now_of (os := sat) k = sat_now k / 1000.
Proof.
  unfold now_of. cbn [fst os_clock_gettime sat]. assert (H : 0 <= sat_now k <= 2 ^ 62) by (unfold sat_now; lia).
  rewrite u64_small; unfold is_u64; Z.to_euclidean_division_equations; lia.
Qed.

Lemma sat_clock (k k' : sim_kernel) : k_clock k <= k_clock k' -> now_of (os := sat) k <= now_of (os := sat) k'.
Proof. intros Hc. rewrite !sat_now_of. apply Z.div_le_mono; unfold sat_now; lia. Qed.

Lemma sat_onward (k k' : sim_kernel) : k_clock k <= k_clock k' -> n_sent (k_net k') = n_sent (k_net k) -> onward (os := sat) k k'.
Proof. intros Hc Hs. split; [by apply sat_clock|]. intros sem. unfold inside, sat_inside, sat_count. by rewrite Hs. Qed.

Lemma sat_later (k k' : sim_kernel) :
  k_clock k <= k_clock k' -> k_regs k' = k_regs k -> k_counters k' = k_counters k -> n_sent (k_net k') = n_sent (k_net k) ->
  later (os := sat) k k'.
Proof.
  intros Hc Hr Hn Hs. split_and!; [by apply sat_onward|intros ep fd; simpl; by rewrite Hr|].
  intros fd. simpl. unfold sim_counter. by rewrite Hn.
Qed.

Lemma sat_counts d sem : counts d sem (sat_add d sem).
Proof.
  intros k. split_and!; [by apply sat_clock|done|done| |].
  - intros sem2. unfold inside, sat_inside, sat_add, sat_count. simpl. destruct (decide (sem2 = sem)) as [->|Hne].
    + by rewrite lookup_insert_eq.
    + rewrite lookup_insert_ne by done. lia.
  - unfold inside, sat_inside, sat_count. simpl. by rewrite lookup_insert_eq.
Qed.

(** What [epoll_wait] reports has a positive counter. *)
Lemma sim_ready_in ep k fd : fd ∈ sim_ready ep k -> (ep, fd) ∈ k_regs k /\ sim_counter k fd <> Some 0.
Proof.
  unfold sim_ready. intros ([e d] & -> & [[He Hp] Hd]%list_elem_of_filter)%list_elem_of_fmap. simpl in *. subst e.
  split; [by apply elem_of_elements|]. unfold sim_counter. destruct (0 <=? d); [|done]. intros E. rewrite E in Hp. simpl in Hp. lia.
Qed.

Instance sat_calm : CalmLaws sat.
Proof.
  refine {| depth := 64 |}.
  - simpl. lia.
  - intros k. rewrite sat_now_of. unfold sat_now. Z.to_euclidean_division_equations; lia.
  - intros k. apply sat_later; [simpl; unfold sim_tick; lia|done..].
  - intros used k. by apply sat_later.
  - intros used k. apply sim_malloc_not_null.
  - intros k. by apply sat_later.
  - done.
  - intros ep timeout k. simpl. unfold sim_epoll_wait. destruct (sim_ready ep k); apply sat_later; simpl; try done; lia.
  - intros ep timeout k. simpl. unfold sim_epoll_wait. by destruct (sim_ready ep k).
  - intros ep timeout k fd. simpl. unfold sim_epoll_wait. destruct (sim_ready ep k) eqn:Hl; [by intros []%elem_of_nil|].
    intros Hin. simpl in Hin. rewrite <- Hl in Hin. apply sim_ready_in in Hin as [H1 H2]. by split; [apply bool_decide_eq_true|].
  - intros k. rewrite sat_eventfd. destruct (sat_fd_above k). lia.
  - intros k. simpl. unfold sim_eventfd. by case_decide; apply sat_onward.
  - intros fd v k. simpl. unfold sim_eventfd_write. destruct (sim_counter k fd); [|by apply sat_onward].
    by destruct ((0 <=? v) && _); apply sat_onward.
  - intros fd v k ep fd'. simpl. unfold sim_eventfd_write. destruct (sim_counter k fd); [|done].
    by destruct ((0 <=? v) && _).
  - intros fd k. simpl. unfold sim_eventfd_read. destruct (sim_counter k fd) as [n|]; [|by apply sat_onward].
    by destruct (0 <? n); apply sat_onward.
  - intros fd k ep fd'. simpl. unfold sim_eventfd_read. destruct (sim_counter k fd) as [n|]; [|done].
    by destruct (0 <? n).
  - intros fd k. by apply sat_onward.
  - intros fd k ep fd' Hne. simpl. apply bool_decide_ext. rewrite elem_of_filter. simpl. tauto.
  - intros fd k ep. simpl. rewrite !bool_decide_eq_false, elem_of_filter. tauto.
  - intros k. destruct (sat_epoll_create k) as (k' & -> & _). destruct (sat_fd_above k). simpl. lia.
  - intros k. destruct (sat_epoll_create k) as (k' & -> & H1 & _ & H3). apply sat_onward; [simpl; lia|done].
  - intros k fd. destruct (sat_epoll_create k) as (k' & -> & _ & H2 & _). simpl. rewrite H2. apply bool_decide_eq_false. intros Hin.
    destruct (sat_fd_above k) as [_ Hf]. specialize (Hf (sat_fd k)). unfold sat_used in Hf.
    assert (sat_fd k < sat_fd k); [|lia]. apply Hf. rewrite !elem_of_union, (elem_of_map fst). left. right.
    by exists (sat_fd k, fd).
  - intros ep fd ev k. simpl. by case_decide; apply sat_onward.
  - intros ep fd k. simpl. by case_decide; apply sat_onward.
Defined.

Instance sat_alert : AlertLaws sat.
Proof.
  split.
  - intros ep timeout k. simpl. unfold sim_epoll_wait. destruct (sim_ready ep k); simpl; lia.
  - intros ep timeout k fd n Hr Hn Hpos. simpl in *. apply bool_decide_eq_true in Hr. unfold sim_epoll_wait.
    assert (Hin : fd ∈ sim_ready ep k).
    { unfold sim_ready. apply list_elem_of_fmap. exists (ep, fd). split; [done|]. apply list_elem_of_filter. simpl. split.
      - split; [done|]. unfold sim_counter in Hn. destruct (0 <=? fd); [|done]. by rewrite Hn.
      - by apply elem_of_elements. }
    destruct (sim_ready ep k) as [|fd' l] eqn:Hl; [by apply elem_of_nil in Hin|]. exists fd'. simpl.
    replace (Z.to_nat _) with (S (length l)) by lia. left.
Defined.
