(* ===== verification/Cooperation.v ===== *)
(** * Programs that compute, sleep and synchronise

    Any set of coroutines that make system calls of their own, sleep, wait on
    and signal semaphores, and send and receive over channels without a time
    limit, in any order and with any control flow, under the main loop of
    [src/dyco_schedule.c].  By the logic of [Safe], every coroutine keeps the
    invariant [calm] whenever it gives way; here the scheduler does.  It follows
    that the run never ends in a fault, and that it ends only when every
    coroutine has been run to its end and released.  If the coroutines set no
    timers, switch a bounded number of times and never all wait for one another
    ([lively]), every turn of the main loop makes the rest of the run lighter,
    and so many turns are enough. *)
From S2P Require Import Prelude Htable Queue SleepTree World SimOS Schedule SchedInv Prog Coroutine Semaphore.
From S2P Require Import Asymcoro Coropool Schedcall Run RoundRobin Calm CalmSteps Safe Rules SatOS.

Local Open Scope Z_scope.
Local Open Scope dyco_scope.

Section cooperation.
Context {os : OS} {osl : OSLaws os} {ins : Inside os} {cl : CalmLaws os} {T : Type} {st : SleepTree T} {stl : SleepTreeLaws T}.
Local Abbreviation world := (@world os T).
Local Abbreviation dyco_schedule := (@dyco_schedule T).
Local Abbreviation machine := (@machine os T).
Implicit Types (w : world) (s : dyco_schedule) (c : dyco_coroutine) (a : addr) (m : machine) (q : list Z * list Z)
  (G : ghost).
Context (env : client).
Local Abbreviation calm := (calm env).
Local Abbreviation ready_ctx := (ready_ctx env).
Context (funcs : Z -> Z -> prog world unit).

(** ** The machine *)

(** Every coroutine is new, with a function that keeps to the rules, or has a
    saved context to go on with. *)
Definition fit G a c : Prop :=
  g_fd G !! a = None /\
  calm_prog env (locks_of G a) unit (funcs (co_func c) (co_arg c)) (fun _ => ru_end (cl_rules env) a).

Definition has_ctx m G : Prop :=
  forall a c, w_coros (m_world m) !! a = Some c ->
    if new_flag c then fit G a c else exists p, m_ctx m !! a = Some p /\ ready_ctx a (local G a) p.

(** All of them keep to the rules of the client, those that have come to their
    end too. *)
Record pledges w G : Prop := {
  pl_may a p : g_fd G !! a = Some p -> may_wait env (locks_of G a) p;
  pl_awake a c : w_coros w !! a = Some c -> sleeping_flag c = true -> may_sleep env;
  pl_end a : w_coros w !! a = None -> ru_end (cl_rules env) a (locks_of G a)
}.

Definition all_calm m s q G : Prop := calm (m_world m) s q G None /\ has_ctx m G /\ pledges (m_world m) G.
(** At the start: every coroutine is new and owns nothing. *)
Definition all_new m s q G : Prop :=
  calm (m_world m) s q G None /\
  forall a c, w_coros (m_world m) !! a = Some c -> new_flag c = true /\ local G a = (None, no_locks).

Lemma all_new_calm m s q G :
  cl_rules env = free_rules -> (forall func arg, calm_prog env no_locks unit (funcs func arg) (fun _ _ => True)) ->
  all_new m s q G -> all_calm m s q G.
Proof.
  intros Hr Hf [Hcm Hn]. split_and!; [done| |by split; unfold may_wait, may_sleep; rewrite Hr].
  intros a c Hc. destruct (Hn a c Hc) as [-> [= HG Hl]]. split; [done|].
  rewrite Hl, Hr. apply Hf.
Qed.

Lemma pledges_roused w w' G : pledges w G -> roused w w' -> pledges w' G.
Proof.
  intros [] [Hdom Hr]. split; [done| |by auto]. intros a c' Hc'. destruct (Hr a c' Hc') as (c & Hc & _ & Hs & _).
  intros H. by apply (pl_awake0 a c); [|apply Hs].
Qed.

(** Only the coroutine [a] has moved. *)
Definition aside a w G w' G' : Prop := forall b, b <> a -> local G' b = local G b /\ w_coros w' !! b = w_coros w !! b.

Lemma pledges_rest w G w' G' a : pledges w G -> aside a w G w' G' -> rests env w' G' a -> pledges w' G'.
Proof.
  intros [] Hs (Hm & c & Hc & Hsl). split; intros b; (destruct (decide (b = a)) as [->|Hne]; [|destruct (Hs b Hne) as [[= E1 E2] E]]).
  - apply Hm.
  - intros p. rewrite E1, E2. apply pl_may0.
  - intros cb. rewrite Hc. by intros [= <-].
  - intros cb. rewrite E. apply pl_awake0.
  - by rewrite Hc.
  - rewrite E, E2. apply pl_end0.
Qed.

Lemma pledges_gone w G w' G' a : pledges w G -> aside a w G w' G' -> ends env G' a -> w_coros w' !! a = None -> pledges w' G'.
Proof.
  intros [] Hs [HG He] Hc. split; intros b; (destruct (decide (b = a)) as [->|Hne]; [|destruct (Hs b Hne) as [[= E1 E2] E]]).
  - by rewrite HG.
  - intros p. rewrite E1, E2. apply pl_may0.
  - by rewrite Hc.
  - intros cb. rewrite E. apply pl_awake0.
  - done.
  - rewrite E, E2. apply pl_end0.
Qed.

(** ** How much is left to do

    Either the fuel may run out ([weary]), or no function switches more than
    [len] times, no timers are set, the system is alert, and coroutines that keep to
    the rules never all wait for one another.  Then every turn of the main loop
    makes the rest of the run lighter: a coroutine has one switch less to
    do, or it waits no longer. *)
Context (weary : Prop) (len : nat).

(** Every coroutine waits for an eventfd that has not been written. *)
Definition stuck w G : Prop :=
  forall a c, w_coros w !! a = Some c -> exists p, g_fd G !! a = Some p /\ os_counter (w_kern w) p.1 = Some 0.

Record lively : Prop := {
  lv_short func arg : short len (funcs func arg);
  lv_alert : AlertLaws os;
  lv_awake : ~ may_sleep env;
  lv_never w s q G : calm w s q G None -> pledges w G -> stuck w G -> w_coros w = ∅
}.
Hypothesis vigour : weary \/ lively.

Implicit Types (r : addr -> nat) (n : nat).

(** [r] are the switches that the coroutines have left. *)
Definition ranked m r : Prop :=
  forall a c, w_coros (m_world m) !! a = Some c ->
    if new_flag c then (len + 2 <= r a)%nat else exists p, m_ctx m !! a = Some p /\ short (r a) p.

Definition burden r a c : nat := 2 * S (r a) + if waiting_flag c then 1 else 0.
Definition load r w : nat := weight (burden r) (w_coros w).
Definition light m n : Prop := weary \/ exists r, ranked m r /\ (load r (m_world m) <= n)%nat.

Definition ordered n m q : Prop := exists s G, all_calm m s q G /\ light m n.
Definition in_order n m : Prop := exists q, ordered n m q.

Lemma in_order_mono n n' m : (n <= n')%nat -> in_order n m -> in_order n' m.
Proof.
  intros Hle (q & s & G & H & Hl). exists q, s, G. split; [done|]. destruct Hl as [?|(r & H1 & H2)]; [by left|].
  right. exists r. split; [done|lia].
Qed.

(** No fault but the end of the fuel. *)
Definition runs_ok {A} (x : M machine A) (P : A -> machine -> Prop) m : Prop :=
  match x m with Ok (y, m') => P y m' | Err e => e = FFuel /\ weary end.

Lemma runs_bind {A B} (x : M machine A) (f : A -> M machine B) P m :
  runs_ok x (fun y m' => runs_ok (f y) P m') m -> runs_ok (bind x f) P m.
Proof. unfold runs_ok, bind. by destruct (x m) as [[y m']|e]. Qed.

Lemma runs_weaken {A} (x : M machine A) (P Q : A -> machine -> Prop) m :
  runs_ok x P m -> (forall y m', P y m' -> Q y m') -> runs_ok x Q m.
Proof. unfold runs_ok. destruct (x m) as [[y m']|e]; auto. Qed.

Lemma runs_step {A B} (x : M machine A) (f : A -> M machine B) P m y m' :
  x m = Ok (y, m') -> runs_ok (f y) P m' -> runs_ok (bind x f) P m.
Proof. intros Hx. unfold runs_ok, bind. by rewrite Hx. Qed.

Lemma runs_world {A B} (x : M world A) (f : A -> M machine B) P m y w' :
  x (m_world m) = Ok (y, w') -> runs_ok (f y) P (mk_machine w' (m_ctx m) (m_ret m)) ->
  runs_ok (bind (in_world x) f) P m.
Proof. intros Hx. apply runs_step. by apply in_world_ok. Qed.

(** *** Lighter and lighter *)

Lemma ranked_roused m w' r : ranked m r -> roused (m_world m) w' -> ranked (mk_machine w' (m_ctx m) (m_ret m)) r.
Proof.
  intros Hr [_ Hro] a c' Hc'. destruct (Hro a c' Hc') as (c & Hc & (-> & _)%birth_eq & _). by apply (Hr a c).
Qed.

Lemma load_roused r w w' : roused w w' -> (load r w' <= load r w)%nat.
Proof.
  intros [_ Hro]. apply weight_le. intros a c' Hc'. destruct (Hro a c' Hc') as (c & Hc & _ & _ & Hw). exists c. split; [done|].
  unfold burden. destruct (waiting_flag c'); [rewrite Hw by done; lia|]. destruct (waiting_flag c); lia.
Qed.

Lemma light_roused m w' n : light m n -> roused (m_world m) w' -> light (mk_machine w' (m_ctx m) (m_ret m)) n.
Proof.
  intros [?|(r & Hr & Hl)] Hro; [by left|right]. exists r. split; [by apply ranked_roused|].
  pose proof (load_roused r _ _ Hro). simpl. lia.
Qed.

(** A waiter that is woken. *)
Lemma load_woke r w w' : roused w w' -> woke w w' -> (load r w' < load r w)%nat.
Proof.
  intros [_ Hro] (a & c & c' & Hc & Hw & Hc' & Hw'). apply (weight_lt _ _ _ _ a c); [|done|].
  - intros b cb' Hb. destruct (Hro b cb' Hb) as (cb & Hcb & _ & _ & Hwb). exists cb. split; [done|].
    unfold burden. destruct (waiting_flag cb'); [rewrite Hwb by done; lia|]. destruct (waiting_flag cb); lia.
  - rewrite Hc'. unfold burden. rewrite Hw, Hw'. lia.
Qed.

(** The coroutine [a] has one switch less to do, or is gone. *)
Lemma load_moved r r' w w' a c :
  w_coros w !! a = Some c -> (forall b, b <> a -> r' b = r b /\ w_coros w' !! b = w_coros w !! b) ->
  (forall c', w_coros w' !! a = Some c' -> (r' a < r a)%nat) -> (load r' w' < load r w)%nat.
Proof.
  intros Hc Hoth Ha. apply (weight_lt _ _ _ _ a c); [|done|].
  - intros b cb Hb. destruct (decide (b = a)) as [->|Hne].
    + specialize (Ha _ Hb). exists c. split; [done|]. unfold burden. destruct (waiting_flag cb), (waiting_flag c); lia.
    + destruct (Hoth b Hne) as [E1 E2]. exists cb. split; [congruence|]. unfold burden. by rewrite E1.
  - destruct (w_coros w' !! a) as [c'|] eqn:E; [|unfold burden; lia]. specialize (Ha c' eq_refl). unfold burden.
    destruct (waiting_flag c'), (waiting_flag c); lia.
Qed.

Lemma light_some m n a c : light m n -> w_coros (m_world m) !! a = Some c -> weary \/ (0 < n)%nat.
Proof.
  intros [?|(r & _ & Hl)] Hc; [by left|right]. unfold load in Hl. rewrite (weight_lookup _ _ a c Hc) in Hl. unfold burden in Hl. lia.
Qed.

(** *** Running a context *)

(** The coroutine [a] has run in [m], from the context [p], and given way in
    [m']. *)
Definition gave_way a m G (p : prog world unit) (_ : unit) m' : Prop :=
  exists k w' s' q' G', m' = save_ctx a k (mk_machine w' (m_ctx m) (m_ret m)) /\ since a (m_world m, G) w' G' /\
    (forall n, short n p -> exists n', n = S n' /\ short n' k) /\
    ((calm w' s' q' G' (Some (a, true)) /\ ends env G' a) \/
     (calm w' s' q' G' None /\ rests env w' G' a /\ ready_ctx a (local G' a) k)).

Lemma swap_ok fuel a m s q G p :
  (fuel = O -> weary) -> m_ctx m !! a = Some p -> safe env a p (fun _ _ _ => False) (m_world m, G) (m_world m) ->
  calm (m_world m) s q G (Some (a, false)) -> s_curr_thread s = a -> runs_ok (swap_to funcs fuel a) (gave_way a m G p) m.
Proof.
  intros Hf Hp Hr Hcm Hcur. unfold swap_to, runs_ok, bind, get_st. rewrite Hp. destruct fuel as [|fuel]; [by split; [|apply Hf]|].
  cbn [run_until_sched]. pose proof (proj2 (safe_exec env a p _ (m_world m, G) (m_world m)) Hr) as Hx.
  assert (Hsh : forall n, short n p -> match exec p (m_world m) with (SSwitch _ k, _) => exists n', n = S n' /\ short n' k | _ => True end)
    by (intros n; apply short_exec).
  destruct (exec p (m_world m)) as [[x|e|b k] w']; try done. destruct b as [b|b|b|b]; try done.
  destruct Hx as (-> & s' & q' & G' & Hh & Hx). by exists k, w', s', q', G'.
Qed.

(** The coroutine before it is switched to: its context is made, or its stack
    copied back. *)
Lemma start_ok m s q G a c :
  calm (m_world m) s q G (Some (a, false)) -> w_coros (m_world m) !! a = Some c -> has_ctx m G ->
  exists m1 s1 c1 p, (if new_flag c then init_coro funcs a else in_world (loadstk a)) m = Ok (tt, m1) /\
    calm (m_world m1) s1 q G (Some (a, false)) /\ w_coros (m_world m1) !! a = Some c1 /\ new_flag c1 = false /\
    m_ctx m1 !! a = Some p /\ (ready_ctx a (local G a) p \/ (p = execute funcs a /\ fit G a c1)) /\
    (forall b, b <> a -> m_ctx m1 !! b = m_ctx m !! b /\ w_coros (m_world m1) !! b = w_coros (m_world m) !! b) /\
    (forall r, lively -> ranked m r -> short (r a) p).
Proof.
  intros Hcm Hc Hctx. destruct (running_co _ _ _ _ _ _ _ Hcm) as (Hq & c0 & Hc0 & Hsl & Hwf & Hco). rewrite Hc in Hc0.
  injection Hc0 as <-. specialize (Hctx a c Hc). destruct (new_flag c) eqn:Hn.
  - set (c1 := set_co_status (CLRBIT (co_status c) COROUTINE_STATUS_NEW) c).
    exists (mk_machine (with_co a c1 (m_world m)) (<[a := execute funcs a]> (m_ctx m)) (m_ret m)), s, c1, (execute funcs a).
    split_and!; try done.
    + unfold init_coro. erewrite bind_ok by reflexivity.
      apply (in_world_ok _ (save_ctx a (execute funcs a) m)). by apply clr_flag_run.
    + apply (calm_mark env (m_world m) s q G a false c); try done; [watched|by flags|by flags].
    + apply lookup_insert_eq.
    + unfold c1. by flags.
    + apply lookup_insert_eq.
    + by right.
    + intros b Hb. simpl. by rewrite !lookup_insert_ne.
    + intros r Hlv Hr. specialize (Hr a c Hc). rewrite Hn in Hr.
      apply (short_mono _ (len + 2)); [done|]. apply execute_short, Hlv.
  - destruct Hctx as (p & Hp & Hr).
    pose proof (cm_room _ _ _ _ _ _ Hcm) as Hroom. destruct (room_facts (m_world m) s c false Hroom Hco) as [_ Hown].
    destruct Hroom as [Hsz Hlen]. assert (Hst : (Z.to_nat (co_stack_size c) <= length (co_stack_buf c))%nat /\
      (Z.to_nat (co_stack_size c) <= length (s_stack s))%nat).
    { destruct (calm_co_stack false c Hco) as [[_ ->]|(_ & Hs1 & Hs2)]; [split; lia|split; lia]. }
    pose proof (loadstk_run a c s (m_world m) Hc Hown ltac:(apply Hco) (cm_sched _ _ _ _ _ _ Hcm) ltac:(lia)) as Hload.
    set (s1 := set_s_stack _ s) in Hload.
    exists (mk_machine (set_w_sched (Some s1) (m_world m)) (m_ctx m) (m_ret m)), s1, c, p. split_and!; try done.
    + by apply in_world_ok.
    + apply (calm_sched env _ s); try done; [|by right]. split_and!; try done. simpl. rewrite length_app, !length_take. lia.
    + by left.
    + intros r _ Hrk. specialize (Hrk a c Hc). rewrite Hn in Hrk. destruct Hrk as (p2 & Hp2 & Hsh). congruence.
Qed.

Lemma enter_ok w s q G a c :
  calm w s q G (Some (a, false)) -> w_coros w !! a = Some c ->
  exists w' s', enter a w = Ok (tt, w') /\ calm w' s' q G (Some (a, false)) /\ s_curr_thread s' = a /\
    w_coros w' = <[a := set_co_sched_count (u32 (co_sched_count c + 1)) c]> (w_coros w).
Proof.
  intros Hcm Hc. destruct (running_co _ _ _ _ _ _ _ Hcm) as (_ & c0 & Hc0 & Hsl & Hwf & Hco). rewrite Hc in Hc0. injection Hc0 as <-.
  set (c1 := set_co_sched_count (u32 (co_sched_count c + 1)) c).
  assert (Hcm1 : calm (with_co a c1 w) s q G (Some (a, false))).
  { apply (calm_touch env w s q G a false c); try done; [by apply Forall_true|by apply (calm_co_stack false c)]. }
  exists (set_w_sched (Some (set_s_curr_thread a s)) (with_co a c1 w)), (set_s_curr_thread a s). split_and!; [| |done|done].
  - apply (enter_run w s a c (cm_sched _ _ _ _ _ _ Hcm) Hc). apply Hco.
  - by apply (calm_sched env _ s); try done; right.
Qed.

(** *** [resume] *)

(** [m2] differs from [m] in the coroutine [a] only, which has run. *)
Definition ran a m G m2 G' : Prop :=
  aside a (m_world m) G (m_world m2) G' /\ forall b, b <> a -> m_ctx m2 !! b = m_ctx m !! b.

Lemma has_ctx_ran a m G m2 G' k :
  has_ctx m G -> ran a m G m2 G' -> m_ctx m2 !! a = Some k ->
  (forall c, w_coros (m_world m2) !! a = Some c -> new_flag c = false /\ ready_ctx a (local G' a) k) -> has_ctx m2 G'.
Proof.
  intros Hctx [Hs Hk] Ha Hc b c Hb. destruct (decide (b = a)) as [->|Hne].
  - destruct (Hc c Hb) as [-> Hr]. by exists k.
  - destruct (Hs b Hne) as [E1 E2]. rewrite E2 in Hb. specialize (Hctx b c Hb). rewrite Hk, E1 by done.
    destruct (new_flag c); [|done]. injection E1 as E3 E4. unfold fit. by rewrite E3, E4.
Qed.

Lemma light_ran a m G m2 G' k n c :
  light m n -> ran a m G m2 G' -> m_ctx m2 !! a = Some k -> w_coros (m_world m) !! a = Some c ->
  (forall r, lively -> ranked m r -> exists n', r a = S n' /\ short n' k) ->
  (forall c2, w_coros (m_world m2) !! a = Some c2 -> new_flag c2 = false) -> light m2 (pred n).
Proof.
  intros [?|(r & Hr & Hl)] [Hs Hk] Ha Hc Hshort Hn; [by left|]. destruct vigour as [?|Hlv]; [by left|right].
  destruct (Hshort r Hlv Hr) as (n' & Hn' & Hsh). set (r' := fun b => if decide (b = a) then n' else r b). exists r'. split.
  - intros b cb Hb. unfold r'. destruct (decide (b = a)) as [->|Hne].
    + rewrite (Hn cb Hb). by exists k.
    + destruct (Hs b Hne) as [_ E]. rewrite E in Hb. rewrite Hk by done. by apply (Hr b cb).
  - assert (load r' (m_world m2) < load r (m_world m))%nat; [|lia]. apply (load_moved r r' _ _ a c); [done| |].
    + intros b Hb. unfold r'. rewrite decide_False by done. split; [done|]. by apply Hs.
    + intros c2 _. unfold r'. rewrite decide_True by done. lia.
Qed.

(** [resume] from the return of the coroutine on. *)
Definition resume_end (fuel : nat) (co : addr) : M machine Z :=
  let* back := schedcall_loop funcs fuel co in
  if negb back then ret 1
  else
    in_world (
      upd_sched (set_s_curr_thread NULL) ;;;
      let* c := getco co in
      if TESTBIT (co_status c) COROUTINE_STATUS_KILLED then
        schedule_cancel_sleep co ;;;
        let* _ := htable_delete_with_freecb NULL get_cid_table set_cid_table
                    (fun a => a =? NULL) coro_abort (co_cid c) in
        ret (-1)
      else if TESTBIT (co_status c) COROUTINE_STATUS_EXITED then
        schedule_cancel_sleep co ;;;
        (if TESTBIT (co_status c) COROUTINE_FLAGS_INCOROPOOL
         then dyco_coropool_return co else freecoro co) ;;;
        ret (-1)
      else ret 0).

Lemma resume_end_ok fuel m s q G a e c (P : Z -> machine -> Prop) :
  calm (m_world m) s q G (if e : bool then Some (a, true) else None) -> w_coros (m_world m) !! a = Some c -> calm_co e c ->
  (fuel = O -> weary) -> (e = true -> g_fd G !! a = None) ->
  (forall (r : Z) w' s', calm w' s' q G None ->
    w_coros w' = (if e then delete a (w_coros (m_world m)) else w_coros (m_world m)) ->
    P r (mk_machine w' (m_ctx m) (m_ret m))) ->
  runs_ok (resume_end fuel a) P m.
Proof.
  intros Hcm Hc Hco Hfuel HG HP. unfold resume_end. destruct fuel as [|fuel]; [by split; [|apply Hfuel]|]. cbn [schedcall_loop]. apply runs_bind.
  apply (runs_world _ _ _ m (TESTBIT (co_status c) COROUTINE_STATUS_SCHEDCALL) (m_world m)); [by apply test_co_run|].
  assert (Hf : TESTBIT (co_status c) COROUTINE_STATUS_SCHEDCALL = false) by never. rewrite Hf. clear Hf.
  unfold runs_ok at 1. cbn [ret negb].
  pose proof (cm_sched _ _ _ _ _ _ Hcm) as Hs. set (s1 := set_s_curr_thread NULL s). set (w1 := set_w_sched (Some s1) (m_world m)).
  assert (Hcm1 : calm w1 s1 q G (if e then Some (a, true) else None)) by (by apply (calm_sched env _ s); try done; right).
  assert (HK : TESTBIT (co_status c) COROUTINE_STATUS_KILLED = false) by never.
  assert (HP' : TESTBIT (co_status c) COROUTINE_FLAGS_INCOROPOOL = false) by never.
  unfold runs_ok, in_world. cbn [m_world m_ctx m_ret].
  rewrite (bind_ok _ _ _ _ _ (upd_sched_run _ s (m_world m) Hs)). fold s1 w1.
  erewrite bind_ok by (by apply getco_run). rewrite HK, HP'. destruct Hco as (_ & _ & _ & _ & _ & ->). destruct e.
  - destruct (release_ok env w1 s1 q G a Hcm1 (HG eq_refl)) as (w2 & s2 & Hrel & Hcm2 & Hcos2).
    apply bind_inv in Hrel as ([] & w3 & H1 & H2). rewrite (bind_ok _ _ _ _ _ H1), (bind_ok _ _ _ _ _ H2).
    by apply (HP _ w2 s2).
  - by apply (HP _ w1 s1).
Qed.

Lemma resume_ok fuel m s q G a n :
  (fuel = O -> weary) -> calm (m_world m) s q G (Some (a, false)) -> has_ctx m G -> pledges (m_world m) G -> light m n ->
  runs_ok (resume funcs fuel a) (fun _ => in_order (pred n)) m.
Proof.
  intros Hf Hcm Hctx Hpl Hlt. destruct (running_co _ _ _ _ _ _ _ Hcm) as (Hq & c & Hc & _).
  destruct (start_ok m s q G a c Hcm Hc Hctx) as (m1 & s1 & c1 & p & Hst & Hcm1 & Hc1 & Hn1 & Hp & Hr & Hsame & Hrank).
  destruct (enter_ok (m_world m1) s1 q G a c1 Hcm1 Hc1) as (w2 & s2 & Hen & Hcm2 & Hcur2 & Hcos2).
  unfold resume. apply (runs_world _ _ _ m (new_flag c) (m_world m)); [by apply test_co_run|].
  replace (mk_machine (m_world m) (m_ctx m) (m_ret m)) with m by (by destruct m).
  eapply runs_step; [exact Hst|]. eapply runs_world; [exact Hen|]. set (m2 := mk_machine w2 (m_ctx m1) (m_ret m1)).
  assert (Hsafe : safe env a p (fun _ _ _ => False) (m_world m2, G) (m_world m2)).
  { destruct Hr as [Hr|[-> [HGa Hfit]]]; [by apply (Hr _ s2 q G)|].
    apply (execute_safe env funcs w2 s2 q G a (set_co_sched_count (u32 (co_sched_count c1 + 1)) c1)); try done. simpl. rewrite Hcos2. apply lookup_insert_eq. }
  apply runs_bind. eapply runs_weaken; [by apply (swap_ok fuel a m2 s2 q G p)|].
  intros [] m3 (k & w' & s' & q' & G' & -> & Hsince & Hshort & Hend).
  assert (Hc' : exists (e : bool) c', calm w' s' q' G' (if e then Some (a, true) else None) /\
    w_coros w' !! a = Some c' /\ calm_co e c' /\
    if e then ends env G' a else rests env w' G' a /\ ready_ctx a (local G' a) k).
  { destruct Hend as [[Hcm' HGa]|(Hcm' & Hre & Hk)].
    - destruct (running_co _ _ _ _ _ _ _ Hcm') as (_ & c' & Hc' & _ & _ & Hco'). by exists true, c'.
    - pose proof Hre as (_ & c' & Hc' & _). exists false, c'. split_and!; try done. by apply (cm_co _ _ _ _ _ _ Hcm' a). }
  destruct Hc' as (e & c' & Hcm' & Hc' & Hco' & Hk).
  assert (Hn' : new_flag c' = false).
  { destruct (proj1 Hsince a c' Hc') as (c2 & Hc2 & [-> _]%birth_eq). simpl in Hc2. rewrite Hcos2, lookup_insert_eq in Hc2.
    by injection Hc2 as <-. }
  apply (resume_end_ok fuel (save_ctx a k (mk_machine w' (m_ctx m2) (m_ret m2))) s' q' G' a e c'); try done; [by intros ->; apply Hk|].
  intros r w3 s3 Hcm3 Hcos3. set (m4 := mk_machine _ _ _).
  assert (Hran : ran a m G m4 G').
  { split; [|intros b Hb; simpl; rewrite lookup_insert_ne by done; by apply Hsame].
    intros b Hb. destruct (proj2 Hsince b Hb) as [E1 E2]. split; [exact E1|]. simpl in *. rewrite Hcos3.
    assert (E3 : w_coros w' !! b = w_coros (m_world m) !! b) by (rewrite E2, Hcos2, lookup_insert_ne by done; by apply Hsame).
    destruct e; [by rewrite lookup_delete_ne|done]. }
  assert (Hk4 : m_ctx m4 !! a = Some k) by apply lookup_insert_eq.
  assert (Hc4 : w_coros (m_world m4) !! a = if e then None else Some c').
  { simpl. rewrite Hcos3. destruct e; [apply lookup_delete_eq|done]. }
  assert (Hlt4 : light m4 (pred n)).
  { apply (light_ran a m G m4 G' k n c); try done; [|rewrite Hc4; by destruct e; [|intros c2 [= <-]]].
    intros r0 Hlv Hr0. apply Hshort. by apply Hrank. }
  exists q', s3, G'. split; [split_and!; [done| |]|done].
  - apply (has_ctx_ran a m G m4 G' k); try done. rewrite Hc4. destruct e; [done|]. intros c2 [= <-]. split; [done|apply Hk].
  - destruct e; [apply (pledges_gone (m_world m) G _ _ a); try done; apply Hran|].
    destruct Hk as [(Hm & c2 & Hc2 & Hsl) _]. apply (pledges_rest (m_world m) G _ _ a); try done; [apply Hran|].
    split; [done|]. exists c2. rewrite Hc4. split; [congruence|done].
Qed.

(** ** The phases of a turn *)

Lemma has_ctx_roused m w' G : has_ctx m G -> roused (m_world m) w' -> has_ctx (mk_machine w' (m_ctx m) (m_ret m)) G.
Proof.
  intros Hctx [_ Hh] a c Hc. destruct (Hh a c Hc) as (c0 & Hc0 & (Hn & Hf & Ha)%birth_eq & _). specialize (Hctx a c0 Hc0).
  unfold fit in *. by rewrite Hn, Hf, Ha.
Qed.

(** The scheduler has made coroutines ready. *)
Lemma roused_ordered m w' s' q' G n :
  has_ctx m G -> pledges (m_world m) G -> light m n -> calm w' s' q' G None -> roused (m_world m) w' ->
  ordered n (mk_machine w' (m_ctx m) (m_ret m)) q'.
Proof.
  intros Hctx Hpl Hl Hcm Hr. exists s', G. split; [split_and!; [done|by apply has_ctx_roused|by eapply pledges_roused]|].
  by apply light_roused.
Qed.

(** The head of a queue, taken off it, is what runs. *)
Lemma dequeue_calm m s q G h a l :
  all_calm m s q G -> qlist h q = a :: l ->
  exists w1 w2 s2,
    upd_sched (fun s => set_s_queues (TAILQ_REMOVE (s_queues s) h a) s) (m_world m) = Ok (tt, w1) /\
    clr_flag a COROUTINE_STATUS_READY w1 = Ok (tt, w2) /\
    calm w2 s2 (qset h l q) G (Some (a, false)) /\ roused (m_world m) w2.
Proof.
  intros [Hcm _] Hq. set (w := m_world m) in *. pose proof (cm_ok _ _ _ _ _ _ Hcm) as Hok.
  pose proof (cm_sched _ _ _ _ _ _ Hcm) as Hs.
  assert (Hin : a ∈ queued q) by (apply (queued_split h); left; rewrite Hq; left).
  destruct (ok_queued _ _ _ Hok a Hin) as (c & Hc & Hr).
  assert (Hbl : blocked c = false) by (destruct (blocked c) eqn:E; [by destruct (cm_once _ _ _ _ _ _ Hcm a c Hc E)|done]).
  apply orb_false_elim in Hbl as [Hsl Hwf].
  assert (Hother : forall b, b <> a -> b ∈ queued (qset h l q) <-> b ∈ queued q).
  { intros b Hb. rewrite queued_qset, (queued_split h), Hq, elem_of_cons. tauto. }
  assert (Hout : a ∉ queued (qset h l q)).
  { rewrite queued_qset. intros [Hl|Ho].
    - destruct (rep2_of _ _ h (ok_queues _ _ _ Hok)) as [_ Hnd]. rewrite Hq in Hnd. by apply NoDup_cons in Hnd as [? _].
    - by apply (rep2_dis _ q h (other h) a (ok_queues _ _ _ Hok) (other_ne h)); [rewrite Hq; left|]. }
  set (s1 := set_s_queues (TAILQ_REMOVE (s_queues s) h a) s). set (w1 := set_w_sched (Some s1) w).
  set (c1 := set_co_status (CLRBIT (co_status c) COROUTINE_STATUS_READY) c).
  assert (Hok1 : sched_ok w1 s1 (qset h l q)).
  { apply (sched_ok_sched w). apply (sched_ok_queues w s q); [done| | |].
    - by apply (rep2_remove_first _ _ h _ _ (ok_queues _ _ _ Hok)).
    - intros b. eapply remove_first_linked. rewrite <- Hq. exact (rep2_of _ _ h (ok_queues _ _ _ Hok)).
    - intros b Hb. apply (ok_queued _ _ _ Hok). destruct (decide (b = a)) as [->|Hne]; [done|by apply Hother]. }
  exists w1, (with_co a c1 w1), s1. split_and!; [exact (upd_sched_run _ s w Hs)|by apply clr_flag_run| |].
  - assert (Hf : sleeping_flag c1 = sleeping_flag c /\ waiting_flag c1 = waiting_flag c) by (unfold c1; by flags).
    destruct Hf as [Hsl1 Hwf1].
    eapply (calm_step env w s q G None a c); try done.
    + eapply sched_ok_co; [done|exact Hc| |done]. unfold co_stable, c1. by flags.
    + by intros b e [= <- _].
    + intros _. by apply (cm_keys _ _ _ _ _ _ Hcm a c).
    + congruence.
    + split_and!; [|congruence|congruence|done].
      pose proof (cm_co _ _ _ _ _ _ Hcm a c Hc ltac:(done)) as Hco.
      apply (calm_co_kept _ c); try done; [unfold c1; watched|by apply (calm_co_stack false c)].
  - eapply roused_insert; [exact Hc|done|unfold c1; by flags..].
Qed.

(** A phase has run some coroutine, or there was none to run. *)
Definition phase_done n m (nothing : Prop) (x : option Z) m' : Prop :=
  x = None /\ (in_order (pred n) m' \/ (m' = m /\ nothing)).

Lemma run_queue_calm fuel k h last_co m q n :
  (fuel = O -> weary) -> ordered n m q ->
  runs_ok (run_queue funcs fuel k h last_co) (phase_done n m (k = O \/ qlist h q = [])) m.
Proof.
  intros Hf. revert m q n. induction k as [|k IH]; intros m q n Hord; [by split; [|right; split; [|left]]|]. cbn [run_queue].
  destruct Hord as (s & G & Hall & Hlt). pose proof Hall as (Hcm & Hctx & Hpl). pose proof (cm_sched _ _ _ _ _ _ Hcm) as Hs.
  eapply runs_step; [by apply in_world_sched|].
  pose proof (rep2_of _ _ h (ok_queues _ _ _ (cm_ok _ _ _ _ _ _ Hcm))) as Hq. rewrite (rep_empty _ _ _ Hq), (rep_first _ _ _ Hq).
  destruct (qlist h q) as [|a l] eqn:Hl; [by split; [|right; split; [|right]]|].
  destruct (dequeue_calm m s q G h a l Hall Hl) as (w1 & w2 & s2 & H1 & H2 & Hcm2 & Hro).
  eapply runs_world; [exact H1|]. eapply runs_world; [exact H2|]. cbn [m_ctx m_ret].
  apply runs_bind. eapply runs_weaken.
  { eapply (resume_ok fuel (mk_machine w2 (m_ctx m) (m_ret m)) s2 (qset h l q) G a n); [done|done|..].
    - by apply has_ctx_roused.
    - by eapply pledges_roused.
    - by apply light_roused. }
  intros x m3 (q3 & Hord3). pose proof Hord3 as (s3 & G3 & (Hcm3 & _) & _). pose proof (cm_sched _ _ _ _ _ _ Hcm3) as Hs3.
  eapply runs_step; [by apply in_world_sched|].
  assert (Hgo : runs_ok (if a =? last_co then ret None else run_queue funcs fuel k h last_co) (phase_done n m (S k = O \/ a :: l = [])) m3).
  { destruct (a =? last_co); [split; [done|left; by exists q3]|].
    eapply runs_weaken; [by apply (IH m3 q3 (pred n))|]. intros y m4 [-> [Hy|[-> _]]]; (split; [done|left]); [|by exists q3].
    apply (in_order_mono (pred (pred n))); [lia|done]. }
  by destruct (cm_status _ _ _ _ _ _ Hcm3) as [-> | ->].
Qed.

Lemma process_queue_calm fuel h maxexec m q n :
  (fuel = O -> weary) -> 0 < maxexec -> ordered n m q ->
  runs_ok (process_queue funcs fuel h maxexec) (phase_done n m (qlist h q = [])) m.
Proof.
  intros Hf Hpos Hord. pose proof Hord as (s & G & (Hcm & _) & _). unfold process_queue.
  eapply runs_step; [by apply in_world_sched, Hcm|].
  eapply runs_weaken; [by apply run_queue_calm|]. intros x m' [-> [H|[-> [H|H]]]]; (split; [done|]); [by left|lia|by right].
Qed.

(** Somebody can go on. *)
Lemma not_stuck w s q G :
  calm w s q G None -> pledges w G -> queued q = [] -> lively -> w_coros w <> ∅ -> called s w.
Proof.
  intros Hcm Hpl Hq Hlv Hne.
  assert (Hwait : forall a c, w_coros w !! a = Some c ->
    exists fd obj, fds s !! fd = Some a /\ g_fd G !! a = Some (fd, obj) /\ signalled env (w_kern w) fd obj \/
      g_fd G !! a = Some (fd, obj) /\ os_counter (w_kern w) fd = Some 0).
  { intros a c Hc. destruct (cm_placed _ _ _ _ _ _ Hcm a c Hc) as [Hin|Hb]; [done|rewrite Hq in Hin; by apply elem_of_nil in Hin|].
    apply orb_prop in Hb as [Hb|Hb]; [by destruct (lv_awake Hlv); apply (pl_awake _ _ Hpl a c)|].
    destruct (cm_waiting _ _ _ _ _ _ Hcm a c Hc Hb) as [fd Hfd].
    destruct (ow_fds _ _ _ _ (cm_owners _ _ _ _ _ _ Hcm) fd a Hfd) as [obj HG].
    destruct (ow_open _ _ _ _ (cm_owners _ _ _ _ _ _ Hcm) a fd obj HG) as (_ & _ & [Hsg|[H0 _]]); exists fd, obj; [by left|by right]. }
  set (quietly := fun (a : addr) (_ : dyco_coroutine) =>
    match g_fd G !! a with Some p => os_counter (w_kern w) p.1 = Some 0 | None => False end).
  assert (Hdec : forall a c, Decision (quietly a c)) by (intros a c; unfold quietly; destruct (g_fd G !! a); apply _).
  destruct (decide (map_Forall quietly (w_coros w))) as [Hall|Hsome].
  - destruct Hne. apply (lv_never Hlv w s q G Hcm Hpl). intros a c Hc. specialize (Hall a c Hc). unfold quietly in Hall.
    destruct (g_fd G !! a) as [p|]; [by exists p|done].
  - apply map_not_Forall in Hsome as (a & c & Hc & Hno); [|apply _].
    destruct (Hwait a c Hc) as (fd & obj & [(Hfd & HG & k & Hk & Hpos & _)|[HG H0]]); [by exists fd, a, k|].
    destruct Hno. unfold quietly. by rewrite HG.
Qed.

Lemma sched_turn_calm fuel m n :
  (fuel = O -> weary) -> in_order n m -> w_coros (m_world m) <> ∅ ->
  runs_ok (sched_turn funcs fuel) (fun x m' => x = None /\ in_order (pred n) m') m.
Proof.
  intros Hf (q & s & G & (Hcm & Hctx & Hpl) & Hlt) Hne. unfold sched_turn.
  destruct (expire_calm env (S (size (view s))) (m_world m) s q G ltac:(lia) Hcm) as (w1 & s1 & q1 & Hx & Hcm1 & Hh1).
  assert (Hpt : probe_timers (m_world m) = Ok (tt, w1)).
  { unfold probe_timers. by rewrite (bind_ok _ _ _ _ _ (the_sched_run s _ (cm_sched _ _ _ _ _ _ Hcm))). }
  eapply runs_world; [exact Hpt|]. set (m1 := mk_machine w1 (m_ctx m) (m_ret m)).
  pose proof (roused_ordered m w1 s1 q1 G n Hctx Hpl Hlt Hcm1 Hh1) as Hord1. fold m1 in Hord1.
  assert (Hne1 : w_coros w1 <> ∅).
  { intros E. apply Hne, map_empty. intros a. apply Hh1. by rewrite E. }
  apply runs_bind. eapply runs_weaken; [by apply (process_queue_calm fuel _ _ m1 q1 n)|].
  intros x2 m2 [-> H2]. apply runs_bind.
  eapply (runs_weaken _ (fun x m3 => x = None /\ (in_order (pred n) m3 \/ (m3 = m1 /\ queued q1 = [])))).
  { destruct H2 as [[q2 H2]|[-> Hu]].
    - eapply runs_weaken; [by apply (process_queue_calm fuel _ _ m2 q2 (pred n))|]. intros x m3 [-> [H3|[-> _]]]; (split; [done|left]).
      + apply (in_order_mono (pred (pred n))); [lia|done].
      + by exists q2.
    - eapply runs_weaken; [by apply (process_queue_calm fuel _ _ m1 q1 n)|].
      intros x m3 [-> [H3|[-> Hr]]]; (split; [done|]); [by left|right]. split; [done|]. unfold queued.
      simpl in Hu, Hr. by rewrite Hu, Hr. }
  intros x3 m3 [-> H3]. apply runs_bind. unfold runs_ok at 1, in_world.
  assert (Hal : AlertLaws os \/ weary) by (destruct vigour as [?|Hlv]; [by right|left; by apply lv_alert]).
  assert (H3' : exists q3 s3 G3, all_calm m3 s3 q3 G3 /\ light m3 (pred n) \/
    (m3 = m1 /\ G3 = G /\ s3 = s1 /\ q3 = q1 /\ queued q1 = [] /\ light m3 n)).
  { destruct H3 as [(q3 & s3 & G3 & H)|[-> Hq]]; [exists q3, s3, G3; by left|]. exists q1, s1, G. right. split_and!; try done.
    by apply light_roused. }
  destruct H3' as (q3 & s3 & G3 & [[(Hcm3 & Hctx3 & Hpl3) Hlt3]|(-> & -> & -> & -> & Hq1 & Hlt3)]).
  - pose proof (probe_events_calm env weary fuel (m_world m3) s3 q3 G3 Hcm3 Hf Hal) as Hp.
    destruct (probe_events fuel (m_world m3)) as [[[] w4]|e]; [|done]. destruct Hp as (s4 & q4 & Hcm4 & Hh4 & _).
    split; [done|]. exists q4. by apply (roused_ordered m3 w4 s4 q4 G3).
  - pose proof (probe_events_calm env weary fuel w1 s1 q1 G Hcm1 Hf Hal) as Hp. cbn [m_world m1].
    destruct (probe_events fuel w1) as [[[] w4]|e]; [|done]. destruct Hp as (s4 & q4 & Hcm4 & Hh4 & Hwk).
    split; [done|]. exists q4, s4, G. split; [split_and!; [done|..]|].
    + apply (has_ctx_roused m); [done|]. by eapply roused_trans.
    + eapply pledges_roused; [exact Hpl|]. by eapply roused_trans.
    + destruct vigour as [?|Hlv]; [by left|]. destruct Hlt3 as [?|(r & Hr & Hl)]; [by left|].
      right. exists r. split; [by apply (ranked_roused m1)|]. simpl in *. pose proof (lv_alert Hlv).
      pose proof (load_woke r w1 w4 Hh4 (Hwk _ (not_stuck w1 s1 q1 G Hcm1 (pledges_roused _ _ _ Hpl Hh1) Hq1 Hlv Hne1))). lia.
Qed.

(** ** The main loop *)

(** Nothing is left to do only when no coroutine is left. *)
Lemma done_means_empty w s q G : calm w s q G None -> SCHEDULE_ISDONE s = true -> w_coros w = ∅.
Proof.
  intros Hcm Hd. apply map_eq. intros a. rewrite lookup_empty. destruct (w_coros w !! a) as [c|] eqn:Hc; [exfalso|done].
  pose proof (cm_ok _ _ _ _ _ _ Hcm) as Hok. unfold SCHEDULE_ISDONE in Hd.
  rewrite !andb_true_iff in Hd. destruct Hd as [[[Hcnt Hsl] Hr] Hu].
  rewrite rb_empty_law in Hsl by apply (ok_timers _ _ _ Hok). apply bool_decide_eq_true_1 in Hsl.
  pose proof (rep2_of _ _ ready (ok_queues _ _ _ Hok)) as H1. pose proof (rep2_of _ _ urgent_ready (ok_queues _ _ _ Hok)) as H2.
  rewrite (rep_empty _ _ _ H1) in Hr. rewrite (rep_empty _ _ _ H2) in Hu.
  destruct (cm_placed _ _ _ _ _ _ Hcm a c Hc) as [Hq|Hf]; [done| |].
  - rewrite (queued_split ready) in Hq. simpl in *. destruct q as [[|? ?] [|? ?]]; try done. by destruct Hq as [?%elem_of_nil|?%elem_of_nil].
  - apply orb_prop in Hf as [Hf|Hf].
    + pose proof (tm_flag _ _ (ok_timers _ _ _ Hok) a c Hc Hf) as Hv. unfold view in Hv. by rewrite Hsl, lookup_empty in Hv.
    + destruct (cm_waiting _ _ _ _ _ _ Hcm a c Hc Hf) as [fd Hfd]. unfold fds in Hfd.
      apply Z.eqb_eq in Hcnt. rewrite (htable_count_size _ (ok_fds_wf _ _ _ Hok)) in Hcnt.
      assert (E : habs (s_fd_co_map s) = ∅) by (apply map_size_empty_inv; lia). by rewrite E, lookup_empty in Hfd.
Qed.

(** Nobody waits for a semaphore when no coroutine is left. *)
Definition idle w : Prop :=
  forall sem, is_Some (cl_sems env !! sem) -> exists x, w_sems w !! sem = Some x /\ sem_wqueue x = [].

Lemma empty_idle w s q G : calm w s q G None -> w_coros w = ∅ -> idle w.
Proof.
  intros Hcm He sem Hsem. destruct (ow_sems _ _ _ _ (cm_owners _ _ _ _ _ _ Hcm) sem Hsem) as [x Hx].
  exists x. split; [done|]. destruct (sem_wqueue x) as [|fd l] eqn:Hl; [done|exfalso].
  destruct (ow_queue _ _ _ _ (cm_owners _ _ _ _ _ _ Hcm) sem x fd Hx) as (_ & a & Ha & _); [rewrite Hl; left|].
  destruct (ok_fds _ _ _ (cm_ok _ _ _ _ _ _ Hcm) fd a Ha) as (_ & _ & _ & c & Hc & _). by rewrite He, lookup_empty in Hc.
Qed.

Definition finished (r : Z) m : Prop := r = 0 /\ w_coros (m_world m) = ∅ /\ idle (m_world m).

Lemma empty_means_done w s q G : calm w s q G None -> w_coros w = ∅ -> SCHEDULE_ISDONE s = true.
Proof.
  intros Hcm He. pose proof (cm_ok _ _ _ _ _ _ Hcm) as Hok. unfold SCHEDULE_ISDONE.
  pose proof (rep2_of _ _ ready (ok_queues _ _ _ Hok)) as H1. pose proof (rep2_of _ _ urgent_ready (ok_queues _ _ _ Hok)) as H2.
  rewrite (rep_empty _ _ _ H1), (rep_empty _ _ _ H2), rb_empty_law by apply (ok_timers _ _ _ Hok).
  rewrite (htable_count_size _ (ok_fds_wf _ _ _ Hok)).
  assert (Hq : forall h, qlist h q = []).
  { intros h. destruct (qlist h q) as [|a l] eqn:Hl; [done|]. destruct (ok_queued _ _ _ Hok a) as (c & Hc & _).
    - apply (queued_split h). left. rewrite Hl. left.
    - by rewrite He, lookup_empty in Hc. }
  assert (Hf : habs (s_fd_co_map s) = ∅).
  { apply map_empty. intros fd. destruct (habs (s_fd_co_map s) !! fd) as [a|] eqn:E; [|done].
    destruct (ok_fds _ _ _ Hok fd a E) as (_ & _ & _ & c & Hc & _). by rewrite He, lookup_empty in Hc. }
  assert (Hv : st_view (s_sleeping s) = ∅).
  { apply map_empty. intros k. destruct (st_view (s_sleeping s) !! k) as [a|] eqn:E; [|done].
    destruct (tm_entry _ _ (ok_timers _ _ _ Hok) k a E) as (c & Hc & _). by rewrite He, lookup_empty in Hc. }
  rewrite (Hq ready), (Hq urgent_ready), Hf, Hv. by rewrite bool_decide_true.
Qed.

Lemma main_loop_calm fuel m n : weary \/ (n < fuel)%nat -> in_order n m -> runs_ok (main_loop funcs fuel) finished m.
Proof.
  revert m n. induction fuel as [|fuel IH]; intros m n Hn Hord; [destruct Hn; [by split|lia]|]. cbn [main_loop].
  pose proof Hord as (q & s & G & (Hcm & _) & Hlt). pose proof (cm_sched _ _ _ _ _ _ Hcm) as Hs.
  eapply runs_step; [by apply in_world_sched|].
  destruct (SCHEDULE_ISDONE s) eqn:Hd.
  - eapply runs_world; [by apply upd_sched_run|]. pose proof (done_means_empty _ s q G Hcm Hd) as He.
    split_and!; [done|done|]. exact (empty_idle _ s q G Hcm He).
  - assert (Hne : w_coros (m_world m) <> ∅) by (intros E; by rewrite (empty_means_done _ s q G Hcm E) in Hd).
    destruct (map_choose _ Hne) as (a & c & Hc). pose proof (light_some m n a c Hlt Hc) as Hpos.
    apply runs_bind. eapply runs_weaken; [apply (sched_turn_calm fuel m n); [|done|done]|].
    + intros ->. destruct Hn, Hpos; [done..|lia].
    + intros r m1 [-> Hord1]. apply (IH m1 (pred n)); [|done]. destruct Hn, Hpos; [by left..|right; lia].
Qed.

Lemma schedule_run_calm fuel m s q G n :
  all_calm m s q G -> light m n -> weary \/ (n < fuel)%nat -> s_status s = SCHEDULE_STATUS_READY ->
  runs_ok (dyco_schedule_run funcs fuel) finished m.
Proof.
  intros (Hcm & Hctx & Hpl) Hlt Hn Hst. pose proof (cm_sched _ _ _ _ _ _ Hcm) as Hs. unfold dyco_schedule_run.
  eapply runs_world; [unfold get_sched, gets; rewrite Hs; reflexivity|].
  cbv beta iota. rewrite Hst. eapply runs_world; [by apply upd_sched_run|].
  apply (main_loop_calm _ _ n); [done|]. exists q, (set_s_status SCHEDULE_STATUS_RUNNING s), G.
  split; [split_and!|].
  - apply (calm_sched env _ s); try done. by left.
  - apply (has_ctx_roused m); [done|by apply roused_refl].
  - by apply (pledges_roused (m_world m)); [|apply roused_refl].
  - apply (light_roused m); [done|by apply roused_refl].
Qed.

(** At the start every coroutine has its whole program before it. *)
Lemma new_light m : (forall a c, w_coros (m_world m) !! a = Some c -> new_flag c = true) ->
  light m (size (w_coros (m_world m)) * (2 * (len + 3) + 1)).
Proof.
  intros Hnew. right. exists (fun _ => len + 2)%nat. split; [intros a c Hc; by rewrite (Hnew a c Hc)|].
  apply weight_bound. intros a c _. unfold burden. destruct (waiting_flag c); lia.
Qed.

End cooperation.

(** For any fuel. *)
Lemma schedule_run_safely {os : OS} {osl : OSLaws os} {ins : Inside os} {cl : CalmLaws os} {T : Type}
    {st : SleepTree T} {stl : SleepTreeLaws T} env (funcs : Z -> Z -> prog (@world os T) unit) fuel m s q G :
  all_calm env funcs m s q G -> s_status s = SCHEDULE_STATUS_READY ->
  runs_ok True (dyco_schedule_run funcs fuel) (finished env) m.
Proof. intros Hall Hst. apply (schedule_run_calm env funcs True O (or_introl I) fuel m s q G O); try done; by left. Qed.

Lemma runs_safely {os : OS} {T : Type} {A} (x : M (@machine os T) A) P m :
  runs_ok True x P m -> match x m with Ok (y, m') => P y m' | Err e => e = FFuel end.
Proof. unfold runs_ok. destruct (x m) as [[y m']|e]; [done|by intros []]. Qed.

(** C6. Coroutines that keep to the rules of [calm_prog]: they compute; they sleep
    for at most 4294967 milliseconds, the longest time whose microseconds do
    not wrap (from 2^31 milliseconds on a coroutine is lost, by
    [long_sleep_is_never_woken]); they wait on and signal the semaphores of the
    client without a time limit; and they send and receive without a time limit
    over its channels, each end of which has one owner at a time, messages that
    follow the sequence fixed for the channel in advance.  Their number, their
    order and their control flow are any.  On a system that runs out of neither
    memory nor descriptors, however long the scheduler runs, no call fails, and
    the run has no other end than the end of the fuel until every coroutine has
    returned and been released; then its result is 0. *)
Theorem cooperating_run_safely {os : OS} {osl : OSLaws os} {ins : Inside os} {cl : CalmLaws os} {T : Type}
    {st : SleepTree T} {stl : SleepTreeLaws T} env (funcs : Z -> Z -> prog (@world os T) unit) fuel m s q G :
  all_calm env funcs m s q G -> s_status s = SCHEDULE_STATUS_READY ->
  match dyco_schedule_run funcs fuel m with
  | Ok (r, m') => r = 0 /\ w_coros (m_world m') = ∅
  | Err e => e = FFuel
  end.
Proof.
  intros Hall Hst. apply (runs_safely _ (fun r m' => r = 0 /\ w_coros (m_world m') = ∅)).
  eapply runs_weaken; [by apply (schedule_run_safely env funcs fuel m s q G)|]. by intros r m' (? & ? & _).
Qed.

(** Coroutine 16 waits for coroutine 32, which sleeps for 6 milliseconds and
    signals; then it sleeps for 3 milliseconds and signals in turn. *)
Definition ex_sem : addr := 48.

Definition ex_meet (func arg : Z) : prog (@world sat (gmap Z addr)) unit :=
  do! (if func =? 1
       then let! _ := dyco_semaphore_wait ex_sem (-1) in dyco_coroutine_sleep 3
       else dyco_coroutine_sleep (arg mod 1000));
  let! _ := atomic (dyco_semaphore_signal ex_sem) in PRet tt.

(** Both are ready; the semaphores are [sems]. *)
Definition ex_ready (sems : gmap Z semaphore) : machine :=
  mk_machine (mk_world (os := sat) ex_kern 1 (Some ex_rr_sched) ex_task_cos ∅ ∅ ∅ ∅ sems) ∅ ∅.

Definition ex_meet_env : client := mk_client {[ex_sem := None]} 0.

Lemma ex_meet_calm func arg : calm_prog ex_meet_env no_locks unit (ex_meet func arg) (fun _ _ => True).
Proof.
  assert (Hev : ~ lock ex_meet_env ex_sem) by (by intros [cap H]).
  eapply (cp_bind _ _ _ _ _ _ (fun _ l => l = no_locks)).
  - destruct (func =? 1).
    + eapply cp_bind; [apply cp_wait; [right; by eexists|done..]|]. intros r l [(_ & _ & ->)|(_ & _ & ->)]; (apply cp_sleep; [done|by right]).
    + apply cp_sleep; [Z.to_euclidean_division_equations; lia|by right].
  - intros [] l ->. eapply cp_bind; [apply cp_signal; [right; by eexists|done]|]. intros r l _. by apply cp_ret.
Qed.

Lemma ex_task_inv a c : ex_task_cos !! a = Some c ->
  (a = 16 /\ c = ex_task_co 1 5 101) \/ (a = 32 /\ c = ex_task_co 0 6 102).
Proof. unfold ex_task_cos. intros [[<- <-]|[_ [<- <-]%lookup_singleton_Some]]%lookup_insert_Some; [by left|by right]. Qed.

Lemma ex_ready_new env sems :
  cl_chans env = ∅ ->
  cl_udata env = 0 -> (forall sem, is_Some (cl_sems env !! sem) -> is_Some (sems !! sem)) ->
  (forall sem x, sems !! sem = Some x -> sem_wqueue x = []) ->
  (forall sem cap, cl_sems env !! sem = Some (Some cap) -> 0 <= cap <= DYCO_SEM_VALUE_MAX /\ sems !! sem = Some (mk_sem cap [])) ->
  all_new env (ex_ready sems) ex_rr_sched ([], [16; 32]) (mk_ghost ∅ ∅).
Proof.
  intros Hch Hu Hsems Hq0 Hcap. assert (Hq : queued ([], [16; 32]) = [16; 32]) by done.
  assert (Hnew : forall a c, ex_task_cos !! a = Some c -> new_flag c = true /\ blocked c = false /\
    waiting_flag c = false /\ co_sleep_usecs c = 0 /\ calm_co false c /\ a ∈ [16; 32]).
  { intros a c [[-> ->]|[-> ->]]%ex_task_inv; (split_and!; [done|done|done|done| |by set_solver]);
      (split_and!; [done|done|done|by left|by repeat constructor|done]). }
  split; [split|]; simpl; try done.
  - by apply ex_tasks_ok.
  - intros a c Hc _. left. rewrite Hq. apply (Hnew a c Hc).
  - intros a c Hc Hb. destruct (Hnew a c Hc) as (_ & Hf & _). congruence.
  - intros a c Hc Hw. destruct (Hnew a c Hc) as (_ & _ & Hf & _). congruence.
  - intros a c Hc _. apply (Hnew a c Hc).
  - intros a c Hc _. destruct (Hnew a c Hc) as (_ & _ & _ & -> & _). split; [by vm_compute|apply lookup_empty].
  - intros a c Hc Hw. destruct (Hnew a c Hc) as (_ & _ & Hf & _). congruence.
  - split; simpl; try done.
    + intros sem x fd Hx. rewrite (Hq0 sem x Hx). by intros ?%elem_of_nil.
    + intros sem x Hx. rewrite (Hq0 sem x Hx). apply NoDup_nil_2.
    + intros sem _. by rewrite Hch.
  - split; simpl; try done. intros sem cap Hc. destruct (Hcap sem cap Hc) as [H1 H2]. split; [lia|].
    exists (mk_sem cap []). split_and!; [done|simpl; lia|]. rewrite !tally_empty. simpl. lia.
  - by apply chans_none.
  - by left.
  - intros a c Hc. destruct (Hnew a c Hc) as [-> _]. by split.
Qed.

Definition ex_meeting : machine := ex_ready {[ex_sem := mk_sem 0 []]}.

Lemma ex_meeting_calm : all_calm ex_meet_env ex_meet ex_meeting ex_rr_sched ([], [16; 32]) (mk_ghost ∅ ∅).
Proof.
  apply all_new_calm; [done|intros f arg; apply ex_meet_calm|]. apply ex_ready_new; [done|done|..].
  - intros sem [v Hv]. unfold ex_meet_env in Hv. cbn [cl_sems mk_client] in Hv. apply lookup_singleton_Some in Hv as [<- _]. rewrite lookup_singleton_eq. by eexists.
  - by intros sem x [<- <-]%lookup_singleton_Some.
  - intros sem cap Hv. unfold ex_meet_env in Hv. cbn [cl_sems mk_client] in Hv. by apply lookup_singleton_Some in Hv as [_ ?].
Qed.

Lemma cooperating_run_safely_witness :
  match dyco_schedule_run ex_meet 4900 ex_meeting with
  | Ok (r, m') => r = 0 /\ w_coros (m_world m') = ∅
  | Err e => e = FFuel
  end /\ match dyco_schedule_run ex_meet 4900 ex_meeting with Ok _ => true | Err _ => false end = true.
Proof.
  split.
  - exact (cooperating_run_safely ex_meet_env ex_meet 4900 ex_meeting ex_rr_sched ([], [16; 32]) _ ex_meeting_calm eq_refl).
  - by vm_compute.
Defined.
