(* ===== verification/Exclusion.v ===== *)
(** * Mutual exclusion

    Semaphores as locks: coroutines that guard sections of their programs with
    [dyco_semaphore_wait] and [dyco_semaphore_signal], under the main loop of
    [src/dyco_schedule.c].  The program counts the coroutines in each section
    and asserts what it expects of the semaphore; no assertion fails. *)
From S2P Require Import Prelude Htable Queue SleepTree World SimOS Schedule SchedInv Prog Coroutine Semaphore.
From S2P Require Import Asymcoro Coropool Schedcall Run RoundRobin Calm CalmSteps Safe Rules SatOS Cooperation.

Local Open Scope Z_scope.
Local Open Scope dyco_scope.

Section exclusion.
Context {os : OS} {osl : OSLaws os} {ins : Inside os} {cl : CalmLaws os} {T : Type} {st : SleepTree T} {stl : SleepTreeLaws T}.
Local Abbreviation world := (@world os T).

(** A section of [sem], which admits [cap] coroutines: [enter] and [leave]
    count them. *)
Definition critical (sem cap : Z) (enter leave : kernel -> Z * kernel) (body : prog world unit) : prog world unit :=
  let! r := dyco_semaphore_wait sem (-1) in
  do! assert (r =? 0);
  let! n := atomic (sys enter) in
  do! assert (n <=? cap);
  do! body;
  let! _ := atomic (sys leave) in
  let! r := atomic (dyco_semaphore_signal sem) in
  assert (r =? 0).

(** [caps] gives the semaphores and their values at the start; [L] are those in
    whose section the program is. *)
Context (caps : gmap addr Z).
Definition lock_env (udata : Z) : client := mk_client (Some <$> caps) udata.

Inductive sectioned : gset addr -> forall A : Type, prog world A -> Prop :=
  | sec_ret L A (x : A) : sectioned L A (PRet x)
  | sec_bind L A B (p : prog world A) (f : A -> prog world B) :
      sectioned L A p -> (forall x, sectioned L B (f x)) -> sectioned L B (pbind p f)
  | sec_sys L A (f : kernel -> A * kernel) : quiet f -> sectioned L A (atomic (sys f))
  | sec_sleep L msecs : 0 <= msecs <= 4294967 -> sectioned L unit (dyco_coroutine_sleep msecs)
  | sec_critical L sem cap enter leave body :
      caps !! sem = Some cap -> sem <> NULL -> sem ∉ L -> counts 1 sem enter -> counts (-1) sem leave ->
      sectioned ({[sem]} ∪ L) unit body -> sectioned L unit (critical sem cap enter leave body).

Lemma lock_env_lock udata sem cap : caps !! sem = Some cap -> cl_sems (lock_env udata) !! sem = Some (Some cap).
Proof. intros H. simpl. by rewrite lookup_fmap, H. Qed.

Lemma critical_calm udata l sem cap enter leave body :
  caps !! sem = Some cap -> sem <> NULL -> sem ∉ l_held l -> sem ∉ l_in l -> counts 1 sem enter -> counts (-1) sem leave ->
  (forall l', l_held l' = {[sem]} ∪ l_held l -> l_in l' = {[sem]} ∪ l_in l ->
    calm_prog (lock_env udata) l' unit body (fun _ l'' => l'' = l')) ->
  calm_prog (lock_env udata) l unit (critical sem cap enter leave body) (fun _ l' => l' = l).
Proof.
  intros Hcap Hnn Hh Hi He Hl Hbody. pose proof (lock_env_lock udata sem cap Hcap) as Hc.
  assert (Hlk : lock (lock_env udata) sem) by (by eexists).
  unfold critical. eapply cp_bind; [apply cp_wait; [right; by eexists|done..]|].
  intros r l1 [(-> & _ & ->)|(_ & [?|?] & _)]; [|done..].
  eapply cp_bind; [by apply assert_calm|]. intros [] l1 ->. unfold got. rewrite Hc.
  eapply cp_bind; [by apply (cp_enter _ _ sem cap); [..|simpl; set_solver|]|]. intros n l1 [Hn ->]. cbn [l_held l_in].
  eapply cp_bind; [apply assert_calm; by apply Z.leb_le|]. intros [] l1 ->.
  eapply cp_bind; [by apply Hbody|]. intros [] l1 ->.
  eapply cp_bind; [apply (cp_leave _ _ sem); [done|simpl; set_solver]|]. intros m l1 ->. cbn [l_held l_in].
  eapply cp_bind; [apply cp_signal; [right; by eexists|intros _; simpl; set_solver]|].
  intros r l1 [(-> & ->)|(_ & [?|?] & _)]; [|done..]. unfold given. rewrite Hc. cbn [l_held l_in].
  eapply cp_weaken; [by apply assert_calm|]. intros [] l1 ->. destruct l as [H I]. simpl in *. f_equal; set_solver.
Qed.

Lemma sectioned_calm udata L A (p : prog world A) l :
  sectioned L A p -> l_held l = L -> l_in l = L -> calm_prog (lock_env udata) l A p (fun _ l' => l' = l).
Proof.
  intros Hp. revert l. induction Hp as [L A x|L A B p f Hp IHp Hf IHf|L A f Hf|L msecs Hm|L sem cap en le body Hc Hn Hs He Hl Hb IHb];
    intros l E1 E2.
  - by apply cp_ret.
  - eapply cp_bind; [by apply IHp|]. intros x l' ->. by apply IHf.
  - by apply cp_sys.
  - apply cp_sleep; [done|by right].
  - rewrite <- E1 in Hs. apply critical_calm; try done; [by rewrite E2, <- E1|].
    intros l' E3 E4. apply IHb; congruence.
Qed.

(** C7. Mutual exclusion: in programs of any number of coroutines that compute,
    sleep and enter sections guarded by semaphores, nested in any way that does
    not ask twice for the same, there are never more coroutines in a section
    than the value that its semaphore had at the start; every wait and every
    signal succeeds; and the run can only end with 0 and every coroutine run to
    its end.  A failed assertion would be the fault [FExit]. *)
Theorem critical_sections_exclude (funcs : Z -> Z -> prog world unit) udata fuel m s q G :
  (forall func arg, sectioned ∅ unit (funcs func arg)) ->
  all_new (lock_env udata) m s q G -> s_status s = SCHEDULE_STATUS_READY ->
  match dyco_schedule_run funcs fuel m with
  | Ok (r, m') => r = 0 /\ w_coros (m_world m') = ∅
  | Err e => e = FFuel
  end.
Proof.
  intros Hf Hall Hst. apply (runs_safely _ (fun r m' => r = 0 /\ w_coros (m_world m') = ∅)).
  eapply runs_weaken; [apply (schedule_run_safely (lock_env udata) funcs fuel m s q G); [|done]|by intros r m' (? & ? & _)].
  apply all_new_calm; [done| |done]. intros func arg. eapply cp_weaken; [by apply (sectioned_calm udata ∅)|done].
Qed.

End exclusion.

(** Coroutines 16 and 32 sleep in the section of a semaphore of value 1. *)
Definition ex_caps : gmap addr Z := {[ex_sem := 1]}.

Definition ex_locked (func arg : Z) : prog (@world sat (gmap Z addr)) unit :=
  critical ex_sem 1 (sat_add 1 ex_sem) (sat_add (-1) ex_sem) (dyco_coroutine_sleep (arg mod 1000)).

Definition ex_locks : machine := ex_ready {[ex_sem := mk_sem 1 []]}.

Lemma ex_locks_new : all_new (lock_env ex_caps 0) ex_locks ex_rr_sched ([], [16; 32]) (mk_ghost ∅ ∅).
Proof.
  apply ex_ready_new; [done|done|..].
  - intros sem [v Hv]. simpl in Hv. rewrite lookup_fmap in Hv. apply fmap_Some in Hv as (x & Hx & _).
    unfold ex_caps in Hx. apply lookup_singleton_Some in Hx as [<- _]. rewrite lookup_singleton_eq. by eexists.
  - by intros sem x [<- <-]%lookup_singleton_Some.
  - intros sem cap Hv. simpl in Hv. rewrite lookup_fmap in Hv. apply fmap_Some in Hv as (x & Hx & [= ->]).
    unfold ex_caps in Hx. apply lookup_singleton_Some in Hx as [<- <-]. split; [done|apply lookup_singleton_eq].
Qed.

Lemma critical_sections_exclude_witness :
  match dyco_schedule_run ex_locked 4900 ex_locks with
  | Ok (r, m') => r = 0 /\ w_coros (m_world m') = ∅
  | Err e => e = FFuel
  end /\ match dyco_schedule_run ex_locked 4900 ex_locks with Ok _ => true | Err _ => false end = true.
Proof.
  split.
  - refine (critical_sections_exclude ex_caps ex_locked 0 4900 ex_locks ex_rr_sched ([], [16; 32]) _ _ ex_locks_new eq_refl).
    intros func arg. apply sec_critical; [apply lookup_singleton_eq|done|set_solver|apply sat_counts|apply sat_counts|].
    apply sec_sleep. Z.to_euclidean_division_equations; lia.
  - by vm_compute.
Defined.
