(* ===== verification/Startup.v ===== *)
(** * From an empty thread to the main loop

    What a [main] function does before it calls [dyco_schedule_run]: the first
    [dyco_coroutine_create] makes the scheduler, every one adds a coroutine,
    semaphores are made and the data of the user are set.  [started] is the
    state in between; in it the thread is in good order and every coroutine is
    new. *)
From S2P Require Import Prelude Htable Queue SleepTree World SimOS Schedule SchedInv Prog Coroutine Semaphore.
From S2P Require Import Asymcoro Coropool Schedcall Run RoundRobin Calm CalmSteps Safe Rules SatOS Cooperation.

Local Open Scope Z_scope.
Local Open Scope dyco_scope.

Section startup.
Context {os : OS} {osl : OSLaws os} {ins : Inside os} {cl : CalmLaws os} {T : Type} {st : SleepTree T} {stl : SleepTreeLaws T}.
Local Abbreviation world := (@world os T).
Local Abbreviation dyco_schedule := (@dyco_schedule T).
Implicit Types (w : world) (s : dyco_schedule) (c : dyco_coroutine) (a : addr) (q : list Z * list Z).

Definition no_ghost : ghost := mk_ghost ∅ ∅.

Record started env w s q : Prop := {
  sd_calm : calm env w s q no_ghost None;
  sd_view : view s = ∅;
  sd_status : s_status s = SCHEDULE_STATUS_READY;
  sd_new a c : w_coros w !! a = Some c -> new_flag c = true;
  sd_count : 0 <= count (s_cid_co_map s) <= s_cid_gen s;
  sd_size : Z.of_nat (size (w_coros w)) <= s_cid_gen s;
  sd_inside sem : inside (w_kern w) sem = 0
}.

(** ** Creation *)

Lemma fresh_cid_valid s : 0 <= s_cid_gen s < 1000 -> fresh_cid s <> 0 /\ fresh_cid s <> -1.
Proof.
  intros Hg. unfold fresh_cid.
  assert (E : Z.land (s_cid_gen s + 1) 0xffffff = s_cid_gen s + 1).
  { change 0xffffff with (Z.ones 24). rewrite Z.land_ones by lia. apply Z.mod_small. lia. }
  rewrite E. destruct (make_cid_word (s_sched_id s) (s_cid_gen s + 1)) as [-> Hr]; [lia|].
  set (x := Z.land (s_sched_id s) 255) in *.
  assert (Hx : 0 <= x < 2 ^ 8).
  { unfold x. change 255 with (Z.ones 8). rewrite Z.land_ones by lia. apply Z.mod_pos_bound. lia. }
  unfold i32, swrap, uwrap. rewrite Z.mod_small by (unfold is_u32 in Hr; lia).
  destruct (_ <? _); split; lia.
Qed.

Lemma new_co_calm func arg cid : cid <> 0 -> cid <> -1 -> calm_co false (new_co func arg cid).
Proof.
  intros H0 H1. split_and!; try done; [by left|].
  unfold NEVER. repeat constructor.
Qed.

Lemma create_started env w s q func arg :
  started env w s q -> s_cid_gen s < 1000 ->
  exists w' s' p, dyco_coroutine_create func arg w = Ok (fresh_cid s, w') /\
    started env w' s' (q.1, q.2 ++ [p]) /\ s_cid_gen s' = s_cid_gen s + 1 /\ w_sems w' = w_sems w /\
    w_coros w !! p = None /\ w_coros w' = <[p := new_co func arg (fresh_cid s)]> (w_coros w).
Proof.
  intros [Hcm Hv Hst Hnew Hcnt Hsz Hin] Hg. pose proof (cm_sched _ _ _ _ _ _ Hcm) as Hs. pose proof (cm_ok _ _ _ _ _ _ Hcm) as Hok.
  destruct (fresh_cid_valid s ltac:(lia)) as [H0 H1].
  destruct (os_malloc (used_addrs w) (w_kern w)) as [p k] eqn:Hm. pose proof (malloc_succeeds (used_addrs w) (w_kern w)) as Hp.
  pose proof (malloc_later (used_addrs w) (w_kern w)) as Hl1. rewrite Hm in Hp, Hl1. cbn [fst snd] in Hp, Hl1.
  assert (Hml : 1000 < max_load) by (by vm_compute).
  assert (Hld : count (s_cid_co_map s) + 1 < max_load) by lia.
  destruct (create_ok w s q p k func arg) as (h & Hrun & Hok' & Hwh & Hah & Hfr); try done; [apply alloc_succeeds|].
  set (c := new_co func arg (fresh_cid s)) in *. set (w' := set_w_sched (Some (adopt p h s)) _) in *.
  assert (Hl : later (w_kern w) (w_kern w')) by (eapply later_trans; [exact Hl1|apply alloc_later]).
  assert (Hgen : Z.land (s_cid_gen s + 1) 0xffffff = s_cid_gen s + 1).
  { change 0xffffff with (Z.ones 24). rewrite Z.land_ones by lia. apply Z.mod_small. lia. }
  assert (Hs' : adopt p h s = set_s_queues (TAILQ_INSERT_TAIL (link_alloc (s_queues s) p) ready p)
      (set_s_coro_count (u32 (s_coro_count s + 1)) (set_s_cid_co_map h (set_s_cid_gen (s_cid_gen s + 1) s)))).
  { unfold adopt. rewrite Hgen. simpl. rewrite decide_False; [done|]. by rewrite Hst. }
  exists w', (adopt p h s), p. split_and!; [exact Hrun| |by rewrite Hs'|done|done|done].
  assert (Hc : calm_co false c) by (by apply new_co_calm).
  assert (Hcase : forall b cb, w_coros w' !! b = Some cb -> (b = p /\ cb = c) \/ (b <> p /\ w_coros w !! b = Some cb)).
  { intros b cb Hb. change (w_coros w') with (<[p := c]> (w_coros w)) in Hb.
    apply lookup_insert_Some in Hb as [[<- <-]|[Hne Hb]]; [by left|right; split; [congruence|done]]. }
  assert (Hq : forall b, b ∈ queued (q.1, q.2 ++ [p]) <-> b = p \/ b ∈ queued q).
  { intros b. unfold queued. simpl. rewrite !elem_of_app, list_elem_of_singleton. tauto. }
  pose proof (cm_birth _ _ _ _ _ _ Hcm) as Hbirth. pose proof (proj1 (proj1 Hl)) as Hnow.
  change (w_kern w') with (os_alloc_ok k).2 in Hnow.
  split.
  - rewrite Hs'. rewrite Hs' in Hok'. pose proof Hcm as []. split; try done; simpl.
    + exact (f_equal Some Hs').
    + intros b cb [[-> ->]|[Hne Hb]]%Hcase _; [left; apply Hq; by left|].
      destruct (cm_placed b cb Hb ltac:(done)); [left; apply Hq; by right|by right].
    + intros b cb [[-> ->]|[Hne Hb]]%Hcase Hbl; [by vm_compute in Hbl|]. rewrite Hq. intros [?|?]; [done|by apply (cm_once b cb)].
    + intros b cb [[-> ->]|[Hne Hb]]%Hcase Hw; [by vm_compute in Hw|by apply (cm_apart b cb)].
    + intros b cb [[-> ->]|[Hne Hb]]%Hcase _; [done|by apply (cm_co b cb)].
    + intros b cb [[-> ->]|[Hne Hb]]%Hcase Hsl; unfold clock in *; simpl in *.
      * split; [lia|]. change (view s !! 0 = None). by rewrite Hv.
      * destruct (cm_keys b cb Hb Hsl). split; [lia|done].
    + intros b cb [[-> ->]|[Hne Hb]]%Hcase Hw; [by vm_compute in Hw|by apply (cm_waiting b cb)].
    + apply (owners_same env w s); try done. intros b Hb. apply lookup_insert_is_Some'. by right.
    + apply (permits_same env w); [done|apply Hl|apply Hl|done].
    + apply (chans_same env w); [done|done|apply Hl].
    + lia.
    + rewrite map_size_insert_None by done. lia.
  - by rewrite Hs'.
  - by rewrite Hs'.
  - intros b cb [[-> ->]|[Hne Hb]]%Hcase; [done|by apply (Hnew b)].
  - rewrite Hs'. simpl. rewrite (htable_count_size h Hwh), Hah. rewrite (htable_count_size _ (ok_cids_wf _ _ _ Hok)) in Hcnt.
    pose proof (size_insert_le (cids s) (fresh_cid s) p). unfold cids in *. lia.
  - rewrite Hs'. simpl. rewrite map_size_insert_None by done. lia.
  - intros sem. rewrite <- (Hin sem). apply Hl.
Qed.

(** Several in a row. *)
Fixpoint create_all (l : list (Z * Z)) : M world unit :=
  match l with
  | [] => ret tt
  | (func, arg) :: l' => let* _ := dyco_coroutine_create func arg in create_all l'
  end.

(** The coroutines that have been created, in their order. *)
Record created (l : list (Z * Z)) (ps : list addr) w w' : Prop := {
  cr_nodup : NoDup ps;
  cr_fresh p : p ∈ ps -> w_coros w !! p = None;
  cr_each : Forall2 (fun p fa => exists c, w_coros w' !! p = Some c /\ (co_func c, co_arg c) = fa) ps l;
  cr_only a : a ∉ ps -> w_coros w' !! a = w_coros w !! a
}.

Lemma created_nil w : created [] [] w w.
Proof. split; [constructor|by intros p ?%elem_of_nil|constructor|done]. Qed.

Lemma created_cons func arg cid l p ps w w1 w2 :
  w_coros w !! p = None -> w_coros w1 = <[p := new_co func arg cid]> (w_coros w) -> created l ps w1 w2 ->
  created ((func, arg) :: l) (p :: ps) w w2.
Proof.
  intros Hp Hw1 [Hnd Hfr Heach Hon].
  assert (Hin : p ∉ ps) by (intros Hin; apply Hfr in Hin; by rewrite Hw1, lookup_insert_eq in Hin). split.
  - by constructor.
  - intros a [->|Ha]%elem_of_cons; [done|]. apply Hfr in Ha. rewrite Hw1 in Ha. by apply lookup_insert_None in Ha as [? _].
  - constructor; [|done]. rewrite (Hon p Hin), Hw1, lookup_insert_eq. by eexists.
  - intros a [Hne Ha]%not_elem_of_cons. rewrite (Hon a Ha), Hw1. by rewrite lookup_insert_ne.
Qed.

Lemma create_all_started env l w s q :
  started env w s q -> s_cid_gen s + Z.of_nat (length l) <= 1000 ->
  exists w' s' q', create_all l w = Ok (tt, w') /\ started env w' s' q' /\ w_sems w' = w_sems w /\
    exists ps, created l ps w w'.
Proof.
  revert w s q. induction l as [|[func arg] l IH]; intros w s q Hsd Hg.
  { exists w, s, q. split_and!; [done|done|done|]. exists []. apply created_nil. }
  simpl in Hg. destruct (create_started env w s q func arg Hsd ltac:(lia)) as (w1 & s1 & p & Hrun & Hsd1 & Hg1 & Hsem1 & Hp & Hw1).
  destruct (IH w1 s1 _ Hsd1 ltac:(lia)) as (w2 & s2 & q2 & Hrun2 & Hsd2 & Hsem2 & ps & Hps).
  exists w2, s2, q2. cbn [create_all]. rewrite (bind_ok _ _ _ _ _ Hrun). split_and!; [done|done|congruence|].
  exists (p :: ps). by eapply created_cons.
Qed.

Lemma created_size l ps w w' : created l ps w w' -> w_coros w = ∅ -> (size (w_coros w') <= length l)%nat.
Proof.
  intros [Hnd _ Heach Hon] He. rewrite <- (Forall2_length _ _ _ Heach), <- (size_list_to_set (C := gset addr) ps) by done.
  rewrite <- size_dom. apply subseteq_size. intros a Ha%elem_of_dom. apply elem_of_list_to_set.
  destruct (decide (a ∈ ps)) as [|Hn]; [done|]. rewrite (Hon a Hn), He in Ha. by destruct Ha.
Qed.

(** ** The scheduler *)

(** A thread that has done nothing yet. *)
Record empty_thread w : Prop := {
  et_sched : w_sched w = None;
  et_coros : w_coros w = ∅;
  et_sems : w_sems w = ∅;
  et_inside sem : inside (w_kern w) sem = 0
}.

Lemma new_queues_ok : rep2' new_queues ([], []).
Proof. split; [split; [done|constructor]..|constructor]. Qed.

Lemma schedule_create_started w :
  empty_thread w -> depth <= DYCO_MAX_STACKSIZE ->
  exists id w' s, dyco_schedule_create 0 0 w = Ok (id, w') /\ started (mk_client ∅ 0) w' s ([], []) /\ s_cid_gen s = 0 /\
    w_sems w' = ∅ /\ w_coros w' = ∅.
Proof.
  intros [Hs Hc Hsem Hin] Hd. unfold dyco_schedule_create. pose proof (alloc_succeeds (w_kern w)) as Hmem.
  pose proof (alloc_later (w_kern w)) as Hl1. unfold memory_ok in Hmem.
  destruct (os_alloc_ok (w_kern w)) as [ok k1] eqn:Hal. cbn [fst snd] in Hmem, Hl1. mrun. rewrite Hmem. cbn [negb].
  destruct (os_epoll_create k1) as [ep k2] eqn:Hep.
  pose proof (epoll_create_succeeds k1) as He. pose proof (epoll_create_onward k1) as Hl2. pose proof (epoll_create_fresh k1) as Hfr.
  rewrite Hep in He, Hl2, Hfr. cbn [fst snd] in He, Hl2, Hfr. erewrite bind_ok by (unfold sys; simpl; rewrite Hep; reflexivity).
  unfold DYCO_MUSTNOT at 1. destruct (Z.eqb_spec ep (-1)) as [?|_]; [done|]. erewrite bind_ok by reflexivity.
  erewrite bind_ok by reflexivity. erewrite bind_ok by reflexivity.
  destruct (os_clock_gettime k2) as [now k3] eqn:Hck. pose proof (clock_later k2) as Hl3. rewrite Hck in Hl3. cbn [snd] in Hl3.
  erewrite bind_ok by (apply usec_now_run; exact Hck). erewrite bind_ok by reflexivity.
  assert (Hnow : u64 (now.1 * 1000000 + now.2 / 1000) = now_of k2) by (unfold now_of; rewrite Hck; by destruct now).
  rewrite Hnow. rewrite (Hmem 1%nat), (Hmem 2%nat). destruct (htable_init_spec NULL 0) as (h & Hh & Hwh & Hah).
  rewrite Hh. match goal with |- context [set_w_sched (Some ?x)] => set (s0 := x) end.
  eexists _, _, s0. split; [reflexivity|]. split; [|split_and!; [done|exact Hsem|exact Hc]].
  destruct rb_init_law as [Hwt Hvt]. assert (Hcl : onward (w_kern w) k3).
  { eapply onward_trans; [apply Hl1|]. eapply onward_trans; [exact Hl2|apply Hl3]. }
  assert (Hno : forall a c, w_coros w !! a <> Some c) by (intros a c; by rewrite Hc, lookup_empty).
  assert (Hsz : s_stack_size s0 = DYCO_MAX_STACKSIZE) by done.
  assert (Hcnt : count h = 0) by (by rewrite (htable_count_size h Hwh), Hah).
  assert (Hview : view s0 = ∅) by done. assert (Hf : fds s0 = ∅) by done.
  assert (Hreg : forall fd, os_registered k3 ep fd = false) by (intros fd; rewrite (proj1 (proj2 Hl3)); apply Hfr).
  split; simpl; try done.
  - split; simpl; try done.
    + split; simpl; try done.
      * split; [done|intros key a E|intros a c E; by apply Hno in E]. change (view s0 !! key = Some a) in E. by rewrite Hview, lookup_empty in E.
      * exact new_queues_ok.
      * intros a. rewrite Hc, !lookup_empty. by split; intros [? ?].
      * by rewrite Hc.
      * intros a ?%elem_of_nil. done.
      * intros fd a. by rewrite Hf, lookup_empty.
      * intros cid a. change (cids s0) with (habs h). by rewrite Hah, lookup_empty.
    + intros a c E. by apply Hno in E.
    + intros a c E. by apply Hno in E.
    + intros a c E. by apply Hno in E.
    + intros a c E. by apply Hno in E.
    + intros a c E. by apply Hno in E.
    + intros a c E. by apply Hno in E.
    + split; simpl; try done.
      * intros fd a. by rewrite Hf, lookup_empty.
      * intros fd. by rewrite Hreg.
      * intros sem x fd. by rewrite Hsem, lookup_empty.
      * intros sem x. by rewrite Hsem, lookup_empty.
      * intros sem [? E]. by rewrite lookup_empty in E.
    + by apply chans_none.
    + split; [|apply Hl3]. unfold now_of. destruct (os_clock_gettime k2).1. apply u64_range.
    + unfold stack_room. rewrite Hsz. split; [split; [done|by vm_compute]|]. unfold s0, s_stack. rewrite length_replicate.
      change (u64 _) with DYCO_MAX_STACKSIZE. pose proof (stack_depth k2). lia.
    + by left.
    + by rewrite Hc.
  - intros a c E. by apply Hno in E.
  - by rewrite Hcnt.
  - by rewrite Hc.
  - intros sem. rewrite <- (Hin sem). apply Hcl.
Qed.

(** The first creation makes the scheduler. *)
Lemma create_first w id w1 s func arg :
  w_sched w = None -> dyco_schedule_create 0 0 w = Ok (id, w1) -> w_sched w1 = Some s ->
  dyco_coroutine_create func arg w = dyco_coroutine_create func arg w1.
Proof.
  intros Hs Hc Hs1. assert (E : newcoro w = newcoro w1).
  { unfold newcoro. erewrite bind_ok by reflexivity. rewrite Hs, (bind_ok _ _ _ _ _ Hc).
    symmetry. erewrite bind_ok by reflexivity. rewrite Hs1. by erewrite bind_ok by reflexivity. }
  unfold dyco_coroutine_create, bind at 1. rewrite E. done.
Qed.

Lemma startup_creates w l :
  empty_thread w -> depth <= DYCO_MAX_STACKSIZE -> l <> [] -> Z.of_nat (length l) <= 1000 ->
  exists w' s q, create_all l w = Ok (tt, w') /\ started (mk_client ∅ 0) w' s q /\ w_sems w' = ∅ /\
    exists ps, created l ps w w'.
Proof.
  intros He Hd Hne Hlen. destruct (schedule_create_started w He Hd) as (id & w1 & s & Hc & Hsd & Hg & Hsem & Hcos).
  destruct (create_all_started _ l w1 s _ Hsd) as (w2 & s2 & q2 & Hrun & Hsd2 & Hsem2 & ps & Hps); [lia|].
  exists w2, s2, q2. split_and!; [|done|congruence|exists ps; destruct Hps; split; rewrite ?(et_coros _ He), <- ?Hcos; done].
  destruct l as [|[func arg] l]; [done|]. cbn [create_all] in *.
  unfold bind. rewrite (create_first w id w1 s func arg); [exact Hrun|apply He|done|]. apply (cm_sched _ _ _ _ _ _ (sd_calm _ _ _ _ Hsd)).
Qed.

(** ** What the coroutines share *)

Lemma setUdata_started env w s q udata :
  started env w s q -> dyco_schedule_setUdata udata w = Ok (0, set_w_sched (Some (set_s_udata udata s)) w) /\
    started (Client (cl_sems env) (cl_chans env) udata (cl_rules env)) (set_w_sched (Some (set_s_udata udata s)) w) (set_s_udata udata s) q.
Proof.
  intros [Hcm Hv Hst Hnew Hcnt Hsz Hin]. pose proof (cm_sched _ _ _ _ _ _ Hcm) as Hs. split.
  - unfold dyco_schedule_setUdata. erewrite bind_ok by reflexivity. rewrite Hs.
    by rewrite (bind_ok _ _ _ _ _ (upd_sched_run _ s w Hs)).
  - split; try done. destruct Hcm. split; try done; simpl.
    + apply sched_ok_sched. by apply (sched_ok_irrel _ s).
    + destruct cm_owners. by split.
    + destruct cm_permits. by split.
    + destruct cm_chans as [[] ? ?]. by split.
Qed.

Lemma semaphore_create_started env w s q value :
  started env w s q -> 0 <= value <= DYCO_SEM_VALUE_MAX ->
  exists sem k, sem <> NULL /\ w_sems w !! sem = None /\
    let w' := set_w_sems (<[sem := mk_sem value []]> (w_sems w)) (set_w_kern k w) in
    dyco_semaphore_create value w = Ok (sem, w') /\
    started (Client (<[sem := Some value]> (cl_sems env)) (cl_chans env) (cl_udata env) (cl_rules env)) w' s q.
Proof.
  intros [Hcm Hv Hst Hnew Hcnt Hsz Hin] Hval. destruct (os_malloc (used_addrs w) (w_kern w)) as [p k] eqn:Hm.
  pose proof (malloc_succeeds (used_addrs w) (w_kern w)) as Hp. pose proof (malloc_later (used_addrs w) (w_kern w)) as Hl.
  rewrite Hm in Hp, Hl. cbn [fst snd] in Hp, Hl.
  assert (Hfr : w_sems w !! p = None).
  { pose proof (malloc_fresh _ _ _ _ Hm Hp) as Hf. apply not_elem_of_dom. intros Hd. apply Hf.
    unfold used_addrs. rewrite !elem_of_union. tauto. }
  assert (Hfc : cl_chans env !! p = None).
  { destruct (cl_chans env !! p) as [sm|] eqn:E; [|done]. pose proof (malloc_fresh _ _ _ _ Hm Hp) as Hf.
    destruct (ck_chan _ _ _ (cm_chans _ _ _ _ _ _ Hcm) p sm E) as (x & i & j & mr & mw & Hx & _). apply elem_of_dom_2 in Hx.
    destruct Hf. unfold used_addrs. rewrite !elem_of_union. tauto. }
  exists p, k. split_and!; [done|done|]. cbv zeta. split.
  - unfold dyco_semaphore_create. destruct (Z.ltb_spec DYCO_SEM_VALUE_MAX value); [lia|].
    rewrite (bind_ok _ _ _ _ _ (malloc_run _ _ _ Hm)). by destruct (Z.eqb_spec p NULL).
  - set (w1 := set_w_kern k w). pose proof (calm_kern env w s q no_ghost None k Hcm Hl) as Hcm1. fold w1 in Hcm1.
    assert (Hin1 : forall sem, inside k sem = 0) by (intros sem; rewrite <- (Hin sem); apply Hl).
    split; try done. destruct Hcm1. split; try done; simpl.
    + by apply sched_ok_sems.
    + destruct cm_owners. split; try done; simpl.
      * intros sem x fd [[<- <-]|[_ H]]%lookup_insert_Some Hfd; [by apply elem_of_nil in Hfd|by apply (ow_queue sem x)].
      * intros sem x [[<- <-]|[_ H]]%lookup_insert_Some; [apply NoDup_nil_2|by apply (ow_nodup sem)].
      * intros sem [v [[<- _]|[_ H]]%lookup_insert_Some]; apply lookup_insert_is_Some'; [by left|right; apply ow_sems; by eexists].
      * intros sem [<-|H]%lookup_insert_is_Some'; [done|by apply ow_apart].
    + destruct cm_permits. split; try done; simpl.
      * intros sem cap [[<- [= <-]]|[Hne H]]%lookup_insert_Some.
        -- split; [lia|]. exists (mk_sem value []). rewrite lookup_insert_eq. split_and!; [done|simpl; lia|].
           rewrite !tally_empty. simpl. lia.
        -- destruct (pm_units sem cap H) as (H1 & x & H2 & H3). split; [done|]. exists x. by rewrite lookup_insert_ne.
    + destruct cm_chans as [[] ? ?]. split; try done. split; try done; simpl. intros ch Hch.
      rewrite lookup_insert_ne by (intros ->; destruct Hch; congruence). by apply sk_apart.
Qed.

(** What the coroutines are to keep to is settled before they run. *)
Definition with_rules (ru : rules) env : client := Client (cl_sems env) (cl_chans env) (cl_udata env) ru.

Lemma started_rules env w s q ru : started env w s q -> started (with_rules ru env) w s q.
Proof.
  intros [[] Hv Hst Hnew Hcnt Hsz Hin]. split; try done. split; try done.
  - destruct cm_owners. by split.
  - destruct cm_permits. by split.
  - destruct cm_chans as [[] ? ?]. by split.
Qed.

(** Everything is ready for the main loop. *)
Lemma started_all_new env w s q ctx : started env w s q -> all_new env (mk_machine w ctx ∅) s q no_ghost.
Proof.
  intros Hsd. split; [apply Hsd|]. intros a c Hc. simpl in Hc. by rewrite (sd_new _ _ _ _ Hsd a c Hc).
Qed.

End startup.

(** A thread of the simulated system with an empty kernel. *)
Definition ex_empty : @world sat (gmap Z addr) := mk_world (mk_sim 0 3 ∅ ∅) 0 None ∅ ∅ ∅ ∅ ∅ ∅.

Lemma ex_depth : depth (os := sat) <= DYCO_MAX_STACKSIZE.
Proof. by vm_compute. Qed.

Lemma ex_empty_thread : empty_thread ex_empty.
Proof. by split. Qed.
