(* ===== verification/Pipeline.v ===== *)
(** * Messages in order

    A program like [src/example/channel.c]: two coroutines at the ends of a
    channel, among any number of others, from the start of [main] in a thread
    that has done nothing yet.  What the one sends is what the other receives,
    message by message and in the same order, and the program comes to its end. *)
From S2P Require Import Prelude Htable Queue SleepTree World SimOS Schedule SchedInv Prog Coroutine Semaphore Channel.
From S2P Require Import Asymcoro Coropool Schedcall Run RoundRobin Calm CalmSteps ChanSteps Safe ChanSafe Rules SatOS Cooperation Startup.

Local Open Scope Z_scope.
Local Open Scope dyco_scope.

(** ** A channel is made *)
Section channel_start.
Context {os : OS} {osl : OSLaws os} {ins : Inside os} {cl : CalmLaws os} {T : Type} {st : SleepTree T} {stl : SleepTreeLaws T}.
Local Abbreviation world := (@world os T).
Local Abbreviation dyco_schedule := (@dyco_schedule T).
Implicit Types (w : world) (s : dyco_schedule) (c : dyco_coroutine) (a ch : addr) (q : list Z * list Z) (G : ghost)
  (sm : stream) (x : half_duplex_channel) (b : bool) (md mr mw : mode).

(** A new eventfd disturbs nobody. *)
Lemma eventfd_calm env w s q G r fd k :
  calm env w s q G r -> os_eventfd (w_kern w) = (fd, k) ->
  0 < fd /\ os_counter (w_kern w) fd = None /\ os_counter k fd = Some 0 /\
  (forall fd', fd' <> fd -> os_counter k fd' = os_counter (w_kern w) fd') /\ calm env (set_w_kern k w) s q G r.
Proof.
  intros Hcm Hev. pose proof (cm_owners _ _ _ _ _ _ Hcm) as Hown. pose proof (cm_chans _ _ _ _ _ _ Hcm) as Hch.
  pose proof (eventfd_succeeds (w_kern w)) as [H1 H0]. pose proof (eventfd_onward (w_kern w)) as Hon.
  rewrite Hev in H1, H0, Hon. cbn [fst snd] in H1, H0, Hon.
  destruct (eventfd_new _ _ _ Hev H1) as (Hpos & Hcl & Hnew & Hoth & Hunr & Hreg). split_and!; [lia|done|done|done|].
  assert (Hsome : forall fd' n, os_counter (w_kern w) fd' = Some n -> os_counter k fd' = Some n) by (intros fd' n E; rewrite Hoth; congruence).
  apply (calm_outside env w s q G r); try done.
  - destruct Hown. split; try done; simpl.
    + intros fd'. rewrite Hreg. apply ow_reg.
    + intros a fd' sem Ha. destruct (ow_open a fd' sem Ha) as (E1 & E2 & E3). split_and!; [done|done|].
      destruct E3 as [(n & E3 & E4)|[E3 E4]]; [left; exists n; by auto|right; by auto].
    + intros sem y fd' Hy Hin. destruct (ow_queue sem y fd' Hy Hin) as (E1 & E2). auto.
  - apply (permits_step env w G); try done; [apply Hcm| |apply Hcm]. intros sem cap y Hcap Hy Hr. exists y. split_and!; [done|done|].
    f_equal. apply tally_ext. intros a [fd' obj] Ha. unfold woken. simpl.
    destruct (ow_open _ _ _ _ Hown a fd' obj Ha) as (_ & _ & [(n & E & _)|[E _]]); by rewrite (Hsome _ _ E), E.
  - apply (chans_step env w G); try done. intros fd' Hf. apply Hoth. intros ->.
    destruct (chan_open env w G fd Hch Hf). congruence.
Qed.

Definition with_stream (ch : addr) sm (env : client) : client :=
  Client (cl_sems env) (<[ch := sm]> (cl_chans env)) (cl_udata env) (cl_rules env).

Lemma calm_more_env env w s q G r ch sm :
  calm env w s q G r -> cl_chans env !! ch = None -> w_sems w !! ch = None -> chans (with_stream ch sm env) w G ->
  calm (with_stream ch sm env) w s q G r.
Proof.
  intros [] Hc Hs Hch. split; try done.
  - destruct cm_owners. split; try done; simpl.
    + intros a fd obj Ha. destruct (ow_open a fd obj Ha) as (H1 & H2 & H3). split_and!; [done|done|].
      destruct H3 as [(n & E1 & E2 & E3)|H3]; [left|by right]. exists n. split_and!; [done|done|].
      simpl. intros [E _]%lookup_insert_None. by apply E3.
    + intros sem Hsem. rewrite lookup_insert_ne; [by apply ow_apart|]. intros ->. destruct Hsem. congruence.
  - destruct cm_permits. by split.
Qed.

(** A new channel is empty, and nobody owns its ends yet. *)
Lemma chans_add env w G ch sm x :
  chans env w G -> cl_chans env !! ch = None -> ch <> NULL -> cl_sems env !! ch = None ->
  (forall b, 0 < st_desc sm b /\ ~ chan_fd env (st_desc sm b)) -> st_r sm <> st_w sm -> st_size sm < 2 ^ 31 ->
  w_chans w !! ch = Some x -> wired x sm -> ch_status x = HDC_STATUS_EMPTY ->
  (forall b, at_end (w_kern w) G ch b (st_desc sm b) Idle) -> (forall a b, l_ends (locks_of G a) !! (ch, b) = None) ->
  chans (with_stream ch sm env) w G.
Proof.
  intros [Hst Hch Hown] Hc Hn Hs Hd Hne Hsz Hx Hwx Hem Hid Hno.
  assert (Hcase : forall ch1 sm1, cl_chans (with_stream ch sm env) !! ch1 = Some sm1 ->
    (ch1 = ch /\ sm1 = sm) \/ cl_chans env !! ch1 = Some sm1).
  { intros ch1 sm1 H1. simpl in H1. apply lookup_insert_Some in H1 as [[<- <-]|[_ H1]]; [by left|by right]. }
  split; [split| |done].
  - intros ch1 sm1 b1 ch2 sm2 b2 [[-> ->]|H1]%Hcase [[-> ->]|H2]%Hcase E.
    + split; [done|]. destruct b1, b2; simpl in E; congruence.
    + destruct (Hd b1) as [_ []]. by exists ch2, sm2, b2.
    + destruct (Hd b2) as [_ []]. by exists ch1, sm1, b1.
    + by apply (sk_fds _ Hst _ _ _ _ _ _ H1 H2).
  - intros ch1 sm1 b1 [[-> ->]|H1]%Hcase; [apply Hd|by apply (sk_desc _ Hst ch1)].
  - intros ch1 sm1 [[-> ->]|H1]%Hcase; [done|by apply (sk_size _ Hst ch1)].
  - intros ch1 [sm1 [[-> ->]|H1]%Hcase]; [done|apply (sk_apart _ Hst ch1); by eexists].
  - intros ch1 sm1 [[-> ->]|H1]%Hcase; [|by apply Hch].
    exists x, 0%nat, 0%nat, Idle, Idle. do 2 (split; [done|]). split; [exact (Hid false)|]. split; [exact (Hid true)|].
    split; [unfold stage; by rewrite Hem|]. split; intros a m; by rewrite Hno.
Qed.

Lemma channel_create_started env w s q size msgs :
  started env w s q -> 0 < size < 2 ^ 31 ->
  exists ch r v k, w_chans w !! ch = None /\
    let w' := set_w_chans (<[ch := mk_chan size 0 [] r v HDC_STATUS_EMPTY]> (w_chans w)) (set_w_kern k w) in
    dyco_channel_create size w = Ok (ch, w') /\ started (with_stream ch (mk_stream r v size msgs) env) w' s q.
Proof.
  intros [Hcm Hv Hst Hnew Hcnt Hsz Hin] Hsize. destruct (os_malloc (used_addrs w) (w_kern w)) as [ch k1] eqn:Hm.
  pose proof (malloc_succeeds (used_addrs w) (w_kern w)) as Hp. pose proof (malloc_later (used_addrs w) (w_kern w)) as Hl1.
  rewrite Hm in Hp, Hl1. cbn [fst snd] in Hp, Hl1. pose proof (malloc_fresh _ _ _ _ Hm Hp) as Hf.
  assert (Hfresh : w_chans w !! ch = None /\ w_sems w !! ch = None).
  { split; apply not_elem_of_dom; intros Hd; apply Hf; unfold used_addrs; rewrite !elem_of_union; tauto. }
  destruct Hfresh as [Hfc Hfs].
  assert (Hce : cl_chans env !! ch = None).
  { destruct (cl_chans env !! ch) as [sm|] eqn:E; [|done].
    destruct (ck_chan _ _ _ (cm_chans _ _ _ _ _ _ Hcm) ch sm E) as (x & i & j & mr & mw & Hx & _). congruence. }
  assert (Hse : cl_sems env !! ch = None).
  { destruct (cl_sems env !! ch) as [sm|] eqn:E; [|done].
    destruct (ow_sems _ _ _ _ (cm_owners _ _ _ _ _ _ Hcm) ch ltac:(by eexists)). congruence. }
  pose proof (calm_kern env w s q no_ghost None k1 Hcm Hl1) as Hcm1.
  destruct (os_eventfd k1) as [r k2] eqn:He1.
  destruct (eventfd_calm env (set_w_kern k1 w) s q no_ghost None r k2 Hcm1 He1) as (Hr0 & Hr1 & Hr2 & Hoth1 & Hcm2).
  destruct (os_eventfd k2) as [v k3] eqn:He2.
  destruct (eventfd_calm env (set_w_kern k2 w) s q no_ghost None v k3 Hcm2 He2) as (Hv0 & Hv1 & Hv2 & Hoth2 & Hcm3).
  cbn [w_kern set_w_kern] in *. pose proof (alloc_later k3) as Hl4. pose proof (alloc_succeeds k3) as Hmem. unfold memory_ok in Hmem.
  destruct (os_alloc_ok k3) as [ok k4] eqn:Hal. cbn [fst snd] in Hl4, Hmem.
  pose proof (calm_kern env (set_w_kern k3 w) s q no_ghost None k4 Hcm3 Hl4) as Hcm4.
  exists ch, r, v, k4. split; [done|]. cbv zeta. set (x := mk_chan size 0 [] r v HDC_STATUS_EMPTY). set (sm := mk_stream r v size msgs).
  assert (Hrv : r <> v) by congruence.
  assert (Hnc : forall b, ~ chan_fd env (st_desc sm b)).
  { intros b Hfd. destruct b; simpl in Hfd.
    - destruct (chan_open env (set_w_kern k2 w) no_ghost v (cm_chans _ _ _ _ _ _ Hcm2) Hfd) as [n E]. simpl in E. congruence.
    - destruct (chan_open env (set_w_kern k1 w) no_ghost r (cm_chans _ _ _ _ _ _ Hcm1) Hfd) as [n E]. simpl in E. congruence. }
  split.
  - unfold dyco_channel_create. rewrite (bind_ok _ _ _ _ _ (malloc_run _ _ _ Hm)). destruct (Z.eqb_spec ch NULL); [done|].
    erewrite bind_ok by (unfold sys; simpl; rewrite He1; reflexivity). unfold DYCO_MUSTNOT. destruct (Z.eqb_spec r (-1)); [lia|].
    erewrite bind_ok by reflexivity. erewrite bind_ok by (unfold sys; simpl; rewrite He2; reflexivity).
    destruct (Z.eqb_spec v (-1)); [lia|]. erewrite bind_ok by reflexivity. destruct (Z.ltb_spec 0 size); [|lia].
    erewrite bind_ok by (unfold sys; simpl; rewrite Hal; reflexivity). by rewrite Hmem.
  - set (w' := set_w_chans _ _). assert (Hcm5 : calm env w' s q no_ghost None).
    { apply (calm_outside env (set_w_kern k4 w) s q no_ghost None); try done.
      - destruct (cm_owners _ _ _ _ _ _ Hcm4). by split.
      - destruct (cm_permits _ _ _ _ _ _ Hcm4). by split.
      - destruct (cm_chans _ _ _ _ _ _ Hcm4) as [Hss Hck Hco]. split; [done| |done]. intros ch1 sm1 H1.
        destruct (Hck ch1 sm1 H1) as (x1 & i & j & mr & mw & V1 & V2). exists x1, i, j, mr, mw. split; [|done].
        simpl in *. rewrite lookup_insert_ne; [done|]. intros ->. congruence. }
    assert (Hidle : forall b, at_end (w_kern w') no_ghost ch b (st_desc sm b) Idle).
    { intros b. split; [|by intros]. simpl. rewrite (proj2 (proj2 Hl4)). destruct b; simpl; [done|]. by rewrite Hoth2. }
    split; try done.
    + apply calm_more_env; [done|done|done|]. apply (chans_add env w' no_ghost ch sm x); try done.
      * apply Hcm5.
      * intros b. split; [by destruct b|apply Hnc].
      * simpl. lia.
      * apply lookup_insert_eq.
    + intros sem. rewrite <- (Hin sem). simpl. destruct Hl1 as [[_ E1] _], Hl4 as [[_ E4] _].
      pose proof (proj2 (eventfd_onward k1) sem) as E2. pose proof (proj2 (eventfd_onward k2) sem) as E3.
      rewrite He1 in E2. rewrite He2 in E3. cbn [snd] in E2, E3. by rewrite E4, E3, E2, E1.
Qed.

(** ** Its ends are given away *)

Lemma at_end_given k G ch b fd md a e n : at_end k G ch b fd md -> at_end k (moved a e n G) ch b fd md.
Proof.
  intros H. eapply at_end_step; [exact H|done|done|]. intros p. rewrite moved_ends. destruct (decide (p = a)) as [->|]; [|done].
  intros Hp. apply lookup_insert_is_Some'. by right.
Qed.

Lemma owned_given e n e2 m a G : (forall p, l_ends (locks_of G p) !! e = None) -> owned G e2 m -> (e2 = e -> m = n) ->
  owned (moved a e n G) e2 m.
Proof.
  intros Hno Ho Hm p v. rewrite moved_ends. destruct (decide (p = a)) as [->|]; [|apply Ho].
  intros [[-> <-]|[_ H]]%lookup_insert_Some; [by rewrite Hm|by apply (Ho a)].
Qed.

(** An end that nobody owns goes to [a]. *)
Lemma give_end env w s q G r a ch sm x i j mr mw b :
  calm env w s q G r -> cl_chans env !! ch = Some sm -> chan_view w G ch sm x i j mr mw ->
  (forall p, l_ends (locks_of G p) !! (ch, b) = None) ->
  let G' := moved a (ch, b) (if b then i else j) G in calm env w s q G' r /\ chan_view w G' ch sm x i j mr mw.
Proof.
  intros Hcm Hc (V1 & V2 & V3 & V4 & V5 & V6 & V7) Hno G'. pose proof (cm_chans _ _ _ _ _ _ Hcm) as Hch.
  assert (Hview : chan_view w G' ch sm x i j mr mw).
  { do 2 (split; [done|]). split; [by apply at_end_given|]. split; [by apply at_end_given|]. split; [done|].
    split; apply owned_given; try done; by intros [= <-]. }
  split; [|done]. apply (calm_outside env w s q G r); try done.
  - apply (owners_locks env w s G); [apply Hcm|done].
  - apply (chan_permits env w G); [apply Hcm|apply Hch|done|done|done|right; by eexists a, _, _].
  - destruct Hch as [Hss Hck Hco]. split; [done| |].
    + intros ch1 sm1 H1. destruct (decide (ch1 = ch)) as [->|Hne].
      { rewrite Hc in H1. injection H1 as <-. by exists x, i, j, mr, mw. }
      destruct (Hck ch1 sm1 H1) as (x1 & i1 & j1 & mr1 & mw1 & W1 & W2 & W3 & W4 & W5 & W6 & W7).
      exists x1, i1, j1, mr1, mw1. do 2 (split; [done|]). split; [by apply at_end_given|]. split; [by apply at_end_given|].
      split; [done|]. split; apply owned_given; try done; by intros [= ?].
    + intros p1 p2 e. unfold G'. rewrite !moved_ends. destruct (decide (e = (ch, b))) as [->|Hne].
      * destruct (decide (p1 = a)) as [->|], (decide (p2 = a)) as [->|]; try done; rewrite Hno; first [by intros [? ?]|by intros _ [? ?]].
      * pose proof (Hco p1 p2 e) as H.
        destruct (decide (p1 = a)) as [->|], (decide (p2 = a)) as [->|]; by rewrite ?lookup_insert_ne.
Qed.

End channel_start.

(** ** The program *)
Section pipe.
Context {os : OS} {T : Type} {st : SleepTree T}.
Local Abbreviation world := (@world os T).
Local Abbreviation machine := (@machine os T).

Definition PRODUCER : Z := 1.
Definition CONSUMER : Z := 2.

Fixpoint send_each (chan : addr) (msgs : list (list Z)) : prog world unit :=
  match msgs with
  | [] => PRet tt
  | msg :: msgs' =>
      let! r := dyco_channel_send chan msg (Z.of_nat (length msg)) (-1) in
      do! assert (r =? Z.of_nat (length msg));
      send_each chan msgs'
  end.

(** The assertion compares the result and the bytes in the buffer with the
    message that is due. *)
Fixpoint recv_each (chan : addr) (maxsize : Z) (msgs : list (list Z)) : prog world unit :=
  match msgs with
  | [] => PRet tt
  | msg :: msgs' =>
      let! r := dyco_channel_recv chan maxsize (-1) in
      do! assert (bool_decide (r = (Z.of_nat (length msg), msg)));
      recv_each chan maxsize msgs'
  end.

Definition the_channel : prog world addr :=
  let! udata := atomic dyco_schedule_getUdata in PRet (default NULL udata.2).
Definition producer (msgs : list (list Z)) : prog world unit := let! chan := the_channel in send_each chan msgs.
Definition consumer (size : Z) (msgs : list (list Z)) : prog world unit := let! chan := the_channel in recv_each chan size msgs.

(** [rest] are the functions of the other coroutines. *)
Definition pipe_funcs (size : Z) (msgs : list (list Z)) (rest : Z -> Z -> prog world unit) (func arg : Z) : prog world unit :=
  if func =? PRODUCER then producer msgs else if func =? CONSUMER then consumer size msgs else rest func arg.

Definition pipe_main (size : Z) (msgs : list (list Z)) (rest : Z -> Z -> prog world unit) (others : list (Z * Z))
    (fuel : nat) : M machine Z :=
  in_world (create_all ((PRODUCER, NULL) :: (CONSUMER, NULL) :: others)) ;;;
  let* chan := in_world (dyco_channel_create size) in
  let* _ := in_world (dyco_schedule_setUdata chan) in
  let* _ := dyco_schedule_run (pipe_funcs size msgs rest) fuel in
  ret 0.

End pipe.

(** ** It delivers in order *)
Section pipe_proofs.
Context {os : OS} {osl : OSLaws os} {ins : Inside os} {cl : CalmLaws os} {T : Type} {st : SleepTree T} {stl : SleepTreeLaws T}.
Local Abbreviation world := (@world os T).
Implicit Types (w : world) (a b ch : addr) (l : locks) (G : ghost) (sm : stream) (msgs : list (list Z)).

Definition fits (size : Z) (msg : list Z) : Prop := 0 < Z.of_nat (length msg) <= size.

(** At the end [e], having passed on all but [n] of the [total]. *)
Lemma send_each_calm env l ch sm n msgs :
  cl_chans env !! ch = Some sm -> l_ends l !! (ch, true) = Some n -> Forall (fits (st_size sm)) msgs ->
  (forall i msg, msgs !! i = Some msg -> st_msg sm (n + i) = msg) ->
  (forall i l', (i < length msgs)%nat -> l_ends l' !! (ch, true) = Some (n + i)%nat -> may_wait env l' (st_w sm, ch)) ->
  calm_prog env l unit (send_each ch msgs) (fun _ l' => l_ends l' !! (ch, true) = Some (n + length msgs)%nat).
Proof.
  intros Hc. revert l n. induction msgs as [|msg msgs IH]; intros l n Hl Hf Hm Hmay; [apply cp_ret; by rewrite Nat.add_0_r|].
  apply Forall_cons in Hf as [Hf1 Hf2]. pose proof (Hm 0%nat msg eq_refl) as E. rewrite Nat.add_0_r in E. subst msg. cbn [send_each].
  eapply cp_bind; [apply (cp_send _ _ ch sm n); [done..|apply (Hmay O); simpl; [lia|by rewrite Nat.add_0_r]]|].
  intros r l1 [[-> ->]|(_ & [=] & _)].
  eapply cp_bind; [apply assert_calm, Z.eqb_refl|]. intros [] l2 ->. cbn [length]. rewrite <- Nat.add_succ_comm.
  apply (IH _ (S n)); [apply lookup_insert_eq|done|intros i msg Hi; rewrite <- (Hm (S i) msg Hi); f_equal; lia|].
  intros i l' Hi Hl'. apply (Hmay (S i)); [simpl; lia|]. rewrite Hl'. f_equal. lia.
Qed.

Lemma recv_each_calm env l ch sm n size msgs :
  cl_chans env !! ch = Some sm -> l_ends l !! (ch, false) = Some n -> st_size sm <= size ->
  (forall i msg, msgs !! i = Some msg -> st_msg sm (n + i) = msg) ->
  (forall i l', (i < length msgs)%nat -> l_ends l' !! (ch, false) = Some (n + i)%nat -> may_wait env l' (st_r sm, ch)) ->
  calm_prog env l unit (recv_each ch size msgs) (fun _ l' => l_ends l' !! (ch, false) = Some (n + length msgs)%nat).
Proof.
  intros Hc Hl Hsz. revert l n Hl. induction msgs as [|msg msgs IH]; intros l n Hl Hm Hmay; [apply cp_ret; by rewrite Nat.add_0_r|].
  pose proof (Hm 0%nat msg eq_refl) as E. rewrite Nat.add_0_r in E. subst msg. cbn [recv_each].
  eapply cp_bind; [apply (cp_recv _ _ ch sm n); [done..|apply (Hmay O); simpl; [lia|by rewrite Nat.add_0_r]]|].
  intros r l1 [[-> ->]|(_ & [=] & _)].
  eapply cp_bind; [by apply assert_calm, bool_decide_true|]. intros [] l2 ->. cbn [length]. rewrite <- Nat.add_succ_comm.
  apply (IH _ (S n)); [apply lookup_insert_eq|intros i msg Hi; rewrite <- (Hm (S i) msg Hi); f_equal; lia|].
  intros i l' Hi Hl'. apply (Hmay (S i)); [simpl; lia|]. rewrite Hl'. f_equal. lia.
Qed.

Lemma send_each_short ch msgs : short (2 * length msgs) (send_each ch msgs : prog world unit).
Proof.
  induction msgs as [|msg msgs IH]; [exact I|]. cbn [send_each length]. replace (2 * S _)%nat with (2 + 2 * length msgs)%nat by lia.
  apply (short_bind _ _ 2); [apply send_short|]. intros r. unfold assert. destruct (_ =? _); [exact IH|exact I].
Qed.

Lemma recv_each_short ch size msgs : short (2 * length msgs) (recv_each ch size msgs : prog world unit).
Proof.
  induction msgs as [|msg msgs IH]; [exact I|]. cbn [recv_each length]. replace (2 * S _)%nat with (2 + 2 * length msgs)%nat by lia.
  apply (short_bind _ _ 2); [apply recv_short|]. intros r. unfold assert. destruct (bool_decide _); [exact IH|exact I].
Qed.

Lemma the_channel_short : short 0 (the_channel : prog world addr).
Proof. unfold the_channel. shorten. Qed.

Lemma pipe_funcs_short size msgs rest len func arg :
  short len (rest func arg) -> short (2 * length msgs + len) (pipe_funcs size msgs rest func arg : prog world unit).
Proof.
  intros Hr. unfold pipe_funcs. destruct (func =? PRODUCER); [|destruct (func =? CONSUMER)].
  - apply (short_mono _ (2 * length msgs)); [lia|]. apply (short_bind _ _ 0); [apply the_channel_short|]. intros. apply send_each_short.
  - apply (short_mono _ (2 * length msgs)); [lia|]. apply (short_bind _ _ 0); [apply the_channel_short|]. intros. apply recv_each_short.
  - by apply (short_mono _ len); [lia|].
Qed.

Lemma the_channel_calm env l : calm_prog env l addr the_channel (fun ch l' => ch = cl_udata env /\ l' = l).
Proof. eapply cp_bind; [apply cp_look, getUdata_looks|]. intros u l1 [-> ->]. by apply cp_ret. Qed.

Definition pipe_stream (r v size : Z) msgs : stream := mk_stream r v size (fun i => nth i msgs []).

Lemma pipe_stream_msg r v size msgs i msg : msgs !! i = Some msg -> st_msg (pipe_stream r v size msgs) (0 + i) = msg.
Proof. intros H. by apply nth_lookup_Some. Qed.

(** What the coroutines keep to: those at the ends [p1] and [p2] wait only
    while some of the messages are still to be passed on, and have passed on all
    of them when they return. *)
Definition pipe_rules (ch : addr) sm (total : nat) p1 p2 : rules :=
  mk_rules false
    (fun fd obj l => exists (b : bool) n, fd = st_desc sm b /\ obj = ch /\ l_ends l !! (ch, b) = Some n /\ (n < total)%nat)
    (fun a l => (a = p1 -> l_ends l !! (ch, true) = Some total) /\ (a = p2 -> l_ends l !! (ch, false) = Some total)).

(** The sender and the receiver never both wait for one another, nor does one
    of them wait when the other one has returned. *)
Lemma pipe_never env ch sm total p1 p2 w s q G :
  cl_rules env = pipe_rules ch sm total p1 p2 -> cl_chans env !! ch = Some sm -> p1 <> p2 ->
  calm env w s q G None -> pledges env w G -> stuck w G -> w_coros w = ∅.
Proof.
  intros Hr Hc Hne Hcm [Hmay _ Hend] Hst. unfold may_wait in Hmay. rewrite Hr in Hmay, Hend. cbn [ru_may ru_end pipe_rules] in Hmay, Hend.
  pose proof (cm_chans _ _ _ _ _ _ Hcm) as Hch. destruct (ck_chan _ _ _ Hch ch sm Hc) as (x & i & j & mr & mw & V1 & V2 & V3 & V4 & V5 & V6 & V7).
  assert (Hat : forall a c, w_coros w !! a = Some c -> exists (b : bool) n, l_ends (locks_of G a) !! (ch, b) = Some n /\ (n < total)%nat /\
    (if b then mw else mr) = Parked).
  { intros a c Ha. destruct (Hst a c Ha) as ([fd obj] & Hfd & H0). destruct (Hmay a _ Hfd) as (b & n & E1 & E2 & Hn & Hlt).
    cbn [fst snd] in *. subst fd obj.
    exists b, n. split_and!; [done|done|]. assert (V : at_end (w_kern w) G ch b (st_desc sm b) (if b then mw else mr)) by by destruct b.
    destruct (if b then mw else mr); [by destruct V as [_ V]; destruct (V a ch)|done|].
    destruct V as (a' & n' & _ & _ & H1 & H2). rewrite H0 in H1. injection H1 as <-. lia. }
  assert (Hone : ~ (mw = Parked /\ mr = Parked)) by (intros [-> ->]; revert V5; unfold stage; destruct (ch_status x); intuition discriminate).
  assert (Hgone : forall b : bool, (if b then mw else mr) = Parked -> forall n, n = (if b then i else j) -> (n < total)%nat ->
    w_coros w !! (if b then p2 else p1) <> None).
  { intros b Hp n -> Hlt Hnone. destruct (Hend _ Hnone) as [E1 E2]. destruct b.
    - pose proof (V7 _ _ (E2 eq_refl)) as <-. revert V5. rewrite Hp. unfold stage. destruct (ch_status x); intuition (discriminate || lia).
    - pose proof (V6 _ _ (E1 eq_refl)) as <-. revert V5. rewrite Hp. unfold stage. destruct (ch_status x); intuition (discriminate || lia). }
  assert (Hown : forall a (b : bool) n, l_ends (locks_of G a) !! (ch, b) = Some n -> n = (if b then i else j)).
  { intros a [] n; [apply V6|apply V7]. }
  apply map_empty. intros a. destruct (w_coros w !! a) as [c|] eqn:Ha; [exfalso|done].
  destruct (Hat a c Ha) as (b & n & Hn & Hlt & Hp). specialize (Hgone b Hp n (Hown _ _ _ Hn) Hlt).
  assert (Hsame : forall p c', w_coros w !! p = Some c' -> p = a).
  { intros p c' Hp'. destruct (Hat p c' Hp') as (b' & n' & Hn' & _ & Hpk). destruct (decide (b' = b)) as [->|Hnb].
    - by apply (ck_owner _ _ _ Hch p a (ch, b)); eexists.
    - destruct b, b'; tauto. }
  destruct (w_coros w !! (if b then p2 else p1)) as [c'|] eqn:Ho; [|done]. pose proof (Hsame _ _ Ho) as Ea.
  destruct (w_coros w !! (if b then p1 else p2)) as [c2|] eqn:Ho2; [apply Hsame in Ho2; destruct b; congruence|].
  destruct (Hend _ Ho2) as [E1 E2]. destruct b; [specialize (E1 eq_refl)|specialize (E2 eq_refl)].
  - destruct Hne. rewrite Ea. apply (ck_owner _ _ _ Hch p1 a (ch, true)); by eexists.
  - destruct Hne. rewrite Ea. symmetry. apply (ck_owner _ _ _ Hch p2 a (ch, false)); by eexists.
Qed.

Lemma producer_calm env l ch r v size msgs p1 p2 :
  let sm := pipe_stream r v size msgs in
  cl_chans env !! ch = Some sm -> cl_udata env = ch -> cl_rules env = pipe_rules ch sm (length msgs) p1 p2 -> p1 <> p2 ->
  Forall (fits size) msgs -> l_ends l !! (ch, true) = Some O ->
  calm_prog env l unit (producer msgs) (fun _ => ru_end (cl_rules env) p1).
Proof.
  intros sm Hc Hu Hr Hne Hfit Hl. eapply cp_bind; [apply the_channel_calm|]. intros ch1 l1 [-> ->]. rewrite Hu.
  eapply cp_weaken; [apply (send_each_calm env _ ch sm 0); [done..|by apply pipe_stream_msg|]|].
  - intros i l' Hi Hl'. unfold may_wait. rewrite Hr. by exists true, i.
  - intros [] l' Hl'. rewrite Hr. by split.
Qed.

Lemma consumer_calm env l ch r v size msgs p1 p2 :
  let sm := pipe_stream r v size msgs in
  cl_chans env !! ch = Some sm -> cl_udata env = ch -> cl_rules env = pipe_rules ch sm (length msgs) p1 p2 -> p1 <> p2 ->
  l_ends l !! (ch, false) = Some O ->
  calm_prog env l unit (consumer size msgs) (fun _ => ru_end (cl_rules env) p2).
Proof.
  intros sm Hc Hu Hr Hne Hl. eapply cp_bind; [apply the_channel_calm|]. intros ch1 l1 [-> ->]. rewrite Hu.
  eapply cp_weaken; [apply (recv_each_calm env _ ch sm 0); [done..|by apply pipe_stream_msg|]|].
  - intros i l' Hi Hl'. unfold may_wait. rewrite Hr. by exists false, i.
  - intros [] l' Hl'. rewrite Hr. by split.
Qed.

(** The world at the start of the main loop, with the ends in the hands of the
    first two coroutines. *)
Lemma pipe_ready env w s q ch x rest others r v msgs size ctx ret p1 p2 ps w0 :
  let sm := pipe_stream r v size msgs in
  started env w s q -> cl_chans env !! ch = Some sm -> cl_udata env = ch ->
  cl_rules env = pipe_rules ch sm (length msgs) p1 p2 ->
  w_chans w !! ch = Some x -> ch_status x = HDC_STATUS_EMPTY -> Forall (fits size) msgs ->
  w_coros w0 = ∅ -> created ((PRODUCER, NULL) :: (CONSUMER, NULL) :: others) (p1 :: p2 :: ps) w0 w ->
  (forall func arg, calm_prog env no_locks unit (rest func arg) (fun _ _ => True)) ->
  Forall (fun fa => fa.1 <> PRODUCER /\ fa.1 <> CONSUMER) others ->
  all_calm env (pipe_funcs size msgs rest) (mk_machine w ctx ret) s q (moved p2 (ch, false) 0 (moved p1 (ch, true) 0 no_ghost)).
Proof.
  intros sm Hsd Hc Hu Hru Hx Hem Hfit He0 [Hnd Hfr Heach Honly] Hrest Hoth. pose proof (sd_calm _ _ _ _ Hsd) as Hcm.
  destruct (ck_chan _ _ _ (cm_chans _ _ _ _ _ _ Hcm) ch _ Hc) as (x1 & i & j & mr & mw & V1 & V2 & V3 & V4 & V5 & V6 & V7).
  rewrite Hx in V1. injection V1 as <-. set (G1 := moved p1 (ch, true) 0 no_ghost).
  assert (Hview : chan_view w no_ghost ch sm x 0 0 mr mw).
  { do 4 (split; [done|]). split; [|done]. revert V5. unfold stage. rewrite Hem. tauto. }
  destruct (give_end env w s q no_ghost None p1 ch sm x 0 0 mr mw true Hcm Hc Hview) as [Hcm1 Hview1]; [done|].
  destruct (give_end env w s q G1 None p2 ch sm x 0 0 mr mw false Hcm1 Hc Hview1) as [Hcm2 _].
  { intros p. unfold G1. by rewrite moved_other. }
  set (G2 := moved p2 (ch, false) 0 G1) in *.
  assert (Hne : p1 <> p2) by (apply NoDup_cons in Hnd as [Hnd _]; intros ->; by apply Hnd; left).
  apply Forall2_cons in Heach as [(c1 & Hc1 & E1) Heach]. apply Forall2_cons in Heach as [(c2 & Hc2 & E2) Heach].
  split; [exact Hcm2|]. split; [|split].
  - intros a c Ha. cbn [m_world] in Ha. rewrite (sd_new _ _ _ _ Hsd a c Ha). split; [done|].
    destruct (decide (a = p1)) as [->|Ha1]; [|destruct (decide (a = p2)) as [->|Ha2]].
    + rewrite Hc1 in Ha. injection Ha as ->. injection E1 as -> _. apply (producer_calm env _ ch r v size msgs p1 p2); try done.
      unfold G2. rewrite moved_other by done. unfold G1. rewrite moved_ends, decide_True by done. apply lookup_insert_eq.
    + rewrite Hc2 in Ha. injection Ha as ->. injection E2 as -> _. apply (consumer_calm env _ ch r v size msgs p1 p2); try done.
      unfold G2. rewrite moved_ends, decide_True by done. apply lookup_insert_eq.
    + assert (Hin : a ∈ ps).
      { destruct (decide (a ∈ ps)) as [|Hn]; [done|]. rewrite Honly in Ha; [by rewrite He0 in Ha|]. by rewrite !not_elem_of_cons. }
      destruct (proj1 (list_elem_of_lookup _ _) Hin) as [k Hk].
      destruct (Forall2_lookup_l _ _ _ _ _ Heach Hk) as ([f g] & Hfg & c3 & Hc3 & E3).
      rewrite Ha in Hc3. injection Hc3 as <-. injection E3 as -> ->. destruct (Forall_lookup_1 _ _ _ _ Hoth Hfg) as [N1 N2]. cbn in N1, N2.
      unfold pipe_funcs. destruct (Z.eqb_spec f PRODUCER); [done|]. destruct (Z.eqb_spec f CONSUMER); [done|].
      assert (El : locks_of G2 a = no_locks) by (unfold G2, G1, moved, locks_of; simpl; by rewrite !lookup_insert_ne).
      rewrite El. eapply cp_weaken; [apply Hrest|]. intros [] l _. rewrite Hru. by split.
  - done.
  - intros a c Ha Hsl. pose proof (tm_flag _ _ (ok_timers _ _ _ (cm_ok _ _ _ _ _ _ Hcm)) a c Ha Hsl) as Hv.
    by rewrite (sd_view _ _ _ _ Hsd), lookup_empty in Hv.
  - intros a Ha. simpl in Ha. rewrite Hru. split; intros ->; congruence.
Qed.

(** C9. A program of coroutines that talk over a channel, from the start of
    [main] in a thread that has done nothing yet: one coroutine sends any list
    of messages that are not empty and fit into the buffer, another one receives
    them, among at most 998 other coroutines that compute and yield, each no
    more than [len] times.  What is received is what was sent, message by message, byte by byte and in the same order,
    and every call returns the length of its message: a failed assertion would
    be the fault [FExit].  No call fails otherwise, the two never wait for one
    another for ever, and [main] returns 0 after all have come to their end,
    within so many turns of the main loop. *)
Theorem channel_delivers_in_order w size msgs rest others len fuel :
  AlertLaws os -> empty_thread w -> depth <= DYCO_MAX_STACKSIZE -> 0 < size < 2 ^ 31 -> Forall (fits size) msgs ->
  (forall func arg, short len (rest func arg) /\ forall env, calm_prog env no_locks unit (rest func arg) (fun _ _ => True)) ->
  Forall (fun fa => fa.1 <> PRODUCER /\ fa.1 <> CONSUMER) others -> Z.of_nat (length others) <= 998 ->
  ((2 + length others) * (2 * (2 * length msgs + len + 3) + 1) < fuel)%nat ->
  exists m', pipe_main size msgs rest others fuel (mk_machine w ∅ ∅) = Ok (0, m') /\ w_coros (m_world m') = ∅.
Proof.
  intros Hal He Hd Hsize Hfit Hrest Hoth Hlen Hfuel.
  destruct (startup_creates w ((PRODUCER, NULL) :: (CONSUMER, NULL) :: others) He Hd) as (w1 & s & q & Hc & Hsd & Hsem & ps & Hps);
    [done|simpl; lia|].
  destruct (channel_create_started _ w1 s q size (fun i => nth i msgs []) Hsd Hsize) as (ch & r & v & k & Hfr & Hcc & Hsd2).
  destruct (setUdata_started _ _ s q ch Hsd2) as [Hu Hsd3]. pose proof (cr_each _ _ _ _ Hps) as Heach.
  destruct ps as [|p1 [|p2 ps]]; [by apply Forall2_length in Heach..|].
  assert (Hne : p1 <> p2) by (pose proof (cr_nodup _ _ _ _ Hps) as [Hnd _]%NoDup_cons; intros ->; by apply Hnd; left).
  apply (started_rules _ _ _ _ (pipe_rules ch (pipe_stream r v size msgs) (length msgs) p1 p2)) in Hsd3.
  set (env := with_rules _ _) in Hsd3. assert (H : runs_ok False (pipe_main size msgs rest others fuel)
    (fun r m' => r = 0 /\ w_coros (m_world m') = ∅) (mk_machine w ∅ ∅)).
  { unfold pipe_main. eapply runs_world; [exact Hc|]. eapply runs_world; [exact Hcc|]. eapply runs_world; [exact Hu|].
    cbn [m_ctx m_ret m_world] in *. apply runs_bind. set (m := mk_machine _ _ _).
    assert (Hcos : w_coros (m_world m) = w_coros w1) by done.
    apply (runs_weaken _ _ (finished env)); [|intros r' m' (_ & Hm & _); by split].
    eapply (schedule_run_calm env _ False (2 * length msgs + len)); [|eapply (pipe_ready _ _ _ _ ch)|apply new_light| |].
    - right. split; [|done| |].
      + intros func arg. apply pipe_funcs_short, Hrest.
      + by intros [=].
      + intros w' s' q' G' Hcm Hpl Hst. eapply (pipe_never env ch); try done. apply lookup_insert_eq.
    - exact Hsd3.
    - apply lookup_insert_eq.
    - done.
    - done.
    - apply lookup_insert_eq.
    - done.
    - done.
    - apply He.
    - destruct Hps. by split.
    - intros func arg. exact (proj2 (Hrest func arg) env).
    - done.
    - apply (sd_new _ _ _ _ Hsd3).
    - right. rewrite Hcos. pose proof (created_size _ _ _ _ Hps (et_coros _ He)) as Hs. simpl in Hs. nia.
    - apply (sd_status _ _ _ _ Hsd3). }
  unfold runs_ok in H. destruct (pipe_main size msgs rest others fuel _) as [[r' m']|e]; [|by destruct H]. destruct H as [-> H]. by exists m'.
Qed.

End pipe_proofs.

(** Three messages, and a third coroutine that yields meanwhile. *)
Definition ex_msgs : list (list Z) := [[104; 101; 108; 108; 111]; [119; 111; 114; 108; 100]; [33]].
Definition ex_rest (func arg : Z) : prog (@world sat (gmap Z addr)) unit := dyco_coroutine_sleep 0.

Lemma ex_rest_calm func arg :
  short 2 (ex_rest func arg) /\ forall env, calm_prog env no_locks unit (ex_rest func arg) (fun _ _ => True).
Proof.
  split; [apply sleep_short|]. intros env. eapply cp_weaken; [|done]. apply cp_sleep; [done|by left].
Qed.

Lemma channel_delivers_in_order_witness :
  exists m', pipe_main 64 ex_msgs ex_rest [(3, NULL)] 100 (mk_machine ex_empty ∅ ∅) = Ok (0, m') /\ w_coros (m_world m') = ∅.
Proof.
  assert (H1 : 0 < 64 < 2 ^ 31) by (by split). assert (H2 : Forall (fits 64) ex_msgs) by (by repeat constructor).
  assert (H3 : Forall (fun fa : Z * Z => fa.1 <> PRODUCER /\ fa.1 <> CONSUMER) [(3, NULL)]) by (by repeat constructor).
  assert (H4 : Z.of_nat (length [(3, NULL)]) <= 998) by done.
  assert (H5 : ((2 + length [(3, NULL)]) * (2 * (2 * length ex_msgs + 2 + 3) + 1) < 100)%nat) by (simpl; lia).
  pose proof (channel_delivers_in_order ex_empty 64 ex_msgs ex_rest [(3, NULL)] 2 100 sat_alert ex_empty_thread ex_depth H1 H2
    ex_rest_calm H3 H4 H5) as H. exact H.
Defined.
