(* ===== verification/Examples.v ===== *)
(** * Two example programs

    [src/example/sleep.c] and [src/example/semaphore.c], from the start of
    [main] in a thread that has done nothing yet to its return. *)
From S2P Require Import Prelude Htable Queue SleepTree World SimOS Schedule SchedInv Prog Coroutine Semaphore.
From S2P Require Import Asymcoro Coropool Schedcall Run RoundRobin Calm CalmSteps Safe Rules SatOS Cooperation Startup.

Local Open Scope Z_scope.
Local Open Scope dyco_scope.

Section examples.
Context {os : OS} {T : Type} {st : SleepTree T}.
Local Abbreviation world := (@world os T).
Local Abbreviation machine := (@machine os T).

(** [printf] with the number of the call in the file and its arguments. *)
Context (printf : list Z -> kernel -> Z * kernel).
Definition print (l : list Z) : prog world unit := let! _ := atomic (sys (printf l)) in PRet tt.
Definition print_main (l : list Z) : M machine unit := let* _ := in_world (sys (printf l)) in ret tt.

(** ** [src/example/sleep.c]

    The array [sleeptime] of [main], at the address [array]. *)
Definition sleeptime : list Z := (fun i => 1000 * i) <$> seqZ 0 10.
Definition int_at (array p : addr) : Z := default 0 (sleeptime !! Z.to_nat ((p - array) / 4)).

Definition corofun (array : addr) (arg : addr) : prog world unit :=
  let sleeptime := int_at array arg in
  let! id := atomic dyco_coroutine_coroID in
  do! print [1; id; sleeptime];
  do! dyco_coroutine_sleep sleeptime;
  let! id := atomic dyco_coroutine_coroID in
  print [2; id].

Definition COROFUN : Z := 1.

Definition sleep_main (array : addr) (fuel : nat) : M machine Z :=
  in_world (create_all ((fun i => (COROFUN, array + 4 * i)) <$> seqZ 0 10)) ;;;
  print_main [3] ;;;
  let* _ := dyco_schedule_run (fun _ arg => corofun array arg) fuel in
  print_main [4] ;;;
  ret 0.

(** ** [src/example/semaphore.c]

    With its assertions, which the library's header disables ([NDEBUG]). *)
Definition cofunc (arg : addr) : prog world unit :=
  let! udata := atomic dyco_schedule_getUdata in
  let sem := default NULL udata.2 in
  let! id := atomic dyco_coroutine_coroID in
  do! print [1; id];
  let! r := dyco_semaphore_wait sem (-1) in
  do! assert (r =? 0);
  let! id := atomic dyco_coroutine_coroID in
  do! print [2; id];
  do! dyco_coroutine_sleep 1000;
  let! r := atomic (dyco_semaphore_signal sem) in
  do! assert (r =? 0);
  let! id := atomic dyco_coroutine_coroID in
  print [3; id].

Definition COFUNC : Z := 1.

Definition semaphore_main (fuel : nat) : M machine Z :=
  in_world (create_all (replicate 10 (COFUNC, NULL))) ;;;
  let* sem := in_world (dyco_semaphore_create 3) in
  let* _ := in_world (dyco_schedule_setUdata sem) in
  print_main [4] ;;;
  let* _ := dyco_schedule_run (fun _ arg => cofunc arg) fuel in
  print_main [5] ;;;
  in_world (dyco_semaphore_destroy sem) ;;;
  ret 0.

End examples.

(** * Properties *)

Section examples_proofs.
Context {os : OS} {osl : OSLaws os} {ins : Inside os} {cl : CalmLaws os} {T : Type} {st : SleepTree T} {stl : SleepTreeLaws T}.
Local Abbreviation world := (@world os T).
Local Abbreviation machine := (@machine os T).
Implicit Types (w : world) (m : machine) (s : @dyco_schedule T).
Context (printf : list Z -> kernel -> Z * kernel).
Hypothesis printf_quiet : forall l, quiet (printf l).

Lemma print_calm env l out : calm_prog env l unit (print printf out) (fun _ l' => l' = l).
Proof. eapply cp_bind; [by apply cp_sys|]. intros r l' ->. by apply cp_ret. Qed.

Lemma coroID_calm env l : calm_prog env l Z (atomic dyco_coroutine_coroID) (fun _ l' => l' = l).
Proof. eapply cp_weaken; [apply cp_look, coroID_looks|]. by intros x l' [_ ->]. Qed.

Lemma sleeptime_range array arg : 0 <= int_at array arg <= 4294967.
Proof.
  unfold int_at. destruct (sleeptime !! _) as [v|] eqn:E; simpl; [|lia].
  unfold sleeptime in E. apply list_lookup_fmap_Some in E as (i & -> & H). apply lookup_seqZ in H. lia.
Qed.

Lemma corofun_calm array arg : calm_prog (mk_client ∅ 0) no_locks unit (corofun printf array arg) (fun _ _ => True).
Proof.
  eapply cp_bind; [apply coroID_calm|]. intros id l ->. eapply cp_bind; [apply print_calm|]. intros [] l ->.
  eapply cp_bind; [apply cp_sleep; [apply sleeptime_range|by right]|]. intros [] l ->. eapply cp_bind; [apply coroID_calm|]. intros id2 l ->.
  eapply cp_weaken; [apply print_calm|done].
Qed.

Lemma cofunc_calm sem arg :
  sem <> NULL -> calm_prog (mk_client {[sem := Some 3]} sem) no_locks unit (cofunc printf arg) (fun _ _ => True).
Proof.
  intros Hn. set (env := mk_client _ _). assert (Hl : cl_sems env !! sem = Some (Some 3)) by apply lookup_singleton_eq.
  assert (Hlk : lock env sem) by (by eexists).
  eapply cp_bind; [apply cp_look, getUdata_looks|]. intros u l [-> ->]. cbn [snd]. change (default NULL (Some (cl_udata env))) with sem.
  eapply cp_bind; [apply coroID_calm|]. intros id l ->. eapply cp_bind; [apply print_calm|]. intros [] l ->.
  eapply cp_bind; [apply cp_wait; [right; by eexists|done..]|]. intros r l [(-> & _ & ->)|(_ & [?|?] & _)]; [|done..].
  unfold got. rewrite Hl. eapply cp_bind; [by apply assert_calm|]. intros [] l ->.
  eapply cp_bind; [apply coroID_calm|]. intros id2 l ->. eapply cp_bind; [apply print_calm|]. intros [] l ->.
  eapply cp_bind; [apply cp_sleep; [done|by right]|]. intros [] l ->.
  eapply cp_bind; [apply cp_signal; [right; by eexists|intros _; simpl; set_solver]|].
  intros r l [(-> & ->)|(_ & [?|?] & _)]; [|done..]. eapply cp_bind; [by apply assert_calm|]. intros [] l ->.
  eapply cp_bind; [apply coroID_calm|]. intros id3 l ->. eapply cp_weaken; [apply print_calm|done].
Qed.

(** Printing before and after the run. *)
Lemma print_main_run out m : exists k, print_main printf out m = Ok (tt, mk_machine (set_w_kern k (m_world m)) (m_ctx m) (m_ret m)) /\
  later (w_kern (m_world m)) k.
Proof.
  pose proof (printf_quiet out (w_kern (m_world m))) as Hk. destruct (printf out (w_kern (m_world m))) as [r k] eqn:E.
  exists k. split; [|done]. unfold print_main, in_world, sys, bind. by rewrite E.
Qed.

Lemma started_print env w s q k : started env w s q -> later (w_kern w) k -> started env (set_w_kern k w) s q.
Proof.
  intros [Hcm Hv Hst Hnew Hcnt Hsz Hin] Hk. split; try done; [by apply calm_kern|].
  intros sem. rewrite <- (Hin sem). apply Hk.
Qed.

(** From [printf] before [dyco_schedule_run] on. *)
Lemma run_and_print env w s q funcs fuel o1 o2 (f : M machine Z) P :
  started env w s q -> cl_rules env = free_rules ->
  (forall func arg, calm_prog env no_locks unit (funcs func arg) (fun _ _ => True)) -> (forall m, w_coros (m_world m) = ∅ -> idle env (m_world m) -> runs_ok True f P m) ->
  runs_ok True (print_main printf o1 ;;; let* _ := dyco_schedule_run funcs fuel in print_main printf o2 ;;; f) P (mk_machine w ∅ ∅).
Proof.
  intros Hsd Hru Hf HP. destruct (print_main_run o1 (mk_machine w ∅ ∅)) as (k & Hk & Hl). eapply runs_step; [exact Hk|].
  cbn [m_world m_ctx m_ret] in *. apply runs_bind. pose proof (started_print env w s q k Hsd Hl) as Hsd1.
  eapply runs_weaken; [apply (schedule_run_safely env funcs fuel _ s q no_ghost)|].
  - apply all_new_calm; [done..|by apply started_all_new].
  - apply (sd_status _ _ _ _ Hsd).
  - intros r m (_ & He & Hi). destruct (print_main_run o2 m) as (k2 & Hk2 & _). eapply runs_step; [exact Hk2|]. by apply HP.
Qed.

(** [src/example/sleep.c] runs without a fault until every coroutine has slept
    its time and is released. *)
Theorem sleep_example_runs w array fuel :
  empty_thread w -> depth <= DYCO_MAX_STACKSIZE ->
  match sleep_main printf array fuel (mk_machine w ∅ ∅) with
  | Ok (r, m') => r = 0 /\ w_coros (m_world m') = ∅
  | Err e => e = FFuel
  end.
Proof.
  intros He Hd. destruct (startup_creates w ((fun i => (COROFUN, array + 4 * i)) <$> seqZ 0 10) He Hd) as (w1 & s & q & Hc & Hsd & _);
    [done|by vm_compute|].
  apply (runs_safely _ (fun r m' => r = 0 /\ w_coros (m_world m') = ∅)).
  unfold sleep_main. eapply runs_world; [exact Hc|]. cbn [m_ctx m_ret].
  eapply run_and_print; [exact Hsd|done|intros func arg; apply corofun_calm|by intros m Hm _].
Qed.

(** C8. [src/example/semaphore.c] as a whole, from a thread that has done
    nothing yet: ten coroutines pass through a section that a semaphore of
    value 3 guards.  Its assertions, that every wait and every signal returns
    0, hold; no call fails; and [main] can only return 0, after every coroutine
    has come to its end and the semaphore is destroyed. *)
Theorem semaphore_example_runs w fuel :
  empty_thread w -> depth <= DYCO_MAX_STACKSIZE ->
  match semaphore_main printf fuel (mk_machine w ∅ ∅) with
  | Ok (r, m') => r = 0 /\ w_coros (m_world m') = ∅
  | Err e => e = FFuel
  end.
Proof.
  intros He Hd. destruct (startup_creates w (replicate 10 (COFUNC, NULL)) He Hd) as (w1 & s & q & Hc & Hsd & Hsem & _); [done|done|].
  destruct (semaphore_create_started _ w1 s q 3 Hsd) as (sem & k & Hn & Hfr & Hsc & Hsd2); [by split|].
  destruct (setUdata_started _ _ s q sem Hsd2) as [Hu Hsd3].
  apply (runs_safely _ (fun r m' => r = 0 /\ w_coros (m_world m') = ∅)).
  unfold semaphore_main. eapply runs_world; [exact Hc|]. eapply runs_world; [exact Hsc|]. eapply runs_world; [exact Hu|].
  cbn [m_ctx m_ret cl_sems cl_chans mk_client] in *. rewrite insert_empty in Hsd3.
  eapply run_and_print; [exact Hsd3|done|intros func arg; by apply cofunc_calm|].
  intros m Hm Hi. destruct (Hi sem) as (x & Hx & Hq); [simpl; rewrite lookup_singleton_eq; by eexists|].
  assert (Hd2 : dyco_semaphore_destroy sem (m_world m) = Ok (tt, set_w_sems (delete sem (w_sems (m_world m))) (m_world m))).
  { unfold dyco_semaphore_destroy. destruct (Z.eqb_spec sem NULL); [done|].
    by rewrite (bind_ok _ _ _ _ _ (getsem_run sem x _ Hx)), Hq. }
  eapply runs_world; [exact Hd2|]. by split.
Qed.

End examples_proofs.

(** On the simulated system, with an empty kernel, up to the return of
    [main]. *)
Definition ex_printf (out : list Z) (k : @kernel sat) : Z * @kernel sat := (0, k).

Lemma ex_printf_quiet out : quiet (ex_printf out).
Proof. intros k. apply later_refl. Qed.

Lemma semaphore_example_runs_witness :
  match semaphore_main ex_printf 4900 (mk_machine ex_empty ∅ ∅) with
  | Ok (r, m') => r = 0 /\ w_coros (m_world m') = ∅
  | Err e => e = FFuel
  end /\ match semaphore_main ex_printf 4900 (mk_machine ex_empty ∅ ∅) with Ok _ => true | Err _ => false end = true.
Proof.
  split.
  - pose proof (semaphore_example_runs ex_printf ex_printf_quiet ex_empty 4900 ex_empty_thread ex_depth) as H. exact H.
  - by vm_compute.
Defined.
