(* ===== verification/Disposal.v ===== *)
(** * The end of coroutines by force

    A coroutine that is killed is released by [resume] (src/dyco_coroutine.c)
    through [htable_delete_with_freecb] on the identifier map, and an abort of
    the scheduler ([schedule_abort], src/dyco_schedule.c) releases all of them
    through [htable_clear_with_freecb].  The callback of both, [coro_abort],
    ends in [freecoro], which deletes the coroutine from the map that is being
    walked over.  The theorems say when this re-entrance is harmless and what
    happens otherwise. *)
From S2P Require Import Prelude Htable Queue SleepTree World SimOS Schedule SchedInv Prog Coroutine.
From S2P Require Import Asymcoro Coropool Schedcall Run.

Local Open Scope Z_scope.
Local Open Scope dyco_scope.

Section abort.
Context {os : OS} {osl : OSLaws os} {T : Type} {st : SleepTree T} {stl : SleepTreeLaws T}.
Local Abbreviation world := (@world os T).
Local Abbreviation dyco_schedule := (@dyco_schedule T).
Implicit Types (w : world) (s : dyco_schedule) (c : dyco_coroutine) (a : addr) (h : @dyco_htable addr).

(** ** The callback *)

(** A symmetric coroutine of no pool that owns no descriptor. *)
Definition plain c : Prop :=
  TESTBIT (co_status c) COROUTINE_FLAGS_INCOROPOOL = false /\
  TESTBIT (co_status c) COROUTINE_FLAGS_ASYMMETRIC = false /\
  io_flag c = false /\ signal_flag c = false /\ co_sched c <> NULL.

Definition released h a s w : world :=
  set_w_coros (delete a (w_coros w)) (set_w_sched (Some (freed h a s)) w).

Lemma coro_abort_run w s a c r o h :
  w_sched w = Some s -> w_coros w !! a = Some c -> a <> NULL -> plain c ->
  htable_delete NULL (s_cid_co_map s) (co_cid c) = Ok (r, o, h) ->
  coro_abort a w = Ok (tt, released h a s w).
Proof.
  intros Hs Hc Ha (Hp & Has & Hio & Hsg & Hsc) Hdel. unfold coro_abort. mrun. rewrite Hp, Has.
  unfold freecoro. destruct (Z.eqb_spec a NULL); [done|]. mrun.
  set (s1 := set_s_coro_count (u32 (s_coro_count s + -1)) s). set (w1 := set_w_sched (Some s1) w).
  assert (Hdel1 : cid_map_delete (co_cid c) w1 = Ok (r, set_w_sched (Some (set_s_cid_co_map h s1)) w1)).
  { unfold cid_map_delete. mrun. mrun. mrun. done. }
  erewrite (bind_ok (incr_coro_count (-1))) by (by apply upd_sched_run).
  erewrite bind_ok by (by apply getco_run). rewrite (bind_ok _ _ _ _ _ Hdel1).
  erewrite bind_ok by (by eapply release_io_none). mrun.
  destruct (TESTBIT (co_status c) COROUTINE_FLAGS_ALLOCSTACKMEM); simpl.
  - mrun. unfold free_co. mrun. mrun. erewrite upd_sched_run by done. unfold released. simpl.
    by rewrite delete_insert_eq.
  - mrun. unfold free_co. mrun. mrun. by erewrite upd_sched_run by done.
Qed.

(** ** Killed coroutines *)

(** What [resume] does with the identifier map when a coroutine was killed. *)
Definition drop_killed (cid : Z) : M world Z :=
  htable_delete_with_freecb NULL get_cid_table set_cid_table (fun a => a =? NULL) coro_abort cid.

Lemma cid_table_of w s : w_sched w = Some s -> get_cid_table w = s_cid_co_map s.
Proof. unfold get_cid_table. by intros ->. Qed.

Lemma set_bucket_twice h id b b' n n' :
  set_bucket (set_bucket h id b n) id b' n' = set_bucket h id b' n'.
Proof. unfold set_bucket, buckets. simpl. by rewrite list_insert_insert_eq. Qed.

Lemma set_bucket_lookup h id b b' n :
  buckets h !! bucket_idx (mask h) id = Some b ->
  buckets (set_bucket h id b' n) !! bucket_idx (mask (set_bucket h id b' n)) id = Some b'.
Proof. intros Hb. simpl. apply list_lookup_insert_eq. by eapply lookup_lt_Some. Qed.

Lemma chain_delete_gone id (l : list (Z * addr)) : id ∉ l.*1 -> chain_delete id l = None.
Proof.
  induction l as [|[k d] l IH]; [done|]. csimpl. rewrite not_elem_of_cons. intros [Hk Hl].
  destruct (Z.eqb_spec k id); [congruence|]. by rewrite IH.
Qed.

(** The entry is the first of its bucket. *)
Lemma drop_killed_head w s a c b :
  let h := s_cid_co_map s in let cid := co_cid c in
  w_sched w = Some s -> w_coros w !! a = Some c -> a <> NULL -> plain c -> cid <> -1 ->
  buckets h !! bucket_idx (mask h) cid = Some b -> he_id b = cid -> he_data b = a ->
  match he_next b with
  | [] =>
      let h' := set_bucket h cid (mk_hentry (-1) NULL []) (count h - 2) in
      drop_killed cid w = Ok (0, released h' a s w)
  | _ => drop_killed cid w = Err FSegv
  end.
Proof.
  intros h cid Hs Hc Ha Hp H1 Hb Hid Hd. unfold drop_killed, htable_delete_with_freecb. mrun.
  rewrite (cid_table_of w s Hs). fold h. rewrite Hb, Hid, Hd.
  destruct (Z.eqb_spec cid (-1)); [done|]. rewrite Z.eqb_refl. destruct (Z.eqb_spec a NULL); [done|]. cbn [negb when].
  set (b' := match he_next b with (k, d) :: l => mk_hentry k d l | [] => mk_hentry (-1) NULL (he_next b) end).
  assert (Hdel : htable_delete NULL h cid = Ok (0, Some a, set_bucket h cid b' (count h - 1))).
  { unfold htable_delete. rewrite Hb, Hid, Hd. destruct (Z.eqb_spec cid (-1)); [done|]. by rewrite Z.eqb_refl. }
  rewrite (bind_ok _ _ _ _ _ (coro_abort_run w s a c _ _ _ Hs Hc Ha Hp Hdel)).
  unfold delete_head. mrun. rewrite (cid_table_of (released _ a s w) (freed (set_bucket h cid b' (count h - 1)) a s)) by done.
  cbn [s_cid_co_map freed set_s_queues set_s_cid_co_map]. rewrite (set_bucket_lookup h cid b b' _ Hb).
  destruct (he_next b) as [|[k d] l].
  - mrun. simpl. rewrite set_bucket_twice. replace (count h - 1 - 1) with (count h - 2) by lia. done.
  - rewrite decide_False; [done|]. intros Heq. apply (f_equal length) in Heq. simpl in Heq.
    rewrite !length_fmap in Heq. simpl in Heq. lia.
Qed.

(** The entry is further down in its chain: it is unlinked before the callback,
    which therefore does not find it. *)
Lemma drop_killed_chain w s a c b l :
  let h := s_cid_co_map s in let cid := co_cid c in
  w_sched w = Some s -> w_coros w !! a = Some c -> a <> NULL -> plain c ->
  buckets h !! bucket_idx (mask h) cid = Some b -> he_id b <> -1 -> he_id b <> cid ->
  chain_delete cid (he_next b) = Some (a, l) -> cid ∉ l.*1 ->
  exists h', htable_delete NULL h cid = Ok (0, Some a, h') /\ drop_killed cid w = Ok (0, released h' a s w).
Proof.
  intros h cid Hs Hc Ha Hp Hb Hid1 Hid Hdl Hgone. set (b' := mk_hentry (he_id b) (he_data b) l).
  exists (set_bucket h cid b' (count h - 1)). split.
  { unfold htable_delete. rewrite Hb, Hdl. destruct (Z.eqb_spec (he_id b) (-1)); [done|].
    by destruct (Z.eqb_spec (he_id b) cid). }
  unfold drop_killed, htable_delete_with_freecb. mrun. rewrite (cid_table_of w s Hs). fold h.
  rewrite Hb, Hdl. destruct (Z.eqb_spec (he_id b) (-1)); [done|]. destruct (Z.eqb_spec (he_id b) cid); [done|].
  set (h1 := set_bucket h cid b' (count h)). set (s1 := set_s_cid_co_map h1 s).
  assert (Hput : set_cid_table h1 w = set_w_sched (Some s1) w) by (unfold set_cid_table; by rewrite Hs).
  mrun. fold b' h1. rewrite Hput. destruct (Z.eqb_spec a NULL); [done|]. cbn [negb when].
  assert (Hdel : htable_delete NULL h1 cid = Ok (-1, None, h1)).
  { unfold htable_delete, h1. rewrite (set_bucket_lookup h cid b b' _ Hb). simpl.
    destruct (Z.eqb_spec (he_id b) (-1)); [done|]. destruct (Z.eqb_spec (he_id b) cid); [done|].
    by rewrite chain_delete_gone. }
  rewrite (bind_ok _ _ _ _ _ (coro_abort_run (set_w_sched (Some s1) w) s1 a c _ _ _ eq_refl Hc Ha Hp Hdel)).
  reflexivity.
Qed.

(** C39. A killed coroutine, when [resume] takes it out of the identifier map with
    [coro_abort] as the callback, which deletes the entry as well.  If the
    entry is further down in the chain of its bucket, all is well: the
    coroutine is released, the counter is right and the invariant of the
    scheduler holds.  If it is alone in its bucket the coroutine is released,
    but the counter of the map is decremented twice.  If it heads a chain, the
    chain node that the callback freed is read and freed again. *)
Theorem killed_coroutine_outcome w s q a c :
  let h := s_cid_co_map s in let cid := co_cid c in
  sched_ok w s q -> w_sched w = Some s -> w_coros w !! a = Some c -> plain c -> cid <> 0 -> cid <> -1 ->
  cids s !! cid = Some a -> sleeping_flag c = false -> waiting_flag c = false -> a ∉ queued q ->
  exists b, buckets h !! bucket_idx (mask h) cid = Some b /\
  if (he_id b =? cid) && (0 <? Z.of_nat (length (he_next b))) then drop_killed cid w = Err FSegv
  else exists w' s', drop_killed cid w = Ok (0, w') /\ w_sched w' = Some s' /\
    w_coros w' = delete a (w_coros w) /\ cids s' = delete cid (cids s) /\
    if he_id b =? cid then count (s_cid_co_map s') = count h - 2
    else count (s_cid_co_map s') = count h - 1 /\ sched_ok w' s' q.
Proof.
  intros h cid Hok Hs Hc Hp H0 H1 Hcid Hsl Hw Hq. pose proof (ok_cids_wf _ _ _ Hok) as Hwf. fold h in Hwf.
  assert (Ha : a <> NULL) by (intros ->; by rewrite (ok_null _ _ _ Hok) in Hc).
  destruct (table_lookup _ _ cid (hw_table _ Hwf)) as [b Hb]. exists b. split; [done|].
  pose proof (tw_buckets _ _ (hw_table _ Hwf) _ _ Hb) as Hbw.
  pose proof (habs_bucket h cid b cid Hwf Hb H0 eq_refl) as Hf. unfold cids in Hcid. fold h in Hcid. rewrite Hcid in Hf.
  destruct (decide (he_id b = -1)) as [He|He]; [by rewrite (entries_empty b He) in Hf|].
  rewrite (entries_used b He) in Hf. simpl in Hf. pose proof (bw_nodup _ _ _ Hbw) as Hnd.
  unfold nzkeys, ekeys in Hnd. rewrite (entries_used b He) in Hnd. csimpl in Hnd.
  destruct (htable_delete_spec NULL h cid Hwf H0 H1) as (hd & Hdel & Hwd & Had). rewrite Hcid in Hdel.
  destruct (Z.eqb_spec (he_id b) cid) as [Hid|Hid].
  - injection Hf as Hd. pose proof (drop_killed_head w s a c b Hs Hc Ha Hp H1 Hb Hid (eq_sym Hd)) as Hrun.
    unfold htable_delete in Hdel. fold cid in Hdel. rewrite Hb, Hid, Z.eqb_refl in Hdel.
    destruct (Z.eqb_spec cid (-1)); [done|]. injection Hdel as _ Hhd.
    destruct (he_next b) as [|e l]; [|done]. simpl. eexists _, _. split; [exact Hrun|]. split_and!; try done.
    unfold cids. fold h. rewrite <- Had, <- Hhd. done.
  - destruct (chain_delete cid (he_next b)) as [[d l]|] eqn:Hdl.
    2: { apply chain_delete_None, chain_find_None in Hdl. congruence. }
    destruct (chain_delete_Some _ _ _ _ Hdl) as (Hfd & Hperm & _). assert (d = a) as -> by congruence.
    assert (Hgone : cid ∉ l.*1).
    { intros Hin. rewrite filter_cons in Hnd.
      assert (Hnd2 : NoDup (filter (fun k => k <> 0) (he_next b).*1)).
      { destruct (decide (he_id b <> 0)); [by apply NoDup_cons in Hnd as [_ ?]|done]. }
      rewrite Hperm, filter_cons_True in Hnd2 by done. apply NoDup_cons in Hnd2 as [Hn _].
      apply Hn, list_elem_of_filter. done. }
    destruct (drop_killed_chain w s a c b l Hs Hc Ha Hp Hb He Hid Hdl Hgone) as (h' & Hdel' & Hrun).
    fold h cid in Hdel'. rewrite Hdel in Hdel'. injection Hdel' as ->. simpl.
    eexists _, _. split; [exact Hrun|]. split_and!; try done.
    + simpl. rewrite (htable_count_size h' Hwd), (htable_count_size h Hwf), Had, map_size_delete_Some by (by eexists).
      assert (size (habs h) <> O) by (intros Hz%map_size_empty_inv; by rewrite Hz in Hcid). lia.
    + apply (sched_ok_sched (set_w_coros _ w)).
      eapply (sched_ok_irrel _ (set_s_queues (link_free (s_queues s) a) (set_s_cid_co_map h' s))); try done.
      by apply (sched_ok_free w s q h' a c).
Qed.

(** ** The abort of the scheduler *)

Local Abbreviation clear_from := (clear_buckets get_cid_table coro_abort).

(** A bucket that is empty or holds a single coroutine. *)
Definition lone w (m : Z) (i : nat) (b : @dyco_hentry addr) : Prop :=
  he_id b = -1 \/
  he_next b = [] /\ bucket_idx m (he_id b) = i /\ he_data b <> NULL /\
  exists c, w_coros w !! he_data b = Some c /\ co_cid c = he_id b /\ plain c.

(** The coroutines of a list of such buckets. *)
Definition members (t : list (@dyco_hentry addr)) : list addr :=
  he_data <$> filter (fun b => he_id b <> -1) t.

Lemma members_cons b t : members (b :: t) = (if decide (he_id b <> -1) then [he_data b] else []) ++ members t.
Proof. unfold members. rewrite filter_cons. by case_decide. Qed.

(** The coroutines [l] are gone, the others as they were. *)
Definition gone w w' (l : list addr) : Prop :=
  forall a, (a ∈ l -> w_coros w' !! a = None) /\ (a ∉ l -> w_coros w' !! a = w_coros w !! a).

(** One occupied bucket. *)
Lemma clear_lone w s i b :
  let h := s_cid_co_map s in
  w_sched w = Some s -> buckets h !! i = Some b -> lone w (mask h) i b -> he_id b <> -1 ->
  exists h', coro_abort (he_data b) w = Ok (tt, released h' (he_data b) s w) /\
    mask h' = mask h /\ buckets h' = <[i := mk_hentry (-1) NULL []]> (buckets h).
Proof.
  intros h Hs Hb [?|(Hn & Hi & Hnull & c & Hc & Hid & Hp)] H1; [done|].
  exists (set_bucket h (he_id b) (mk_hentry (-1) NULL []) (count h - 1)). split.
  - eapply coro_abort_run; [done..|]. rewrite Hid. fold h. unfold htable_delete. rewrite Hi, Hb.
    destruct (Z.eqb_spec (he_id b) (-1)); [done|]. by rewrite Z.eqb_refl, Hn.
  - unfold set_bucket. simpl. by rewrite Hi.
Qed.

Lemma lone_released w m i j b b' h s :
  lone w m i b -> he_id b <> -1 -> i <> j -> lone w m j b' -> lone (released h (he_data b) s w) m j b'.
Proof.
  intros [?|(_ & Hi & _ & c & Hc & Hid & _)] H1 Hij; [done|].
  intros [?|(Hn' & Hj & Hnull' & c' & Hc' & Hid' & Hp')]; [by left|right]. split_and!; try done.
  exists c'. split_and!; try done. simpl. rewrite lookup_delete_ne; [done|]. intros Heq.
  rewrite <- Heq in Hc'. assert (c' = c) as -> by congruence. congruence.
Qed.

Lemma clear_from_run n i w s :
  let h := s_cid_co_map s in
  w_sched w = Some s -> (i + n <= length (buckets h))%nat ->
  (forall j b, (i <= j < i + n)%nat -> buckets h !! j = Some b -> lone w (mask h) j b) ->
  exists w' s', clear_from n i w = Ok (tt, w') /\ w_sched w' = Some s' /\
    gone w w' (members (take n (drop i (buckets h)))) /\
    (forall j, (i + n <= j)%nat -> buckets (s_cid_co_map s') !! j = buckets h !! j) /\
    w_kern w' = w_kern w.
Proof.
  revert i w s. induction n as [|n IH]; intros i w s h Hs Hlen Hl.
  { exists w, s. split_and!; try done. intros a. split; [by intros []%elem_of_nil|done]. }
  destruct (lookup_lt_is_Some_2 (buckets h) i) as [b Hb]; [lia|].
  rewrite (drop_S _ b i Hb). cbn [take]. rewrite members_cons. cbn [clear_buckets]. mrun.
  rewrite (cid_table_of w s Hs). fold h. rewrite Hb.
  destruct (Z.eqb_spec (he_id b) (-1)) as [He|He].
  - rewrite decide_False by (by intros []). erewrite bind_ok by reflexivity. destruct (IH (S i) w s Hs) as (w' & s' & Hrun & Hs' & Hco & Hbk & Hk); [fold h; lia| |].
    { intros j b' Hj. apply Hl. lia. }
    exists w', s'. split_and!; try done. intros j Hj. apply Hbk. lia.
  - destruct (clear_lone w s i b Hs Hb (Hl i b ltac:(lia) Hb) He) as (h' & Hab & Hm & Hbk').
    fold h in Hm, Hbk'.
    set (s1 := freed h' (he_data b) s). set (w1 := released h' (he_data b) s w).
    assert (Hlt : (i < length (buckets h))%nat) by (by eapply lookup_lt_Some).
    destruct (IH (S i) w1 s1 eq_refl) as (w' & s' & Hrun & Hs' & Hco & Hbk & Hk).
    { change (s_cid_co_map s1) with h'. rewrite Hbk', length_insert. lia. }
    { change (s_cid_co_map s1) with h'. rewrite Hbk', Hm.
      intros j b' Hj. rewrite list_lookup_insert_ne by lia. intros Hb'.
      apply (lone_released w (mask h) i j b b'); [by apply Hl; [lia|]|done|lia|by apply Hl; [lia|]]. }
    exists w', s'. split_and!; try done.
    + erewrite bind_ok; [exact Hrun|]. rewrite (bind_ok _ _ _ _ _ Hab). mrun.
      rewrite (cid_table_of (released h' (he_data b) s w) s1 eq_refl). change (s_cid_co_map s1) with h'.
      rewrite Hbk', list_lookup_insert_eq by done. done.
    + intros a. specialize (Hco a). change (s_cid_co_map s1) with h' in Hco.
      rewrite Hbk', drop_insert_lt in Hco by lia. rewrite (decide_True _ _ He). simpl. rewrite elem_of_cons.
      destruct Hco as [Hin Hout]. destruct (decide (a ∈ members (take n (drop (S i) (buckets h))))) as [Ha|Ha];
        [by split; [auto|tauto]|]. rewrite (Hout Ha). simpl. split.
      * intros [->|?]; [apply lookup_delete_eq|done].
      * intros Hn. rewrite lookup_delete_ne; [done|]. intros <-. tauto.
    + intros j Hj. rewrite Hbk by lia. change (s_cid_co_map s1) with h'.
      rewrite Hbk', list_lookup_insert_ne by lia. done.
Qed.

Lemma clear_from_app n m i w : clear_from (n + m) i w = (clear_from n i ;;; clear_from m (i + n)) w.
Proof.
  revert i w. induction n as [|n IH]; intros i w; [by rewrite Nat.add_0_r|]. cbn [clear_buckets Nat.add].
  replace (i + S n)%nat with (S i + n)%nat by lia. rewrite bind_bind, !(bind_ok get_st _ w w w) by done.
  destruct (buckets (get_cid_table w) !! i) as [b|]; [|done]. rewrite bind_bind.
  set (x := if he_id b =? -1 then _ else _). unfold bind at 1 2. destruct (x w) as [[u w1]|]; [apply IH|done].
Qed.

(** A bucket whose data is the null pointer. *)
Lemma clear_from_null n i w s b :
  w_sched w = Some s -> buckets (s_cid_co_map s) !! i = Some b -> he_id b <> -1 -> he_data b = NULL ->
  w_coros w !! NULL = None -> clear_from (S n) i w = Err FSegv.
Proof.
  intros Hs Hb H1 Hn Hnull. cbn [clear_buckets]. mrun. rewrite (cid_table_of w s Hs), Hb.
  destruct (Z.eqb_spec (he_id b) (-1)); [done|]. rewrite Hn. unfold coro_abort, getco, get_st, bind. by rewrite Hnull.
Qed.

(** No bucket holds two entries, or an entry that a resize has left behind. *)
Definition no_collision h : Prop :=
  forall i b, buckets h !! i = Some b -> he_id b <> -1 -> he_id b <> 0 /\ he_next b = [].

Definition all_plain w s : Prop := forall cid a c, cids s !! cid = Some a -> w_coros w !! a = Some c -> plain c.

Lemma bucket_entry h i b :
  htable_wf h -> no_collision h -> buckets h !! i = Some b -> he_id b <> -1 ->
  bucket_idx (mask h) (he_id b) = i /\ habs h !! he_id b = Some (he_data b).
Proof.
  intros Hwf Hnc Hb H1. destruct (Hnc i b Hb H1) as [H0 Hn].
  pose proof (tw_buckets _ _ (hw_table _ Hwf) _ _ Hb) as Hbw. pose proof (bw_place _ _ _ Hbw) as Hpl.
  unfold ekeys in Hpl. rewrite (entries_used b H1) in Hpl. csimpl in Hpl.
  apply Forall_cons in Hpl as [Hi _]. specialize (Hi H0). split; [done|].
  rewrite (habs_bucket h (he_id b) b (he_id b) Hwf) by (by rewrite ?Hi). rewrite (entries_used b H1). simpl.
  by rewrite Z.eqb_refl.
Qed.

Lemma members_cids h a :
  htable_wf h -> no_collision h -> a ∈ members (buckets h) <-> exists cid, habs h !! cid = Some a.
Proof.
  intros Hwf Hnc. unfold members. split.
  - intros (b & -> & [H1 Hb]%list_elem_of_filter)%list_elem_of_fmap. apply list_elem_of_lookup in Hb as [i Hb].
    exists (he_id b). by apply (bucket_entry h i b).
  - intros [cid Hcid]. assert (H0 : cid <> 0) by (intros ->; by rewrite habs_zero in Hcid).
    destruct (table_lookup _ _ cid (hw_table _ Hwf)) as [b Hb].
    rewrite (habs_bucket h cid b cid Hwf Hb H0 eq_refl) in Hcid.
    destruct (decide (he_id b = -1)) as [He|He]; [by rewrite (entries_empty b He) in Hcid|].
    destruct (Hnc _ b Hb He) as [_ Hn]. rewrite (entries_used b He), Hn in Hcid. simpl in Hcid.
    destruct (he_id b =? cid); [|done]. injection Hcid as <-.
    apply list_elem_of_fmap_2, list_elem_of_filter. split; [done|]. by eapply list_elem_of_lookup_2.
Qed.

Lemma lone_buckets w s q i b :
  sched_ok w s q -> no_collision (s_cid_co_map s) -> all_plain w s -> buckets (s_cid_co_map s) !! i = Some b ->
  lone w (mask (s_cid_co_map s)) i b.
Proof.
  intros Hok Hnc Hpl Hb. destruct (decide (he_id b = -1)) as [He|He]; [by left|right].
  destruct (bucket_entry _ i b (ok_cids_wf _ _ _ Hok) Hnc Hb He) as [Hi Hcid].
  destruct (ok_cids _ _ _ Hok _ _ Hcid) as (c & Hc & Hid). split_and!; [by eapply Hnc|done| |].
  - intros Hn. rewrite Hn in Hc. by rewrite (ok_null _ _ _ Hok) in Hc.
  - exists c. split_and!; try done. by eapply Hpl.
Qed.


(** An abort after the identifier map has been resized: the buckets that the
    resize left with identifier 0 and a null pointer are taken for occupied,
    and the callback dereferences the null pointer. *)
Theorem abort_after_resize_crashes w s q i b :
  let h := s_cid_co_map s in
  sched_ok w s q -> w_sched w = Some s -> buckets h !! i = Some b -> he_id b = 0 -> he_data b = NULL ->
  (forall j b', (j < i)%nat -> buckets h !! j = Some b' -> lone w (mask h) j b') ->
  schedule_abort w = Err FSegv.
Proof.
  intros h Hok Hs Hb H0 Hn Hl. pose proof (ok_cids_wf _ _ _ Hok) as Hwf. fold h in Hwf.
  pose proof (tw_len _ _ (hw_table _ Hwf)) as Hlen. pose proof (lookup_lt_Some _ _ _ Hb) as Hlt.
  destruct (clear_from_run i 0 w s Hs) as (w1 & s1 & Hrun & Hs1 & Hgone & Hbk & _); [fold h; lia| |].
  { intros j b' Hj. apply Hl. lia. }
  assert (Hclear : clear_from (Z.to_nat (mask h + 1)) 0 w = Err FSegv).
  { replace (Z.to_nat (mask h + 1)) with (i + S (length (buckets h) - i - 1))%nat by lia.
    rewrite clear_from_app, (bind_ok _ _ _ _ _ Hrun). apply (clear_from_null _ _ w1 s1 b); try done.
    - rewrite Hbk by lia. done.
    - by rewrite H0.
    - destruct (Hgone NULL) as [Hin Hout]. destruct (decide (NULL ∈ members (take i (drop 0 (buckets h))))) as [?|Hnin];
        [by apply Hin|]. rewrite (Hout Hnin). apply Hok. }
  unfold schedule_abort, htable_clear_with_freecb. unfold bind at 1. unfold bind at 1. unfold get_st, gets.
  rewrite (cid_table_of w s Hs). fold h. rewrite (hw_live _ Hwf). unfold bind at 1. by rewrite Hclear.
Qed.

End abort.

(** ** Concrete states

    Coroutines 16 and 32 with the identifiers 101 and 102, and nothing else to
    do; the table starts with two buckets. *)
Definition ex_add (h : @dyco_htable addr) (e : Z * addr) : @dyco_htable addr :=
  match htable_insert NULL (fun _ => true) h e.1 e.2 with Ok (_, h') => h' | Err _ => h end.
Definition ex_cid_map (l : list (Z * addr)) : @dyco_htable addr := foldl ex_add (snd (htable_init NULL true 1)) l.

Lemma ex_add_ok h e :
  htable_wf h -> e.1 <> 0 -> e.1 <> -1 -> htable_wf (ex_add h e) /\ habs (ex_add h e) = <[e.1 := e.2]> (habs h).
Proof.
  intros Hwf H0 H1. unfold ex_add.
  destruct (htable_insert_spec NULL (fun _ => true) h e.1 e.2) as (h' & -> & Hwf' & Hab'); done.
Qed.

Definition ex_two_coros : gmap Z dyco_coroutine :=
  {[16 := set_co_cid 101 (ex_co 0 0); 32 := set_co_cid 102 (ex_co 0 0)]}.
Definition ex_two_sched (l : list (Z * addr)) : @dyco_schedule (gmap Z addr) :=
  set_s_cid_co_map (ex_cid_map l)
    (set_s_queues (mk_qmem (mk_qhead NULL (HeadFirst urgent_ready)) (mk_qhead NULL (HeadFirst ready))
      (gset_to_gmap (mk_qlink NULL (HeadFirst ready)) {[16; 32]})) (ex_sched ∅)).
Definition ex_two (l : list (Z * addr)) : @world sim (gmap Z addr) :=
  set_w_sched (Some (ex_two_sched l)) (ex_world ∅ ex_two_coros).

Lemma ex_two_ok l :
  l = [(101, 16)] \/ l = [(101, 16); (102, 32)] -> sched_ok (ex_two l) (ex_two_sched l) ([], []).
Proof.
  intros Hl. assert (Hmap : htable_wf (ex_cid_map l) /\ habs (ex_cid_map l) ⊆ {[101 := 16; 102 := 32]}).
  { destruct (ex_sched_cids ∅) as [Hwf Hab]. destruct (ex_add_ok _ (101, 16) Hwf) as [Hwf1 Hab1]; [done..|].
    destruct (ex_add_ok _ (102, 32) Hwf1) as [Hwf2 Hab2]; [done..|].
    rewrite Hab1, Hab in Hab2. rewrite Hab in Hab1. destruct Hl as [-> | ->]; (split; [done|]).
    - change (habs (ex_cid_map [(101, 16)]) = {[101 := 16]}) in Hab1. rewrite Hab1.
      refine (bool_decide_unpack _ _). by vm_compute.
    - change (habs (ex_cid_map [(101, 16); (102, 32)]) = {[102 := 32; 101 := 16]}) in Hab2. rewrite Hab2.
      refine (bool_decide_unpack _ _). by vm_compute. }
  destruct Hmap as [Hwf Hsub]. split; try done.
  - apply timers_ok_intro; [done|refine (bool_decide_unpack _ _); by vm_compute..].
  - split; [|split|]; try (split; [|constructor]); vm_compute; try done; constructor.
  - intros a. rewrite <- !elem_of_dom. change (a ∈ dom (links (s_queues (ex_two_sched []))) <-> a ∈ dom ex_two_coros).
    replace (dom (links (s_queues (ex_two_sched [])))) with (dom ex_two_coros); [done|].
    by apply (bool_decide_unpack _); vm_compute.
  - by intros a ?%elem_of_nil.
  - exact (proj1 (ex_sched_cids ∅)).
  - intros cid a Hcid. apply (lookup_weaken _ _ _ _ Hcid) in Hsub.
    apply lookup_insert_Some in Hsub as [[<- <-]|[_ [<- <-]%lookup_singleton_Some]]; by eexists.
Qed.

Lemma ex_one_cids : cids (ex_two_sched [(101, 16)]) = {[101 := 16]}.
Proof.
  destruct (ex_sched_cids ∅) as [Hwf Hab]. destruct (ex_add_ok _ (101, 16) Hwf) as [_ Hab1]; [done..|].
  rewrite Hab in Hab1. exact Hab1.
Qed.

Lemma killed_coroutine_outcome_witness :
  exists b, buckets (ex_cid_map [(101, 16)]) !! 1%nat = Some b /\ he_id b = 101 /\
  exists w' s', drop_killed 101 (ex_two [(101, 16)]) = Ok (0, w') /\ w_sched w' = Some s' /\
    w_coros w' = delete 16 ex_two_coros /\ cids s' = delete 101 {[101 := 16]} /\
    count (s_cid_co_map s') = -1.
Proof.
  destruct (killed_coroutine_outcome (ex_two [(101, 16)]) (ex_two_sched [(101, 16)]) ([], []) 16
    (set_co_cid 101 (ex_co 0 0))) as (b & Hb & Hres).
  - apply ex_two_ok. by left.
  - done.
  - done.
  - by repeat split.
  - done.
  - done.
  - by rewrite ex_one_cids.
  - done.
  - done.
  - apply not_elem_of_nil.
  - vm_compute in Hb. injection Hb as <-. eexists. split; [by vm_compute|]. split; [done|].
    rewrite ex_one_cids in Hres. exact Hres.
Defined.


Lemma abort_after_resize_crashes_witness : schedule_abort (ex_two [(101, 16); (102, 32)]) = Err FSegv.
Proof.
  apply (abort_after_resize_crashes (ex_two [(101, 16); (102, 32)]) (ex_two_sched [(101, 16); (102, 32)]) ([], [])
    1 (mk_hentry 0 NULL [(101, 16)])).
  - apply ex_two_ok. by right.
  - done.
  - by vm_compute.
  - done.
  - done.
  - intros j b Hj Hb. assert (j = O) as -> by lia. vm_compute in Hb. injection Hb as <-. by left.
Defined.
