(* ===== verification/Generator.v ===== *)
(** * Asymmetric coroutines as generators

    A coroutine made by [dyco_asymcoro_create] whose function does some work
    and calls [dyco_asymcoroyield], over and over, is what other languages
    call a generator: [dyco_asymcororesume] (src/dyco_asymcoro.c) runs it to
    its next yield.  This file relates the two functions, with the contexts
    they switch, to an abstract iterator. *)
From S2P Require Import Prelude Htable Queue SleepTree World SimOS Schedule SchedInv Prog Coroutine.
From S2P Require Import Asymcoro Coropool Schedcall Run RoundRobin Disposal.

Local Open Scope Z_scope.
Local Open Scope dyco_scope.

Section generator.
Context {os : OS} {T : Type} {st : SleepTree T}.
Local Abbreviation world := (@world os T).
Local Abbreviation dyco_schedule := (@dyco_schedule T).
Local Abbreviation machine := (@machine os T).
Implicit Types (w : world) (s : dyco_schedule) (c : dyco_coroutine) (a : addr) (m : machine).
Context (funcs : Z -> Z -> prog world unit).

(** ** The abstract iterator

    What is left to do, one item per call; [None] after the end. *)
Abbreviation work := (kernel -> unit * kernel).
Abbreviation iter := (option (list work)).

Definition it_next (cid : Z) (it : iter) (k : kernel) : Z * iter * kernel :=
  match it with
  | None | Some [] => (0, None, k)
  | Some (f :: fs) => (cid, Some fs, (f k).2)
  end.

Fixpoint it_take (cid : Z) (n : nat) (it : iter) (k : kernel) : list Z * iter * kernel :=
  match n with
  | O => ([], it, k)
  | S n' =>
      let '(r, it1, k1) := it_next cid it k in
      let '(rs, it2, k2) := it_take cid n' it1 k1 in (r :: rs, it2, k2)
  end.

(** ** The coroutine and its caller *)

Fixpoint generator (ws : list work) : prog world unit :=
  match ws with
  | [] => PRet tt
  | f :: ws' => do! atomic (sys f); do! dyco_asymcoroyield; generator ws'
  end.

(** A caller that resumes the coroutine [n] times and goes on with the
    results. *)
Fixpoint resume_times (cid : Z) (n : nat) (K : list Z -> prog world unit) : prog world unit :=
  match n with
  | O => K []
  | S n' => let! r := dyco_asymcororesume cid in resume_times cid n' (fun rs => K (r :: rs))
  end.

Definition gen_body (a : addr) (ws : list work) : prog world unit :=
  do! generator ws;
  do! atomic (set_flag a COROUTINE_STATUS_EXITED);
  dyco_asymcoroyield.

Definition running c : dyco_coroutine := set_co_status (SETBIT (co_status c) COROUTINE_STATUS_RUNNING) c.

(** The context [k] of the coroutine, which has the function and the argument
    of [c0], goes on with [ws]. *)
Definition goes_on (a : addr) (c0 : dyco_coroutine) (k : prog world unit) (ws : list work) : Prop :=
  forall w c, w_coros w !! a = Some c -> co_func c = co_func c0 -> co_arg c = co_arg c0 ->
  exec k w = exec (gen_body a ws) (with_co a (running c) w).

Definition gen_flags c : Prop :=
  TESTBIT (co_status c) COROUTINE_FLAGS_ASYMMETRIC = true /\
  TESTBIT (co_status c) COROUTINE_FLAGS_OWNSTACK = true.

(** The coroutine [cid] at [a] in a machine, as an iterator. *)
Definition gen_at m a c (it : iter) : Prop :=
  match it with
  | None => TESTBIT (co_status c) COROUTINE_STATUS_EXITED = true
  | Some ws =>
      TESTBIT (co_status c) COROUTINE_STATUS_EXITED = false /\
      if TESTBIT (co_status c) COROUTINE_STATUS_NEW then funcs (co_func c) (co_arg c) = generator ws
      else exists k, m_ctx m !! a = Some k /\ goes_on a c k ws
  end.

Definition gen_state (cid a : Z) (it : iter) m : Prop :=
  exists s c, w_sched (m_world m) = Some s /\ htable_wf (s_cid_co_map s) /\ cid <> 0 /\ cid <> -1 /\
    cids s !! cid = Some a /\ a <> NULL /\ w_coros (m_world m) !! a = Some c /\ gen_flags c /\ gen_at m a c it.

(** What a call of the coroutine leaves alone. *)
Definition gen_frame a m m' : Prop :=
  w_sched (m_world m') = w_sched (m_world m) /\
  delete a (w_coros (m_world m')) = delete a (w_coros (m_world m)) /\
  (forall b, b <> a -> m_ctx m' !! b = m_ctx m !! b) /\ (forall b, b <> a -> m_ret m' !! b = m_ret m !! b).

(** ** One call *)

(** [dyco_asymcororesume] from its [++sched_count] on. *)
Definition asym_switch (cid a prev : Z) : prog world Z :=
  do! atomic (upd_co a (fun c => set_co_sched_count (u32 (co_sched_count c + 1)) c));
  do! atomic (upd_sched (set_s_curr_thread a));
  do! atomic (set_flag a COROUTINE_STATUS_RUNNING);
  do! pswitch (SwapTo a);
  do! atomic (upd_sched (set_s_curr_thread prev));
  let! exited := atomic (test_co a COROUTINE_STATUS_EXITED) in
  PRet (if exited : bool then 0 else cid).

Definition asym_tail (cid a prev : Z) : prog world Z :=
  do! atomic (upd_sched (set_s_curr_thread prev));
  let! exited := atomic (test_co a COROUTINE_STATUS_EXITED) in
  PRet (if exited : bool then 0 else cid).

(** The coroutine as it is switched to. *)
Definition counted c : dyco_coroutine := running (set_co_sched_count (u32 (co_sched_count c + 1)) c).

Lemma run_exec_eq fuel (p p' : prog world unit) w w' ctx ret :
  exec p w = exec p' w' ->
  run_until_sched funcs fuel p (mk_machine w ctx ret) = run_until_sched funcs fuel p' (mk_machine w' ctx ret).
Proof. intros E. destruct fuel as [|fuel]; [done|]. cbn [run_until_sched m_world m_ctx m_ret]. by rewrite E. Qed.

Lemma exec_guards cid a m it s c (K : Z -> prog world unit) :
  w_sched (m_world m) = Some s -> htable_wf (s_cid_co_map s) -> cid <> 0 -> cid <> -1 ->
  cids s !! cid = Some a -> a <> NULL -> w_coros (m_world m) !! a = Some c -> gen_flags c -> gen_at m a c it ->
  exec (pbind (dyco_asymcororesume cid) K) (m_world m) =
  match it with
  | None => exec (K 0) (m_world m)
  | Some _ =>
      if TESTBIT (co_status c) COROUTINE_STATUS_NEW then
        (SSwitch (MakeCtx a) (pbind (do! atomic (clr_flag a COROUTINE_STATUS_NEW);
           asym_switch cid a (s_curr_thread s)) K), m_world m)
      else exec (pbind (asym_switch cid a (s_curr_thread s)) K) (m_world m)
  end.
Proof.
  intros Hs Hwf H0 H1 Hcid Ha Hc [Has Hown] Hit. rewrite exec_bind. unfold dyco_asymcororesume.
  rewrite (exec_atomic_bind _ _ _ _ _ (get_sched_run _)), Hs.
  rewrite (exec_atomic_bind _ _ _ _ _ (cid_map_find_run cid s _ Hs Hwf H0 H1)), Hcid. cbn [default from_option id].
  destruct (Z.eqb_spec a NULL); [done|].
  rewrite (exec_atomic_bind _ _ _ _ _ (getco_run a c _ Hc)), Has, Hown. cbn [negb].
  destruct it as [ws|]; cbn [gen_at] in Hit; [destruct Hit as [Hex _]; rewrite Hex|by rewrite Hit].
  rewrite andb_false_r. cbn [pwhen pbind].
  rewrite (exec_atomic_bind _ _ _ _ _ (test_co_run a _ c _ Hc)).
  destruct (TESTBIT (co_status c) COROUTINE_STATUS_NEW); [done|].
  rewrite (exec_atomic_bind (loadstk a) _ _ tt (m_world m)); [by rewrite (exec_bind (asym_switch _ _ _))|].
  unfold loadstk. rewrite (bind_ok _ _ _ _ _ (test_co_run a _ c _ Hc)), Hown. done.
Qed.

(** The way into the coroutine. *)
Lemma exec_switch cid a prev w s c (K : Z -> prog world unit) :
  w_sched w = Some s -> w_coros w !! a = Some c ->
  exec (pbind (asym_switch cid a prev) K) w =
  (SSwitch (SwapTo a) (pbind (asym_tail cid a prev) K),
   set_w_sched (Some (set_s_curr_thread a s)) (with_co a (counted c) w)).
Proof.
  intros Hs Hc. rewrite exec_bind. unfold asym_switch.
  erewrite exec_atomic_bind by (apply upd_co_run; exact Hc).
  erewrite exec_atomic_bind by (apply upd_sched_run; exact Hs).
  erewrite exec_atomic_bind by (apply set_flag_run; simpl; apply lookup_insert_eq).
  simpl. unfold with_co, counted, running. simpl. by rewrite insert_insert_eq.
Qed.

(** The way back into the caller. *)
Lemma exec_tail cid a prev w s c (K : Z -> prog world unit) :
  w_sched w = Some s -> w_coros w !! a = Some c ->
  exec (pbind (asym_tail cid a prev) K) w =
  exec (K (if TESTBIT (co_status c) COROUTINE_STATUS_EXITED then 0 else cid))
    (set_w_sched (Some (set_s_curr_thread prev s)) w).
Proof.
  intros Hs Hc. rewrite exec_bind. unfold asym_tail.
  erewrite exec_atomic_bind by (apply upd_sched_run; exact Hs).
  erewrite exec_atomic_bind by (apply (test_co_run _ _ c); exact Hc). done.
Qed.

(** What the coroutine does in a call: the next item of the work, or its end. *)
Definition stopped c (done : bool) : dyco_coroutine :=
  set_co_status (CLRBIT (if done then SETBIT (co_status c) COROUTINE_STATUS_EXITED else co_status c)
    COROUTINE_STATUS_RUNNING) c.

Lemma exec_asym_yield w s a c :
  w_sched w = Some s -> s_curr_thread s = a -> w_coros w !! a = Some c -> gen_flags c ->
  exec dyco_asymcoroyield w =
  (SSwitch (SwapRet a) (atomic (set_flag a COROUTINE_STATUS_RUNNING)), with_co a (stopped c false) w).
Proof.
  intros Hs Hcur Hc [_ Hown]. unfold dyco_asymcoroyield.
  rewrite (exec_atomic_bind _ _ _ _ _ (get_sched_run _)), Hs, Hcur.
  rewrite (exec_atomic_bind _ _ _ _ _ (test_co_run a _ c _ Hc)).
  assert (Hsv : savestk a w = Ok (tt, w)).
  { unfold savestk. rewrite (bind_ok _ _ _ _ _ (test_co_run a _ c _ Hc)), Hown. done. }
  rewrite exec_bind.
  replace (exec (pwhen _ _) w) with (SDone (W := world) tt, w) by (destruct (TESTBIT (co_status c) COROUTINE_STATUS_EXITED); cbn [negb pwhen]; [done|by rewrite exec_atomic, Hsv]).
  by erewrite exec_atomic_bind by (apply clr_flag_run; exact Hc).
Qed.

Lemma exec_gen_body a ws w s c :
  w_sched w = Some s -> s_curr_thread s = a -> w_coros w !! a = Some c -> gen_flags c ->
  exists k, exec (gen_body a ws) w =
    (SSwitch (SwapRet a) k, with_co a (stopped c (match ws with [] => true | _ => false end))
       (match ws with [] => w | f :: _ => set_w_kern (f (w_kern w)).2 w end)) /\
    match ws with [] => True | _ :: ws' => goes_on a c k ws' end.
Proof.
  intros Hs Hcur Hc Hfl. destruct ws as [|f ws].
  - unfold gen_body. cbn [generator pbind].
    set (c1 := set_co_status (SETBIT (co_status c) COROUTINE_STATUS_EXITED) c).
    eexists. split; [|done]. rewrite (exec_atomic_bind _ _ _ _ _ (set_flag_run _ _ _ _ Hc)). fold c1.
    rewrite (exec_asym_yield _ s a c1); try done.
    + unfold with_co, stopped. simpl. by rewrite insert_insert_eq.
    + simpl. apply lookup_insert_eq.
    + destruct Hfl. split; unfold c1; simpl; rewrite TESTBIT_SETBIT by done; by apply orb_true_intro; right.
  - set (w1 := set_w_kern (f (w_kern w)).2 w).
    assert (Hf : sys f w = Ok (tt, w1)) by (unfold sys, w1; by destruct (f (w_kern w)) as [[] k]).
    eexists. split.
    + unfold gen_body. rewrite exec_bind. cbn [generator]. rewrite (exec_atomic_bind _ _ _ _ _ Hf), exec_bind.
      rewrite (exec_asym_yield w1 s a c) by done. reflexivity.
    + intros w' c' Hc' _ _. rewrite !exec_bind, exec_atomic, (set_flag_run _ _ _ _ Hc'). unfold gen_body.
      by rewrite exec_bind.
Qed.

Lemma flag_of_stopped c d flag :
  0 <= flag -> flag <> COROUTINE_STATUS_RUNNING ->
  TESTBIT (co_status (stopped (running (counted c)) d)) flag =
  (d && (COROUTINE_STATUS_EXITED =? flag)) || TESTBIT (co_status c) flag.
Proof.
  intros H0 Hr. unfold stopped, counted, running. simpl. rewrite TESTBIT_CLRBIT by done.
  destruct (Z.eqb_spec COROUTINE_STATUS_RUNNING flag); [done|]. cbn [negb andb].
  destruct d; rewrite !TESTBIT_SETBIT by done; destruct (Z.eqb_spec COROUTINE_STATUS_RUNNING flag); done.
Qed.

(** A call of a coroutine that has been started. *)
Lemma started_call cid a m s c ws p (K : Z -> prog world unit) :
  w_sched (m_world m) = Some s -> w_coros (m_world m) !! a = Some c -> gen_flags c ->
  TESTBIT (co_status c) COROUTINE_STATUS_EXITED = false -> TESTBIT (co_status c) COROUTINE_STATUS_NEW = false ->
  m_ctx m !! a = Some p -> goes_on a c p ws ->
  let '(r, it, k) := it_next cid (Some ws) (w_kern (m_world m)) in
  exists m' c', (forall fuel, run_until_sched funcs (2 + fuel) (pbind (asym_switch cid a (s_curr_thread s)) K) m =
      run_until_sched funcs fuel (K r) m') /\
    w_sched (m_world m') = Some s /\ w_coros (m_world m') = <[a := c']> (w_coros (m_world m)) /\
    w_kern (m_world m') = k /\ gen_flags c' /\ gen_at m' a c' it /\
    (forall b, b <> a -> m_ctx m' !! b = m_ctx m !! b) /\ (forall b, b <> a -> m_ret m' !! b = m_ret m !! b).
Proof.
  intros Hs Hc Hfl Hex Hnew Hp Hgo. set (w1 := set_w_sched (Some (set_s_curr_thread a s)) (with_co a (counted c) (m_world m))).
  assert (Hc1 : w_coros w1 !! a = Some (counted c)) by apply lookup_insert_eq.
  assert (Hfl1 : gen_flags (running (counted c))).
  { destruct Hfl. split; unfold counted, running; simpl; rewrite !TESTBIT_SETBIT by done; by rewrite ?H, ?H0, !orb_true_r. }
  destruct (exec_gen_body a ws (with_co a (running (counted c)) w1) (set_s_curr_thread a s) (running (counted c)))
    as (k & Hk & Hgo'); [done|done|apply lookup_insert_eq|done|].
  set (nil := match ws with [] => true | _ => false end) in Hk. set (c' := stopped (running (counted c)) nil) in Hk.
  set (w2 := with_co a c' _) in Hk.
  assert (Hs2 : w_sched w2 = Some (set_s_curr_thread a s)) by (by destruct ws).
  assert (Hc2 : w_coros w2 = <[a := c']> (w_coros (m_world m))).
  { unfold w2. destruct ws; simpl; by rewrite !insert_insert_eq. }
  pose proof (fun flag H0 H1 => flag_of_stopped c nil flag H0 H1) as Hfc. fold c' in Hfc.
  assert (Hfl' : gen_flags c') by (destruct Hfl as [Has Hown]; split; rewrite Hfc, ?Has, ?Hown, orb_true_r by done; done).
  assert (Hres : (if TESTBIT (co_status c') COROUTINE_STATUS_EXITED then 0 else cid) = (it_next cid (Some ws) (w_kern (m_world m))).1.1).
  { rewrite Hfc, Hex by done. by destruct ws. }
  set (m' := mk_machine (set_w_sched (Some s) w2) (<[a := k]> (m_ctx m))
    (<[a := pbind (asym_tail cid a (s_curr_thread s)) K]> (m_ret m))).
  assert (Hrun : forall fuel, run_until_sched funcs (2 + fuel) (pbind (asym_switch cid a (s_curr_thread s)) K) m =
    run_until_sched funcs fuel (K (it_next cid (Some ws) (w_kern (m_world m))).1.1) m').
  { intros fuel. rewrite <- Hres. cbn [Nat.add run_until_sched]. rewrite (exec_switch cid a _ _ s c K Hs Hc). fold w1.
    cbn [m_ctx m_ret m_world]. rewrite Hp. cbn [save_ret m_ctx m_ret m_world].
    rewrite (Hgo w1 (counted c)), Hk by done. cbn [m_ctx m_ret m_world]. rewrite lookup_insert_eq.
    apply run_exec_eq. rewrite (exec_tail cid a _ w2 (set_s_curr_thread a s) c' K) by (done || by rewrite Hc2, lookup_insert_eq).
    f_equal. f_equal. f_equal. by destruct s. }
  assert (Hframe : (forall b, b <> a -> m_ctx m' !! b = m_ctx m !! b) /\ (forall b, b <> a -> m_ret m' !! b = m_ret m !! b)).
  { split; intros b Hb; by apply lookup_insert_ne. }
  destruct Hframe as [Hf1 Hf2]. destruct ws as [|f ws]; exists m', c'; (split; [exact Hrun|]); split_and!; try done.
  - simpl. by rewrite Hfc, Hex by done.
  - simpl. rewrite !Hfc, Hex, Hnew by done. split; [done|]. exists k. split; [by apply lookup_insert_eq|].
    exact Hgo'.
Qed.

(** The start function of the context. *)
Lemma execute_goes_on a c ws : funcs (co_func c) (co_arg c) = generator ws -> goes_on a c (execute_asym funcs a) ws.
Proof.
  intros Hf w c' Hc Hfn Harg. unfold execute_asym, gen_body.
  rewrite (exec_atomic_bind _ _ _ _ _ (set_flag_run a _ c' w Hc)).
  rewrite (exec_atomic_bind _ _ _ (running c') (with_co a (running c') w)) by (apply getco_run, lookup_insert_eq).
  simpl. by rewrite Hfn, Harg, Hf.
Qed.

(** The state after a call of a coroutine with work left. *)
Lemma after_call cid a it m s m1 m' c' :
  w_sched (m_world m) = Some s -> htable_wf (s_cid_co_map s) -> cid <> 0 -> cid <> -1 ->
  cids s !! cid = Some a -> a <> NULL -> w_sched (m_world m') = Some s ->
  w_coros (m_world m') = <[a := c']> (w_coros (m_world m1)) ->
  delete a (w_coros (m_world m1)) = delete a (w_coros (m_world m)) -> gen_flags c' -> gen_at m' a c' it ->
  (forall b, b <> a -> m_ctx m' !! b = m_ctx m !! b) -> (forall b, b <> a -> m_ret m' !! b = m_ret m !! b) ->
  gen_state cid a it m' /\ gen_frame a m m'.
Proof.
  intros Hs Hwf H0 H1 Hcid Ha Hs' Hcs Hdel Hfl Hat Hf1 Hf2. split.
  - exists s, c'. split_and!; try done. by rewrite Hcs, lookup_insert_eq.
  - split_and!; try done; [by rewrite Hs'|]. by rewrite Hcs, delete_insert_eq.
Qed.

(** The first call makes the context of the coroutine. *)
Lemma first_call cid a m s c ws (K : Z -> prog world unit) :
  w_sched (m_world m) = Some s -> w_coros (m_world m) !! a = Some c -> gen_flags c ->
  TESTBIT (co_status c) COROUTINE_STATUS_EXITED = false -> funcs (co_func c) (co_arg c) = generator ws ->
  let '(r, it, k) := it_next cid (Some ws) (w_kern (m_world m)) in
  exists m' c', (forall fuel, run_until_sched funcs (2 + fuel)
      (pbind (do! atomic (clr_flag a COROUTINE_STATUS_NEW); asym_switch cid a (s_curr_thread s)) K)
      (save_ctx a (execute_asym funcs a) m) = run_until_sched funcs fuel (K r) m') /\
    w_sched (m_world m') = Some s /\ delete a (w_coros (m_world m')) = delete a (w_coros (m_world m)) /\
    w_coros (m_world m') !! a = Some c' /\
    w_kern (m_world m') = k /\ gen_flags c' /\ gen_at m' a c' it /\
    (forall b, b <> a -> m_ctx m' !! b = m_ctx m !! b) /\ (forall b, b <> a -> m_ret m' !! b = m_ret m !! b).
Proof.
  intros Hs Hc Hfl Hx Hf. set (c1 := set_co_status (CLRBIT (co_status c) COROUTINE_STATUS_NEW) c).
  set (m1 := mk_machine (with_co a c1 (m_world m)) (<[a := execute_asym funcs a]> (m_ctx m)) (m_ret m)).
  assert (Hflag : forall f, 0 <= f -> TESTBIT (co_status c1) f = negb (COROUTINE_STATUS_NEW =? f) && TESTBIT (co_status c) f)
    by (intros f H0; by apply TESTBIT_CLRBIT).
  pose proof (started_call cid a m1 s c1 ws (execute_asym funcs a) K) as Hcall.
  change (w_kern (m_world m1)) with (w_kern (m_world m)) in Hcall.
  destruct (it_next cid (Some ws) (w_kern (m_world m))) as [[r it'] k'].
  destruct Hcall as (m' & c' & Hrun & Hs' & Hcs & Hk & Hfl' & Hat' & Hf1 & Hf2).
  { done. } { by apply lookup_insert_eq. }
  { destruct Hfl as [Hf1 Hf2]. split; rewrite Hflag by done; by rewrite ?Hf1, ?Hf2. }
  { by rewrite Hflag, Hx by done. } { by rewrite Hflag by done. } { apply lookup_insert_eq. }
  { by apply (execute_goes_on a c1). }
  exists m', c'. split_and!; try done.
  - intros fuel. rewrite <- Hrun. apply run_exec_eq. rewrite exec_bind.
    rewrite (exec_atomic_bind _ _ _ _ _ (clr_flag_run _ _ _ _ Hc)). by rewrite <- exec_bind.
  - rewrite Hcs. simpl. by rewrite !delete_insert_eq.
  - by rewrite Hcs, lookup_insert_eq.
  - intros b Hb. rewrite Hf1 by done. by apply lookup_insert_ne.
Qed.

Lemma call_step cid a it m (K : Z -> prog world unit) :
  gen_state cid a it m ->
  let '(r, it', k') := it_next cid it (w_kern (m_world m)) in
  exists m' g, (g <= 3)%nat /\
    (forall fuel, run_until_sched funcs (g + fuel) (pbind (dyco_asymcororesume cid) K) m =
      run_until_sched funcs fuel (K r) m') /\
    gen_state cid a it' m' /\ w_kern (m_world m') = k' /\ gen_frame a m m'.
Proof.
  intros (s & c & Hs & Hwf & H0 & H1 & Hcid & Ha & Hc & Hfl & Hat).
  pose proof (exec_guards cid a m it s c K Hs Hwf H0 H1 Hcid Ha Hc Hfl Hat) as Hex.
  destruct it as [ws|]; cbn [gen_at] in Hat.
  2: { exists m, 0%nat. split_and!; [lia| |by exists s, c|done..]. intros fuel.
    destruct m as [w ctx ret]. by apply run_exec_eq. }
  destruct Hat as [Hx Hat]. destruct (TESTBIT (co_status c) COROUTINE_STATUS_NEW) eqn:Hnew.
  - pose proof (first_call cid a m s c ws K Hs Hc Hfl Hx Hat) as Hcall.
    destruct (it_next cid (Some ws) (w_kern (m_world m))) as [[r it'] k'].
    destruct Hcall as (m' & c' & Hrun & Hs' & Hdel & Hc' & Hk & Hfl' & Hat' & Hf1 & Hf2).
    destruct (after_call cid a it' m s m' m' c') as [Hgs Hgf]; try done; [by rewrite insert_id|].
    exists m', 3%nat. split_and!; [lia| |done..]. intros fuel. change (3 + fuel)%nat with (S (2 + fuel)).
    rewrite <- Hrun. cbn [run_until_sched]. rewrite Hex. by destruct m.
  - destruct Hat as (p & Hp & Hgo). pose proof (started_call cid a m s c ws p K Hs Hc Hfl Hx Hnew Hp Hgo) as Hcall.
    destruct (it_next cid (Some ws) (w_kern (m_world m))) as [[r it'] k'].
    destruct Hcall as (m' & c' & Hrun & Hs' & Hcs & Hk & Hfl' & Hat' & Hf1 & Hf2).
    destruct (after_call cid a it' m s m m' c') as [Hgs Hgf]; try done.
    exists m', 2%nat. split_and!; [lia| |done..]. intros fuel. rewrite <- Hrun. destruct m. by apply run_exec_eq.
Qed.

Lemma gen_frame_trans a m1 m2 m3 : gen_frame a m1 m2 -> gen_frame a m2 m3 -> gen_frame a m1 m3.
Proof.
  intros (E1 & E2 & E3 & E4) (F1 & F2 & F3 & F4). split_and!; [by rewrite F1|by rewrite F2|..]; intros b Hb;
    [by rewrite F3, E3 by done|by rewrite F4, E4 by done].
Qed.

(** C10. An asymmetric coroutine with a stack of its own ([gen_flags]; a resumption
    of one on the shared stack would copy stacks) that does an item of its work
    and yields, over and over, is an iterator: a caller that resumes it [n] times, from another coroutine
    or from the thread, goes on with the results of [n] steps of the abstract
    iterator (the identifier while there is work, 0 at the end and ever
    after), exactly the items of these steps have been done and in order, and
    the scheduler with its current coroutine, all other coroutines and all
    other contexts are as before.  Three context switches per call are
    enough. *)
Theorem asym_refines_iterator cid a n it m (K : list Z -> prog world unit) :
  gen_state cid a it m ->
  let '(rs, it', k') := it_take cid n it (w_kern (m_world m)) in
  exists m' g, (g <= 3 * n)%nat /\
    (forall fuel, run_until_sched funcs (g + fuel) (resume_times cid n K) m = run_until_sched funcs fuel (K rs) m') /\
    gen_state cid a it' m' /\ w_kern (m_world m') = k' /\ gen_frame a m m'.
Proof.
  revert it m K. induction n as [|n IH]; intros it m K Hg; cbn [it_take resume_times].
  { exists m, 0%nat. split_and!; try done; lia. }
  pose proof (call_step cid a it m (fun r => resume_times cid n (fun rs => K (r :: rs))) Hg) as Hstep.
  destruct (it_next cid it (w_kern (m_world m))) as [[r it1] k1].
  destruct Hstep as (m1 & g1 & Hg1 & Hrun1 & Hgs1 & Hk1 & Hf1).
  pose proof (IH it1 m1 (fun rs => K (r :: rs)) Hgs1) as Hrest. rewrite Hk1 in Hrest.
  destruct (it_take cid n it1 k1) as [[rs it2] k2]. destruct Hrest as (m2 & g2 & Hg2 & Hrun2 & Hgs2 & Hk2 & Hf2).
  exists m2, (g1 + g2)%nat. split_and!; [lia| |done|done|by eapply gen_frame_trans].
  intros fuel. by rewrite <- Nat.add_assoc, Hrun1, Hrun2.
Qed.

End generator.

(** ** A concrete generator

    Coroutine 101 at 16 sends 5, then 6; it is called three times. *)
Definition ex_gen_works : list (sim_kernel -> unit * sim_kernel) := [ex_emit 5; ex_emit 6].
Definition ex_gen_funcs (f arg : Z) : prog (@world sim (gmap Z addr)) unit := generator (os := sim) ex_gen_works.
Definition ex_gen_co : dyco_coroutine := set_co_cid 101 (ex_co (Z.lor (BIT COROUTINE_STATUS_NEW)
  (Z.lor (BIT COROUTINE_FLAGS_ASYMMETRIC) (BIT COROUTINE_FLAGS_OWNSTACK))) 0).
Definition ex_gen : machine :=
  mk_machine (set_w_sched (Some (ex_two_sched [(101, 16)])) (ex_world ∅ {[16 := ex_gen_co]})) ∅ ∅.

Lemma asym_refines_iterator_witness :
  exists m' g, (g <= 9)%nat /\
    (forall fuel, run_until_sched ex_gen_funcs (g + fuel) (resume_times 101 3 (fun _ => PRet tt)) ex_gen =
      run_until_sched ex_gen_funcs fuel (PRet tt) m') /\
    gen_state ex_gen_funcs 101 16 None m' /\ ex_trace (w_kern (m_world m')) = [5; 6] /\ gen_frame 16 ex_gen m'.
Proof.
  destruct (asym_refines_iterator ex_gen_funcs 101 16 3 (Some ex_gen_works) ex_gen (fun _ => PRet tt))
    as (m' & g & Hg & Hrun & Hgs & Hk & Hf).
  - exists (ex_two_sched [(101, 16)]), ex_gen_co. split_and!; try done.
    + exact (ok_cids_wf _ _ _ (ex_two_ok _ (or_introl eq_refl))).
  - exists m', g. split_and!; try done. by rewrite Hk.
Defined.
