(* ===== verification/Waitgroup.v ===== *)
(** * Wait groups

    [src/dyco_waitgroup.c]: a set of coroutine identifiers, a count of the
    finished ones, and the coroutines waiting for a target count or for all. *)
From S2P Require Import Prelude Htable Queue SleepTree World SimOS Schedule SchedInv Prog Coroutine.
From S2P Require Import Coropool.

Local Open Scope Z_scope.
Local Open Scope dyco_scope.

Section waitgroup.
Context {os : OS} {T : Type} {st : SleepTree T}.
Local Abbreviation world := (@world os T).

Definition getwg (a : addr) : M world waitgroup :=
  let* w := get_st in match w_groups w !! a with Some x => ret x | None => throw FSegv end.
Definition upd_wg (a : addr) (f : waitgroup -> waitgroup) : M world unit :=
  let* x := getwg a in modify (fun w => set_w_groups (<[a := f x]> (w_groups w)) w).

Definition wg_notify (notifyfd finished_num : Z) : M world unit :=
  let* r := sys (os_eventfd_write notifyfd (u64 finished_num)) in DYCO_MUST (r =? 0).

Fixpoint wg_notify_all (fds : list Z) (n : Z) : M world unit :=
  match fds with
  | [] => ret tt
  | fd :: fds' => wg_notify fd n ;;; wg_notify_all fds' n
  end.

Fixpoint wgsublist_free (l : list Z) : M world unit :=
  match l with
  | [] => ret tt
  | fd :: l' => let* _ := sys (os_close fd) in wgsublist_free l'
  end.

(** The width of the tables: the loop [while ((suggest_size >> width) != 0)
    ++width] runs at most 17 times below 65536. *)
Fixpoint width_loop (fuel : nat) (suggest_size width : Z) : Z :=
  match fuel with
  | O => width
  | S fuel' =>
      if Z.shiftr suggest_size width =? 0 then width
      else width_loop fuel' suggest_size (width + 1)
  end.

Definition wg_width (suggest_size : Z) : Z :=
  if suggest_size <=? 0 then DYCO_HTABLE_DEFAULTWITDH
  else if 65536 <? suggest_size then DYCO_HTABLE_MAXWITDH
  else width_loop 17 suggest_size 1.

Definition dyco_waitgroup_create (suggest_size : Z) : M world addr :=
  let* a := malloc in
  if a =? NULL then ret NULL
  else
    let* ok := sys os_alloc_ok in
    let wd := wg_width suggest_size in
    modify (fun w => set_w_groups (<[a := mk_wg 0 0 (snd (htable_init [] (ok 0%nat) wd))
      (snd (htable_init [] (ok 1%nat) wd)) []]> (w_groups w)) w) ;;;
    ret a.

Definition get_target_map (group : addr) (w : world) : @dyco_htable (list Z) :=
  match w_groups w !! group with
  | Some g => wg_target_sublist_map g
  | None => mk_htable 0 0 0 TNull
  end.
Definition set_target_map (group : addr) (h : @dyco_htable (list Z)) (w : world) : world :=
  set_w_groups (alter (set_wg_target_sublist_map h) group (w_groups w)) w.

Definition dyco_waitgroup_destroy (group : addr) : M world unit :=
  if group =? NULL then ret tt
  else
    let* g := getwg group in
    wgsublist_free (wg_final_sublist g) ;;;
    htable_clear_with_freecb (get_target_map group) (set_target_map group) wgsublist_free ;;;
    let* g := getwg group in
    let* _ := lift (htable_clear (wg_cid_set g)) in
    modify (fun w => set_w_groups (delete group (w_groups w)) w).

Definition dyco_waitgroup_add (group : addr) (cid : Z) : M world Z :=
  if group =? NULL then ret (-1)
  else
    let* g := getwg group in
    let* ok := sys os_alloc_ok in
    let* (r, h) := lift (htable_insert [] ok (wg_cid_set g) cid []) in
    upd_wg group (set_wg_cid_set h) ;;;
    if negb (r =? 1) then ret 0
    else upd_wg group (fun g => set_wg_tot_size (wg_tot_size g + 1) g) ;;; ret 1.

Definition dyco_waitgroup_done (group : addr) : M world Z :=
  if group =? NULL then ret (-1)
  else
    let* oco := opt_curr in
    match oco with
    | None => ret (-1)
    | Some co =>
        let* c := getco co in
        let* g := getwg group in
        let* r := lift (htable_contains (wg_cid_set g) (co_cid c)) in
        if negb (r =? 1) then ret 0
        else
          let finished := wg_finished g + 1 in
          upd_wg group (set_wg_finished finished) ;;;
          let* tslist := lift (htable_find [] (wg_target_sublist_map g) finished) in
          wg_notify_all tslist finished ;;;
          when (finished =? wg_tot_size g) (wg_notify_all (wg_final_sublist g) finished) ;;;
          ret 1
    end.

(** A node becomes the head of an empty list, or follows the head. *)
Definition sub_insert (fd : Z) (l : list Z) : list Z :=
  match l with [] => [fd] | x :: l' => x :: fd :: l' end.

(** The unlinking after a wait dereferences the head of the list. *)
Definition wg_unlink_final (group : addr) (fd : Z) : M world unit :=
  let* g := getwg group in
  match wg_final_sublist g with
  | [] => throw FSegv
  | l => upd_wg group (set_wg_final_sublist (unlink fd l)) ;;;
         when (bool_decide (fd ∈ l)) (let* _ := sys (os_close fd) in ret tt)
  end.

(** Unlinking a node other than the head changes the list the table entry
    already points to; an insertion at a key that is present allocates
    nothing. *)
Definition wg_unlink_target (group : addr) (target fd : Z) : M world unit :=
  let* g := getwg group in
  let* l := lift (htable_find [] (wg_target_sublist_map g) target) in
  match l with
  | [] => throw FSegv
  | x :: l' =>
      (if x =? fd then
         match l' with
         | _ :: _ =>
             let* ok := sys os_alloc_ok in
             let* (_, h) := lift (htable_insert [] ok (wg_target_sublist_map g) target l') in
             upd_wg group (set_wg_target_sublist_map h)
         | [] =>
             let* (_, _, h) := lift (htable_delete [] (wg_target_sublist_map g) target) in
             upd_wg group (set_wg_target_sublist_map h)
         end
       else
         let* (_, h) := lift (htable_insert [] (fun _ => true) (wg_target_sublist_map g) target
                                (x :: unlink fd l')) in
         upd_wg group (set_wg_target_sublist_map h)) ;;;
      when (bool_decide (fd ∈ l)) (let* _ := sys (os_close fd) in ret tt)
  end.

Definition dyco_waitgroup_wait (group : addr) (target timeout : Z) : prog world Z :=
  if group =? NULL then PRet (-1)
  else
    let! g := atomic (getwg group) in
    if timeout =? 0 then PRet (wg_finished g)
    else
      let! oco := atomic opt_curr in
      match oco with
      | None => PRet (-1)
      | Some co =>
          if target <=? 0 then
            if wg_finished g =? wg_tot_size g then PRet (wg_finished g)
            else
              let! notifyfd := atomic (sys os_eventfd) in
              do! atomic (DYCO_MUSTNOT (notifyfd =? -1));
              let! ok := atomic (sys os_alloc_ok) in
              if negb (ok O) then let! _ := atomic (sys (os_close notifyfd)) in PRet (-1)
              else
                do! atomic (upd_wg group (fun g =>
                      set_wg_final_sublist (sub_insert notifyfd (wg_final_sublist g)) g));
                do! suspend co notifyfd EVENTS_R timeout;
                let! r := atomic (sys (os_eventfd_read notifyfd)) in
                do! atomic (wg_unlink_final group notifyfd);
                PRet (match r with Some count => i32 count | None => -1 end)
          else if target <=? wg_finished g then PRet target
          else
            let! notifyfd := atomic (sys os_eventfd) in
            do! atomic (DYCO_MUSTNOT (notifyfd =? -1));
            let! ok := atomic (sys os_alloc_ok) in
            if negb (ok O) then let! _ := atomic (sys (os_close notifyfd)) in PRet (-1)
            else
              do! atomic (
                let* g := getwg group in
                let* sublist := lift (htable_find [] (wg_target_sublist_map g) target) in
                let* (_, h) := lift (htable_insert [] (fun n => ok (S n))
                                  (wg_target_sublist_map g) target (notifyfd :: sublist)) in
                upd_wg group (set_wg_target_sublist_map h));
              do! suspend co notifyfd EVENTS_R timeout;
              let! r := atomic (sys (os_eventfd_read notifyfd)) in
              do! atomic (wg_unlink_target group target notifyfd);
              PRet (match r with Some count => i32 count | None => -1 end)
      end.

End waitgroup.

(** * Properties *)

Section waitgroup_proofs.
Context {os : OS} {osl : OSLaws os} {T : Type} {st : SleepTree T}.
Local Abbreviation world := (@world os T).
Implicit Types (w : world) (g : waitgroup) (group : addr).

Lemma getwg_run group g w : w_groups w !! group = Some g -> getwg group w = Ok (g, w).
Proof. unfold getwg, bind, get_st. by intros ->. Qed.

Definition with_wg group g w : world := set_w_groups (<[group := g]> (w_groups w)) w.

Lemma upd_wg_run group f g w :
  w_groups w !! group = Some g -> upd_wg group f w = Ok (tt, with_wg group (f g) w).
Proof. intros Hg. unfold upd_wg, bind. by rewrite (getwg_run group g w Hg). Qed.

(** The members of a group; their number is its total. *)
Definition members g : gset Z := dom (habs (wg_cid_set g)).

Definition wg_ok g : Prop :=
  htable_wf (wg_cid_set g) /\ wg_tot_size g = Z.of_nat (size (members g)).

(** ** Joining a group *)

Lemma waitgroup_add_run group g w cid :
  group <> NULL -> w_groups w !! group = Some g -> wg_ok g -> memory_ok (w_kern w) ->
  cid <> 0 -> cid <> -1 -> Z.of_nat (size (members g)) + 1 < max_load ->
  exists g', dyco_waitgroup_add group cid w =
      Ok (if decide (cid ∈ members g) then 0 else 1,
          with_wg group g' (set_w_kern (os_alloc_ok (w_kern w)).2 w)) /\
    wg_ok g' /\ members g' = {[cid]} ∪ members g /\ wg_finished g' = wg_finished g /\
    wg_target_sublist_map g' = wg_target_sublist_map g /\ wg_final_sublist g' = wg_final_sublist g.
Proof.
  intros Hn Hg [Hwf Htot] Hmem H0 H1 Hld. unfold memory_ok in Hmem.
  destruct (os_alloc_ok (w_kern w)) as [ok k] eqn:Hk.
  destruct (htable_insert_spec [] ok (wg_cid_set g) cid [] Hwf Hmem H0 H1) as (h & Hh & Hwh & Hah).
  assert (Hres : insert_result (wg_cid_set g) cid = if decide (cid ∈ members g) then 0 else 1).
  { rewrite insert_result_below_limit; [|done|].
    - unfold members. destruct (habs (wg_cid_set g) !! cid) eqn:Hl.
      + rewrite decide_True; [done|]. apply elem_of_dom. by rewrite Hl.
      + rewrite decide_False; [done|]. by apply not_elem_of_dom.
    - rewrite htable_count_size by done. unfold members in Hld. by rewrite size_dom in Hld. }
  assert (Hmem' : dom (habs h) = {[cid]} ∪ members g) by (rewrite Hah; apply dom_insert_L).
  unfold dyco_waitgroup_add. destruct (Z.eqb_spec group NULL); [done|]. mrun with getwg_run. mrun. mrun.
  rewrite Hres. mrun with upd_wg_run. case_decide as Hin; simpl.
  - eexists. split; [done|]. split_and!; try done. split; [done|]. unfold members. simpl.
    rewrite Hmem', Htot. do 2 f_equal.
    symmetry. apply subseteq_union_1_L. by intros x ->%elem_of_singleton.
  - mrun with upd_wg_run. eexists. split; [unfold with_wg; simpl; by rewrite insert_insert_eq|].
    split_and!; try done. split; [done|]. unfold members. simpl.
    rewrite Hmem', size_union, size_singleton, Htot; [lia|].
    intros x ->%elem_of_singleton. done.
Qed.

Fixpoint add_all (group : addr) (cids : list Z) : M world (list Z) :=
  match cids with
  | [] => ret []
  | cid :: l => let* r := dyco_waitgroup_add group cid in let* rs := add_all group l in ret (r :: rs)
  end.

(** A wait group counts distinct coroutines: after any sequence of additions
    its members are exactly the identifiers that were added, its total is
    their number however often each was added, and what has already finished
    or waits is not affected. *)
Theorem waitgroup_counts_members cids group g w :
  group <> NULL -> w_groups w !! group = Some g -> wg_ok g -> (forall k, memory_ok k) ->
  0 ∉ cids -> -1 ∉ cids -> Z.of_nat (size (members g)) + Z.of_nat (length cids) < max_load ->
  exists rs g' w', add_all group cids w = Ok (rs, w') /\ w_groups w' !! group = Some g' /\
    wg_ok g' /\ members g' = list_to_set cids ∪ members g /\
    wg_tot_size g' = Z.of_nat (size (list_to_set cids ∪ members g : gset Z)) /\
    wg_finished g' = wg_finished g.
Proof.
  intros Hn Hg Hok Hmem. revert g w Hg Hok.
  induction cids as [|cid l IH]; intros g w Hg Hok H0 H1 Hld; simpl.
  { exists [], g, w. destruct (Hok) as [_ Htot]. rewrite (left_id_L ∅ (∪)). by split_and!. }
  apply not_elem_of_cons in H0 as [H0 H0l], H1 as [H1 H1l].
  destruct (waitgroup_add_run group g w cid) as (g1 & Hadd & Hok1 & Hm1 & Hf1 & _); try done;
    [rewrite length_cons in Hld; lia|].
  rewrite (bind_ok _ _ _ _ _ Hadd).
  assert (Hsz : (size (members g1) <= 1 + size (members g))%nat).
  { rewrite Hm1, size_union_alt, size_singleton.
    enough (size (members g ∖ {[cid]}) <= size (members g))%nat by lia. apply subseteq_size, subseteq_difference_l. done. }
  destruct (IH g1 (with_wg group g1 (set_w_kern (os_alloc_ok (w_kern w)).2 w)))
    as (rs & g' & w' & Hrun & Hg' & Hok' & Hm' & Htot' & Hf'); try done; [apply lookup_insert_eq|rewrite length_cons in Hld; lia|].
  eexists _, g', w'. rewrite (bind_ok _ _ _ _ _ Hrun).
  assert (Heq : list_to_set l ∪ members g1 = {[cid]} ∪ list_to_set l ∪ members g)
    by (by rewrite Hm1, (assoc_L (∪) (list_to_set l)), (comm_L (∪) (list_to_set l) {[cid]})).
  split_and!; try done; [by rewrite Hm'|by rewrite Htot', Heq|congruence].
Qed.

(** ** Completion *)

(** Every eventfd of the list is written once. *)
Lemma wg_notify_all_run l n w :
  NoDup l -> (forall fd, fd ∈ l -> os_counter (w_kern w) fd = Some 0) -> 0 <= n < 2 ^ 63 ->
  exists k, wg_notify_all l n w = Ok (tt, set_w_kern k w) /\
    (forall fd, fd ∈ l -> os_counter k fd = Some n) /\
    (forall fd, fd ∉ l -> os_counter k fd = os_counter (w_kern w) fd).
Proof.
  revert w. induction l as [|fd l IH]; intros w Hnd Hop Hn; simpl.
  { exists (w_kern w). split_and!; [by destruct w|by intros fd []%elem_of_nil|done]. }
  apply NoDup_cons in Hnd as [Hfd Hnd].
  destruct (eventfd_write_open (w_kern w) fd n 0) as (k1 & Hk1 & Hc1 & Hc2); [apply Hop; left|lia|lia|].
  unfold wg_notify. rewrite u64_small by (unfold is_u64; lia).
  erewrite bind_ok; [|erewrite bind_ok by (apply sys_run; exact Hk1); reflexivity]. cbv beta.
  destruct (IH (set_w_kern k1 w)) as (k & Hk & Hin & Hout); [done| |done|].
  { intros fd' Hfd'. simpl. rewrite Hc2 by (by intros ->). apply Hop. by right. }
  exists k. split_and!; [exact Hk| |].
  - intros fd' [->|Hfd']%elem_of_cons; [|by apply Hin]. rewrite Hout by done. exact Hc1.
  - intros fd' [Hne Hni]%not_elem_of_cons. rewrite Hout by done. by apply Hc2.
Qed.

(** The eventfds to notify when the group reaches [f] finished coroutines. *)
Definition to_notify g (f : Z) : list Z :=
  default [] (habs (wg_target_sublist_map g) !! f) ++
  (if f =? wg_tot_size g then wg_final_sublist g else []).

Lemma waitgroup_done_run w s a c group g :
  group <> NULL -> w_sched w = Some s -> s_curr_thread s = a -> a <> NULL ->
  w_coros w !! a = Some c -> w_groups w !! group = Some g ->
  htable_wf (wg_cid_set g) -> htable_wf (wg_target_sublist_map g) ->
  co_cid c <> 0 -> co_cid c <> -1 -> co_cid c ∈ members g ->
  let f := wg_finished g + 1 in
  0 < f < 2 ^ 31 -> NoDup (to_notify g f) ->
  (forall fd, fd ∈ to_notify g f -> os_counter (w_kern w) fd = Some 0) ->
  exists k, dyco_waitgroup_done group w = Ok (1, set_w_kern k (with_wg group (set_wg_finished f g) w)) /\
    (forall fd, fd ∈ to_notify g f -> os_counter k fd = Some f) /\
    (forall fd, fd ∉ to_notify g f -> os_counter k fd = os_counter (w_kern w) fd).
Proof.
  intros Hn Hs Hcur Ha Hc Hg Hwf Hwt H0 H1 Hin f Hf Hnd Hop. unfold to_notify in *.
  set (ts := default [] (habs (wg_target_sublist_map g) !! f)) in *.
  set (fin := if f =? wg_tot_size g then wg_final_sublist g else []) in *.
  apply NoDup_app in Hnd as (Hnd1 & Hdis & Hnd2).
  unfold dyco_waitgroup_done. destruct (Z.eqb_spec group NULL); [done|].
  rewrite (bind_ok _ _ _ _ _ (opt_curr_of w s a Hs Hcur Ha)). mrun. mrun with getwg_run.
  erewrite bind_ok by (apply lift_run, htable_contains_spec; done).
  unfold members in Hin. apply elem_of_dom in Hin as [v Hl]. rewrite Hl. simpl. mrun with upd_wg_run.
  erewrite bind_ok by (apply lift_run, htable_find_spec; [done|lia|lia]). cbv beta. fold f ts.
  destruct (wg_notify_all_run ts f (with_wg group (set_wg_finished f g) w)) as (k1 & Hk1 & Hin1 & Hout1);
    [done|intros fd Hfd; apply Hop, elem_of_app; by left|lia|].
  rewrite (bind_ok _ _ _ _ _ Hk1).
  destruct (wg_notify_all_run fin f (set_w_kern k1 (with_wg group (set_wg_finished f g) w)))
    as (k2 & Hk2 & Hin2 & Hout2); [done| |lia|].
  { intros fd Hfd. simpl. rewrite Hout1; [apply Hop, elem_of_app; by right|].
    intros Hts. by apply (Hdis fd). }
  exists k2. split_and!.
  - erewrite bind_ok.
    2: { unfold fin in Hk2. destruct (f =? wg_tot_size g); [exact Hk2|]. simpl in Hk2.
         injection Hk2 as Hk2. simpl. unfold ret. rewrite <- Hk2. done. }
    done.
  - intros fd [Hfd|Hfd]%elem_of_app; [|by apply Hin2].
    rewrite Hout2 by (by apply Hdis). by apply Hin1.
  - intros fd [Hfd1 Hfd2]%not_elem_of_app. rewrite Hout2 by done. by apply Hout1.
Qed.

(** C27. [dyco_waitgroup_done] by a member: the count of finished coroutines grows
    by one, and exactly the coroutines that wait for this count, together with
    those that wait for all when it reaches the total, are notified, once each
    and with the count; by a coroutine that is not a member it returns 0 and
    changes nothing. *)
Theorem waitgroup_done_notifies w s a c group g :
  group <> NULL -> w_sched w = Some s -> s_curr_thread s = a -> a <> NULL ->
  w_coros w !! a = Some c -> w_groups w !! group = Some g ->
  htable_wf (wg_cid_set g) -> htable_wf (wg_target_sublist_map g) ->
  co_cid c <> 0 -> co_cid c <> -1 ->
  let f := wg_finished g + 1 in
  0 < f < 2 ^ 31 -> NoDup (to_notify g f) ->
  (forall fd, fd ∈ to_notify g f -> os_counter (w_kern w) fd = Some 0) ->
  if decide (co_cid c ∈ members g) then
    exists w', dyco_waitgroup_done group w = Ok (1, w') /\
      w_groups w' !! group = Some (set_wg_finished f g) /\
      (forall fd, fd ∈ to_notify g f -> os_counter (w_kern w') fd = Some f) /\
      (forall fd, fd ∉ to_notify g f -> os_counter (w_kern w') fd = os_counter (w_kern w) fd)
  else dyco_waitgroup_done group w = Ok (0, w).
Proof.
  intros Hn Hs Hcur Ha Hc Hg Hwf Hwt H0 H1 f Hf Hnd Hop. case_decide as Hin.
  - destruct (waitgroup_done_run w s a c group g) as (k & Hrun & Hk1 & Hk2); try done.
    eexists. split; [exact Hrun|]. split; [apply lookup_insert_eq|]. done.
  - unfold dyco_waitgroup_done. destruct (Z.eqb_spec group NULL); [done|].
    rewrite (bind_ok _ _ _ _ _ (opt_curr_of w s a Hs Hcur Ha)). mrun. mrun with getwg_run.
    erewrite bind_ok by (apply lift_run, htable_contains_spec; done).
    unfold members in Hin. apply not_elem_of_dom in Hin. by rewrite Hin.
Qed.

(** Completion is counted per call, not per member: two calls of
    [dyco_waitgroup_done] by the same coroutine both succeed and count twice,
    so that a group of two is complete, and its waiters are released, while
    one of its members is still running. *)
Theorem waitgroup_done_counts_repeats w s a c group g :
  group <> NULL -> w_sched w = Some s -> s_curr_thread s = a -> a <> NULL ->
  w_coros w !! a = Some c -> w_groups w !! group = Some g ->
  htable_wf (wg_cid_set g) -> htable_wf (wg_target_sublist_map g) ->
  co_cid c <> 0 -> co_cid c <> -1 -> co_cid c ∈ members g ->
  wg_finished g = 0 -> wg_tot_size g = 2 -> habs (wg_target_sublist_map g) = ∅ ->
  NoDup (wg_final_sublist g) ->
  (forall fd, fd ∈ wg_final_sublist g -> os_counter (w_kern w) fd = Some 0) ->
  exists w1 w2, dyco_waitgroup_done group w = Ok (1, w1) /\ dyco_waitgroup_done group w1 = Ok (1, w2) /\
    w_groups w2 !! group = Some (set_wg_finished 2 (set_wg_finished 1 g)) /\
    (forall fd, fd ∈ wg_final_sublist g -> os_counter (w_kern w2) fd = Some 2).
Proof.
  intros Hn Hs Hcur Ha Hc Hg Hwf Hwt H0 H1 Hin Hf Htot Hemp Hnd Hop.
  assert (Hf1 : wg_finished g + 1 = 1) by lia.
  assert (Hl1 : to_notify g 1 = []) by (unfold to_notify; by rewrite Hemp, Htot).
  assert (Hl2 : to_notify (set_wg_finished 1 g) 2 = wg_final_sublist g)
    by (unfold to_notify; simpl; by rewrite Hemp, Htot).
  destruct (waitgroup_done_run w s a c group g) as (k1 & Hr1 & _ & Hk1); rewrite ?Hf1, ?Hl1; try done.
  { constructor. }
  { by intros fd []%elem_of_nil. }
  rewrite Hf1 in Hr1, Hk1. rewrite Hl1 in Hk1.
  destruct (waitgroup_done_run (set_w_kern k1 (with_wg group (set_wg_finished 1 g) w)) s a c group
    (set_wg_finished 1 g)) as (k2 & Hr2 & Hk2 & _); try done.
  { apply lookup_insert_eq. }
  { change (wg_finished (set_wg_finished 1 g) + 1) with 2. by rewrite Hl2. }
  { change (wg_finished (set_wg_finished 1 g) + 1) with 2. rewrite Hl2. intros fd Hfd. rewrite Hk1 by apply not_elem_of_nil. by apply Hop. }
  change (wg_finished (set_wg_finished 1 g) + 1) with 2 in Hr2, Hk2. rewrite Hl2 in Hk2.
  eexists _, _. split; [exact Hr1|]. split; [exact Hr2|]. split; [apply lookup_insert_eq|done].
Qed.

End waitgroup_proofs.

(** ** Concrete states *)

(** Group 192 with the members 5 and 6 and one coroutine, on the eventfd 8,
    waiting for all; coroutine 64, with identifier 5, runs. *)
Definition ex_cid_set : @dyco_htable (list Z) :=
  match htable_insert [] (fun _ => true) (snd (htable_init [] true 1)) 5 [] with
  | Ok (_, h) => match htable_insert [] (fun _ => true) h 6 [] with Ok (_, h) => h | Err _ => h end
  | Err _ => cleared
  end.
Definition ex_wg : waitgroup := mk_wg 2 0 ex_cid_set (snd (htable_init [] true 1)) [8].
Definition ex_groups : @world sim (gmap Z addr) :=
  set_w_groups {[192 := ex_wg]} (set_w_coros {[64 := set_co_cid 5 (ex_co 0 5)]}
    (set_w_kern (mk_sim 1000000000 10 {[8 := 0; 9 := 0]} ∅ : @kernel sim) ex_blk)).

Lemma ex_cid_set_ok : htable_wf ex_cid_set /\ habs ex_cid_set = {[5 := []; 6 := []]}.
Proof.
  unfold ex_cid_set. destruct (htable_init_spec (D := list Z) [] 1) as (h & -> & Hwf & Hab).
  destruct (htable_insert_spec [] (fun _ => true) h 5 []) as (h1 & Hh1 & Hwf1 & Hab1); [done..|].
  cbn [snd]. rewrite Hh1.
  destruct (htable_insert_spec [] (fun _ => true) h1 6 []) as (h2 & Hh2 & Hwf2 & Hab2); [done..|].
  rewrite Hh2. split; [done|]. by rewrite Hab2, Hab1, Hab.
Qed.

Lemma ex_targets_ok :
  htable_wf (wg_target_sublist_map ex_wg) /\ habs (wg_target_sublist_map ex_wg) = ∅.
Proof.
  unfold ex_wg. cbn [wg_target_sublist_map].
  destruct (htable_init_spec (D := list Z) [] 1) as (h & -> & Hwf & Hab). done.
Qed.

Lemma ex_wg_member : 5 ∈ members ex_wg.
Proof. unfold members. apply elem_of_dom. simpl. by rewrite (proj2 ex_cid_set_ok). Qed.

Lemma waitgroup_counts_members_witness :
  exists rs g' w', add_all 192 [7; 5; 7] ex_groups = Ok (rs, w') /\ w_groups w' !! 192 = Some g' /\
    wg_ok g' /\ members g' = list_to_set [7; 5; 7] ∪ members ex_wg /\
    wg_tot_size g' = Z.of_nat (size (list_to_set [7; 5; 7] ∪ members ex_wg : gset Z)) /\
    wg_finished g' = 0.
Proof.
  assert (Hsz : size (members ex_wg) = 2%nat) by (unfold members; simpl; by rewrite (proj2 ex_cid_set_ok)).
  refine (waitgroup_counts_members [7; 5; 7] 192 ex_wg ex_groups _ _ _ _ _ _ _); try done.
  - split; [apply ex_cid_set_ok|]. by rewrite Hsz.
  - refine (bool_decide_unpack _ _). by vm_compute.
  - refine (bool_decide_unpack _ _). by vm_compute.
Defined.

Lemma waitgroup_done_notifies_witness :
  exists w', dyco_waitgroup_done 192 ex_groups = Ok (1, w') /\
    w_groups w' !! 192 = Some (set_wg_finished 1 ex_wg) /\
    (forall fd, fd ∈ [] -> os_counter (w_kern w') fd = Some 1) /\
    (forall fd, fd ∉ [] -> os_counter (w_kern w') fd = os_counter (w_kern ex_groups) fd).
Proof.
  assert (Hn : to_notify ex_wg 1 = []) by (unfold to_notify; by rewrite (proj2 ex_targets_ok)).
  pose proof (waitgroup_done_notifies ex_groups ex_blk_sched 64 (set_co_cid 5 (ex_co 0 5)) 192 ex_wg) as H.
  cbv zeta in H. change (wg_finished ex_wg + 1) with 1 in H. rewrite Hn, decide_True in H by apply ex_wg_member.
  apply H; try done; [apply ex_cid_set_ok|apply ex_targets_ok|constructor|by intros fd []%elem_of_nil].
Defined.

Lemma waitgroup_done_counts_repeats_witness :
  exists w1 w2, dyco_waitgroup_done 192 ex_groups = Ok (1, w1) /\ dyco_waitgroup_done 192 w1 = Ok (1, w2) /\
    w_groups w2 !! 192 = Some (set_wg_finished 2 (set_wg_finished 1 ex_wg)) /\
    (forall fd, fd ∈ [8] -> os_counter (w_kern w2) fd = Some 2).
Proof.
  apply (waitgroup_done_counts_repeats ex_groups ex_blk_sched 64 (set_co_cid 5 (ex_co 0 5)) 192 ex_wg);
    try done.
  - apply ex_cid_set_ok.
  - apply ex_targets_ok.
  - apply NoDup_singleton.
  - by intros fd ->%list_elem_of_singleton.
Defined.
