(* ===== verification/Pubsub.v ===== *)
(** * Publish-subscribe channels

    [src/dyco_pubsub.c]: a publisher hands one message to every coroutine
    subscribed at that moment and waits until the last of them has taken it. *)
From S2P Require Import Prelude Htable Queue SleepTree World SimOS Schedule SchedInv Prog Coroutine.
From S2P Require Import Coropool.

Local Open Scope Z_scope.
Local Open Scope dyco_scope.

Definition psc_code (s : dyco_pubsub_channel_status) : Z :=
  match s with
  | PSC_STATUS_NOP => 0 | PSC_STATUS_EMPTY => 1 | PSC_STATUS_TRANS => 2 | PSC_STATUS_CLOSE => 3
  end.

(** The conversion of an eventfd counter to the enumeration; a value that is
    no enumerator takes the [default] branches, as [PSC_STATUS_NOP] does. *)
Definition psc_of_code (n : Z) : dyco_pubsub_channel_status :=
  if n =? 1 then PSC_STATUS_EMPTY else if n =? 2 then PSC_STATUS_TRANS
  else if n =? 3 then PSC_STATUS_CLOSE else PSC_STATUS_NOP.

Section pubsub.
Context {os : OS} {T : Type} {st : SleepTree T}.
Local Abbreviation world := (@world os T).

Definition getpsc (a : addr) : M world pubsub_channel :=
  let* w := get_st in match w_pubsubs w !! a with Some x => ret x | None => throw FSegv end.
Definition upd_psc (a : addr) (f : pubsub_channel -> pubsub_channel) : M world unit :=
  let* x := getpsc a in modify (fun w => set_w_pubsubs (<[a := f x]> (w_pubsubs w)) w).

(** The results of these writes are ignored. *)
Fixpoint psc_write_all (fds : list Z) (v : Z) : M world unit :=
  match fds with
  | [] => ret tt
  | fd :: fds' => let* _ := sys (os_eventfd_write fd v) in psc_write_all fds' v
  end.

Definition psc_subnotify (psc : addr) : M world unit :=
  let* x := getpsc psc in
  psc_write_all (psc_sublist x) (psc_code (psc_status x)) ;;;
  upd_psc psc (fun x => set_psc_ack_rem (psc_sub_num x) x).

Definition psc_pubnotify (psc : addr) : M world unit :=
  let* x := getpsc psc in
  let* r := sys (os_eventfd_write (psc_pub_notifyfd x) (psc_code (psc_status x))) in
  DYCO_MUST (r =? 0).

Definition psc_unlink (psc fd : Z) : M world unit :=
  let* x := getpsc psc in
  match psc_sublist x with
  | [] => throw FSegv
  | l => upd_psc psc (set_psc_sublist (unlink fd l)) ;;;
         when (bool_decide (fd ∈ l)) (let* _ := sys (os_close fd) in ret tt)
  end.

Definition psc_subwait (psc timeout : Z) : prog world dyco_pubsub_channel_status :=
  let! x := atomic (getpsc psc) in
  if timeout =? 0 then PRet (psc_status x)
  else
    let! oco := atomic opt_curr in
    match oco with
    | None => PRet (psc_status x)
    | Some co =>
        let! notifyfd := atomic (sys os_eventfd) in
        do! atomic (DYCO_MUSTNOT (notifyfd =? -1));
        let! ok := atomic (sys os_alloc_ok) in
        do! atomic (DYCO_MUST (ok O));
        do! atomic (upd_psc psc (fun x => set_psc_sub_num (u64 (psc_sub_num x + 1))
              (set_psc_sublist (notifyfd :: psc_sublist x) x)));
        do! suspend co notifyfd EVENTS_R timeout;
        let! r := atomic (sys (os_eventfd_read notifyfd)) in
        do! atomic (upd_psc psc (fun x => set_psc_sub_num (u64 (psc_sub_num x - 1)) x));
        do! atomic (psc_unlink psc notifyfd);
        match r with
        | Some count =>
            do! atomic (upd_psc psc (fun x => set_psc_ack_rem (u64 (psc_ack_rem x - 1)) x));
            let! x := atomic (getpsc psc) in
            PRet (if psc_ack_rem x =? 0 then PSC_STATUS_EMPTY else psc_of_code count)
        | None => PRet PSC_STATUS_NOP
        end
    end.

(** The callers ignore the status it returns. *)
Definition psc_pubwait (psc timeout : Z) : prog world unit :=
  if timeout =? 0 then PRet tt
  else
    let! oco := atomic opt_curr in
    match oco with
    | None => PRet tt
    | Some co =>
        let! fd := atomic (sys os_eventfd) in
        do! atomic (upd_psc psc (set_psc_pub_notifyfd fd));
        do! atomic (DYCO_MUSTNOT (fd =? -1));
        do! atomic (schedule_sched_waitR co fd);
        do! atomic (schedule_sched_sleep co timeout);
        do! yield co;
        do! atomic (schedule_cancel_sleep co);
        let! x := atomic (getpsc psc) in
        let! _ := atomic (schedule_cancel_wait co (psc_pub_notifyfd x)) in
        let! _ := atomic (sys (os_eventfd_read (psc_pub_notifyfd x))) in
        let! _ := atomic (sys (os_close (psc_pub_notifyfd x))) in
        PRet tt
    end.

Definition dyco_pubsub_create (size : Z) : M world addr :=
  let* a := malloc in
  if a =? NULL then ret NULL
  else
    let* ok := sys os_alloc_ok in
    if negb (ok O) then ret NULL
    else
      let maxsize := if 0 <? size then size else DYCO_DEFAULT_CHANNELSIZE in
      modify (fun w => set_w_pubsubs
        (<[a := mk_psc maxsize 0 [] (-1) 0 0 [] PSC_STATUS_EMPTY]> (w_pubsubs w)) w) ;;;
      ret a.

Definition dyco_pubsub_destroy (psc : addr) : prog world unit :=
  if psc =? NULL then PRet tt
  else
    let! x := atomic (getpsc psc) in
    do! pwhen (negb (psc_sub_num x =? 0))
          (do! atomic (upd_psc psc (set_psc_status PSC_STATUS_CLOSE));
           do! atomic (psc_subnotify psc);
           psc_pubwait psc (-1));
    atomic (let* _ := getpsc psc in
            modify (fun w => set_w_pubsubs (delete psc (w_pubsubs w)) w)).

Definition dyco_pubsub_publish (psc : addr) (buf : list Z) (size : Z) : prog world Z :=
  if psc =? NULL then PRet (-2)
  else
    let! x := atomic (getpsc psc) in
    if negb (bool_decide (psc_status x = PSC_STATUS_EMPTY)) || (psc_maxsize x <? size) || (size =? 0)
    then PRet (-2)
    else if psc_sub_num x =? 0 then PRet 0
    else
      do! atomic (upd_psc psc (fun x => set_psc_status PSC_STATUS_TRANS
            (set_psc_msg (take (Z.to_nat size) buf) (set_psc_msglen size x))));
      do! atomic (psc_subnotify psc);
      do! psc_pubwait psc (-1);
      do! atomic (upd_psc psc (set_psc_status PSC_STATUS_EMPTY));
      PRet size.

Definition psc_message (x : pubsub_channel) : Z * list Z :=
  (i32 (psc_msglen x), take (Z.to_nat (psc_msglen x)) (psc_msg x)).

Definition dyco_pubsub_subscribe (psc maxsize timeout : Z) : prog world (Z * list Z) :=
  if psc =? NULL then PRet (-2, [])
  else
    let! x := atomic (getpsc psc) in
    if maxsize <? psc_maxsize x then PRet (-2, [])
    else
      match psc_status x with
      | PSC_STATUS_EMPTY | PSC_STATUS_TRANS =>
          let! status := psc_subwait psc timeout in
          match status with
          | PSC_STATUS_EMPTY =>
              let! x := atomic (getpsc psc) in
              do! atomic (psc_pubnotify psc); PRet (psc_message x)
          | PSC_STATUS_TRANS => let! x := atomic (getpsc psc) in PRet (psc_message x)
          | PSC_STATUS_CLOSE => PRet (-1, [])
          | PSC_STATUS_NOP => PRet (-2, [])
          end
      | PSC_STATUS_CLOSE => PRet (-1, [])
      | PSC_STATUS_NOP => PRet (-1, [])
      end.

End pubsub.

(** * Properties *)

Section pubsub_proofs.
Context {os : OS} {osl : OSLaws os} {T : Type} {st : SleepTree T} {stl : SleepTreeLaws T}.
Local Abbreviation world := (@world os T).
Local Abbreviation dyco_schedule := (@dyco_schedule T).
Implicit Types (w : world) (s : dyco_schedule) (x : pubsub_channel) (psc : addr).

Lemma getpsc_run psc x w : w_pubsubs w !! psc = Some x -> getpsc psc w = Ok (x, w).
Proof. unfold getpsc, bind, get_st. by intros ->. Qed.

Definition with_psc psc x w : world := set_w_pubsubs (<[psc := x]> (w_pubsubs w)) w.

Lemma upd_psc_run psc f x w :
  w_pubsubs w !! psc = Some x -> upd_psc psc f w = Ok (tt, with_psc psc (f x) w).
Proof. intros Hx. unfold upd_psc, bind. by rewrite (getpsc_run psc x w Hx). Qed.

Ltac pstep lem := rewrite (exec_atomic_bind _ _ _ _ _ lem).

(** ** Publishing *)

Lemma psc_write_all_run l v w :
  NoDup l -> (forall fd, fd ∈ l -> os_counter (w_kern w) fd = Some 0) -> 0 <= v < 2 ^ 63 ->
  exists k, psc_write_all l v w = Ok (tt, set_w_kern k w) /\
    (forall fd, fd ∈ l -> os_counter k fd = Some v) /\
    (forall fd, fd ∉ l -> os_counter k fd = os_counter (w_kern w) fd).
Proof.
  revert w. induction l as [|fd l IH]; intros w Hnd Hop Hn; simpl.
  { exists (w_kern w). split_and!; [by destruct w|by intros fd []%elem_of_nil|done]. }
  apply NoDup_cons in Hnd as [Hfd Hnd].
  destruct (eventfd_write_open (w_kern w) fd v 0) as (k1 & Hk1 & Hc1 & Hc2); [apply Hop; left|lia|lia|].
  mrun. destruct (IH (set_w_kern k1 w)) as (k & Hk & Hin & Hout); [done| |done|].
  { intros fd' Hfd'. simpl. rewrite Hc2 by (by intros ->). apply Hop. by right. }
  exists k. split_and!; [exact Hk| |].
  - intros fd' [->|Hfd']%elem_of_cons; [|by apply Hin]. rewrite Hout by done. exact Hc1.
  - intros fd' [Hne Hni]%not_elem_of_cons. rewrite Hout by done. by apply Hc2.
Qed.

(** The channel while a message is in transit, and after the publisher has
    returned. *)
Definition in_transit (buf : list Z) (size : Z) x : pubsub_channel :=
  set_psc_ack_rem (psc_sub_num x)
    (set_psc_status PSC_STATUS_TRANS (set_psc_msg (take (Z.to_nat size) buf) (set_psc_msglen size x))).

(** C28. [dyco_pubsub_publish] outside of a coroutine (the form whose effect is
    complete in one step): wrong arguments or a busy channel are refused with
    -2, without subscribers it returns 0, and in both cases nothing changes;
    otherwise the message is stored, the eventfd of every subscriber is
    written once with the transit status, as many acknowledgements are
    expected as there are subscribers, and no other descriptor is touched. *)
Theorem publish_notifies_subscribers psc x w buf size :
  psc <> NULL -> w_pubsubs w !! psc = Some x -> opt_curr w = Ok (None, w) ->
  NoDup (psc_sublist x) ->
  (forall fd, fd ∈ psc_sublist x -> os_counter (w_kern w) fd = Some 0) ->
  if negb (bool_decide (psc_status x = PSC_STATUS_EMPTY)) || (psc_maxsize x <? size) || (size =? 0)
  then exec (dyco_pubsub_publish psc buf size) w = (SDone (-2), w)
  else if psc_sub_num x =? 0 then exec (dyco_pubsub_publish psc buf size) w = (SDone 0, w)
  else exists w', exec (dyco_pubsub_publish psc buf size) w = (SDone size, w') /\
    w_pubsubs w' !! psc = Some (set_psc_status PSC_STATUS_EMPTY (in_transit buf size x)) /\
    (forall fd, fd ∈ psc_sublist x -> os_counter (w_kern w') fd = Some 2) /\
    (forall fd, fd ∉ psc_sublist x -> os_counter (w_kern w') fd = os_counter (w_kern w) fd).
Proof.
  intros Hn Hx Hoc Hnd Hop. unfold dyco_pubsub_publish. destruct (Z.eqb_spec psc NULL); [done|].
  pstep (getpsc_run psc x w Hx). destruct (_ || (size =? 0)); [done|].
  destruct (psc_sub_num x =? 0); [done|].
  pstep (upd_psc_run psc (fun x => set_psc_status PSC_STATUS_TRANS
    (set_psc_msg (take (Z.to_nat size) buf) (set_psc_msglen size x))) x w Hx).
  set (x1 := set_psc_status _ _). set (w1 := with_psc psc x1 w).
  assert (Hx1 : w_pubsubs w1 !! psc = Some x1) by apply lookup_insert_eq.
  destruct (psc_write_all_run (psc_sublist x) 2 w1 Hnd Hop ltac:(lia)) as (k & Hk & Hin & Hout).
  assert (Hsub : psc_subnotify psc w1 = Ok (tt, with_psc psc (in_transit buf size x) (set_w_kern k w1))).
  { unfold psc_subnotify. mrun with getpsc_run. rewrite (bind_ok _ _ _ _ _ Hk).
    exact (upd_psc_run psc (fun x => set_psc_ack_rem (psc_sub_num x) x) x1 (set_w_kern k w1) Hx1). }
  pstep Hsub.
  assert (Hw : exec (psc_pubwait psc (-1)) (with_psc psc (in_transit buf size x) (set_w_kern k w1)) =
    (SDone tt, with_psc psc (in_transit buf size x) (set_w_kern k w1))).
  { unfold psc_pubwait. cbn [Z.eqb]. rewrite exec_bind, exec_atomic.
    assert (Hoc' : opt_curr (with_psc psc (in_transit buf size x) (set_w_kern k w1)) =
      Ok (None, with_psc psc (in_transit buf size x) (set_w_kern k w1))).
    { revert Hoc. unfold opt_curr, bind, get_sched, gets, ret. simpl.
      destruct (w_sched w) as [s|]; [|done]. by destruct (s_curr_thread s =? NULL). }
    by rewrite Hoc'. }
  rewrite exec_bind, Hw.
  pstep (upd_psc_run psc (set_psc_status PSC_STATUS_EMPTY) _
    (with_psc psc (in_transit buf size x) (set_w_kern k w1)) (lookup_insert_eq _ _ _)).
  eexists. split; [done|]. split; [apply lookup_insert_eq|]. done.
Qed.

(** ** Subscribing *)

(** [dyco_pubsub_subscribe] with timeout 0 on a channel without a publisher
    in wait takes the empty status of the channel for the mark of the last
    acknowledgement, notifies a publisher that is not there, and ends the
    process. *)
Theorem subscribe_without_timeout_exits psc x w maxsize :
  psc <> NULL -> w_pubsubs w !! psc = Some x -> psc_maxsize x <= maxsize ->
  psc_status x = PSC_STATUS_EMPTY -> os_counter (w_kern w) (psc_pub_notifyfd x) = None ->
  exec (dyco_pubsub_subscribe psc maxsize 0) w = (SFault FExit, w).
Proof.
  intros Hn Hx Hm Hst Hcl. unfold dyco_pubsub_subscribe. destruct (Z.eqb_spec psc NULL); [done|].
  pstep (getpsc_run psc x w Hx). destruct (Z.ltb_spec maxsize (psc_maxsize x)); [lia|]. rewrite Hst.
  unfold psc_subwait. rewrite exec_bind. pstep (getpsc_run psc x w Hx). cbn [Z.eqb exec]. rewrite Hst.
  pstep (getpsc_run psc x w Hx). rewrite exec_bind, exec_atomic.
  destruct (eventfd_write_closed (w_kern w) (psc_pub_notifyfd x) (psc_code (psc_status x)) Hcl)
    as (k & Hk & _).
  unfold psc_pubnotify. mrun with getpsc_run. by mrun.
Qed.

(** The rest of a subscription that was suspended on the eventfd [fd]. *)
Definition subwait_tail (psc a fd : addr) : prog world dyco_pubsub_channel_status :=
  (do! resumed a fd;
   let! r := atomic (sys (os_eventfd_read fd)) in
   do! atomic (upd_psc psc (fun x => set_psc_sub_num (u64 (psc_sub_num x - 1)) x));
   do! atomic (psc_unlink psc fd);
   match r with
   | Some count =>
       do! atomic (upd_psc psc (fun x => set_psc_ack_rem (u64 (psc_ack_rem x - 1)) x));
       let! x := atomic (getpsc psc) in
       PRet (if psc_ack_rem x =? 0 then PSC_STATUS_EMPTY else psc_of_code count)
   | None => PRet PSC_STATUS_NOP
   end)%dyco.

Definition subscribe_tail (psc a fd : addr) : prog world (Z * list Z) :=
  (let! status := subwait_tail psc a fd in
   match status with
   | PSC_STATUS_EMPTY =>
       let! x := atomic (getpsc psc) in
       do! atomic (psc_pubnotify psc); PRet (psc_message x)
   | PSC_STATUS_TRANS => let! x := atomic (getpsc psc) in PRet (psc_message x)
   | PSC_STATUS_CLOSE => PRet (-1, [])
   | PSC_STATUS_NOP => PRet (-2, [])
   end)%dyco.

(** The channel after the subscriber on [fd] has acknowledged. *)
Definition acked (fd : Z) x : pubsub_channel :=
  set_psc_ack_rem (u64 (psc_ack_rem x - 1)) (set_psc_sublist (unlink fd (psc_sublist x))
    (set_psc_sub_num (u64 (psc_sub_num x - 1)) x)).

Lemma psc_unlink_run psc x w fd :
  w_pubsubs w !! psc = Some x -> fd ∈ psc_sublist x ->
  psc_unlink psc fd w = Ok (tt, set_w_kern (os_close fd (w_kern w)).2
    (with_psc psc (set_psc_sublist (unlink fd (psc_sublist x)) x) w)).
Proof.
  intros Hx Hin. unfold psc_unlink. mrun with getpsc_run.
  destruct (psc_sublist x) as [|y l]; [by apply elem_of_nil in Hin|].
  erewrite bind_ok by (by apply upd_psc_run). rewrite bool_decide_eq_true_2 by done. simpl.
  destruct (os_close fd (w_kern w)) as [r k] eqn:Hk. by mrun.
Qed.

Lemma subwait_tail_run w s q a c psc x fd n :
  sched_ok w s q -> w_sched w = Some s -> one_wait s -> w_coros w !! a = Some c ->
  (waiting_flag c = true -> fds s !! fd = Some a) ->
  w_pubsubs w !! psc = Some x -> fd ∈ psc_sublist x -> 1 <= psc_ack_rem x < 2 ^ 64 ->
  os_counter (w_kern w) fd = Some n -> 0 < n ->
  exists w', exec (subwait_tail psc a fd) w =
      (SDone (if psc_ack_rem x =? 1 then PSC_STATUS_EMPTY else psc_of_code n), w') /\
    w_pubsubs w' !! psc = Some (acked fd x) /\ os_counter (w_kern w') fd = None /\
    (forall fd', fd' <> fd -> os_counter (w_kern w') fd' = os_counter (w_kern w) fd').
Proof.
  intros Hok Hs Hone Hc Hfd Hx Hin Hack Hn Hpos. unfold subwait_tail. rewrite exec_bind.
  destruct (resumed_run w s q a c fd Hok Hs Hone Hc Hfd) as
    (w1 & s1 & c1 & He & _ & _ & _ & _ & _ & _ & Hcnt & (_ & _ & _ & Hps & _) & _). rewrite He.
  destruct (eventfd_read_positive (w_kern w1) fd n) as (k & Hk & _ & Hk'); [by rewrite Hcnt|done|].
  pstep (sys_run _ w1 _ k Hk).
  set (x1 := set_psc_sub_num (u64 (psc_sub_num x - 1)) x).
  assert (Hx0 : w_pubsubs (set_w_kern k w1) !! psc = Some x) by (simpl; by rewrite Hps).
  pstep (upd_psc_run psc (fun x => set_psc_sub_num (u64 (psc_sub_num x - 1)) x) x _ Hx0).
  set (w2 := with_psc psc _ (set_w_kern k w1)).
  pstep (psc_unlink_run psc x1 w2 fd (lookup_insert_eq _ _ _) Hin). cbv iota.
  set (x2 := set_psc_sublist (unlink fd (psc_sublist x)) x1).
  set (w3 := set_w_kern _ (with_psc psc _ w2)).
  pstep (upd_psc_run psc (fun x => set_psc_ack_rem (u64 (psc_ack_rem x - 1)) x) x2 w3 (lookup_insert_eq _ _ _)).
  pstep (getpsc_run psc (acked fd x) (with_psc psc (acked fd x) w3) (lookup_insert_eq _ _ _)).
  exists (with_psc psc (acked fd x) w3). split_and!; [|apply lookup_insert_eq|apply close_eventfd|].
  - simpl. rewrite u64_small by (unfold is_u64; lia).
    by destruct (Z.eqb_spec (psc_ack_rem x) 1), (Z.eqb_spec (psc_ack_rem x - 1) 0); try lia.
  - intros fd' Hne. simpl. rewrite (proj2 (close_eventfd k fd)) by done. by rewrite Hk', Hcnt.
Qed.

Lemma psc_message_acked fd x : psc_message (acked fd x) = psc_message x.
Proof. done. Qed.

Lemma psc_pubnotify_run psc x w n :
  w_pubsubs w !! psc = Some x -> os_counter (w_kern w) (psc_pub_notifyfd x) = Some n -> 0 <= n < 2 ^ 32 ->
  exists k, psc_pubnotify psc w = Ok (tt, set_w_kern k w) /\
    os_counter k (psc_pub_notifyfd x) = Some (n + psc_code (psc_status x)) /\
    (forall fd, fd <> psc_pub_notifyfd x -> os_counter k fd = os_counter (w_kern w) fd).
Proof.
  intros Hx Hcnt Hn.
  destruct (eventfd_write_open (w_kern w) (psc_pub_notifyfd x) (psc_code (psc_status x)) n Hcnt)
    as (k & Hk & Hk1 & Hk2); [by destruct (psc_status x)|destruct (psc_status x); simpl; lia|].
  exists k. split; [|done]. unfold psc_pubnotify. mrun with getpsc_run. by mrun.
Qed.


(** Closing a channel: the subscriber that acknowledges last does not learn
    of it.  The mark of the last acknowledgement hides the closing status, so
    it returns the message of an earlier publication where every other
    subscriber returns -1. *)
Theorem close_misleads_last_subscriber w s q a c psc x fd m :
  sched_ok w s q -> w_sched w = Some s -> one_wait s -> w_coros w !! a = Some c ->
  (waiting_flag c = true -> fds s !! fd = Some a) ->
  w_pubsubs w !! psc = Some x -> fd ∈ psc_sublist x -> 1 <= psc_ack_rem x < 2 ^ 64 ->
  psc_status x = PSC_STATUS_CLOSE -> os_counter (w_kern w) fd = Some 3 ->
  psc_pub_notifyfd x <> fd -> os_counter (w_kern w) (psc_pub_notifyfd x) = Some m -> 0 <= m < 2 ^ 32 ->
  exists w', exec (subscribe_tail psc a fd) w =
    (SDone (if psc_ack_rem x =? 1 then psc_message x else (-1, [])), w').
Proof.
  intros Hok Hs Hone Hc Hfd Hx Hin Hack Hst Hn Hne Hpub Hm. unfold subscribe_tail. rewrite exec_bind.
  destruct (subwait_tail_run w s q a c psc x fd 3) as (w1 & He & Hx1 & Hcl & Hoth); try done.
  rewrite He, <- (psc_message_acked fd x). rewrite <- Hoth in Hpub by done.
  destruct (psc_ack_rem x =? 1); [|by eexists]. pstep (getpsc_run psc _ w1 Hx1).
  destruct (psc_pubnotify_run psc (acked fd x) w1 m Hx1 Hpub Hm) as (k & Hk & _). pstep Hk. by eexists.
Qed.

End pubsub_proofs.

(** ** Concrete states *)

(** Channel 208 with the subscribers 8 and 9; the publisher waits on 11. *)
Definition ex_psc (status : dyco_pubsub_channel_status) (ack pub : Z) : pubsub_channel :=
  mk_psc 4 2 [1; 2] pub 2 ack [8; 9] status.
Definition ex_pubsub (status : dyco_pubsub_channel_status) (ack pub v : Z) : @world sim (gmap Z addr) :=
  set_w_pubsubs {[208 := ex_psc status ack pub]}
    (set_w_kern (mk_sim 1000000000 12 {[8 := v; 9 := 0; 11 := 0]} ∅ : @kernel sim) ex_blk).

Lemma ex_pubsub_ok status ack pub v : sched_ok (ex_pubsub status ack pub v) ex_blk_sched ([], []).
Proof.
  destruct (sched_ok_kern ex_blk ex_blk_sched ([], []) (w_kern (ex_pubsub status ack pub v)) ex_blk_ok)
    as [[] ]; [done|]. by split.
Qed.

Lemma publish_notifies_subscribers_witness :
  exists w', exec (dyco_pubsub_publish 208 [7; 7; 7] 3)
      (set_w_sched None (ex_pubsub PSC_STATUS_EMPTY 0 (-1) 0)) = (SDone 3, w') /\
    w_pubsubs w' !! 208 = Some (set_psc_status PSC_STATUS_EMPTY
      (in_transit [7; 7; 7] 3 (ex_psc PSC_STATUS_EMPTY 0 (-1)))) /\
    (forall fd, fd ∈ [8; 9] -> os_counter (w_kern w') fd = Some 2) /\
    (forall fd, fd ∉ [8; 9] -> os_counter (w_kern w') fd =
       os_counter (w_kern (ex_pubsub PSC_STATUS_EMPTY 0 (-1) 0)) fd).
Proof.
  refine (publish_notifies_subscribers 208 (ex_psc PSC_STATUS_EMPTY 0 (-1))
    (set_w_sched None (ex_pubsub PSC_STATUS_EMPTY 0 (-1) 0)) [7; 7; 7] 3 _ _ _ _ _); try done.
  - refine (bool_decide_unpack _ _). by vm_compute.
  - by intros fd [->|[->|[]%elem_of_nil]%elem_of_cons]%elem_of_cons.
Defined.

Lemma subscribe_without_timeout_exits_witness :
  exec (dyco_pubsub_subscribe 208 4 0) (ex_pubsub PSC_STATUS_EMPTY 0 (-1) 0) =
  (SFault FExit, ex_pubsub PSC_STATUS_EMPTY 0 (-1) 0).
Proof. by apply (subscribe_without_timeout_exits 208 (ex_psc PSC_STATUS_EMPTY 0 (-1))). Defined.


Lemma close_misleads_last_subscriber_witness :
  exists w', exec (subscribe_tail 208 64 8) (ex_pubsub PSC_STATUS_CLOSE 1 11 3) = (SDone (2, [1; 2]), w').
Proof.
  refine (close_misleads_last_subscriber _ ex_blk_sched ([], []) 64 (ex_co 0 5) 208
    (ex_psc PSC_STATUS_CLOSE 1 11) 8 0 (ex_pubsub_ok PSC_STATUS_CLOSE 1 11 3) _ _ _ _ _ _ _ _ _ _ _ _); try done.
  left.
Defined.
