(* ===== verification/Client.v ===== *)
(** * The C library of the example programs

    What the programs of [src/example/] use of the C library beside the calls
    that the library itself makes ([Libc]), with a simulation of it, and the
    code that [main] runs before, between and after the runs of the scheduler. *)
From stdpp Require Import strings.
From S2P Require Import Prelude Htable Queue SleepTree World SimOS Schedule SchedInv Prog Coroutine.
From S2P Require Import Asymcoro Coropool Schedcall Run Calm SatOS.

Local Open Scope Z_scope.
Local Open Scope dyco_scope.

(** [printf] with the number of the line of the call and its arguments;
    [malloc] and [free] for the data of the program; the [int] at an address; [rand]; and
    [sleep], in seconds. *)
Class Libc (os : OS) := {
  c_printf : list Z -> kernel -> kernel;
  c_malloc : Z -> kernel -> addr * kernel;
  c_free : addr -> kernel -> kernel;
  c_load : addr -> kernel -> Z;
  c_store : addr -> Z -> kernel -> kernel;
  c_rand : kernel -> Z * kernel;
  c_sleep : Z -> kernel -> kernel
}.

(** A string, without its terminator; an array of bytes as a string; and what
    [%.*s] prints of it. *)
Definition str (s : string) : list Z := (fun c => Z.of_N (Ascii.N_of_ascii c)) <$> String.list_ascii_of_string s.

Fixpoint c_str (buf : list Z) : list Z :=
  match buf with
  | [] => []
  | b :: buf' => if b =? 0 then [] else b :: c_str buf'
  end.

Definition shown (prec : Z) (buf : list Z) : list Z :=
  if prec <? 0 then c_str buf else take (Z.to_nat prec) (c_str buf).

(** A buffer after bytes have been copied to its start. *)
Definition fill (buf bytes : list Z) : list Z := bytes ++ drop (length bytes) buf.

Section client.
Context {os : OS} {libc : Libc os} {T : Type} {st : SleepTree T}.
Local Abbreviation world := (@world os T).
Local Abbreviation machine := (@machine os T).

Definition put (l : list Z) : M world unit := sys (fun k => (tt, c_printf l k)).
Definition load (p : addr) : M world Z := gets (fun w => c_load p (w_kern w)).
Definition store (p : addr) (v : Z) : M world unit := sys (fun k => (tt, c_store p v k)).

(** The line [n] with the number of the running coroutine as first argument. *)
Definition say (n : Z) (l : list Z) : prog world unit :=
  let! id := atomic dyco_coroutine_coroID in atomic (put (n :: id :: l)).

(** The object that [main] has left with the scheduler. *)
Definition shared : prog world addr :=
  let! udata := atomic dyco_schedule_getUdata in PRet (default NULL udata.2).

(** Code of [main] itself.  It can switch to asymmetric coroutines, which come
    back to it; there is no coroutine that could give way to the scheduler. *)
Context (funcs : Z -> Z -> prog world unit).

Definition main_ctx : prog world unit := pswitch (SwapSched NULL).

Fixpoint main_call {A} (fuel : nat) (p : prog world A) : M machine A :=
  fun m =>
    match fuel with
    | O => Err FFuel
    | S fuel' =>
        let '(stp, w) := exec p (m_world m) in
        let m := mk_machine w (m_ctx m) (m_ret m) in
        match stp with
        | SDone x => Ok (x, m)
        | SFault e => Err e
        | SSwitch (MakeCtx co) k => main_call fuel' k (save_ctx co (execute_asym funcs co) m)
        | SSwitch (SwapTo co) k =>
            match m_ctx m !! co with
            | Some p' => (run_until_sched funcs fuel' p' ;;; main_call fuel' k) (save_ret co main_ctx m)
            | None => Err FSegv
            end
        | SSwitch _ _ => Err FSegv
        end
    end.

End client.

(** On the simulated system the output is what has been sent to descriptor 1;
    the [int]s are kept with the bytes of descriptors that the programs do not
    read. *)
Definition sat_top (k : sim_kernel) : Z := set_fold (fun a m => Z.max (a + 1) m) 1000 (dom (n_inbox (k_net k))).
Definition sat_load (p : Z) (k : sim_kernel) : Z := match n_inbox (k_net k) !! p with Some [v] => v | _ => 0 end.
Definition sat_store (p v : Z) (k : sim_kernel) : sim_kernel :=
  set_net (let n := k_net k in
    mk_net (n_open n) (n_nonblock n) (n_sent n) (<[p := [v]]> (n_inbox n)) (n_room n) (n_errno n) (n_mask n)) k.
Definition sat_out (k : sim_kernel) : list Z := default [] (n_sent (k_net k) !! 1).
Definition sat_print (l : list Z) (k : sim_kernel) : sim_kernel :=
  set_net (let n := k_net k in
    mk_net (n_open n) (n_nonblock n) (<[1 := sat_out k ++ l]> (n_sent n)) (n_inbox n) (n_room n) (n_errno n) (n_mask n)) k.

#[export] Instance sat_libc : Libc sat := {
  c_printf := sat_print : list Z -> @kernel sat -> @kernel sat;
  c_malloc size k := (sat_top k, sat_store (sat_top k + size) 0 k);
  c_free _ k := k;
  c_load := sat_load;
  c_store := sat_store;
  c_rand k := (7, k);
  c_sleep s k := set_clock (k_clock k + s * 1000000000) k
}.
