(* ===== verification/Programs.v ===== *)
(** * The example programs

    Of [src/example/]: [channel.c], [waitgroup.c], [pubsub.c], [asymmetric.c],
    [coropool.c], [setstack.c], [stop_abort.c] and [stack_dont_overflow.c], each
    from the start of [main] to its return.  The functions of a program have
    numbers; lines of output are the number of their line in the source and
    the arguments of [printf].  [assert]s are checked here, although the header
    disables them. *)
From stdpp Require Import strings.
From S2P Require Import Prelude Htable Queue SleepTree World SimOS Schedule SchedInv Prog Coroutine Semaphore Channel.
From S2P Require Import Asymcoro Coropool Schedcall Run Calm Rules SatOS Startup Waitgroup Pubsub Client.

Local Open Scope Z_scope.
Local Open Scope dyco_scope.

(** ** [src/example/channel.c] *)
Module ChannelC.
Section program.
Context {os : OS} {libc : Libc os} {T : Type} {st : SleepTree T}.
Local Abbreviation world := (@world os T).
Local Abbreviation machine := (@machine os T).
(** The bytes of a local array before anything is written to it. *)
Context (junk : list Z).

Definition alice : prog world unit :=
  let! c := shared in
  do! say 9 [];
  do! say 13 [];
  let! (ret, bytes) := dyco_channel_recv c 64 (-1) in
  let buf := fill junk bytes in
  do! say 15 (shown ret buf ++ [ret]);
  do! say 17 [];
  do! dyco_coroutine_sleep 2000;
  do! say 20 [];
  let! (ret, bytes) := dyco_channel_recv c 64 (-1) in
  let buf := fill buf bytes in
  do! say 22 (shown ret buf ++ [ret]);
  do! say 24 [];
  let! (ret, bytes) := dyco_channel_recv c 64 (-1) in
  let buf := fill buf bytes in
  do! say 26 (shown ret buf ++ [ret]);
  let msg1 := str "is any one there?" in
  let msg2 := str "xxxxyyyyzzzz" in
  do! say 30 [];
  let! ret := dyco_channel_send c msg1 (Z.of_nat (length msg1)) 3000 in
  do! say 32 (msg1 ++ [ret]);
  do! say 34 [];
  let! ret := dyco_channel_send c msg2 (Z.of_nat (length msg2)) 3000 in
  say 36 (msg2 ++ [ret]).

(** The results of the second and the third call are dropped. *)
Definition bob : prog world unit :=
  let! c := shared in
  do! say 47 [];
  do! dyco_coroutine_sleep 3000;
  do! say 49 [];
  let msg1 := str "hello" in
  let msg2 := str "world" in
  let msg3 := str "!" in
  do! say 56 [];
  let! ret := dyco_channel_send c msg1 (Z.of_nat (length msg1)) (-1) in
  do! say 58 (msg1 ++ [ret]);
  do! say 60 [];
  let! _ := dyco_channel_send c msg2 (Z.of_nat (length msg2)) (-1) in
  do! say 62 (msg2 ++ [ret]);
  do! say 64 [];
  let! _ := dyco_channel_send c msg3 (Z.of_nat (length msg3)) (-1) in
  say 66 (msg3 ++ [ret]).

Definition ALICE : Z := 1.
Definition BOB : Z := 2.
Definition channel_funcs (func arg : Z) : prog world unit := if func =? ALICE then alice else bob.

Definition channel_main (fuel : nat) : M machine Z :=
  in_world (create_all [(ALICE, NULL); (BOB, NULL)]) ;;;
  let* c := in_world (dyco_channel_create 64) in
  let* _ := in_world (dyco_schedule_setUdata c) in
  in_world (put [80]) ;;;
  let* _ := dyco_schedule_run channel_funcs fuel in
  in_world (put [82]) ;;;
  main_call channel_funcs fuel (dyco_channel_destroy c) ;;;
  ret 0.

End program.
End ChannelC.

(** ** [src/example/waitgroup.c] *)
Module WaitgroupC.
Section program.
Context {os : OS} {libc : Libc os} {T : Type} {st : SleepTree T}.
Local Abbreviation world := (@world os T).
Local Abbreviation machine := (@machine os T).

Definition WORKER : Z := 1.
Definition WATCHER1 : Z := 2.
Definition WATCHER2 : Z := 3.
Definition WATCHER3 : Z := 4.
Definition BOSS : Z := 5.

Definition worker (arg : addr) : prog world unit :=
  let! wg := shared in
  let! t := atomic (load arg) in
  do! say 11 [t];
  let! t := atomic (load arg) in
  do! dyco_coroutine_sleep t;
  do! say 14 [];
  let! _ := atomic (dyco_waitgroup_done wg) in PRet tt.

Definition watcher1 : prog world unit :=
  let! wg := shared in
  do! say 26 [];
  let! ret := dyco_waitgroup_wait wg 5 (-1) in
  say 28 [ret].

Definition watcher2 : prog world unit :=
  let! wg := shared in
  do! say 38 [];
  let! ret := dyco_waitgroup_wait wg 5 (-1) in
  say 40 [ret].

Definition watcher3 : prog world unit :=
  let! wg := shared in
  do! dyco_coroutine_sleep 6000;
  do! say 51 [];
  let! ret := dyco_waitgroup_wait wg 5 (-1) in
  say 53 [ret].

(** The loop from [i] on, with [n] turns to make. *)
Fixpoint hire (wg sleeptime i : Z) (n : nat) : prog world unit :=
  match n with
  | O => PRet tt
  | S n' =>
      do! atomic (store (sleeptime + 4 * i) ((i + 1) * 1000));
      let! cid := atomic (dyco_coroutine_create WORKER (sleeptime + 4 * i)) in
      let! ret := atomic (dyco_waitgroup_add wg cid) in
      do! assert (ret =? 1);
      hire wg sleeptime (i + 1) n'
  end.

Definition boss : prog world unit :=
  let! wg := shared in
  do! say 63 [];
  let! sleeptime := atomic (sys (c_malloc (8 * 4))) in
  do! hire wg sleeptime 0 8;
  do! say 74 [];
  let! ret := dyco_waitgroup_wait wg (-1) (-1) in
  say 76 [ret].

Definition waitgroup_funcs (func arg : Z) : prog world unit :=
  if func =? WORKER then worker arg
  else if func =? WATCHER1 then watcher1
  else if func =? WATCHER2 then watcher2
  else if func =? WATCHER3 then watcher3
  else boss.

Definition waitgroup_main (fuel : nat) : M machine Z :=
  in_world (create_all [(BOSS, NULL); (WATCHER1, NULL); (WATCHER2, NULL); (WATCHER3, NULL)]) ;;;
  let* wg := in_world (dyco_waitgroup_create 10) in
  let* _ := in_world (dyco_schedule_setUdata wg) in
  in_world (put [99]) ;;;
  let* _ := dyco_schedule_run waitgroup_funcs fuel in
  in_world (put [101]) ;;;
  in_world (dyco_waitgroup_destroy wg) ;;;
  ret 0.

End program.
End WaitgroupC.

(** ** [src/example/pubsub.c] *)
Module PubsubC.
Section program.
Context {os : OS} {libc : Libc os} {T : Type} {st : SleepTree T}.
Local Abbreviation world := (@world os T).
Local Abbreviation machine := (@machine os T).
(** The array [times] of [main] is at the address [times]. *)
Context (junk : list Z) (times : addr).

(** The loop of [subscriber] from [i] on; it reads its bound at every turn. *)
Fixpoint listen (fuel : nat) (psc arg i : Z) (buf : list Z) : prog world unit :=
  match fuel with
  | O => PFault FFuel
  | S fuel' =>
      let! n := atomic (load arg) in
      if i <? n then
        let! (ret, bytes) := dyco_pubsub_subscribe psc 64 3000 in
        let buf := fill buf bytes in
        do! (if 0 <? ret then say 19 (shown ret buf) else say 21 [ret]);
        listen fuel' psc arg (i + 1) buf
      else PRet tt
  end.

Definition subscriber (fuel : nat) (arg : addr) : prog world unit :=
  let! psc := shared in
  let! n := atomic (load arg) in
  do! say 12 [n];
  listen fuel psc arg 0 junk.

(** Five turns, so that [%d] has one digit. *)
Fixpoint announce (psc i : Z) (n : nat) : prog world unit :=
  match n with
  | O => PRet tt
  | S n' =>
      let msg := str "message " ++ [48 + i] in
      let! _ := dyco_pubsub_publish psc msg (Z.of_nat (length msg)) in
      do! say 44 [i];
      announce psc (i + 1) n'
  end.

Definition publisher : prog world unit :=
  let! psc := shared in
  do! say 34 [];
  do! dyco_coroutine_sleep 1000;
  do! say 37 [];
  do! announce psc 0 5;
  do! say 46 [];
  dyco_coroutine_sleep 4000.

Definition PUBLISHER : Z := 1.
Definition SUBSCRIBER : Z := 2.
Definition pubsub_funcs (fuel : nat) (func arg : Z) : prog world unit :=
  if func =? PUBLISHER then publisher else subscriber fuel arg.

Definition pubsub_main (fuel : nat) : M machine Z :=
  in_world (store times 2 ;;; store (times + 4) 5 ;;; store (times + 8) 6) ;;;
  in_world (create_all [(PUBLISHER, NULL); (SUBSCRIBER, times); (SUBSCRIBER, times + 4); (SUBSCRIBER, times + 8)]) ;;;
  let* psc := in_world (dyco_pubsub_create 64) in
  let* _ := in_world (dyco_schedule_setUdata psc) in
  in_world (put [61]) ;;;
  let* _ := dyco_schedule_run (pubsub_funcs fuel) fuel in
  in_world (put [63]) ;;;
  main_call (pubsub_funcs fuel) fuel (dyco_pubsub_destroy psc) ;;;
  ret 0.

End program.
End PubsubC.

(** ** [src/example/asymmetric.c] *)
Module AsymmetricC.
Section program.
Context {os : OS} {libc : Libc os} {T : Type} {st : SleepTree T}.
Local Abbreviation world := (@world os T).
Local Abbreviation machine := (@machine os T).
(** The addresses of the variable [fibogencid] and of the array [sleeptime] and
    the variables [t1] and [t2] of [main]. *)
Context (fibogencid sleeptime t1 t2 : addr).

(** The sum of two [int]s; its overflow is undefined. *)
Definition add_int (x y : Z) : prog world Z :=
  if (- 2 ^ 31 <=? x + y) && (x + y <? 2 ^ 31) then PRet (x + y) else PFault FSegv.

(** The [while] loop of [fibo_gen]. *)
Fixpoint fibo_loop (fuel : nat) (times number f1 f2 i : Z) : prog world unit :=
  match fuel with
  | O => PFault FFuel
  | S fuel' =>
      let! n := atomic (load times) in
      if i <? n then
        let! f3 := add_int f1 f2 in
        do! atomic (store number f3);
        do! dyco_asymcoroyield;
        fibo_loop fuel' times number f2 f3 (i + 1)
      else PRet tt
  end.

Definition fibo_gen (fuel : nat) (times : addr) : prog world unit :=
  let! id := atomic dyco_asymcoro_coroID in
  let! (_, number) := atomic (dyco_asymcoro_getUdata id) in
  let number := default NULL number in
  do! say 11 [];
  let! n := atomic (load times) in
  if n <=? 0 then PRet tt
  else if n =? 1 then atomic (store number 1)
  else
    do! atomic (store number 1);
    do! dyco_asymcoroyield;
    do! dyco_asymcoroyield;
    do! fibo_loop fuel times number 1 1 2;
    atomic (store number (-1)).

Definition foo (arg : addr) : prog world unit :=
  let! sleeptime := atomic (load arg) in
  do! say 42 [sleeptime];
  do! dyco_coroutine_sleep sleeptime;
  do! say 44 [];
  let! cid := atomic (load fibogencid) in
  let! (ret, number) := atomic (dyco_asymcoro_getUdata cid) in
  if negb (ret =? 0) then PRet tt
  else
    let! ret := dyco_asymcororesume cid in
    let! v := atomic (load (default NULL number)) in
    do! say 53 [v; ret];
    pwhen (ret =? 0) (do! atomic (put [55]); atomic (dyco_asymcoro_free cid)).

Definition FIBO_GEN : Z := 1.
Definition FOO : Z := 2.
Definition BAR : Z := 3.

(** The [while] loop of [bar]. *)
Fixpoint bar_loop (fuel : nat) (cid number sleeptime : Z) : prog world unit :=
  match fuel with
  | O => PFault FFuel
  | S fuel' =>
      let! r := dyco_asymcororesume cid in
      if r =? 0 then PRet tt
      else
        let! v := atomic (load number) in
        do! say 76 [v];
        do! dyco_coroutine_sleep sleeptime;
        bar_loop fuel' cid number sleeptime
  end.

Definition bar (fuel : nat) (arg : addr) : prog world unit :=
  let! sleeptime := atomic (load arg) in
  let! times := atomic (sys (c_malloc 4)) in
  do! atomic (store times 10);
  let! cid := atomic (dyco_asymcoro_create FIBO_GEN times) in
  do! assert (0 <? cid);
  let! number := atomic (sys (c_malloc 4)) in
  do! atomic (store number 0);
  let! _ := atomic (dyco_asymcoro_setUdata cid number) in
  let! _ := atomic (dyco_asymcoro_setStack cid NULL 4096) in
  do! bar_loop fuel cid number sleeptime;
  atomic (dyco_asymcoro_free cid).

Definition asymmetric_funcs (fuel : nat) (func arg : Z) : prog world unit :=
  if func =? FIBO_GEN then fibo_gen fuel arg else if func =? FOO then foo arg else bar fuel arg.

(** The [while] loop of [main]. *)
Fixpoint fibo_main_loop (fuel : nat) (cid number i : Z) : prog world unit :=
  match fuel with
  | O => PFault FFuel
  | S fuel' =>
      let! r := dyco_asymcororesume cid in
      if r =? 0 then PRet tt
      else
        let! v := atomic (load number) in
        do! atomic (put [97; i + 1; v]);
        fibo_main_loop fuel' cid number (i + 1)
  end.

(** Part A; its results are [times] and [number]. *)
Definition main_a (fuel : nat) : prog world (addr * addr) :=
  do! atomic (put [84]);
  let! times := atomic (sys (c_malloc 4)) in
  do! atomic (store times 30);
  let! cid := atomic (dyco_asymcoro_create FIBO_GEN times) in
  do! assert (0 <? cid);
  let! number := atomic (sys (c_malloc 4)) in
  do! atomic (store number 0);
  let! _ := atomic (dyco_asymcoro_setUdata cid number) in
  let! _ := atomic (dyco_asymcoro_setStack cid NULL 4096) in
  do! fibo_main_loop fuel cid number 0;
  do! atomic (dyco_asymcoro_free cid);
  do! atomic (put [100]);
  PRet (times, number).

Fixpoint create_foos (i : Z) (n : nat) : M world unit :=
  match n with
  | O => ret tt
  | S n' =>
      store (sleeptime + 4 * i) ((i + 1) * 1000) ;;;
      let* _ := dyco_coroutine_create FOO (sleeptime + 4 * i) in
      create_foos (i + 1) n'
  end.

Definition asymmetric_main (fuel : nat) : M machine Z :=
  let* (times, number) := main_call (asymmetric_funcs fuel) fuel (main_a fuel) in
  in_world (put [102] ;;;
    store times 4 ;;;
    let* cid := dyco_asymcoro_create FIBO_GEN times in
    store fibogencid cid ;;;
    store number (-1) ;;;
    let* _ := dyco_asymcoro_setUdata cid number in
    create_foos 0 8 ;;;
    put [113]) ;;;
  let* _ := dyco_schedule_run (asymmetric_funcs fuel) fuel in
  in_world (put [115] ;;;
    put [117] ;;;
    store t1 900 ;;; store t2 500 ;;;
    let* _ := dyco_coroutine_create BAR t1 in
    let* _ := dyco_coroutine_create BAR t2 in
    put [121]) ;;;
  let* _ := dyco_schedule_run (asymmetric_funcs fuel) fuel in
  in_world (put [123]) ;;;
  ret 0.

End program.
End AsymmetricC.

(** ** [src/example/coropool.c] *)
Module CoropoolC.
Section program.
Context {os : OS} {libc : Libc os} {T : Type} {st : SleepTree T}.
Local Abbreviation world := (@world os T).
Local Abbreviation machine := (@machine os T).
(** The addresses of the variables [pool1] and [pool2]. *)
Context (pool1 pool2 : addr).

Definition COROFUNC1 : Z := 1.
Definition COROFUNC2 : Z := 2.

Definition corofunc1 : prog world unit :=
  do! say 7 [];
  do! dyco_coroutine_sleep 1000;
  say 9 [].

Definition obtain_and_print (pool func line id : Z) : prog world unit :=
  let! cp := atomic (load pool) in
  let! ret := dyco_coropool_obtain cp func NULL 3000 in
  atomic (put [line; id; ret]).

Definition corofunc2 : prog world unit :=
  do! say 16 [];
  do! dyco_coroutine_sleep 1000;
  do! obtain_and_print pool2 COROFUNC1 20 6;
  do! obtain_and_print pool2 COROFUNC1 24 7;
  do! dyco_coroutine_sleep 2000;
  let! cp := atomic (load pool2) in
  let! _ := atomic (dyco_coropool_resize cp 1) in
  do! obtain_and_print pool2 COROFUNC1 30 8;
  say 32 [].

Definition coropool_funcs (func arg : Z) : prog world unit := if func =? COROFUNC1 then corofunc1 else corofunc2.

(** Up to the run of the scheduler. *)
Definition main_obtains : prog world unit :=
  let! p1 := atomic (dyco_coropool_create 2 4000) in
  do! atomic (store pool1 p1);
  let! p2 := atomic (dyco_coropool_create 2 0) in
  do! atomic (store pool2 p2);
  do! obtain_and_print pool1 COROFUNC1 46 1;
  do! obtain_and_print pool1 COROFUNC1 48 2;
  do! obtain_and_print pool1 COROFUNC1 52 3;
  let! cp := atomic (load pool1) in
  let! _ := atomic (dyco_coropool_resize cp 4) in
  do! obtain_and_print pool1 COROFUNC1 56 4;
  obtain_and_print pool2 COROFUNC2 59 5.

Definition destroy_pool (pool : addr) : M machine unit :=
  in_world (
    let* cp := load pool in
    let* ret := dyco_coropool_destroy cp in
    if ret =? 0 then Prelude.ret tt else throw FExit).

Definition coropool_main (fuel : nat) : M machine Z :=
  main_call coropool_funcs fuel main_obtains ;;;
  in_world (put [61]) ;;;
  let* _ := dyco_schedule_run coropool_funcs fuel in
  in_world (put [63]) ;;;
  destroy_pool pool1 ;;;
  destroy_pool pool2 ;;;
  ret 0.

End program.
End CoropoolC.

(** ** [src/example/setstack.c] *)
Module SetstackC.
Section program.
Context {os : OS} {libc : Libc os} {T : Type} {st : SleepTree T}.
Local Abbreviation world := (@world os T).
Local Abbreviation machine := (@machine os T).
(** The addresses of the variable [sleeptime] and of the stacks of [main]. *)
Context (sleeptime stack : addr).

(** [dyco_coroutine_getStack(dyco_coroutine_coroID(), NULL, NULL)] *)
Definition getstack_flag : M world Z :=
  let* id := dyco_coroutine_coroID in let* (r, _) := dyco_coroutine_getStack id in ret r.

(** The loop of [corofun], with [n] turns to make. *)
Fixpoint setstack_add_up (sleeptime counter : Z) (n : nat) : prog world unit :=
  match n with
  | O => PRet tt
  | S n' =>
      let! r := atomic (sys c_rand) in
      let randadder := Z.rem r 100 in
      let! own := atomic getstack_flag in
      do! say 12 [own; counter; randadder];
      do! dyco_coroutine_sleep sleeptime;
      let counter := counter + randadder in
      let! own := atomic getstack_flag in
      do! say 15 [own; counter];
      setstack_add_up sleeptime counter n'
  end.

Definition setstack_corofun (arg : addr) : prog world unit :=
  let! sleeptime := atomic (load arg) in setstack_add_up sleeptime 0 10.

Definition COROFUN : Z := 1.
Definition setstack_funcs (func arg : Z) : prog world unit := setstack_corofun arg.

Fixpoint create_shared (n : nat) : M world unit :=
  match n with
  | O => ret tt
  | S n' => let* _ := dyco_coroutine_create COROFUN sleeptime in create_shared n'
  end.

Fixpoint create_own (i : Z) (n : nat) : M world unit :=
  match n with
  | O => ret tt
  | S n' =>
      let* cid := dyco_coroutine_create COROFUN sleeptime in
      let* r := dyco_coroutine_setStack cid (stack + 4096 * i) 4096 in
      (if r =? 1 then ret tt else throw FExit) ;;;
      create_own (i + 1) n'
  end.

Definition setstack_main (fuel : nat) : M machine Z :=
  in_world (store sleeptime 1000 ;;; create_shared 3 ;;; create_own 0 3 ;;; put [38]) ;;;
  let* _ := dyco_schedule_run setstack_funcs fuel in
  in_world (put [40]) ;;;
  ret 0.

End program.
End SetstackC.

(** ** [src/example/stop_abort.c] *)
Module StopAbortC.
Section program.
Context {os : OS} {libc : Libc os} {T : Type} {st : SleepTree T}.
Local Abbreviation world := (@world os T).
Local Abbreviation machine := (@machine os T).
(** The addresses of the variables of [main]. *)
Context (sleeptime actiontime : addr).

Fixpoint stop_abort_add_up (sleeptime counter : Z) (n : nat) : prog world unit :=
  match n with
  | O => PRet tt
  | S n' =>
      let! r := atomic (sys c_rand) in
      let randadder := Z.rem r 100 in
      do! say 12 [counter; randadder];
      do! dyco_coroutine_sleep sleeptime;
      let counter := counter + randadder in
      do! say 15 [counter];
      stop_abort_add_up sleeptime counter n'
  end.

Definition stop_abort_corofun (arg : addr) : prog world unit :=
  let! sleeptime := atomic (load arg) in stop_abort_add_up sleeptime 0 10.

Definition stop_abort_foobar (arg : addr) : prog world unit :=
  let! actiontime := atomic (load arg) in
  do! say 23 [actiontime];
  do! dyco_coroutine_sleep actiontime;
  do! dyco_schedcall_stop;
  do! say 27 [actiontime];
  do! dyco_coroutine_sleep actiontime;
  dyco_schedcall_abort.

Definition COROFUN : Z := 1.
Definition FOOBAR : Z := 2.
Definition stop_abort_funcs (func arg : Z) : prog world unit := if func =? COROFUN then stop_abort_corofun arg else stop_abort_foobar arg.

Definition stop_abort_main (fuel : nat) : M machine Z :=
  in_world (store sleeptime 1000 ;;; store actiontime 3600) ;;;
  in_world (create_all (replicate 4 (COROFUN, sleeptime) ++ [(FOOBAR, actiontime)])) ;;;
  in_world (put [44]) ;;;
  let* r := dyco_schedule_run stop_abort_funcs fuel in
  in_world (put [46; r]) ;;;
  in_world (sys (fun k => (tt, c_sleep 3 k))) ;;;
  in_world (put [49]) ;;;
  let* r := dyco_schedule_run stop_abort_funcs fuel in
  in_world (put [51; r]) ;;;
  in_world (sys (fun k => (tt, c_sleep 3 k))) ;;;
  in_world (put [54]) ;;;
  let* r := dyco_schedule_run stop_abort_funcs fuel in
  in_world (put [56; r]) ;;;
  ret 0.

End program.
End StopAbortC.

(** ** [src/example/stack_dont_overflow.c] *)
Module StackDontOverflowC.
Section program.
Context {os : OS} {libc : Libc os} {T : Type} {st : SleepTree T}.
Local Abbreviation world := (@world os T).
Local Abbreviation machine := (@machine os T).
(** The addresses of the variables [slptime] and [fn]. *)
Context (slptime fn : addr).

Fixpoint otherfunc (fuel : nat) : prog world unit :=
  match fuel with
  | O => PFault FFuel
  | S fuel' =>
      do! say 8 [1000];
      do! dyco_coroutine_sleep 1000;
      do! say 10 [];
      otherfunc fuel'
  end.

(** A coroutine that aborts is not resumed. *)
Fixpoint cal (fuel : nat) (num : Z) : prog world Z :=
  match fuel with
  | O => PFault FFuel
  | S fuel' =>
      if (num =? 1) || (num =? 2) then PRet num
      else
        let buf := str "foo bar just use memory" in
        let n1 := num - 1 in
        let n2 := num - 2 in
        let! r := dyco_coroutine_checkStack in
        do! pwhen (negb (r =? 0)) (do! atomic (put [27]); dyco_coroutine_abort);
        let! t := atomic (load slptime) in
        do! dyco_coroutine_sleep t;
        let! v1 := cal fuel' n1 in
        let! v2 := cal fuel' n2 in
        let! ret := AsymmetricC.add_int v1 v2 in
        do! atomic (put (34 :: buf ++ [ret]));
        PRet ret
  end.

Definition fibo (fuel : nat) (arg : addr) : prog world unit :=
  let! num := atomic (load arg) in
  let! _ := cal fuel num in PRet tt.

Definition OTHERFUNC : Z := 1.
Definition FIBO : Z := 2.
Definition stack_funcs (fuel : nat) (func arg : Z) : prog world unit :=
  if func =? OTHERFUNC then otherfunc fuel else fibo fuel arg.

Definition stack_main (fuel : nat) : M machine Z :=
  in_world (store slptime 10 ;;; store fn 100) ;;;
  in_world (create_all [(OTHERFUNC, NULL); (FIBO, fn)]) ;;;
  in_world (put [50]) ;;;
  let* _ := dyco_schedule_run (stack_funcs fuel) fuel in
  in_world (put [52]) ;;;
  ret 0.

End program.
End StackDontOverflowC.

(** ** Their output on the simulated system *)

Definition ex_start : @machine sat (gmap Z addr) := mk_machine ex_empty ∅ ∅.

(** What has been printed when [main] returns 0. *)
Definition ex_output (x : res (Z * @machine sat (gmap Z addr))) : option (list Z) :=
  match x with Ok (r, m) => if r =? 0 then Some (sat_out (w_kern (m_world m))) else None | Err _ => None end.

(** The identifier of the [n]-th coroutine of the thread. *)
Definition ex_cid (n : Z) : Z := 16777216 + n.

Definition ex_line (who line : Z) (l : list Z) : list Z := line :: ex_cid who :: l.

(** Line 66 prints 5 for the message of one byte. *)
Example channel_example_output :
  let a := ex_line 1 in let b := ex_line 2 in
  ex_output (ChannelC.channel_main [] 4000 ex_start) = Some (concat [[80]; a 9 []; a 13 []; b 47 [];
    b 49 []; b 56 []; b 58 (str "hello" ++ [5]); b 60 []; a 15 (str "hello" ++ [5]); a 17 [];
    b 62 (str "world" ++ [5]); b 64 []; a 20 []; a 22 (str "world" ++ [5]); a 24 []; b 66 (str "!" ++ [5]);
    a 26 (str "!" ++ [1]); a 30 []; a 32 (str "is any one there?" ++ [17]); a 34 [];
    a 36 (str "xxxxyyyyzzzz" ++ [0]); [82]]).
Proof. by vm_compute. Qed.

(** The watchers are woken by the fifth worker, the last one does not wait. *)
Example waitgroup_example_output :
  let w n := ex_line (n + 4) in
  ex_output (WaitgroupC.waitgroup_main 4000 ex_start) = Some (concat ([[99]; ex_line 1 63 []; ex_line 1 74 [];
    ex_line 2 26 []; ex_line 3 38 []] ++ ((fun n => w n 11 [n * 1000]) <$> seqZ 1 8) ++
    ((fun n => w n 14 []) <$> seqZ 1 5) ++ [ex_line 2 28 [5]; ex_line 3 40 [5]; ex_line 4 51 []; ex_line 4 53 [5]] ++
    ((fun n => w n 14 []) <$> seqZ 6 3) ++ [ex_line 1 76 [8]; [101]])).
Proof. by vm_compute. Qed.

(** Every subscriber gets what it asks for, the last one all but the message
    that is never published. *)
Example pubsub_example_output :
  let msg n := str "message " ++ [48 + n] in
  let got (l : list Z) n := concat ((fun i => ex_line i 19 (msg n)) <$> l) ++ ex_line 1 44 [n] in
  ex_output (PubsubC.pubsub_main [] 500 4000 ex_start) = Some (concat ([[61]; ex_line 1 34 []; ex_line 2 12 [2];
    ex_line 3 12 [5]; ex_line 4 12 [6]; ex_line 1 37 []; got [3; 4; 2] 0; got [4; 3; 2] 1; got [3; 4] 2; got [3; 4] 3;
    got [4; 3] 4; ex_line 1 46 []; ex_line 4 21 [-2]; [63]])).
Proof. by vm_compute. Qed.

(** The Fibonacci numbers. *)
Fixpoint fibs (n : nat) (x y : Z) : list Z := match n with O => [] | S n' => x :: fibs n' y (x + y) end.

Example asymmetric_example_output :
  match main_call (AsymmetricC.asymmetric_funcs 4 100) 400 (AsymmetricC.main_a 100) ex_start with
  | Ok (_, m) => sat_out (w_kern (m_world m)) =
      concat ([[84]; ex_line 1 11 []] ++ zip_with (fun i v => [97; i; v]) (seqZ 1 30) (fibs 30 1 1) ++ [[100]])
  | Err _ => False
  end.
Proof. by vm_compute. Qed.

(** The example expects -1 from the call on line 51; the process exits in it. *)
Example coropool_example_exits :
  match CoropoolC.coropool_main 4 8 4000 ex_start with Ok _ => None | Err e => Some e end = Some FExit.
Proof. by vm_compute. Qed.
