(* ===== verification/NetPrograms.v ===== *)
(** * The example programs with sockets

    Of [src/example/]: [socket_server.c] and [socket_client.c].  The reader of
    the server sends back what it receives.  The loops without an end carry a
    fuel. *)
From stdpp Require Import strings.
From S2P Require Import Prelude Htable Queue SleepTree World SimOS Schedule SchedInv Prog Coroutine Rely NetOS Socket Epoll Signal Ssl.
From S2P Require Import Asymcoro Coropool Schedcall Run Calm SatOS Startup Client.

Local Open Scope Z_scope.
Local Open Scope dyco_scope.

Definition AF_INET : Z := 2.
Definition SOCK_STREAM : Z := 1.

(** The calls that the library does not wrap; an address is its port. *)
Class Server (os : OS) := {
  c_bind : Z -> Z -> kernel -> kernel;
  c_listen : Z -> Z -> kernel -> kernel
}.

(** ** [src/example/socket_server.c] *)
Module SocketServerC.
Section program.
Context {os : OS} {io : IO os} {libc : Libc os} {srv : Server os} {T : Type} {st : SleepTree T}.
Local Abbreviation world := (@world os T).
Local Abbreviation machine := (@machine os T).
(** The fuel of the loops of [dyco_send] and [dyco_accept]. *)
Context (tries : nat).

Definition MAX_CLIENT_NUM : Z := 1000000.

(** The loop of [server_reader]. *)
Fixpoint server_reader_loop (fuel : nat) (fd : Z) : prog world unit :=
  match fuel with
  | O => PFault FFuel
  | S fuel' =>
      let! (ret, bytes) := dyco_recv fd 1024 0 in
      let buf := fill (replicate 1024 0) bytes in
      if 0 <? ret then
        do! pwhen (MAX_CLIENT_NUM <? fd) (PFault FExit);
        do! atomic (put (20 :: shown ret buf));
        let! ret := dyco_send tries fd (take (Z.to_nat ret) buf) 0 in
        if ret =? -1 then
          let! _ := atomic (dyco_close fd) in atomic (put [25; fd])
        else server_reader_loop fuel' fd
      else if ret =? 0 then
        let! _ := atomic (dyco_close fd) in atomic (put [30; fd])
      else server_reader_loop fuel' fd
  end.

Definition server_reader (fuel : nat) (arg : addr) : prog world unit :=
  let! fd := atomic (load arg) in
  do! atomic (sys (fun k => (tt, c_free arg k)));
  do! atomic (put [13]);
  do! server_reader_loop fuel fd;
  let! _ := atomic (dyco_close fd) in PRet tt.

Definition SERVER : Z := 1.
Definition SERVER_READER : Z := 2.

(** The loop of [server]. *)
Fixpoint server_loop (fuel : nat) (fd : Z) : prog world unit :=
  match fuel with
  | O => PFault FFuel
  | S fuel' =>
      let! (cli_fd, _) := dyco_accept tries fd in
      do! atomic (put [58]);
      let! client := atomic (sys (c_malloc 4)) in
      do! atomic (store client cli_fd);
      let! _ := atomic (dyco_coroutine_create SERVER_READER client) in
      server_loop fuel' fd
  end.

Definition server (fuel : nat) (arg : addr) : prog world unit :=
  let! port := atomic (load arg) in
  do! atomic (sys (fun k => (tt, c_free arg k)));
  let! fd := atomic (dyco_socket AF_INET SOCK_STREAM 0) in
  do! pwhen (negb (0 <? fd)) (PFault FExit);
  do! atomic (sys (fun k => (tt, c_bind fd port k)));
  do! atomic (sys (fun k => (tt, c_listen fd 20 k)));
  do! atomic (put [53; port]);
  server_loop fuel fd.

Definition socket_server_funcs (fuel : nat) (func arg : Z) : prog world unit :=
  if func =? SERVER then server fuel arg else server_reader fuel arg.

Definition socket_server_main (fuel : nat) : M machine Z :=
  in_world (
    let* port := sys (c_malloc 2) in
    store port 5000 ;;;
    let* _ := dyco_coroutine_create SERVER port in
    put [78]) ;;;
  let* _ := dyco_schedule_run (socket_server_funcs fuel) fuel in
  in_world (put [80]) ;;;
  ret 0.

End program.
End SocketServerC.

(** ** [src/example/socket_client.c] *)
Module SocketClientC.
Section program.
Context {os : OS} {io : IO os} {libc : Libc os} {T : Type} {st : SleepTree T}.
Local Abbreviation world := (@world os T).
Local Abbreviation machine := (@machine os T).
(** The fuel of the loops of the wrappers, and the address of the server, made
    of the variables [ip] and [port]. *)
Context (tries : nat) (serveraddr : Z).

Definition init_client : prog world Z :=
  let! clientfd := atomic (dyco_socket AF_INET SOCK_STREAM 0) in
  if clientfd <=? 0 then do! atomic (put [11]); PRet (-1)
  else
    let! result := dyco_connect tries clientfd serveraddr in
    if negb (result =? 0) then do! atomic (put [22]); PRet (-2)
    else PRet clientfd.

(** The loop of [client]. *)
Fixpoint client_loop (fuel : nat) (clientfd : Z) : prog world unit :=
  match fuel with
  | O => PFault FFuel
  | S fuel' =>
      let! length := dyco_send tries clientfd (str "Hello. I'm TCP Client.") 0 in
      do! atomic (put [39; length]);
      do! pwhen (length <=? 0) (PFault FExit);
      let! (length, _) := dyco_recv clientfd 2048 0 in
      do! atomic (put [45; length]);
      do! pwhen (length <=? 0) (PFault FExit);
      do! dyco_coroutine_sleep 1000;
      client_loop fuel' clientfd
  end.

Definition client (fuel : nat) : prog world unit :=
  let! clientfd := init_client in client_loop fuel clientfd.

Definition CLIENT : Z := 1.

(** With both arguments on the command line. *)
Definition socket_client_main (fuel : nat) : M machine Z :=
  in_world (let* _ := dyco_coroutine_create CLIENT NULL in put [66]) ;;;
  let* _ := dyco_schedule_run (fun _ _ => client fuel) fuel in
  in_world (put [68]) ;;;
  ret 0.

End program.
End SocketClientC.

(** ** [src/example/network.c]

    [timer], [server_reader] and [tcpserver]; [dns] and [redis] are clients of
    other libraries.  The program is for a library built with COROUTINE_HOOK:
    its calls are the replacements. *)
Class TimerFd (os : OS) := {
  c_timerfd_create : kernel -> Z * kernel;
  c_timerfd_settime : Z -> Z * Z -> Z * Z -> kernel -> kernel;  (* first expiry and interval *)
  c_read : Z -> kernel -> (Z * Z) * kernel;                     (* result and counter *)
  c_time : kernel -> Z
}.

Definition EV_ALL : Z := EV_IN.

Module NetworkC.
Section program.
Context {os : OS} {io : IO os} {libc : Libc os} {srv : Server os} {tfd : TimerFd os} {T : Type} {st : SleepTree T}.
Local Abbreviation world := (@world os T).
(** The fuel of the wrappers; the address of the variable [cli_fd] of
    [tcpserver], which all readers share. *)
Context (tries : nat) (cli_fd : addr).

(** Both times are [interval_ns]. *)
Definition network_inittimerfd (start_ns interval_ns : Z) : M world Z :=
  let* tfd := sys c_timerfd_create in
  sys (fun k => (tt, c_timerfd_settime tfd (0, interval_ns) (0, interval_ns) k)) ;;;
  put [16; tfd] ;;;
  ret tfd.

Fixpoint network_read_all (events : list (Z * Z)) : M world unit :=
  match events with
  | [] => ret tt
  | (fd, _) :: events' => let* _ := sys (c_read fd) in put [40] ;;; network_read_all events'
  end.

Fixpoint timer_loop (fuel : nat) : prog world unit :=
  match fuel with
  | O => PFault FFuel
  | S fuel' =>
      let! (nevents, events) := Epoll.dyco_epoll_wait 3 (-1) in
      do! atomic (network_read_all (take (Z.to_nat nevents) events));
      timer_loop fuel'
  end.

Definition timer (fuel : nat) : prog world unit :=
  let! tfd := atomic (network_inittimerfd 0 200000000) in
  let! _ := atomic Epoll.dyco_epoll_init in
  let! _ := atomic (Epoll.dyco_epoll_add tfd EV_ALL) in
  timer_loop fuel.

(** The answer goes up to the first zero byte. *)
Fixpoint network_reader_loop (fuel : nat) (fd : Z) : prog world unit :=
  match fuel with
  | O => PFault FFuel
  | S fuel' =>
      let! (ret, bytes) := Hook.recv fd 1024 0 in
      let buf := fill (replicate 1024 0) bytes in
      if 0 <? ret then
        do! atomic (put (125 :: shown ret buf));
        let! ret := Hook.send tries fd (c_str buf) 0 in
        if ret =? -1 then
          let! _ := atomic (dyco_close fd) in atomic (put [130; fd])
        else network_reader_loop fuel' fd
      else if ret =? 0 then
        do! atomic (put [134]);
        let! _ := atomic (Hook.close fd) in PRet tt
      else network_reader_loop fuel' fd
  end.

Definition network_server_reader (fuel : nat) (arg : addr) : prog world unit :=
  let! fd := atomic (load arg) in network_reader_loop fuel fd.

Definition SERVER_READER : Z := 5.

Fixpoint tcp_loop (fuel : nat) (fd : Z) : prog world unit :=
  match fuel with
  | O => PFault FFuel
  | S fuel' =>
      let! (r, _) := Hook.accept tries fd in
      do! atomic (store cli_fd r);
      do! atomic (put [165]);
      let! _ := atomic (dyco_coroutine_create SERVER_READER cli_fd) in
      tcp_loop fuel' fd
  end.

Definition tcpserver (fuel : nat) : prog world unit :=
  do! say 145 [];
  let! fd := atomic (Hook.socket AF_INET SOCK_STREAM 0) in
  do! atomic (sys (fun k => (tt, c_bind fd 9096 k)));
  do! atomic (sys (fun k => (tt, c_listen fd 20 k)));
  do! atomic (put [157; 9096]);
  tcp_loop fuel fd.

End program.
End NetworkC.

(** ** [src/example/epoll.c] *)
Module EpollC.
Section program.
Context {os : OS} {io : IO os} {libc : Libc os} {tfd : TimerFd os} {T : Type} {st : SleepTree T}.
Local Abbreviation world := (@world os T).
Local Abbreviation machine := (@machine os T).
(** The addresses of the variables [id1] and [id2]. *)
Context (id1 id2 : addr).

Definition inittimerfd (start_s interval_s : Z) : M world Z :=
  let* tfd := sys c_timerfd_create in
  sys (fun k => (tt, c_timerfd_settime tfd (start_s, 0) (interval_s, 0) k)) ;;;
  put [15; tfd] ;;;
  ret tfd.

(** The [for] loops, with the line of their [printf]. *)
Fixpoint epoll_read_all (line : Z) (events : list (Z * Z)) : M world unit :=
  match events with
  | [] => ret tt
  | (fd, _) :: events' =>
      let* (_, cnt) := sys (c_read fd) in
      let* now := gets (fun w => c_time (w_kern w)) in
      put [line; now; fd; cnt] ;;;
      epoll_read_all line events'
  end.

(** The [while] loops: [wait] is the call that waits. *)
Fixpoint collect (fuel : nat) (wait : prog world (Z * list (Z * Z))) (line x : Z) : prog world unit :=
  match fuel with
  | O => PFault FFuel
  | S fuel' =>
      if x <? 16 then
        let! (nevents, events) := wait in
        let events := take (Z.to_nat nevents) events in
        do! atomic (epoll_read_all line events);
        collect fuel' wait line (x + Z.of_nat (length events))
      else PRet tt
  end.

(** With the replacements of [epoll_wait] and [close]. *)
Definition cofunc0 (fuel : nat) (arg : addr) : prog world unit :=
  let! id := atomic (load arg) in
  let! tfd1 := atomic (inittimerfd 2 1) in
  let! tfd2 := atomic (inittimerfd 6 1) in
  let! tfd3 := atomic (inittimerfd 7 2) in
  let! epollfd := atomic (sys (io_epoll_create 1)) in
  let! _ := atomic (sys (os_epoll_add epollfd tfd1 EV_ALL)) in
  let! _ := atomic (sys (os_epoll_add epollfd tfd2 EV_ALL)) in
  let! _ := atomic (sys (os_epoll_add epollfd tfd3 EV_ALL)) in
  do! collect fuel (Epoll.EpollHook.epoll_wait epollfd 3 (-1)) 45 0;
  let! _ := atomic (Hook.close tfd1) in
  let! _ := atomic (Hook.close tfd2) in
  let! _ := atomic (Hook.close tfd3) in
  let! _ := atomic (Hook.close epollfd) in PRet tt.

Definition cofunc1 (fuel : nat) (arg : addr) : prog world unit :=
  let! id := atomic (load arg) in
  let! tfd1 := atomic (inittimerfd 1 1) in
  let! tfd2 := atomic (inittimerfd 2 1) in
  let! tfd3 := atomic (inittimerfd 1 2) in
  let! _ := atomic Epoll.dyco_epoll_init in
  let! _ := atomic (Epoll.dyco_epoll_add tfd1 EV_ALL) in
  let! _ := atomic (Epoll.dyco_epoll_add tfd2 EV_ALL) in
  let! _ := atomic (Epoll.dyco_epoll_add tfd3 EV_ALL) in
  do! collect fuel (Epoll.dyco_epoll_wait 3 (-1)) 156 0;
  let! _ := atomic (Epoll.dyco_epoll_del tfd1) in
  let! _ := atomic (Epoll.dyco_epoll_del tfd2) in
  let! _ := atomic (Epoll.dyco_epoll_del tfd3) in
  atomic Epoll.dyco_epoll_destroy.

Definition COFUNC0 : Z := 1.
Definition COFUNC1 : Z := 2.
Definition epoll_funcs (fuel : nat) (func arg : Z) : prog world unit :=
  if func =? COFUNC0 then cofunc0 fuel arg else cofunc1 fuel arg.

Definition epoll_main (fuel : nat) : M machine Z :=
  in_world (store id1 1 ;;; store id2 2 ;;;
    let* _ := dyco_coroutine_create COFUNC0 id1 in
    let* _ := dyco_coroutine_create COFUNC1 id2 in ret tt) ;;;
  let* _ := dyco_schedule_run (epoll_funcs fuel) fuel in
  ret 0.

End program.
End EpollC.

(** ** [src/example/signal.c]

    [foobar], [wait_interrupt] and [main], which creates [wait_interrupt] only;
    [wait_child], which forks, is in none of its calls. *)
Module SignalC.
Section program.
Context {os : OS} {io : IO os} {libc : Libc os} {T : Type} {st : SleepTree T}.
Local Abbreviation world := (@world os T).
Local Abbreviation machine := (@machine os T).

Definition SIGINT : Z := 2.

Fixpoint signal_foobar (fuel : nat) : prog world unit :=
  match fuel with
  | O => PFault FFuel
  | S fuel' =>
      do! say 6 [1000];
      do! dyco_coroutine_sleep 1000;
      do! say 8 [];
      signal_foobar fuel'
  end.

Definition wait_interrupt : prog world unit :=
  let sigmask := Signal.sigaddset Signal.sigemptyset SIGINT in
  let! _ := Signal.dyco_signal_init sigmask in
  do! say 22 [];
  let! (ret, fdsi) := Signal.dyco_signal_wait 3000 in
  let! fdsi := (if ret <? 0
    then do! say 26 []; let! (_, fdsi) := Signal.dyco_signal_wait (-1) in PRet fdsi
    else PRet fdsi) in
  do! pwhen (negb (bool_decide (fdsi = Some SIGINT))) (PFault FExit);
  do! say 31 [];
  do! say 32 [];
  do! dyco_coroutine_sleep 3000;
  do! say 36 [];
  let! _ := Signal.dyco_signal_wait (-1) in
  do! say 40 [];
  do! Signal.dyco_signal_destroy;
  do! say 44 [];
  do! dyco_coroutine_sleep 7000;
  say 48 [].

Definition WAIT_INTERRUPT : Z := 1.

Definition signal_main (fuel : nat) : M machine Z :=
  in_world (let* _ := dyco_coroutine_create WAIT_INTERRUPT NULL in put [87]) ;;;
  let* _ := dyco_schedule_run (fun _ _ => wait_interrupt) fuel in
  in_world (put [89]) ;;;
  ret 0.

End program.
End SignalC.

(** ** [src/example/multithread.c]

    What a thread does from [tfunc] on; [main] starts as many threads as there
    are processors.  A [struct reader_arg] is at two addresses, a [struct
    thread_arg] at three. *)
Module MultithreadC.
Section program.
Context {os : OS} {io : IO os} {libc : Libc os} {srv : Server os} {T : Type} {st : SleepTree T}.
Local Abbreviation world := (@world os T).
Local Abbreviation machine := (@machine os T).
(** The fuel of the wrappers; the address of the array [stack] of [tfunc]. *)
Context (tries : nat) (stack : addr).

Definition arg_fd (rarg : addr) : addr := rarg.
Definition arg_targ (rarg : addr) : addr := rarg + 8.
Definition targ_port (targ : addr) : addr := targ + 4.
Definition targ_tid (targ : addr) : addr := targ + 8.

Definition MAX_CLIENT_NUM_PERTHEAD : Z := 1000000.

(** The answer goes up to the first zero byte. *)
Fixpoint thread_reader_loop (fuel : nat) (fd tid : Z) : prog world unit :=
  match fuel with
  | O => PFault FFuel
  | S fuel' =>
      let! (ret, bytes) := dyco_recv fd 1024 0 in
      let buf := fill (replicate 1024 0) bytes in
      if 0 <? ret then
        do! pwhen (MAX_CLIENT_NUM_PERTHEAD <? fd) (PFault FExit);
        do! atomic (put (26 :: tid :: shown ret buf));
        let! ret := dyco_send tries fd (c_str buf) 0 in
        if ret =? -1 then
          let! _ := atomic (dyco_close fd) in atomic (put [31; tid; fd])
        else thread_reader_loop fuel' fd tid
      else if ret =? 0 then
        let! _ := atomic (dyco_close fd) in atomic (put [36; tid; fd])
      else thread_reader_loop fuel' fd tid
  end.

Definition thread_server_reader (fuel : nat) (rarg : addr) : prog world unit :=
  let! fd := atomic (load (arg_fd rarg)) in
  let! targ := atomic (load (arg_targ rarg)) in
  let! tid := atomic (load (targ_tid targ)) in
  do! thread_reader_loop fuel fd tid;
  let! _ := atomic (dyco_close fd) in PRet tt.

Definition SERVER : Z := 1.
Definition SERVER_READER : Z := 2.

Fixpoint thread_server_loop (fuel : nat) (fd args tid : Z) : prog world unit :=
  match fuel with
  | O => PFault FFuel
  | S fuel' =>
      let! (cli_fd, _) := dyco_accept tries fd in
      do! atomic (put [64; tid]);
      let! rarg := atomic (sys (c_malloc 16)) in
      do! atomic (store (arg_fd rarg) cli_fd);
      do! atomic (store (arg_targ rarg) args);
      let! _ := atomic (dyco_coroutine_create SERVER_READER rarg) in
      thread_server_loop fuel' fd args tid
  end.

Definition thread_server (fuel : nat) (args : addr) : prog world unit :=
  let! port := atomic (load (targ_port args)) in
  let! fd := atomic (sys (io_socket AF_INET SOCK_STREAM 0)) in
  do! pwhen (negb (0 <? fd)) (PFault FExit);
  do! atomic (sys (fun k => (tt, c_bind fd port k)));
  do! atomic (sys (fun k => (tt, c_listen fd 100 k)));
  let! tid := atomic (load (targ_tid args)) in
  do! atomic (put [59; tid; port]);
  thread_server_loop fuel fd args tid.

Definition thread_funcs (fuel : nat) (func arg : Z) : prog world unit :=
  if func =? SERVER then thread_server fuel arg else thread_server_reader fuel arg.

(** Without the binding of the thread to a processor. *)
Definition tfunc (fuel : nat) (args : addr) : M machine unit :=
  let* tid := in_world (load (targ_tid args)) in
  in_world (
    let* cid := dyco_coroutine_create SERVER args in
    let* _ := dyco_coroutine_setStack cid stack 4096 in
    put [86; tid]) ;;;
  let* _ := dyco_schedule_run (thread_funcs fuel) fuel in
  in_world (put [88; tid]).

End program.
End MultithreadC.

(** ** [src/example/ssl_server.c] and [src/example/ssl_client.c]

    The coroutines of the connections and the idle ones, without the set-up of
    the SSL library, its certificates and the sockets. *)
Class SSLUse (os : OS) := {
  SSL_new : Z -> kernel -> Z * kernel;
  SSL_set_fd : Z -> Z -> kernel -> kernel;
  SSL_shutdown : Z -> kernel -> kernel;
  SSL_free : Z -> kernel -> kernel;
  SSL_CTX_free : Z -> kernel -> kernel
}.

Module SslServerC.
Section program.
Context {os : OS} {io : IO os} {libc : Libc os} {lib : Ssl.SSLLib os} {use : SSLUse os} {T : Type} {st : SleepTree T}.
Local Abbreviation world := (@world os T).
(** The fuel of the wrappers; the array [buf] before it is written to. *)
Context (tries : nat) (junk : list Z).

Definition hang_up (ssl fd : Z) : M world unit :=
  sys (fun k => (tt, SSL_shutdown ssl k)) ;;;
  let* _ := Hook.close fd in
  sys (fun k => (tt, SSL_free ssl k)).

(** The answer is the whole buffer, whatever has been received. *)
Fixpoint connection_loop (fuel : nat) (ssl fd : Z) (buf : list Z) : prog world unit :=
  match fuel with
  | O => PFault FFuel
  | S fuel' =>
      let! (len, bytes) := Ssl.dyco_SSL_read tries ssl 1024 in
      let buf := fill buf bytes in
      if len <=? 0 then atomic (hang_up ssl fd)
      else
        do! atomic (put (250 :: shown len buf));
        let! len := Ssl.dyco_SSL_write tries ssl buf in
        if len <=? 0 then atomic (hang_up ssl fd)
        else connection_loop fuel' ssl fd buf
  end.

Definition sslconnection (fuel : nat) (ssl : Z) : prog world unit :=
  let! fd := atomic (gets (fun w => Ssl.SSL_get_fd ssl (w_kern w))) in
  let! r := Ssl.dyco_SSL_accept tries ssl in
  if negb (r =? 1) then
    atomic (let* _ := Hook.close fd in sys (fun k => (tt, SSL_free ssl k)))
  else connection_loop fuel ssl fd junk.

Definition SSLCONNECTION : Z := 3.

(** The loop of [sslserver]. *)
Fixpoint ssl_accept_clients (fuel : nat) (ctx listenfd : Z) : prog world unit :=
  match fuel with
  | O => PFault FFuel
  | S fuel' =>
      let! (client, peer) := Hook.accept tries listenfd in
      do! atomic (put [287; default 0 peer]);
      let! ssl := atomic (sys (SSL_new ctx)) in
      do! atomic (sys (fun k => (tt, SSL_set_fd ssl client k)));
      let! _ := atomic (dyco_coroutine_create SSLCONNECTION ssl) in
      ssl_accept_clients fuel' ctx listenfd
  end.

Fixpoint ssl_foo (fuel : nat) : prog world unit :=
  match fuel with
  | O => PFault FFuel
  | S fuel' => do! dyco_coroutine_sleep 400; do! atomic (put [46]); ssl_foo fuel'
  end.

End program.
End SslServerC.

Module SslClientC.
Section program.
Context {os : OS} {io : IO os} {libc : Libc os} {lib : Ssl.SSLLib os} {use : SSLUse os} {T : Type} {st : SleepTree T}.
Local Abbreviation world := (@world os T).
Context (tries : nat) (junk : list Z).

Definition client_hang_up (ctx ssl fd : Z) : M world unit :=
  SslServerC.hang_up ssl fd ;;;
  sys (fun k => (tt, SSL_CTX_free ctx k)).

Fixpoint ssl_client_loop (fuel : nat) (ctx ssl serverfd : Z) (buf : list Z) : prog world unit :=
  match fuel with
  | O => PFault FFuel
  | S fuel' =>
      let! len := Ssl.dyco_SSL_write tries ssl (str "Hello. I'm SSL Client.") in
      if len <=? 0 then atomic (client_hang_up ctx ssl serverfd)
      else
        let! (len, bytes) := Ssl.dyco_SSL_read tries ssl 1024 in
        let buf := fill buf bytes in
        if len <=? 0 then atomic (client_hang_up ctx ssl serverfd)
        else
          do! atomic (put (269 :: shown len buf));
          do! dyco_coroutine_sleep 1000;
          ssl_client_loop fuel' ctx ssl serverfd buf
  end.

(** [sslclient] from [SSL_new] on. *)
Definition sslclient (fuel : nat) (ctx serverfd : Z) : prog world unit :=
  let! ssl := atomic (sys (SSL_new ctx)) in
  do! atomic (sys (fun k => (tt, SSL_set_fd ssl serverfd k)));
  let! ret := Ssl.dyco_SSL_connect tries ssl in
  do! atomic (put [240; ret]);
  if negb (ret =? 1) then
    atomic (let* _ := Hook.close serverfd in
      sys (fun k => (tt, SSL_free ssl k)) ;;; sys (fun k => (tt, SSL_CTX_free ctx k)))
  else
    do! atomic (put [248]);
    ssl_client_loop fuel ctx ssl serverfd junk.

End program.
End SslClientC.

(** * Properties *)

(** What has been received on a connection; receiving and printing are no
    sending. *)
Class ConnLaws (os : OS) {io : IO os} {iol : IOLaws os} {libc : Libc os} := {
  io_got : kernel -> Z -> list Z;
  recv_gives fd len flags k : 0 <= len -> let '((r, bytes), k') := io_recv fd len flags k in
    -1 <= r <= len /\ length bytes = Z.to_nat r /\ io_got k' fd = io_got k fd ++ bytes /\ io_sent k' fd = io_sent k fd;
  send_got fd buf flags k : io_got (io_send fd buf flags k).2 fd = io_got k fd;
  close_conn fd k : io_got (os_close fd k).2 fd = io_got k fd /\ io_sent (os_close fd k).2 fd = io_sent k fd;
  printf_conn l fd k : io_got (c_printf l k) fd = io_got k fd /\ io_sent (c_printf l k) fd = io_sent k fd;
  free_conn p fd k : io_got (c_free p k) fd = io_got k fd /\ io_sent (c_free p k) fd = io_sent k fd;
  got_quiet fd l :: Quiet (fun k => io_got k fd = l)
}.

Section echo.
Context {os : OS} {io : IO os} {iol : IOLaws os} {libc : Libc os} {conn : ConnLaws os} {srv : Server os}.
Context {T : Type} {st : SleepTree T} {stl : SleepTreeLaws T}.
Local Abbreviation world := (@world os T).
Implicit Types (w : world).
Import SocketServerC.

Definition got_on (fd : Z) w : list Z := io_got (w_kern w) fd.

(** From [w] on, [l] has been received on [fd], and sent back. *)
Definition echoed (fd : Z) (got sent : list Z) (k : kernel) : Prop :=
  exists l, io_got k fd = got ++ l /\ io_sent k fd = sent ++ l.

(** While the connection takes what is sent: *)
Context (fd : Z) (K : kernel -> Prop) `{!Quiet K} (R : world -> world -> Prop).
Hypothesis takes : forall b k, K k -> b <> [] -> 0 < (io_send fd b 0 k).1 /\ K (io_send fd b 0 k).2.
Hypothesis steady : forall k, K k ->
  (forall len, K (io_recv fd len 0 k).2) /\ (forall l, K (c_printf l k)) /\ (forall p, K (c_free p k)).
Hypothesis alone : forall w1 w2, R w1 w2 ->
  got_on fd w2 = got_on fd w1 /\ sent_on fd w2 = sent_on fd w1 /\ (K (w_kern w1) -> K (w_kern w2)).

(** [g] has been received and [s] sent. *)
Definition ledger (g s : list Z) (k : kernel) : Prop := K k /\ (io_got k fd = g /\ io_sent k fd = s).

Lemma ledger_wait g s ev timeout w :
  ledger g s (w_kern w) -> wp R any_fault (waitev fd ev timeout) (fun _ w' => ledger g s (w_kern w')) w.
Proof.
  intros Hl. apply (waitev_quiet (ledger g s)); [|done]. intros w1 w2 (H1 & H2 & H3)%alone (HK & Hg & Hs).
  unfold got_on, sent_on in *. unfold kept, ledger. split; [auto|]. by rewrite H1, H2.
Qed.

(** A call of [dyco_recv] passes on what it has received. *)
Lemma ledger_recv len g s w :
  0 <= len < 2 ^ 31 -> ledger g s (w_kern w) ->
  wp R any_fault (dyco_recv fd len 0) (fun r w' => -1 <= r.1 <= len /\ length r.2 = Z.to_nat r.1 /\
    ledger (g ++ r.2) s (w_kern w')) w.
Proof.
  intros Hlen Hl. unfold dyco_recv. apply wp_bind. eapply wp_mono; [|by apply ledger_wait].
  intros _ w1 (HK & Hg & Hs). apply wp_bind, wp_atomic. unfold sys.
  pose proof (recv_gives fd len 0 (w_kern w1) ltac:(lia)) as Hr. pose proof (proj1 (steady _ HK) len) as HK1.
  destruct (io_recv fd len 0 (w_kern w1)) as [[r bytes] k]. destruct Hr as (Hr & Hb & Hg1 & Hs1). simpl.
  assert (Hi : i32 r = r) by (apply i32_small; unfold is_i32; lia). rewrite Hi.
  split; [done|]. split; [done|]. split; [done|]. split; congruence.
Qed.

Lemma ledger_send tries bytes g s w :
  bytes <> [] -> Z.of_nat (length bytes) < 2 ^ 31 -> (length bytes < tries)%nat -> ledger g s (w_kern w) ->
  wp R any_fault (dyco_send tries fd bytes 0)
    (fun r w' => r = Z.of_nat (length bytes) /\ ledger g (s ++ bytes) (w_kern w')) w.
Proof.
  intros Hne Hlen Htr (HK & Hg & Hs).
  eapply wp_mono; [|apply (send_whole fd bytes 0 s R any_fault (fun k => K k /\ io_got k fd = g) (fun _ => True)); try done].
  - by intros r w' [-> [[[HK' Hg'] Hs'] _]].
  - intros n w1 [[[HK1 Hg1] Hs1] _]. eapply wp_mono; [|by apply (ledger_wait g (s ++ take n bytes))].
    by intros _ w2 (HK2 & Hg2 & Hs2).
  - intros b k [HK1 Hg1] Hb. destruct (takes b k HK1 Hb) as [H1 H2]. split_and!; [done|done|]. by rewrite send_got.
Qed.

Lemma reader_loop_echoes tries fuel g s w :
  (1024 < tries)%nat -> ledger g s (w_kern w) ->
  wp R any_fault (server_reader_loop tries fuel fd) (fun _ w' => echoed fd g s (w_kern w')) w.
Proof.
  intros Htr. revert g s w. induction fuel as [|fuel IH]; intros g s w Hl; [done|]. cbn [server_reader_loop].
  apply wp_bind. eapply wp_mono; [|by apply (ledger_recv 1024)]. intros [r bytes] w1 (Hr & Hb & Hl1). cbn [fst snd] in *.
  destruct (Z.ltb_spec 0 r) as [Hpos|Hneg].
  - apply wp_bind. destruct (_ <? fd); [done|]. cbn [pwhen wp]. apply wp_bind, wp_atomic.
    unfold put, sys. set (out := c_printf _ _). assert (Hl2 : ledger (g ++ bytes) s out).
    { destruct Hl1 as (HK & Hg & Hs). unfold out. destruct (printf_conn (20 :: shown r (fill (replicate 1024 0) bytes)) fd (w_kern w1)).
      split; [by apply steady|]. by split; congruence. }
    assert (Ht : take (Z.to_nat r) (fill (replicate 1024 0) bytes) = bytes) by (unfold fill; rewrite <- Hb; apply take_app_length).
    rewrite Ht. apply wp_bind. eapply wp_mono; [|apply ledger_send; [..|exact Hl2]].
    + intros r2 w2 (-> & Hl3). destruct (Z.eqb_spec (Z.of_nat (length bytes)) (-1)); [lia|].
      eapply wp_mono; [|by apply IH]. intros _ w3 (l & Hg & Hs). exists (bytes ++ l). by rewrite !app_assoc.
    + intros ->. simpl in Hb. lia.
    + lia.
    + lia.
  - assert (E : bytes = []) by (destruct bytes; [done|simpl in Hb; lia]). rewrite E, app_nil_r in Hl1.
    destruct (Z.eqb_spec r 0); [|by apply IH]. destruct Hl1 as (HK & Hg & Hs). apply wp_bind, wp_atomic.
    unfold dyco_close, sys. pose proof (close_conn fd (w_kern w1)) as [H1 H2]. destruct (os_close fd (w_kern w1)) as [r2 k]. cbn [snd] in H1, H2.
    apply wp_atomic. unfold put, sys. destruct (printf_conn [30; fd] fd k) as [H3 H4]. exists []. simpl. rewrite !app_nil_r. by split; congruence.
Qed.

End echo.

(** C35. The reader of [src/example/socket_server.c] echoes: while every call of
    [send] on its connection takes at least one byte (the connection is in a
    state of [K]), and as long as no other coroutine receives or sends on this
    connection or takes it out of [K], what the reader has sent on it when it
    returns is exactly what it has received from it, byte by byte and in order. *)
Theorem server_reader_echoes {os : OS} {io : IO os} {iol : IOLaws os} {libc : Libc os} {conn : ConnLaws os}
    {T : Type} {st : SleepTree T} (K : kernel -> Prop) `{!Quiet K} (R : @world os T -> @world os T -> Prop) tries fuel arg w :
  let fd := c_load arg (w_kern w) in
  (forall b k, K k -> b <> [] -> 0 < (io_send fd b 0 k).1 /\ K (io_send fd b 0 k).2) ->
  (forall k, K k -> (forall len, K (io_recv fd len 0 k).2) /\ (forall l, K (c_printf l k)) /\ (forall p, K (c_free p k))) ->
  (forall w1 w2, R w1 w2 ->
    got_on fd w2 = got_on fd w1 /\ sent_on fd w2 = sent_on fd w1 /\ (K (w_kern w1) -> K (w_kern w2))) ->
  (1024 < tries)%nat -> K (w_kern w) ->
  wp R any_fault (SocketServerC.server_reader tries fuel arg)
    (fun _ w' => echoed fd (got_on fd w) (sent_on fd w) (w_kern w')) w.
Proof.
  intros fd Htakes Hsteady Halone Htr HK. unfold SocketServerC.server_reader. apply wp_bind, wp_atomic. cbn [load gets].
  fold fd. apply wp_bind, wp_atomic. unfold sys. apply wp_bind, wp_atomic. unfold put, sys. cbn [w_kern set_w_kern].
  apply wp_bind. eapply wp_mono; [|apply (reader_loop_echoes fd K R Htakes Hsteady Halone tries fuel (got_on fd w) (sent_on fd w)); [done|]].
  - intros _ w1 (l & Hg & Hs). apply wp_bind, wp_atomic. unfold dyco_close, sys.
    destruct (close_conn fd (w_kern w1)) as [H1 H2]. destruct (os_close fd (w_kern w1)) as [r2 k]. cbn [snd] in H1, H2.
    exists l. by split; simpl; congruence.
  - destruct (free_conn arg fd (w_kern w)) as [H1 H2]. destruct (printf_conn [13] fd (c_free arg (w_kern w))) as [H3 H4].
    simpl. split; [by apply Hsteady, Hsteady|]. unfold got_on, sent_on. by split; congruence.
Qed.

(** ** A connection of the simulated system

    The output is dropped. *)
Definition sim_libc : Libc sim := {|
  c_printf _ k := k : @kernel sim;
  c_malloc size k := (sat_top k, sat_store (sat_top k + size) 0 k : @kernel sim);
  c_free _ k := k;
  c_load := sat_load : Z -> @kernel sim -> Z;
  c_store := sat_store : Z -> Z -> @kernel sim -> @kernel sim;
  c_rand k := (7, k);
  c_sleep s k := set_clock (k_clock k + s * 1000000000) k
|}.

Definition sim_conn : ConnLaws sim (libc := sim_libc).
Proof.
  refine {| io_got (k : @kernel sim) fd := sim_sent k (-1 - fd) |}; try done.
  - intros fd len flags k Hlen. simpl. unfold sim_recv. destruct (n_inbox (k_net k) !! fd) as [l|].
    + split; [rewrite length_take; lia|]. split; [lia|]. unfold sim_sent at 1 4. simpl.
      rewrite lookup_insert_eq, lookup_insert_ne by lia. done.
    + split; [lia|]. split; [done|]. by rewrite app_nil_r.
  - intros fd buf flags k. simpl. unfold sim_send. destruct (n_room (k_net k) <=? 0); [done|].
    unfold sim_sent at 1. simpl. by rewrite lookup_insert_ne by lia.
  - intros fd l. split; try done; intros; simpl; by repeat case_match.
Defined.

(** The coroutine 64 reads from descriptor 7, whose number is at the address
    2000, six bytes and then the end; 2 bytes are taken by a call of [send]. *)
Definition ex_peer : @world sim (gmap Z addr) :=
  set_w_kern (mk_kernel 1000000000 10 {[7 := 1]} ∅
    (mk_net {[7]} {[7]} ∅ {[7 := [1; 2; 3; 0; 5; 6]; 2000 := [7]]} 4 0 0) : @kernel sim) ex_blk.

Lemma server_reader_echoes_witness :
  wp time_passes any_fault (SocketServerC.server_reader (libc := sim_libc) 1025 3 2000)
    (fun _ w' => echoed (conn := sim_conn) 7 [] [] (w_kern w')) ex_peer /\
  match exec (SocketServerC.server_reader (libc := sim_libc) 1025 3 2000) ex_peer with
  | (SDone _, w') => sent_on 7 w' = [1; 2; 3; 0; 5; 6]
  | _ => False
  end.
Proof.
  split.
  - refine (server_reader_echoes (libc := sim_libc) (conn := sim_conn) has_room time_passes 1025 3 2000 ex_peer _ _ _ _ _).
    + intros b k Hk Hb. unfold has_room in *. simpl. unfold sim_send. rewrite Hk. simpl.
      split; [|done]. destruct b; [done|]. simpl. lia.
    + intros k Hk. split_and!; [|done|done]. intros len. unfold has_room in *. simpl. unfold sim_recv. by case_match.
    + by intros w1 w2 [c ->].
    + lia.
    + done.
  - by vm_compute.
Defined.

(** Two connections are accepted before their readers run: both find the second
    one in the variable they share. *)
Example network_readers_share :
  let w := (exec (NetworkC.tcp_loop (libc := sim_libc) 1 2000 2 7) ex_peer).2 in
  (n_open (k_net (w_kern w)) = {[7; 10; 11]}) /\ sat_load 2000 (w_kern w) = 11 /\
  co_arg <$> w_coros w !! 80 = Some 2000 /\ co_arg <$> w_coros w !! 96 = Some 2000.
Proof. by vm_compute. Qed.

(** The answers of [src/example/multithread.c] stop at a zero byte. *)
Example multithread_echo_cuts :
  match exec (MultithreadC.thread_reader_loop (libc := sim_libc) 1025 3 7 1) ex_peer with
  | (SDone _, w') => sent_on 7 w' = [1; 2; 3]
  | _ => False
  end.
Proof. by vm_compute. Qed.
